(** * NetworkPacketScheduler: FCFS and WFQ discrete-event simulators

    A shallow embedding of [fcfs_simulator.cpp] and [wfq_simulator.cpp].

    Modelling conventions.
    - In [FCFS] and [WFQ], [double] values (times, rates, weights, byte
      totals) are exact rationals [Q]: an expression of the program is the
      same expression over [Q], without rounding, overflow or NaN.
      [a / 0] is [0] in [Q], so statements that divide assume a non-zero
      divisor where it matters.
    - [WFQ64] is the WFQ simulator over IEEE 754 binary64 numbers
      (Rocq's primitive floats); the runs whose outcome depends on
      rounding are evaluated with it.
    - [int] and [long] values are unbounded [Z]; source indices, used only
      to index the [sources] and [stats] vectors, are [nat].
    - [std::priority_queue] is an interface with laws ([MinPQ]); which of
      several minimal elements [top] returns is left to the implementation.
      [ListPQ] is one executable implementation.
    - [std::default_random_engine] together with the two distributions is
      an interface [RandomEngine]; [ScriptedEngine] replays a fixed tape.
    - Undefined behaviour ([top] of an empty queue, a vector index out of
      range) is an explicit [Undefined] result.
    - The simulator state carries one history variable, [history], that
      records what the handlers did.  No handler reads it. *)

From Stdlib Require Import QArith Qminmax Lqa ZArith Lia List Permutation Sorted Bool Ascii String.
From Stdlib Require PrimFloat Uint63 FloatOps.
From stdpp Require Import base list.

Open Scope Q_scope.

(** ** Results of code that may run into undefined behaviour *)

Inductive ub : Type :=
  | TopOfEmptyQueue      (* priority_queue::top() on an empty queue *)
  | IndexOutOfRange.     (* vector::operator[] past the end *)

Inductive result (A : Type) : Type :=
  | Ok (a : A)
  | Undefined (why : ub).
Arguments Ok {A} a.
Arguments Undefined {A} why.

#[export] Instance result_ret : MRet result := fun A a => Ok a.
#[export] Instance result_bind : MBind result := fun A B f m =>
  match m with
  | Ok a => f a
  | Undefined w => Undefined w
  end.

Definition at_index {A} (l : list A) (i : nat) : result A :=
  match l !! i with
  | Some a => Ok a
  | None => Undefined IndexOutOfRange
  end.

(** [v[i] = f(v[i])] on a vector. *)
Definition modify_at {A} (f : A -> A) (i : nat) (l : list A) : result (list A) :=
  match l !! i with
  | Some _ => Ok (alter f i l)
  | None => Undefined IndexOutOfRange
  end.

(** ** Comparisons on [double] *)

Definition Qltb (a b : Q) : bool := negb (Qle_bool b a).

(** [std::max(a, b)] is [(a < b) ? b : a]. *)
Definition fmax (a b : Q) : Q := if Qltb a b then b else a.

(** ** Counting *)

Fixpoint count {A} (f : A -> bool) (l : list A) : nat :=
  match l with
  | [] => 0
  | x :: l' => (if f x then 1 else 0) + count f l'
  end.

Fixpoint Qsum (l : list Q) : Q :=
  match l with
  | [] => 0
  | x :: l' => x + Qsum l'
  end.

(** ** std::priority_queue<A, vector<A>, greater<A>> *)

Record MinPQ (A : Type) (key : A -> Q) : Type := {
  pq_t : Type;
  pq_new : pq_t;
  pq_push : A -> pq_t -> pq_t;
  pq_top : pq_t -> option A;          (* [None]: the queue is empty *)
  pq_pop : pq_t -> pq_t;
  pq_elems : pq_t -> list A;          (* the elements held *)
  pq_new_elems : pq_elems pq_new = [];
  pq_push_elems : forall x q, Permutation (pq_elems (pq_push x q)) (x :: pq_elems q);
  pq_top_none : forall q, pq_top q = None <-> pq_elems q = [];
  pq_top_pop : forall q x, pq_top q = Some x ->
      Permutation (pq_elems q) (x :: pq_elems (pq_pop q));
  pq_top_min : forall q x, pq_top q = Some x ->
      Forall (fun y => key x <= key y) (pq_elems q);
}.
Arguments pq_t {A key} _.
Arguments pq_new {A key} _.
Arguments pq_push {A key} _ _ _.
Arguments pq_top {A key} _ _.
Arguments pq_pop {A key} _ _.
Arguments pq_elems {A key} _ _.
Arguments pq_new_elems {A key} _.
Arguments pq_push_elems {A key} _ _ _.
Arguments pq_top_none {A key} _ _.
Arguments pq_top_pop {A key} _ _ _ _.
Arguments pq_top_min {A key} _ _ _ _.

Definition pq_size {A key} (P : MinPQ A key) (q : pq_t P) : nat :=
  length (pq_elems P q).

Definition pq_is_empty {A key} (P : MinPQ A key) (q : pq_t P) : bool :=
  Nat.eqb (pq_size P q) 0.

(** [top()] where the code does not check for emptiness first. *)
Definition pq_top_ub {A key} (P : MinPQ A key) (q : pq_t P) : result A :=
  match pq_top P q with
  | Some x => Ok x
  | None => Undefined TopOfEmptyQueue
  end.

(** Two queues over different element types run the same algorithm: on
    related contents they make the same choices. *)
Record PQSim {A B : Type} {keyA : A -> Q} {keyB : B -> Q}
    (PA : MinPQ A keyA) (PB : MinPQ B keyB) (R : A -> B -> Prop) : Type := {
  pq_sim : pq_t PA -> pq_t PB -> Prop;
  pq_sim_new : pq_sim (pq_new PA) (pq_new PB);
  pq_sim_push : forall a b qa qb, R a b -> pq_sim qa qb ->
      pq_sim (pq_push PA a qa) (pq_push PB b qb);
  pq_sim_pop : forall qa qb, pq_sim qa qb -> pq_sim (pq_pop PA qa) (pq_pop PB qb);
  pq_sim_top : forall qa qb, pq_sim qa qb ->
      option_Forall2 R (pq_top PA qa) (pq_top PB qb);
  pq_sim_elems : forall qa qb, pq_sim qa qb ->
      Forall2 R (pq_elems PA qa) (pq_elems PB qb);
}.
Arguments pq_sim {A B keyA keyB PA PB R} _ _ _.
Arguments pq_sim_new {A B keyA keyB PA PB R} _.
Arguments pq_sim_push {A B keyA keyB PA PB R} _ _ _ _ _ _ _.
Arguments pq_sim_pop {A B keyA keyB PA PB R} _ _ _ _.
Arguments pq_sim_top {A B keyA keyB PA PB R} _ _ _ _.
Arguments pq_sim_elems {A B keyA keyB PA PB R} _ _ _ _.

(** *** An executable queue: a list in insertion order

    [top] selects the first element of minimal key, so elements of equal
    key leave in insertion order. *)

Section ListPQ.
Context {A : Type} (key : A -> Q).

Fixpoint extract_min (l : list A) : option (A * list A) :=
  match l with
  | [] => None
  | x :: l' =>
      match extract_min l' with
      | None => Some (x, [])
      | Some (m, r) => if Qltb (key m) (key x) then Some (m, x :: r) else Some (x, l')
      end
  end.

Definition list_top (l : list A) : option A := fst <$> extract_min l.
Definition list_pop (l : list A) : list A :=
  match extract_min l with
  | Some (_, r) => r
  | None => []
  end.

End ListPQ.

(** ** std::default_random_engine and the two distributions

    [exponential_draw rate g] is [std::exponential_distribution<double>(rate)]
    applied to the engine in state [g]; [uniform_int_draw a b g] is
    [std::uniform_int_distribution<int>(a, b)] applied to it.  Both return
    the value drawn and the engine's next state. *)

Record RandomEngine : Type := {
  engine : Type;
  default_engine : engine;
  exponential_draw : Q -> engine -> Q * engine;
  uniform_int_draw : Z -> Z -> engine -> Z * engine;
}.

(** What the C++ standard promises about the values drawn. *)
Record RandomEngineLaws (G : RandomEngine) : Prop := {
  exponential_nonneg : forall rate g, 0 <= fst (exponential_draw G rate g);
  uniform_int_range : forall a b g, (a <= b)%Z ->
      (a <= fst (uniform_int_draw G a b g) <= b)%Z;
}.

(** An engine that replays a tape of integers: an interarrival draw is the
    next entry, in milliseconds; a size draw is the next entry reduced into
    [[a, b]].  An exhausted tape keeps drawing 1 second and [a]. *)
Definition ScriptedEngine (tape : list Z) : RandomEngine := {|
  engine := list Z;
  default_engine := tape;
  exponential_draw := fun _ g =>
    match g with
    | [] => (1, [])
    | z :: g' => (inject_Z (Z.abs z) / 1000, g')
    end;
  uniform_int_draw := fun a b g =>
    match g with
    | [] => (a, [])
    | z :: g' => ((a + z mod (b - a + 1))%Z, g')
    end;
|}.

(** ** Formatted extraction from a line of the configuration file

    [ss >> numSources >> simulationTime >> linkCapacity >> bufferSize] and
    [ss_src >> rate >> minSz >> maxSz >> weight >> tb_frac >> te_frac]: the
    code never tests the stream afterwards, so each is a total function
    from the line to the values left in the variables. *)

Record Extractor : Type := {
  extract_header : string -> Z * Q * Q * nat;
  extract_source : string -> Q * Z * Z * Q * Q * Q;
}.

(** An executable extractor for lines of blank-separated decimal fields
    ([-12], [0.25]).  A stream is the text left to read, or [None] once an
    extraction has failed; a failed extraction stores 0 and every later one
    leaves its variable as it was, which is 0 for the members read from the
    header and is taken to be 0 for the uninitialised locals of a source
    line. *)

Definition digit_of (c : Ascii.ascii) : option Z :=
  let n := (Z.of_nat (Ascii.nat_of_ascii c) - 48)%Z in
  if ((0 <=? n) && (n <=? 9))%Z then Some n else None.

Fixpoint skip_blanks (s : string) : string :=
  match s with
  | String c s' => if Ascii.eqb c " "%char then skip_blanks s' else s
  | EmptyString => s
  end.

(** Leading digits of [s]: their value after [acc], how many, the rest. *)
Fixpoint read_digits (s : string) (acc : Z) (n : nat) : Z * nat * string :=
  match s with
  | String c s' =>
      match digit_of c with
      | Some d => read_digits s' (10 * acc + d)%Z (S n)
      | None => (acc, n, s)
      end
  | EmptyString => (acc, n, s)
  end.

Definition read_sign (s : string) : bool * string :=
  match s with
  | String c s' => if Ascii.eqb c "-"%char then (true, s') else (false, s)
  | EmptyString => (false, s)
  end.

Definition extract_Z (st : option string) : Z * option string :=
  match st with
  | None => (0%Z, None)
  | Some s =>
      let '(neg, s1) := read_sign (skip_blanks s) in
      let '(v, n, s2) := read_digits s1 0 0 in
      match n with
      | O => (0%Z, None)
      | _ => (if neg then (- v)%Z else v, Some s2)
      end
  end.

Definition extract_Q (st : option string) : Q * option string :=
  match st with
  | None => (0, None)
  | Some s =>
      let '(neg, s1) := read_sign (skip_blanks s) in
      let '(v, n, s2) := read_digits s1 0 0 in
      let '(num, k, s3) :=
        match s2 with
        | String c s' => if Ascii.eqb c "."%char then read_digits s' v 0 else (v, O, s2)
        | EmptyString => (v, O, s2)
        end in
      match (n + k)%nat with
      | O => (0, None)
      | _ => let q := inject_Z num / inject_Z (10 ^ Z.of_nat k) in
             (if neg then - q else q, Some s3)
      end
  end.

Definition DecimalExtractor : Extractor := {|
  extract_header := fun line =>
    let '(n, st) := extract_Z (Some line) in
    let '(T, st) := extract_Q st in
    let '(C, st) := extract_Q st in
    let '(B, st) := extract_Z st in
    (n, T, C, Z.to_nat B);
  extract_source := fun line =>
    let '(rate, st) := extract_Q (Some line) in
    let '(minSz, st) := extract_Z st in
    let '(maxSz, st) := extract_Z st in
    let '(w, st) := extract_Q st in
    let '(tb, st) := extract_Q st in
    let '(te, st) := extract_Q st in
    (rate, minSz, maxSz, w, tb, te);
|}.

(** What [main] catches and reports as "Fatal Error". *)
Inductive exn : Type :=
  | CouldNotOpenInputFile
  | EmptyConfigFile
  | MissingSourceConfigurations
  | LengthError.                (* stats.resize(numSources), numSources < 0 *)

(** ** SourceStats (the same struct in both files) *)

Record SourceStats : Type := {
  packetsGenerated : Z;
  packetsTransmitted : Z;
  packetsDropped : Z;
  bytesTransmitted : Q;
  totalDelay : Q;
}.

Definition SourceStats_init : SourceStats :=
  {| packetsGenerated := 0; packetsTransmitted := 0; packetsDropped := 0;
     bytesTransmitted := 0; totalDelay := 0 |}.

Definition incr_generated (r : SourceStats) : SourceStats :=
  {| packetsGenerated := packetsGenerated r + 1;
     packetsTransmitted := packetsTransmitted r;
     packetsDropped := packetsDropped r;
     bytesTransmitted := bytesTransmitted r;
     totalDelay := totalDelay r |}.

Definition incr_dropped (r : SourceStats) : SourceStats :=
  {| packetsGenerated := packetsGenerated r;
     packetsTransmitted := packetsTransmitted r;
     packetsDropped := packetsDropped r + 1;
     bytesTransmitted := bytesTransmitted r;
     totalDelay := totalDelay r |}.

(** [bytesTransmitted += size; packetsTransmitted++; totalDelay += delay]. *)
Definition record_departure (size : Z) (delay : Q) (r : SourceStats) : SourceStats :=
  {| packetsGenerated := packetsGenerated r;
     packetsTransmitted := packetsTransmitted r + 1;
     packetsDropped := packetsDropped r;
     bytesTransmitted := bytesTransmitted r + inject_Z size;
     totalDelay := totalDelay r + delay |}.

(** The headline metrics of [printResults]. *)
Record Metrics : Type := {
  util : Q;
  avgDelay : Q;
  dropProb : Q;
  fairness : Q;
}.

(** One line of the per-source table that the second loop of
    [printResults] prints, before formatting. *)
Record Row : Type := {
  row_weight : Q;
  row_generated : Z;
  row_transmitted : Z;
  row_dropped : Z;
  dropRate : Q;
  sDelay : Q;
  thruput : Q;
}.

Definition row_of (simulationTime weight : Q) (r : SourceStats) : Row :=
  {| row_weight := weight;
     row_generated := packetsGenerated r;
     row_transmitted := packetsTransmitted r;
     row_dropped := packetsDropped r;
     dropRate := if (0 <? packetsGenerated r)%Z
                 then inject_Z (packetsDropped r) / inject_Z (packetsGenerated r)
                 else 0;
     sDelay := if (0 <? packetsTransmitted r)%Z
               then totalDelay r / inject_Z (packetsTransmitted r) else 0;
     thruput := bytesTransmitted r / simulationTime |}.

Fixpoint Zsum (l : list Z) : Z :=
  match l with
  | [] => 0%Z
  | x :: l' => (x + Zsum l')%Z
  end.

(** The accumulators of the first loop of [printResults]. *)
Record Totals : Type := {
  totGen : Z;
  totTrans : Z;
  totDrop : Z;
  totBytes : Q;
  totDelay : Q;
  sum_x : Q;
  sum_x_sq : Q;
}.

Definition Totals_init : Totals :=
  {| totGen := 0; totTrans := 0; totDrop := 0; totBytes := 0; totDelay := 0;
     sum_x := 0; sum_x_sq := 0 |}.

(** One iteration of that loop, for the source whose [x_i] is [x]. *)
Definition accumulate (x : Q) (r : SourceStats) (t : Totals) : Totals :=
  {| totGen := totGen t + packetsGenerated r;
     totTrans := totTrans t + packetsTransmitted r;
     totDrop := totDrop t + packetsDropped r;
     totBytes := totBytes t + bytesTransmitted r;
     totDelay := totDelay t + totalDelay r;
     sum_x := sum_x t + x;
     sum_x_sq := sum_x_sq t + x * x |}.

(** The four metrics computed after the loop. *)
Definition metrics_of (numSources : Z) (linkCapacity simulationTime : Q)
    (t : Totals) : Metrics :=
  {| util := (totBytes t / linkCapacity) / simulationTime;
     avgDelay := if (0 <? totTrans t)%Z then totDelay t / inject_Z (totTrans t) else 0;
     dropProb := if (0 <? totGen t)%Z
                 then inject_Z (totDrop t) / inject_Z (totGen t) else 0;
     fairness := if Qltb 0 (sum_x_sq t)
                 then (sum_x t * sum_x t) / (inject_Z numSources * sum_x_sq t)
                 else 0 |}.


(** ** Jain's index over exact rationals *)

Definition sqr (x : Q) : Q := x * x.

(** The sum of squared distances to [c]. *)
Definition dev (c : Q) (l : list Q) : Q := Qsum (map (fun y => sqr (y - c)) l).

Definition all_equal (l : list Q) : Prop :=
  forall x y, x ∈ l -> y ∈ l -> x == y.

Definition Qlen (l : list Q) : Q := inject_Z (Z.of_nat (length l)).

(** [n * sum of squares - square of the sum], which Cauchy-Schwarz bounds. *)
Definition spread (l : list Q) : Q :=
  Qlen l * Qsum (map sqr l) - sqr (Qsum l).

(** Jain's index of the values [l], computed without rounding. *)
Definition jain (l : list Q) : Q :=
  (Qsum l * Qsum l) / (Qlen l * Qsum (map sqr l)).
(** * fcfs_simulator.cpp *)

Module FCFS.

Record Packet : Type := {
  pkt_id : Z;
  pkt_sourceID : nat;
  pkt_size : Z;
  pkt_arrivalTime : Q;
}.

(** The struct [Event] has two constructors, one per [Type]; an arrival
    never has its [packet] read, so the two shapes are two constructors
    here, named after the enumerators. *)
Inductive Event : Type :=
  | PACKET_ARRIVAL (time : Q) (sourceID : nat)
  | PACKET_DEPARTURE (time : Q) (packet : Packet).

Definition ev_time (e : Event) : Q :=
  match e with
  | PACKET_ARRIVAL t _ => t
  | PACKET_DEPARTURE t _ => t
  end.

Definition ev_sourceID (e : Event) : nat :=
  match e with
  | PACKET_ARRIVAL _ s => s
  | PACKET_DEPARTURE _ p => pkt_sourceID p
  end.

Record Source : Type := {
  src_id : nat;
  packetRate : Q;
  minSize : Z;
  maxSize : Z;
  weight : Q;
  startTime : Q;
  endTime : Q;
}.

(** What the history variable records. *)
Inductive Obs : Type :=
  | Started (p : Packet) (now : Q)      (* startNextTransmission took p *)
  | Departed (p : Packet) (now : Q)     (* handleDepartureEvent counted p *)
  | Dropped (p : Packet)                (* the arriving p was not buffered *)
  | Discarded (e : Event).              (* scheduleEvent did not push e *)

Section Simulator.
Context (EQ : MinPQ Event ev_time) (G : RandomEngine).

Record State : Type := {
  numSources : Z;
  simulationTime : Q;
  linkCapacity : Q;
  bufferSize : nat;
  currentTime : Q;
  linkBusy : bool;
  nextPacketId : Z;
  sources : list Source;
  stats : list SourceStats;
  packetBuffer : list Packet;          (* std::queue: front is the head *)
  eventQueue : pq_t EQ;
  generator : engine G;
  history : list Obs;                  (* most recent first *)
}.

Definition set_currentTime (t : Q) (st : State) : State :=
  {| numSources := numSources st; simulationTime := simulationTime st;
     linkCapacity := linkCapacity st; bufferSize := bufferSize st;
     currentTime := t; linkBusy := linkBusy st;
     nextPacketId := nextPacketId st; sources := sources st; stats := stats st;
     packetBuffer := packetBuffer st; eventQueue := eventQueue st;
     generator := generator st; history := history st |}.

Definition set_linkBusy (b : bool) (st : State) : State :=
  {| numSources := numSources st; simulationTime := simulationTime st;
     linkCapacity := linkCapacity st; bufferSize := bufferSize st;
     currentTime := currentTime st; linkBusy := b;
     nextPacketId := nextPacketId st; sources := sources st; stats := stats st;
     packetBuffer := packetBuffer st; eventQueue := eventQueue st;
     generator := generator st; history := history st |}.

Definition set_nextPacketId (n : Z) (st : State) : State :=
  {| numSources := numSources st; simulationTime := simulationTime st;
     linkCapacity := linkCapacity st; bufferSize := bufferSize st;
     currentTime := currentTime st; linkBusy := linkBusy st;
     nextPacketId := n; sources := sources st; stats := stats st;
     packetBuffer := packetBuffer st; eventQueue := eventQueue st;
     generator := generator st; history := history st |}.

Definition set_stats (s : list SourceStats) (st : State) : State :=
  {| numSources := numSources st; simulationTime := simulationTime st;
     linkCapacity := linkCapacity st; bufferSize := bufferSize st;
     currentTime := currentTime st; linkBusy := linkBusy st;
     nextPacketId := nextPacketId st; sources := sources st; stats := s;
     packetBuffer := packetBuffer st; eventQueue := eventQueue st;
     generator := generator st; history := history st |}.

Definition set_packetBuffer (b : list Packet) (st : State) : State :=
  {| numSources := numSources st; simulationTime := simulationTime st;
     linkCapacity := linkCapacity st; bufferSize := bufferSize st;
     currentTime := currentTime st; linkBusy := linkBusy st;
     nextPacketId := nextPacketId st; sources := sources st; stats := stats st;
     packetBuffer := b; eventQueue := eventQueue st;
     generator := generator st; history := history st |}.

Definition set_eventQueue (q : pq_t EQ) (st : State) : State :=
  {| numSources := numSources st; simulationTime := simulationTime st;
     linkCapacity := linkCapacity st; bufferSize := bufferSize st;
     currentTime := currentTime st; linkBusy := linkBusy st;
     nextPacketId := nextPacketId st; sources := sources st; stats := stats st;
     packetBuffer := packetBuffer st; eventQueue := q;
     generator := generator st; history := history st |}.

Definition set_generator (g : engine G) (st : State) : State :=
  {| numSources := numSources st; simulationTime := simulationTime st;
     linkCapacity := linkCapacity st; bufferSize := bufferSize st;
     currentTime := currentTime st; linkBusy := linkBusy st;
     nextPacketId := nextPacketId st; sources := sources st; stats := stats st;
     packetBuffer := packetBuffer st; eventQueue := eventQueue st;
     generator := g; history := history st |}.

Definition observe (o : Obs) (st : State) : State :=
  {| numSources := numSources st; simulationTime := simulationTime st;
     linkCapacity := linkCapacity st; bufferSize := bufferSize st;
     currentTime := currentTime st; linkBusy := linkBusy st;
     nextPacketId := nextPacketId st; sources := sources st; stats := stats st;
     packetBuffer := packetBuffer st; eventQueue := eventQueue st;
     generator := generator st; history := o :: history st |}.

Definition scheduleEvent (e : Event) (st : State) : State :=
  if Qle_bool (ev_time e) (simulationTime st)
  then set_eventQueue (pq_push EQ e (eventQueue st)) st
  else observe (Discarded e) st.

Definition startNextTransmission (st : State) : State :=
  if linkBusy st then st
  else
    match packetBuffer st with
    | [] => st
    | packetToTransmit :: rest =>
        let st := set_linkBusy true st in
        let st := set_packetBuffer rest st in
        let transmissionTime := inject_Z (pkt_size packetToTransmit) / linkCapacity st in
        scheduleEvent
          (PACKET_DEPARTURE (currentTime st + transmissionTime) packetToTransmit)
          (observe (Started packetToTransmit (currentTime st)) st)
    end.

(** [handleArrivalEvent(e)], given [e.sourceID], in the three blocks its
    comments name, followed by [startNextTransmission]. *)

(** Schedule next arrival *)
Definition scheduleNextArrival (srcID : nat) (src : Source) (st : State) : State :=
  let '(dt, g) := exponential_draw G (packetRate src) (generator st) in
  let st := set_generator g st in
  let nextArrivalTime := currentTime st + dt in
  if Qltb nextArrivalTime (endTime src)
  then scheduleEvent (PACKET_ARRIVAL nextArrivalTime srcID) st
  else st.

(** Generate packet *)
Definition generatePacket (srcID : nat) (src : Source) (st : State)
    : result (Packet * State) :=
  let '(sz, g) := uniform_int_draw G (minSize src) (maxSize src) (generator st) in
  let newPacket := {| pkt_id := nextPacketId st; pkt_sourceID := srcID;
                      pkt_size := sz; pkt_arrivalTime := currentTime st |} in
  let st := set_nextPacketId (nextPacketId st + 1) (set_generator g st) in
  stats1 ← modify_at incr_generated srcID (stats st);
  Ok (newPacket, set_stats stats1 st).

(** Buffer or drop (tail-drop) *)
Definition bufferOrDrop (srcID : nat) (newPacket : Packet) (st : State)
    : result State :=
  if (length (packetBuffer st) <? bufferSize st)%nat
  then Ok (set_packetBuffer (packetBuffer st ++ [newPacket]) st)
  else
    stats1 ← modify_at incr_dropped srcID (stats st);
    Ok (observe (Dropped newPacket) (set_stats stats1 st)).

Definition handleArrivalEvent (srcID : nat) (st : State) : result State :=
  src ← at_index (sources st) srcID;
  let st := scheduleNextArrival srcID src st in
  '(newPacket, st) ← generatePacket srcID src st;
  st ← bufferOrDrop srcID newPacket st;
  Ok (startNextTransmission st).

(** [handleDepartureEvent(e)], given [e.packet]. *)
Definition handleDepartureEvent (p : Packet) (st : State) : result State :=
  let st := set_linkBusy false st in
  let srcID := pkt_sourceID p in
  stats1 ← modify_at
    (record_departure (pkt_size p) (currentTime st - pkt_arrivalTime p))
    srcID (stats st);
  let st := observe (Departed p (currentTime st)) (set_stats stats1 st) in
  Ok (startNextTransmission st).

(** The first loop of [run]: prime the event queue. *)
Definition prime (st : State) : State :=
  fold_left
    (fun st src => scheduleEvent (PACKET_ARRIVAL (startTime src) (src_id src)) st)
    (sources st) st.

(** One test of the [while] condition and, when it holds, one iteration.
    [Halted]: the loop was left; [Running]: the iteration completed. *)
Inductive outcome : Type :=
  | Running (st : State)
  | Halted (st : State).

Definition state_of (o : outcome) : State :=
  match o with
  | Running st => st
  | Halted st => st
  end.

Definition step (st : State) : result outcome :=
  if pq_is_empty EQ (eventQueue st) then Ok (Halted st)
  else
    currentEvent ← pq_top_ub EQ (eventQueue st);
    let st := set_eventQueue (pq_pop EQ (eventQueue st)) st in
    let st := set_currentTime (ev_time currentEvent) st in
    if Qltb (simulationTime st) (currentTime st) then Ok (Halted st)
    else
      st ← match currentEvent with
           | PACKET_ARRIVAL _ srcID => handleArrivalEvent srcID st
           | PACKET_DEPARTURE _ p => handleDepartureEvent p st
           end;
      Ok (Running st).

(** At most [fuel] iterations of the [while] loop. *)
Fixpoint loop (fuel : nat) (st : State) : result outcome :=
  match fuel with
  | O => Ok (Running st)
  | S fuel' =>
      o ← step st;
      match o with
      | Running st' => loop fuel' st'
      | Halted st' => Ok (Halted st')
      end
  end.

Definition run (fuel : nat) (st : State) : result outcome :=
  loop fuel (prime st).

(** [printResults]: the first loop and the four headline metrics. *)
Fixpoint sum_loop (st : State) (idx : list nat) (t : Totals) : result Totals :=
  match idx with
  | [] => Ok t
  | i :: rest =>
      r ← at_index (stats st) i;
      let x_i := bytesTransmitted r in
      sum_loop st rest (accumulate x_i r t)
  end.

Definition printResults (st : State) : result Metrics :=
  t ← sum_loop st (seq 0 (Z.to_nat (numSources st))) Totals_init;
  Ok (metrics_of (numSources st) (linkCapacity st) (simulationTime st) t).

(** The loop of [loadConfig] over the source lines, from index [i]. *)
Fixpoint read_sources (X : Extractor) (T : Q) (i n : nat) (lines : list string)
    (acc : list Source) : exn + list Source :=
  match n with
  | O => inr acc
  | S n' =>
      match lines with
      | [] => inl MissingSourceConfigurations
      | line :: rest =>
          let '(rate, minSz, maxSz, w, tb_frac, te_frac) := extract_source X line in
          read_sources X T (S i) n' rest
            (acc ++ [{| src_id := i; packetRate := rate; minSize := minSz;
                        maxSize := maxSz; weight := w;
                        startTime := tb_frac * T; endTime := te_frac * T |}])
      end
  end.

(** [loadConfig]; [file] is [None] when the file cannot be opened, and
    otherwise its lines. *)
Definition loadConfig (X : Extractor) (file : option (list string)) : exn + State :=
  match file with
  | None => inl CouldNotOpenInputFile
  | Some [] => inl EmptyConfigFile
  | Some (line :: rest) =>
      let '(n, T, C, B) := extract_header X line in
      if (n <? 0)%Z then inl LengthError
      else
        match read_sources X T 0 (Z.to_nat n) rest [] with
        | inl e => inl e
        | inr srcs =>
            inr {| numSources := n; simulationTime := T; linkCapacity := C;
                   bufferSize := B; currentTime := 0; linkBusy := false;
                   nextPacketId := 1; sources := srcs;
                   stats := replicate (Z.to_nat n) SourceStats_init;
                   packetBuffer := []; eventQueue := pq_new EQ;
                   generator := default_engine G; history := [] |}
        end
  end.

(** Packets of source [s] in the buffer, in a scheduled departure, and in a
    departure that [scheduleEvent] did not push. *)
Definition from_source (s : nat) (p : Packet) : bool :=
  Nat.eqb (pkt_sourceID p) s.

Definition is_departure (e : Event) : bool :=
  match e with
  | PACKET_DEPARTURE _ _ => true
  | PACKET_ARRIVAL _ _ => false
  end.

Definition departure_from (s : nat) (e : Event) : bool :=
  match e with
  | PACKET_DEPARTURE _ p => from_source s p
  | PACKET_ARRIVAL _ _ => false
  end.

Definition is_lost (o : Obs) : bool :=
  match o with
  | Discarded e => is_departure e
  | _ => false
  end.

Definition lost_from (s : nat) (o : Obs) : bool :=
  match o with
  | Discarded e => departure_from s e
  | _ => false
  end.

Definition buffered (s : nat) (st : State) : nat :=
  count (from_source s) (packetBuffer st).

Definition in_flight (s : nat) (st : State) : nat :=
  count (departure_from s) (pq_elems EQ (eventQueue st)).

Definition lost (s : nat) (st : State) : nat :=
  count (lost_from s) (history st).

(** The [try] block of [main] up to the end of [run]: [inl e] when
    [loadConfig] throws [e], in which case [run] is not called. *)
Definition main (X : Extractor) (file : option (list string)) (fuel : nat)
    : exn + result outcome :=
  match loadConfig X file with
  | inl e => inl e
  | inr st => inr (run fuel st)
  end.

(** The source that the [i]-th source line describes. *)
Definition source_of_line (X : Extractor) (T : Q) (i : nat) (line : string) : Source :=
  let '(rate, minSz, maxSz, w, tb_frac, te_frac) := extract_source X line in
  {| src_id := i; packetRate := rate; minSize := minSz; maxSize := maxSz;
     weight := w; startTime := tb_frac * T; endTime := te_frac * T |}.

(** ** Invariants of the main loop *)

(** The members that only [loadConfig] writes. *)
Definition config_of (st : State) : Z * Q * Q * nat :=
  (numSources st, simulationTime st, linkCapacity st, bufferSize st).

(** The structural invariant of the main loop, over the events [evs] that
    are pending: those in the queue, and the one just popped if any. *)
Record fcfs_inv (evs : list Event) (st : State) : Prop := {
  fi_num : numSources st = Z.of_nat (length (stats st));
  fi_sizes : length (sources st) = length (stats st);
  fi_events : Forall (fun e => ev_sourceID e < length (stats st))%nat evs;
  fi_buffer : Forall (fun p => pkt_sourceID p < length (stats st))%nat (packetBuffer st);
  fi_account : forall s r, stats st !! s = Some r ->
      packetsGenerated r =
      (packetsTransmitted r + packetsDropped r + Z.of_nat (buffered s st)
       + Z.of_nat (count (departure_from s) evs) + Z.of_nat (lost s st))%Z;
  fi_link : (count is_departure evs + count is_lost (history st))%nat
            = if linkBusy st then 1%nat else 0%nat;
  fi_bound : (length (packetBuffer st) <= bufferSize st)%nat;
  fi_horizon : Forall (fun e => ev_time e <= simulationTime st) evs;
}.

Definition fcfs_ok (st : State) : Prop :=
  fcfs_inv (pq_elems EQ (eventQueue st)) st.

(** What [loadConfig] leaves in the simulator. *)
Record loaded (st : State) : Prop := {
  ld_stats : stats st = replicate (length (sources st)) SourceStats_init;
  ld_num : numSources st = Z.of_nat (length (sources st));
  ld_ids : Forall (fun src => src_id src < length (sources st))%nat (sources st);
  ld_buffer : packetBuffer st = [];
  ld_queue : eventQueue st = pq_new EQ;
  ld_history : history st = [];
  ld_link : linkBusy st = false;
  ld_clock : currentTime st = 0;
}.

Definition total_bytes (st : State) : Q :=
  Qsum (map bytesTransmitted (stats st)).

(** What the clock and the byte totals satisfy when the configuration
    is valid and the draws are in range. *)
Record fcfs_timed (evs : list Event) (st : State) : Prop := {
  ft_capacity : 0 < linkCapacity st;
  ft_sources : Forall (fun src => (0 <= minSize src <= maxSize src)%Z) (sources st);
  ft_clock : currentTime st <= simulationTime st;
  ft_future : Forall (fun e => currentTime st <= ev_time e) evs;
  ft_buffer : Forall (fun p => (0 <= pkt_size p)%Z) (packetBuffer st);
  ft_bytes : total_bytes st <= linkCapacity st * currentTime st;
  ft_inflight : Forall (fun e =>
      match e with
      | PACKET_DEPARTURE t p =>
          (0 <= pkt_size p)%Z /\
          total_bytes st + inject_Z (pkt_size p) <= linkCapacity st * t
      | PACKET_ARRIVAL _ _ => True
      end) evs;
  ft_nonneg : Forall (fun r => 0 <= bytesTransmitted r) (stats st);
}.

Definition fcfs_timed_ok (st : State) : Prop :=
  fcfs_timed (pq_elems EQ (eventQueue st)) st.

(** The configuration the specification calls valid, as far as the byte
    and clock bounds need it. *)
Record valid_config (st : State) : Prop := {
  vc_capacity : 0 < linkCapacity st;
  vc_horizon : 0 < simulationTime st;
  vc_sources : Forall (fun src =>
      (0 <= minSize src <= maxSize src)%Z /\ 0 <= startTime src) (sources st);
}.

(** Packet sizes and byte counters are never negative when the sources'
    size ranges are valid and the draws are in range. *)
Definition valid_sizes (st : State) : Prop :=
  Forall (fun src => (0 <= minSize src <= maxSize src)%Z) (sources st).

Record fcfs_sized (evs : list Event) (st : State) : Prop := {
  fs_sources : valid_sizes st;
  fs_buffer : Forall (fun p => (0 <= pkt_size p)%Z) (packetBuffer st);
  fs_events : Forall (fun e =>
      match e with
      | PACKET_DEPARTURE _ p => (0 <= pkt_size p)%Z
      | PACKET_ARRIVAL _ _ => True
      end) evs;
  fs_nonneg : Forall (fun r => 0 <= bytesTransmitted r) (stats st);
}.

Definition fcfs_sized_ok (st : State) : Prop :=
  fcfs_sized (pq_elems EQ (eventQueue st)) st.

(** The [x_i] of the fairness index: raw bytes transmitted. *)
Definition shares (st : State) : list Q := map bytesTransmitted (stats st).

(** ** After a lost departure *)

Definition quiet (o : Obs) : Prop :=
  match o with
  | Started _ _ | Departed _ _ => False
  | _ => True
  end.

(** [st'] extends [st] without any transmission activity. *)
Definition idle_ext (st st' : State) : Prop :=
  linkBusy st' = linkBusy st /\
  (exists newer, history st' = newer ++ history st /\ Forall quiet newer) /\
  map packetsTransmitted (stats st') = map packetsTransmitted (stats st).

(** With no buffer nothing is ever transmitted. *)
Definition starved (st : State) : Prop :=
  bufferSize st = 0%nat /\ linkBusy st = false /\
  Forall (fun r => packetsTransmitted r = 0%Z) (stats st).

Definition has_lost (st : State) : Prop := (1 <= count is_lost (history st))%nat.

(** ** The link and the buffer *)

(** The link is idle only when nothing waits. *)
Definition work_conserving (st : State) : Prop :=
  linkBusy st = false -> packetBuffer st = [].

(** ** The counters against the history *)

Definition departed_from (s : nat) (o : Obs) : bool :=
  match o with
  | Departed p _ => from_source s p
  | _ => false
  end.

Definition dropped_from (s : nat) (o : Obs) : bool :=
  match o with
  | Dropped p => from_source s p
  | _ => false
  end.

Definition departed_bytes (s : nat) (o : Obs) : Q :=
  match o with
  | Departed p _ => if from_source s p then inject_Z (pkt_size p) else 0
  | _ => 0
  end.

Definition departed_delay (s : nat) (o : Obs) : Q :=
  match o with
  | Departed p now => if from_source s p then now - pkt_arrivalTime p else 0
  | _ => 0
  end.

(** The counters of every source are those of the departures and drops
    that the history records for it. *)
Definition ledger (st : State) : Prop :=
  forall s r, stats st !! s = Some r ->
    packetsTransmitted r = Z.of_nat (count (departed_from s) (history st)) /\
    packetsDropped r = Z.of_nat (count (dropped_from s) (history st)) /\
    bytesTransmitted r == Qsum (map (departed_bytes s) (history st)) /\
    totalDelay r == Qsum (map (departed_delay s) (history st)).

(** ** Packet ids *)

(** The ids of the packets whose transmission started, most recent first. *)
Fixpoint started_ids (h : list Obs) : list Z :=
  match h with
  | [] => []
  | Started p _ :: h' => pkt_id p :: started_ids h'
  | _ :: h' => started_ids h'
  end.

Fixpoint dropped_ids (h : list Obs) : list Z :=
  match h with
  | [] => []
  | Dropped p :: h' => pkt_id p :: dropped_ids h'
  | _ :: h' => dropped_ids h'
  end.

(** Every id handed out so far is below [next] and was handed out once;
    the transmissions started in the order of the ids, and the buffer
    holds the next ones in that order. *)
Record ids_inv (next : Z) (buf : list Packet) (h : list Obs) : Prop := {
  ii_next : (1 <= next)%Z;
  ii_range : Forall (fun i => (1 <= i < next)%Z)
               (dropped_ids h ++ started_ids h ++ map pkt_id buf);
  ii_nodup : NoDup (dropped_ids h ++ started_ids h ++ map pkt_id buf);
  ii_fifo : StronglySorted Z.lt (rev (started_ids h) ++ map pkt_id buf);
}.

Definition ids_ok (st : State) : Prop :=
  ids_inv (nextPacketId st) (packetBuffer st) (history st).

(** ** Transmission times *)

(** Every departure, pending or counted, is that of a packet whose
    transmission started [size / linkCapacity] earlier. *)
Record timing (evs : list Event) (st : State) : Prop := {
  tm_flight : forall t p, PACKET_DEPARTURE t p ∈ evs ->
      exists t0, Started p t0 ∈ history st /\
        t = t0 + inject_Z (pkt_size p) / linkCapacity st;
  tm_done : forall t p, Departed p t ∈ history st ->
      t <= simulationTime st /\
      exists t0, Started p t0 ∈ history st /\
        t = t0 + inject_Z (pkt_size p) / linkCapacity st;
}.

Definition timing_ok (st : State) : Prop :=
  timing (pq_elems EQ (eventQueue st)) st.

(** No packet waits or starts before it arrived, and none has a negative
    size. *)
Definition waiting (st : State) : Prop :=
  (forall p, p ∈ packetBuffer st ->
     pkt_arrivalTime p <= currentTime st /\ (0 <= pkt_size p)%Z) /\
  (forall p t0, Started p t0 ∈ history st ->
     pkt_arrivalTime p <= t0 /\ (0 <= pkt_size p)%Z).

(** ** The per-source table of [printResults] *)

Fixpoint rows_loop (st : State) (idx : list nat) : result (list Row) :=
  match idx with
  | [] => Ok []
  | i :: rest =>
      r ← at_index (stats st) i;
      src ← at_index (sources st) i;
      rows ← rows_loop st rest;
      Ok (row_of (simulationTime st) (weight src) r :: rows)
  end.

Definition printTable (st : State) : result (list Row) :=
  rows_loop st (seq 0 (Z.to_nat (numSources st))).

(** ** Arrivals *)

(** The sources of the pending arrivals. *)
Fixpoint arrival_ids (evs : list Event) : list nat :=
  match evs with
  | [] => []
  | PACKET_ARRIVAL _ s :: evs' => s :: arrival_ids evs'
  | PACKET_DEPARTURE _ _ :: evs' => arrival_ids evs'
  end.

(** [t] is the start of the source's activity, or a later time before its
    end. *)
Definition in_window (src : Source) (t : Q) : Prop :=
  startTime src <= t /\ (t = startTime src \/ t < endTime src).

Definition arrives_in_window (st : State) (s : nat) (t : Q) : Prop :=
  exists src, sources st !! s = Some src /\ in_window src t.

(** The position of a source in [sources] is its id. *)
Definition indexed (st : State) : Prop :=
  forall i src, sources st !! i = Some src -> src_id src = i.

(** At most one arrival is pending for a source, and every arrival, pending
    or handled, lies in the window of its source. *)
Record arrivals (evs : list Event) (st : State) : Prop := {
  ar_nodup : NoDup (arrival_ids evs);
  ar_events : forall t s, PACKET_ARRIVAL t s ∈ evs -> arrives_in_window st s t;
  ar_buffer : forall p, p ∈ packetBuffer st ->
      arrives_in_window st (pkt_sourceID p) (pkt_arrivalTime p);
  ar_started : forall p t0, Started p t0 ∈ history st ->
      arrives_in_window st (pkt_sourceID p) (pkt_arrivalTime p);
  ar_dropped : forall p, Dropped p ∈ history st ->
      arrives_in_window st (pkt_sourceID p) (pkt_arrivalTime p);
}.

Definition arrivals_ok (st : State) : Prop :=
  arrivals (pq_elems EQ (eventQueue st)) st.

(** ** One transmission after the other *)

(** The most recent transmission start that [h] (most recent first)
    records. *)
Fixpoint latest_start (h : list Obs) : option (Packet * Q) :=
  match h with
  | [] => None
  | Started p t :: _ => Some (p, t)
  | _ :: h' => latest_start h'
  end.

(** Every transmission that [h] records starts no earlier than each of the
    transmissions started before it ends, its end being its start plus
    size / linkCapacity, the time [startNextTransmission] gives to the
    departure event. *)
Fixpoint sequential (C : Q) (h : list Obs) : Prop :=
  match h with
  | [] => True
  | Started _ t1 :: h' =>
      (forall p t0, Started p t0 ∈ h' -> t0 + inject_Z (pkt_size p) / C <= t1)
      /\ sequential C h'
  | _ :: h' => sequential C h'
  end.

(** A pending departure is that of the latest transmission, and the link is
    busy until it is handled; on an idle link every transmission has
    ended. *)
Record in_sequence (st : State) : Prop := {
  sq_flight : forall t p, PACKET_DEPARTURE t p ∈ pq_elems EQ (eventQueue st) ->
      linkBusy st = true /\
      exists t0, latest_start (history st) = Some (p, t0) /\
                 t = t0 + inject_Z (pkt_size p) / linkCapacity st;
  sq_idle : linkBusy st = false -> forall p t0, Started p t0 ∈ history st ->
      t0 + inject_Z (pkt_size p) / linkCapacity st <= currentTime st;
  sq_clock : forall p t0, Started p t0 ∈ history st -> t0 <= currentTime st;
  sq_order : sequential (linkCapacity st) (history st);
}.

End Simulator.

Arguments numSources {EQ G} _.
Arguments simulationTime {EQ G} _.
Arguments linkCapacity {EQ G} _.
Arguments bufferSize {EQ G} _.
Arguments currentTime {EQ G} _.
Arguments linkBusy {EQ G} _.
Arguments nextPacketId {EQ G} _.
Arguments sources {EQ G} _.
Arguments stats {EQ G} _.
Arguments packetBuffer {EQ G} _.
Arguments eventQueue {EQ G} _.
Arguments generator {EQ G} _.
Arguments history {EQ G} _.
Arguments set_currentTime {EQ G} _ _.
Arguments set_linkBusy {EQ G} _ _.
Arguments set_nextPacketId {EQ G} _ _.
Arguments set_stats {EQ G} _ _.
Arguments set_packetBuffer {EQ G} _ _.
Arguments set_eventQueue {EQ G} _ _.
Arguments set_generator {EQ G} _ _.
Arguments observe {EQ G} _ _.
Arguments scheduleEvent {EQ G} _ _.
Arguments startNextTransmission {EQ G} _.
Arguments scheduleNextArrival {EQ G} _ _ _.
Arguments generatePacket {EQ G} _ _ _.
Arguments bufferOrDrop {EQ G} _ _ _.
Arguments handleArrivalEvent {EQ G} _ _.
Arguments handleDepartureEvent {EQ G} _ _.
Arguments prime {EQ G} _.
Arguments Running {EQ G} _.
Arguments Halted {EQ G} _.
Arguments state_of {EQ G} _.
Arguments step {EQ G} _.
Arguments loop {EQ G} _ _.
Arguments run {EQ G} _ _.
Arguments sum_loop {EQ G} _ _ _.
Arguments printResults {EQ G} _.
Arguments buffered {EQ G} _ _.
Arguments in_flight {EQ G} _ _.
Arguments lost {EQ G} _ _.
Arguments config_of {EQ G} _.
Arguments fcfs_inv {EQ G} _ _.
Arguments fi_num {EQ G} _ _ _.
Arguments fi_sizes {EQ G} _ _ _.
Arguments fi_events {EQ G} _ _ _.
Arguments fi_buffer {EQ G} _ _ _.
Arguments fi_account {EQ G} _ _ _.
Arguments fi_link {EQ G} _ _ _.
Arguments fi_bound {EQ G} _ _ _.
Arguments fi_horizon {EQ G} _ _ _.
Arguments fcfs_ok {EQ G} _.
Arguments loaded {EQ G} _.
Arguments ld_stats {EQ G} _ _.
Arguments ld_num {EQ G} _ _.
Arguments ld_ids {EQ G} _ _.
Arguments ld_buffer {EQ G} _ _.
Arguments ld_queue {EQ G} _ _.
Arguments ld_history {EQ G} _ _.
Arguments ld_link {EQ G} _ _.
Arguments ld_clock {EQ G} _ _.
Arguments total_bytes {EQ G} _.
Arguments fcfs_timed {EQ G} _ _.
Arguments ft_capacity {EQ G} _ _ _.
Arguments ft_sources {EQ G} _ _ _.
Arguments ft_clock {EQ G} _ _ _.
Arguments ft_future {EQ G} _ _ _.
Arguments ft_buffer {EQ G} _ _ _.
Arguments ft_bytes {EQ G} _ _ _.
Arguments ft_inflight {EQ G} _ _ _.
Arguments ft_nonneg {EQ G} _ _ _.
Arguments fcfs_timed_ok {EQ G} _.
Arguments valid_config {EQ G} _.
Arguments vc_capacity {EQ G} _ _.
Arguments vc_horizon {EQ G} _ _.
Arguments vc_sources {EQ G} _ _.
Arguments valid_sizes {EQ G} _.
Arguments fcfs_sized {EQ G} _ _.
Arguments fs_sources {EQ G} _ _ _.
Arguments fs_buffer {EQ G} _ _ _.
Arguments fs_events {EQ G} _ _ _.
Arguments fs_nonneg {EQ G} _ _ _.
Arguments fcfs_sized_ok {EQ G} _.
Arguments shares {EQ G} _.
Arguments idle_ext {EQ G} _ _.
Arguments has_lost {EQ G} _.
Arguments starved {EQ G} _.

Arguments work_conserving {EQ G} _.
Arguments ledger {EQ G} _.
Arguments ids_ok {EQ G} _.
Arguments timing {EQ G} _ _.
Arguments tm_flight {EQ G} _ _ _.
Arguments tm_done {EQ G} _ _ _.
Arguments timing_ok {EQ G} _.
Arguments waiting {EQ G} _.
Arguments rows_loop {EQ G} _ _.
Arguments printTable {EQ G} _.
Arguments arrives_in_window {EQ G} _ _ _.
Arguments indexed {EQ G} _.
Arguments arrivals {EQ G} _ _.
Arguments ar_nodup {EQ G} _ _ _.
Arguments ar_events {EQ G} _ _ _.
Arguments ar_buffer {EQ G} _ _ _.
Arguments ar_started {EQ G} _ _ _.
Arguments ar_dropped {EQ G} _ _ _.
Arguments arrivals_ok {EQ G} _.
Arguments in_sequence {EQ G} _.
Arguments sq_flight {EQ G} _ _.
Arguments sq_idle {EQ G} _ _.
Arguments sq_clock {EQ G} _ _.
Arguments sq_order {EQ G} _ _.

End FCFS.

(** * wfq_simulator.cpp *)

Module WFQ.

Record Packet : Type := {
  pkt_id : Z;
  pkt_sourceID : nat;
  pkt_size : Z;
  pkt_weight : Q;
  pkt_arrivalTime : Q;
  virtualFinishTime : Q;
}.

Inductive Event : Type :=
  | PACKET_ARRIVAL (time : Q) (sourceID : nat)
  | PACKET_DEPARTURE (time : Q) (packet : Packet).

Definition ev_time (e : Event) : Q :=
  match e with
  | PACKET_ARRIVAL t _ => t
  | PACKET_DEPARTURE t _ => t
  end.

Definition ev_sourceID (e : Event) : nat :=
  match e with
  | PACKET_ARRIVAL _ s => s
  | PACKET_DEPARTURE _ p => pkt_sourceID p
  end.

Record Source : Type := {
  src_id : nat;
  packetRate : Q;
  minSize : Z;
  maxSize : Z;
  weight : Q;
  startTime : Q;
  endTime : Q;
  lastFinishTime : Q;
}.

Definition set_lastFinishTime (f : Q) (src : Source) : Source :=
  {| src_id := src_id src; packetRate := packetRate src; minSize := minSize src;
     maxSize := maxSize src; weight := weight src; startTime := startTime src;
     endTime := endTime src; lastFinishTime := f |}.

(** What the history variable records. *)
Inductive Obs : Type :=
  | Started (p : Packet) (now : Q) (v : Q)
      (* startNextTransmission took p and left systemVirtualTime = v *)
  | Departed (p : Packet) (now : Q)     (* handleDepartureEvent counted p *)
  | Dropped (p : Packet)                (* p was popped from the full buffer *)
  | Discarded (e : Event).              (* scheduleEvent did not push e *)

Section Simulator.
Context (EQ : MinPQ Event ev_time) (BQ : MinPQ Packet virtualFinishTime)
        (G : RandomEngine).

Record State : Type := {
  numSources : Z;
  simulationTime : Q;
  linkCapacity : Q;
  bufferSize : nat;
  currentTime : Q;
  systemVirtualTime : Q;
  linkBusy : bool;
  nextPacketId : Z;
  sources : list Source;
  stats : list SourceStats;
  packetBuffer : pq_t BQ;
  eventQueue : pq_t EQ;
  generator : engine G;
  history : list Obs;                  (* most recent first *)
}.

Definition set_currentTime (t : Q) (st : State) : State :=
  {| numSources := numSources st; simulationTime := simulationTime st;
     linkCapacity := linkCapacity st; bufferSize := bufferSize st;
     currentTime := t; systemVirtualTime := systemVirtualTime st;
     linkBusy := linkBusy st; nextPacketId := nextPacketId st;
     sources := sources st; stats := stats st;
     packetBuffer := packetBuffer st; eventQueue := eventQueue st;
     generator := generator st; history := history st |}.

Definition set_systemVirtualTime (v : Q) (st : State) : State :=
  {| numSources := numSources st; simulationTime := simulationTime st;
     linkCapacity := linkCapacity st; bufferSize := bufferSize st;
     currentTime := currentTime st; systemVirtualTime := v;
     linkBusy := linkBusy st; nextPacketId := nextPacketId st;
     sources := sources st; stats := stats st;
     packetBuffer := packetBuffer st; eventQueue := eventQueue st;
     generator := generator st; history := history st |}.

Definition set_linkBusy (b : bool) (st : State) : State :=
  {| numSources := numSources st; simulationTime := simulationTime st;
     linkCapacity := linkCapacity st; bufferSize := bufferSize st;
     currentTime := currentTime st; systemVirtualTime := systemVirtualTime st;
     linkBusy := b; nextPacketId := nextPacketId st;
     sources := sources st; stats := stats st;
     packetBuffer := packetBuffer st; eventQueue := eventQueue st;
     generator := generator st; history := history st |}.

Definition set_nextPacketId (n : Z) (st : State) : State :=
  {| numSources := numSources st; simulationTime := simulationTime st;
     linkCapacity := linkCapacity st; bufferSize := bufferSize st;
     currentTime := currentTime st; systemVirtualTime := systemVirtualTime st;
     linkBusy := linkBusy st; nextPacketId := n;
     sources := sources st; stats := stats st;
     packetBuffer := packetBuffer st; eventQueue := eventQueue st;
     generator := generator st; history := history st |}.

Definition set_sources (s : list Source) (st : State) : State :=
  {| numSources := numSources st; simulationTime := simulationTime st;
     linkCapacity := linkCapacity st; bufferSize := bufferSize st;
     currentTime := currentTime st; systemVirtualTime := systemVirtualTime st;
     linkBusy := linkBusy st; nextPacketId := nextPacketId st;
     sources := s; stats := stats st;
     packetBuffer := packetBuffer st; eventQueue := eventQueue st;
     generator := generator st; history := history st |}.

Definition set_stats (s : list SourceStats) (st : State) : State :=
  {| numSources := numSources st; simulationTime := simulationTime st;
     linkCapacity := linkCapacity st; bufferSize := bufferSize st;
     currentTime := currentTime st; systemVirtualTime := systemVirtualTime st;
     linkBusy := linkBusy st; nextPacketId := nextPacketId st;
     sources := sources st; stats := s;
     packetBuffer := packetBuffer st; eventQueue := eventQueue st;
     generator := generator st; history := history st |}.

Definition set_packetBuffer (b : pq_t BQ) (st : State) : State :=
  {| numSources := numSources st; simulationTime := simulationTime st;
     linkCapacity := linkCapacity st; bufferSize := bufferSize st;
     currentTime := currentTime st; systemVirtualTime := systemVirtualTime st;
     linkBusy := linkBusy st; nextPacketId := nextPacketId st;
     sources := sources st; stats := stats st;
     packetBuffer := b; eventQueue := eventQueue st;
     generator := generator st; history := history st |}.

Definition set_eventQueue (q : pq_t EQ) (st : State) : State :=
  {| numSources := numSources st; simulationTime := simulationTime st;
     linkCapacity := linkCapacity st; bufferSize := bufferSize st;
     currentTime := currentTime st; systemVirtualTime := systemVirtualTime st;
     linkBusy := linkBusy st; nextPacketId := nextPacketId st;
     sources := sources st; stats := stats st;
     packetBuffer := packetBuffer st; eventQueue := q;
     generator := generator st; history := history st |}.

Definition set_generator (g : engine G) (st : State) : State :=
  {| numSources := numSources st; simulationTime := simulationTime st;
     linkCapacity := linkCapacity st; bufferSize := bufferSize st;
     currentTime := currentTime st; systemVirtualTime := systemVirtualTime st;
     linkBusy := linkBusy st; nextPacketId := nextPacketId st;
     sources := sources st; stats := stats st;
     packetBuffer := packetBuffer st; eventQueue := eventQueue st;
     generator := g; history := history st |}.

Definition observe (o : Obs) (st : State) : State :=
  {| numSources := numSources st; simulationTime := simulationTime st;
     linkCapacity := linkCapacity st; bufferSize := bufferSize st;
     currentTime := currentTime st; systemVirtualTime := systemVirtualTime st;
     linkBusy := linkBusy st; nextPacketId := nextPacketId st;
     sources := sources st; stats := stats st;
     packetBuffer := packetBuffer st; eventQueue := eventQueue st;
     generator := generator st; history := o :: history st |}.

Definition scheduleEvent (e : Event) (st : State) : State :=
  if Qle_bool (ev_time e) (simulationTime st)
  then set_eventQueue (pq_push EQ e (eventQueue st)) st
  else observe (Discarded e) st.

Definition startNextTransmission (st : State) : result State :=
  if linkBusy st || pq_is_empty BQ (packetBuffer st) then Ok st
  else
    let st := set_linkBusy true st in
    packetToTransmit ← pq_top_ub BQ (packetBuffer st);
    let st := set_packetBuffer (pq_pop BQ (packetBuffer st)) st in
    (* Update system virtual time based on the starting packet *)
    let virtualStartTime :=
      virtualFinishTime packetToTransmit
      - inject_Z (pkt_size packetToTransmit) / pkt_weight packetToTransmit in
    let st := set_systemVirtualTime virtualStartTime st in
    let transmissionTime := inject_Z (pkt_size packetToTransmit) / linkCapacity st in
    Ok (scheduleEvent
          (PACKET_DEPARTURE (currentTime st + transmissionTime) packetToTransmit)
          (observe (Started packetToTransmit (currentTime st) (systemVirtualTime st)) st)).

(** [handleArrivalEvent(e)], given [e.sourceID], in the blocks its comments
    number 1 to 4. *)

(** 1. Schedule next arrival *)
Definition scheduleNextArrival (srcID : nat) (src : Source) (st : State) : State :=
  let '(dt, g) := exponential_draw G (packetRate src) (generator st) in
  let st := set_generator g st in
  let nextArrivalTime := currentTime st + dt in
  if Qltb nextArrivalTime (endTime src)
  then scheduleEvent (PACKET_ARRIVAL nextArrivalTime srcID) st
  else st.

(** 2. Generate packet, with the WFQ core logic that computes its VFT *)
Definition generatePacket (srcID : nat) (src : Source) (st : State)
    : result (Packet * State) :=
  let '(sz, g) := uniform_int_draw G (minSize src) (maxSize src) (generator st) in
  let virtualStartTime := fmax (systemVirtualTime st) (lastFinishTime src) in
  let newPacket :=
    {| pkt_id := nextPacketId st; pkt_sourceID := srcID; pkt_size := sz;
       pkt_weight := weight src; pkt_arrivalTime := currentTime st;
       virtualFinishTime := virtualStartTime + inject_Z sz / weight src |} in
  let st := set_nextPacketId (nextPacketId st + 1) (set_generator g st) in
  sources1 ← modify_at (set_lastFinishTime (virtualFinishTime newPacket)) srcID
               (sources st);
  let st := set_sources sources1 st in
  stats1 ← modify_at incr_generated srcID (stats st);
  Ok (newPacket, set_stats stats1 st).

(** 3. Buffer management (Drop packet with smallest VFT if full) *)
Definition bufferManagement (newPacket : Packet) (st : State) : result State :=
  if (pq_size BQ (packetBuffer st) <? bufferSize st)%nat
  then Ok (set_packetBuffer (pq_push BQ newPacket (packetBuffer st)) st)
  else
    (* Drop policy: pop the top (smallest VFT), record drop, then push new packet *)
    packetToDrop ← pq_top_ub BQ (packetBuffer st);
    let st := set_packetBuffer (pq_pop BQ (packetBuffer st)) st in
    stats1 ← modify_at incr_dropped (pkt_sourceID packetToDrop) (stats st);
    let st := observe (Dropped packetToDrop) (set_stats stats1 st) in
    Ok (set_packetBuffer (pq_push BQ newPacket (packetBuffer st)) st).

Definition handleArrivalEvent (srcID : nat) (st : State) : result State :=
  src ← at_index (sources st) srcID;
  let st := scheduleNextArrival srcID src st in
  '(newPacket, st) ← generatePacket srcID src st;
  st ← bufferManagement newPacket st;
  (* 4. Try transmission *)
  startNextTransmission st.

(** [handleDepartureEvent(e)], given [e.packet]. *)
Definition handleDepartureEvent (p : Packet) (st : State) : result State :=
  let st := set_linkBusy false st in
  let srcID := pkt_sourceID p in
  stats1 ← modify_at
    (record_departure (pkt_size p) (currentTime st - pkt_arrivalTime p))
    srcID (stats st);
  let st := observe (Departed p (currentTime st)) (set_stats stats1 st) in
  startNextTransmission st.

(** The first loop of [run]. *)
Definition prime (st : State) : State :=
  fold_left
    (fun st src => scheduleEvent (PACKET_ARRIVAL (startTime src) (src_id src)) st)
    (sources st) st.

Inductive outcome : Type :=
  | Running (st : State)
  | Halted (st : State).

Definition state_of (o : outcome) : State :=
  match o with
  | Running st => st
  | Halted st => st
  end.

Definition step (st : State) : result outcome :=
  if pq_is_empty EQ (eventQueue st) then Ok (Halted st)
  else
    currentEvent ← pq_top_ub EQ (eventQueue st);
    let st := set_eventQueue (pq_pop EQ (eventQueue st)) st in
    let st := set_currentTime (ev_time currentEvent) st in
    if Qltb (simulationTime st) (currentTime st) then Ok (Halted st)
    else
      st ← match currentEvent with
           | PACKET_ARRIVAL _ srcID => handleArrivalEvent srcID st
           | PACKET_DEPARTURE _ p => handleDepartureEvent p st
           end;
      Ok (Running st).

Fixpoint loop (fuel : nat) (st : State) : result outcome :=
  match fuel with
  | O => Ok (Running st)
  | S fuel' =>
      o ← step st;
      match o with
      | Running st' => loop fuel' st'
      | Halted st' => Ok (Halted st')
      end
  end.

Definition run (fuel : nat) (st : State) : result outcome :=
  loop fuel (prime st).

(** [printResults]: the first loop and the four headline metrics. *)
Fixpoint sum_loop (st : State) (idx : list nat) (t : Totals) : result Totals :=
  match idx with
  | [] => Ok t
  | i :: rest =>
      r ← at_index (stats st) i;
      src ← at_index (sources st) i;
      (* WFQ Fairness relies on weight-normalized throughput *)
      let x_i := if Qltb 0 (weight src) then bytesTransmitted r / weight src else 0 in
      sum_loop st rest (accumulate x_i r t)
  end.

Definition printResults (st : State) : result Metrics :=
  t ← sum_loop st (seq 0 (Z.to_nat (numSources st))) Totals_init;
  Ok (metrics_of (numSources st) (linkCapacity st) (simulationTime st) t).

Fixpoint read_sources (X : Extractor) (T : Q) (i n : nat) (lines : list string)
    (acc : list Source) : exn + list Source :=
  match n with
  | O => inr acc
  | S n' =>
      match lines with
      | [] => inl MissingSourceConfigurations
      | line :: rest =>
          let '(rate, minSz, maxSz, w, tb_frac, te_frac) := extract_source X line in
          read_sources X T (S i) n' rest
            (acc ++ [{| src_id := i; packetRate := rate; minSize := minSz;
                        maxSize := maxSz; weight := w;
                        startTime := tb_frac * T; endTime := te_frac * T;
                        lastFinishTime := 0 |}])
      end
  end.

Definition loadConfig (X : Extractor) (file : option (list string)) : exn + State :=
  match file with
  | None => inl CouldNotOpenInputFile
  | Some [] => inl EmptyConfigFile
  | Some (line :: rest) =>
      let '(n, T, C, B) := extract_header X line in
      if (n <? 0)%Z then inl LengthError
      else
        match read_sources X T 0 (Z.to_nat n) rest [] with
        | inl e => inl e
        | inr srcs =>
            inr {| numSources := n; simulationTime := T; linkCapacity := C;
                   bufferSize := B; currentTime := 0; systemVirtualTime := 0;
                   linkBusy := false; nextPacketId := 1; sources := srcs;
                   stats := replicate (Z.to_nat n) SourceStats_init;
                   packetBuffer := pq_new BQ; eventQueue := pq_new EQ;
                   generator := default_engine G; history := [] |}
        end
  end.

Definition from_source (s : nat) (p : Packet) : bool :=
  Nat.eqb (pkt_sourceID p) s.

Definition is_departure (e : Event) : bool :=
  match e with
  | PACKET_DEPARTURE _ _ => true
  | PACKET_ARRIVAL _ _ => false
  end.

Definition departure_from (s : nat) (e : Event) : bool :=
  match e with
  | PACKET_DEPARTURE _ p => from_source s p
  | PACKET_ARRIVAL _ _ => false
  end.

Definition is_lost (o : Obs) : bool :=
  match o with
  | Discarded e => is_departure e
  | _ => false
  end.

Definition lost_from (s : nat) (o : Obs) : bool :=
  match o with
  | Discarded e => departure_from s e
  | _ => false
  end.

Definition buffered (s : nat) (st : State) : nat :=
  count (from_source s) (pq_elems BQ (packetBuffer st)).

Definition in_flight (s : nat) (st : State) : nat :=
  count (departure_from s) (pq_elems EQ (eventQueue st)).

Definition lost (s : nat) (st : State) : nat :=
  count (lost_from s) (history st).

(** The packet's virtual start time, as [startNextTransmission] recovers it. *)
Definition virtualStart (p : Packet) : Q :=
  virtualFinishTime p - inject_Z (pkt_size p) / pkt_weight p.

(** The [try] block of [main] up to the end of [run]: [inl e] when
    [loadConfig] throws [e], in which case [run] is not called. *)
Definition main (X : Extractor) (file : option (list string)) (fuel : nat)
    : exn + result outcome :=
  match loadConfig X file with
  | inl e => inl e
  | inr st => inr (run fuel st)
  end.

(** The source that the [i]-th source line describes. *)
Definition source_of_line (X : Extractor) (T : Q) (i : nat) (line : string) : Source :=
  let '(rate, minSz, maxSz, w, tb_frac, te_frac) := extract_source X line in
  {| src_id := i; packetRate := rate; minSize := minSz; maxSize := maxSz;
     weight := w; startTime := tb_frac * T; endTime := te_frac * T;
     lastFinishTime := 0 |}.

(** ** Invariants of the main loop *)

(** The members that only [loadConfig] writes. *)
Definition config_of (st : State) : Z * Q * Q * nat :=
  (numSources st, simulationTime st, linkCapacity st, bufferSize st).

(** The structural invariant of the main loop, over the pending events
    [evs]. *)
Record wfq_inv (evs : list Event) (st : State) : Prop := {
  wi_num : numSources st = Z.of_nat (length (stats st));
  wi_sizes : length (sources st) = length (stats st);
  wi_events : Forall (fun e => ev_sourceID e < length (stats st))%nat evs;
  wi_buffer : Forall (fun p => pkt_sourceID p < length (stats st))%nat
                (pq_elems BQ (packetBuffer st));
  wi_account : forall s r, stats st !! s = Some r ->
      packetsGenerated r =
      (packetsTransmitted r + packetsDropped r + Z.of_nat (buffered s st)
       + Z.of_nat (count (departure_from s) evs) + Z.of_nat (lost s st))%Z;
  wi_link : (count is_departure evs + count is_lost (history st))%nat
            = if linkBusy st then 1%nat else 0%nat;
  wi_bound : (pq_size BQ (packetBuffer st) <= bufferSize st)%nat;
  wi_horizon : Forall (fun e => ev_time e <= simulationTime st) evs;
}.

Definition wfq_ok (st : State) : Prop :=
  wfq_inv (pq_elems EQ (eventQueue st)) st.

(** What [loadConfig] leaves in the simulator. *)
Record wfq_loaded (st : State) : Prop := {
  wl_stats : stats st = replicate (length (sources st)) SourceStats_init;
  wl_num : numSources st = Z.of_nat (length (sources st));
  wl_ids : Forall (fun src => (src_id src < length (sources st))%nat
                              /\ lastFinishTime src = 0) (sources st);
  wl_buffer : packetBuffer st = pq_new BQ;
  wl_queue : eventQueue st = pq_new EQ;
  wl_history : history st = [];
  wl_link : linkBusy st = false;
  wl_clock : currentTime st = 0;
  wl_virtual : systemVirtualTime st = 0;
  wl_nextid : nextPacketId st = 1%Z;
}.

Definition wfq_total_bytes (st : State) : Q :=
  Qsum (map bytesTransmitted (stats st)).

Record wfq_timed (evs : list Event) (st : State) : Prop := {
  wt_capacity : 0 < linkCapacity st;
  wt_sources : Forall (fun src => (0 <= minSize src <= maxSize src)%Z) (sources st);
  wt_clock : currentTime st <= simulationTime st;
  wt_future : Forall (fun e => currentTime st <= ev_time e) evs;
  wt_buffer : Forall (fun p => (0 <= pkt_size p)%Z) (pq_elems BQ (packetBuffer st));
  wt_bytes : wfq_total_bytes st <= linkCapacity st * currentTime st;
  wt_inflight : Forall (fun e =>
      match e with
      | PACKET_DEPARTURE t p =>
          (0 <= pkt_size p)%Z /\
          wfq_total_bytes st + inject_Z (pkt_size p) <= linkCapacity st * t
      | PACKET_ARRIVAL _ _ => True
      end) evs;
  wt_nonneg : Forall (fun r => 0 <= bytesTransmitted r) (stats st);
}.

Definition wfq_timed_ok (st : State) : Prop :=
  wfq_timed (pq_elems EQ (eventQueue st)) st.

Record wfq_valid_config (st : State) : Prop := {
  wv_capacity : 0 < linkCapacity st;
  wv_horizon : 0 < simulationTime st;
  wv_sources : Forall (fun src =>
      (0 <= minSize src <= maxSize src)%Z /\ 0 <= startTime src) (sources st);
}.

Definition wfq_valid_sizes (st : State) : Prop :=
  Forall (fun src => (0 <= minSize src <= maxSize src)%Z) (sources st).

Record wfq_sized (evs : list Event) (st : State) : Prop := {
  ws_sources : wfq_valid_sizes st;
  ws_buffer : Forall (fun p => (0 <= pkt_size p)%Z) (pq_elems BQ (packetBuffer st));
  ws_events : Forall (fun e =>
      match e with
      | PACKET_DEPARTURE _ p => (0 <= pkt_size p)%Z
      | PACKET_ARRIVAL _ _ => True
      end) evs;
  ws_nonneg : Forall (fun r => 0 <= bytesTransmitted r) (stats st);
}.

Definition wfq_sized_ok (st : State) : Prop :=
  wfq_sized (pq_elems EQ (eventQueue st)) st.

(** The [x_i] of the fairness index: weight-normalized bytes. *)
Definition wfq_share (r : SourceStats) (src : Source) : Q :=
  if Qltb 0 (weight src) then bytesTransmitted r / weight src else 0.

Definition wfq_shares (st : State) : list Q :=
  zip_with wfq_share (stats st) (sources st).

(** ** After a lost departure *)

Definition wfq_quiet (o : Obs) : Prop :=
  match o with
  | Started _ _ _ | Departed _ _ => False
  | _ => True
  end.

Definition wfq_idle_ext (st st' : State) : Prop :=
  linkBusy st' = linkBusy st /\
  (exists newer, history st' = newer ++ history st /\ Forall wfq_quiet newer) /\
  map packetsTransmitted (stats st') = map packetsTransmitted (stats st).

Definition wfq_has_lost (st : State) : Prop :=
  (1 <= count is_lost (history st))%nat.

(** ** Virtual time at transmission starts *)

Definition is_start (o : Obs) : bool :=
  match o with
  | Started _ _ _ => true
  | _ => false
  end.

(** The value the most recent transmission start recorded in [h] (most
    recent first) left in [systemVirtualTime]; 0.0, the member's
    initialiser, before the first start. *)
Fixpoint latest_sample (h : list Obs) : Q :=
  match h with
  | [] => 0
  | Started _ _ v :: _ => v
  | _ :: h' => latest_sample h'
  end.

(** Every sample is the virtual start time of the packet dispatched, and
    nothing but a transmission start writes [systemVirtualTime]. *)
Definition wfq_sampled (st : State) : Prop :=
  (forall p t v, Started p t v ∈ history st -> v = virtualStart p) /\
  systemVirtualTime st = latest_sample (history st).

Definition valid_source (src : Source) : Prop :=
  0 < weight src /\ (1 <= minSize src <= maxSize src)%Z.

Definition wfq_valid_weights (st : State) : Prop :=
  Forall valid_source (sources st).

(** ** The link and the buffer *)

(** The link is idle only when nothing waits. *)
Definition wfq_work_conserving (st : State) : Prop :=
  linkBusy st = false -> pq_elems BQ (packetBuffer st) = [].

(** ** The counters against the history *)

Definition departed_from (s : nat) (o : Obs) : bool :=
  match o with
  | Departed p _ => from_source s p
  | _ => false
  end.

Definition dropped_from (s : nat) (o : Obs) : bool :=
  match o with
  | Dropped p => from_source s p
  | _ => false
  end.

Definition departed_bytes (s : nat) (o : Obs) : Q :=
  match o with
  | Departed p _ => if from_source s p then inject_Z (pkt_size p) else 0
  | _ => 0
  end.

Definition departed_delay (s : nat) (o : Obs) : Q :=
  match o with
  | Departed p now => if from_source s p then now - pkt_arrivalTime p else 0
  | _ => 0
  end.

(** The counters of every source are those of the departures and drops
    that the history records for it. *)
Definition wfq_ledger (st : State) : Prop :=
  forall s r, stats st !! s = Some r ->
    packetsTransmitted r = Z.of_nat (count (departed_from s) (history st)) /\
    packetsDropped r = Z.of_nat (count (dropped_from s) (history st)) /\
    bytesTransmitted r == Qsum (map (departed_bytes s) (history st)) /\
    totalDelay r == Qsum (map (departed_delay s) (history st)).

(** ** Packet ids *)

(** The ids of the packets whose transmission started, most recent first. *)
Fixpoint started_ids (h : list Obs) : list Z :=
  match h with
  | [] => []
  | Started p _ _ :: h' => pkt_id p :: started_ids h'
  | _ :: h' => started_ids h'
  end.

Fixpoint dropped_ids (h : list Obs) : list Z :=
  match h with
  | [] => []
  | Dropped p :: h' => pkt_id p :: dropped_ids h'
  | _ :: h' => dropped_ids h'
  end.

(** Every id handed out so far is below [next] and was handed out once. *)
Record wfq_ids_inv (next : Z) (buf : list Packet) (h : list Obs) : Prop := {
  wd_next : (1 <= next)%Z;
  wd_range : Forall (fun i => (1 <= i < next)%Z)
               (dropped_ids h ++ started_ids h ++ map pkt_id buf);
  wd_nodup : NoDup (dropped_ids h ++ started_ids h ++ map pkt_id buf);
}.

Definition wfq_ids_ok (st : State) : Prop :=
  wfq_ids_inv (nextPacketId st) (pq_elems BQ (packetBuffer st)) (history st).

(** ** Transmission times *)

(** Every departure, pending or counted, is that of a packet whose
    transmission started [size / linkCapacity] earlier. *)
Record wfq_timing (evs : list Event) (st : State) : Prop := {
  wm_flight : forall t p, PACKET_DEPARTURE t p ∈ evs ->
      exists t0 v, Started p t0 v ∈ history st /\
        t = t0 + inject_Z (pkt_size p) / linkCapacity st;
  wm_done : forall t p, Departed p t ∈ history st ->
      t <= simulationTime st /\
      exists t0 v, Started p t0 v ∈ history st /\
        t = t0 + inject_Z (pkt_size p) / linkCapacity st;
}.

Definition wfq_timing_ok (st : State) : Prop :=
  wfq_timing (pq_elems EQ (eventQueue st)) st.

(** No packet waits or starts before it arrived, and none has a negative
    size. *)
Definition wfq_waiting (st : State) : Prop :=
  (forall p, p ∈ pq_elems BQ (packetBuffer st) ->
     pkt_arrivalTime p <= currentTime st /\ (0 <= pkt_size p)%Z) /\
  (forall p t0 v, Started p t0 v ∈ history st ->
     pkt_arrivalTime p <= t0 /\ (0 <= pkt_size p)%Z).

(** ** The per-source table of [printResults] *)

Fixpoint rows_loop (st : State) (idx : list nat) : result (list Row) :=
  match idx with
  | [] => Ok []
  | i :: rest =>
      r ← at_index (stats st) i;
      src ← at_index (sources st) i;
      rows ← rows_loop st rest;
      Ok (row_of (simulationTime st) (weight src) r :: rows)
  end.

Definition printTable (st : State) : result (list Row) :=
  rows_loop st (seq 0 (Z.to_nat (numSources st))).

(** ** Arrivals *)

(** The sources of the pending arrivals. *)
Fixpoint arrival_ids (evs : list Event) : list nat :=
  match evs with
  | [] => []
  | PACKET_ARRIVAL _ s :: evs' => s :: arrival_ids evs'
  | PACKET_DEPARTURE _ _ :: evs' => arrival_ids evs'
  end.

(** [t] is the start of the source's activity, or a later time before its
    end. *)
Definition in_window (src : Source) (t : Q) : Prop :=
  startTime src <= t /\ (t = startTime src \/ t < endTime src).

Definition arrives_in_window (st : State) (s : nat) (t : Q) : Prop :=
  exists src, sources st !! s = Some src /\ in_window src t.

(** The position of a source in [sources] is its id. *)
Definition indexed (st : State) : Prop :=
  forall i src, sources st !! i = Some src -> src_id src = i.

(** At most one arrival is pending for a source, and every arrival, pending
    or handled, lies in the window of its source. *)
Record wfq_arrivals (evs : list Event) (st : State) : Prop := {
  wa_nodup : NoDup (arrival_ids evs);
  wa_events : forall t s, PACKET_ARRIVAL t s ∈ evs -> arrives_in_window st s t;
  wa_buffer : forall p, p ∈ pq_elems BQ (packetBuffer st) ->
      arrives_in_window st (pkt_sourceID p) (pkt_arrivalTime p);
  wa_started : forall p t0 v, Started p t0 v ∈ history st ->
      arrives_in_window st (pkt_sourceID p) (pkt_arrivalTime p);
  wa_dropped : forall p, Dropped p ∈ history st ->
      arrives_in_window st (pkt_sourceID p) (pkt_arrivalTime p);
}.

Definition wfq_arrivals_ok (st : State) : Prop :=
  wfq_arrivals (pq_elems EQ (eventQueue st)) st.

(** ** One transmission after the other *)

(** The most recent transmission start that [h] (most recent first)
    records. *)
Fixpoint latest_start (h : list Obs) : option (Packet * Q) :=
  match h with
  | [] => None
  | Started p t _ :: _ => Some (p, t)
  | _ :: h' => latest_start h'
  end.

(** Every transmission that [h] records starts no earlier than each of the
    transmissions started before it ends, its end being its start plus
    size / linkCapacity, the time [startNextTransmission] gives to the
    departure event. *)
Fixpoint sequential (C : Q) (h : list Obs) : Prop :=
  match h with
  | [] => True
  | Started _ t1 _ :: h' =>
      (forall p t0 v, Started p t0 v ∈ h' -> t0 + inject_Z (pkt_size p) / C <= t1)
      /\ sequential C h'
  | _ :: h' => sequential C h'
  end.

(** A pending departure is that of the latest transmission, and the link is
    busy until it is handled; on an idle link every transmission has
    ended. *)
Record wfq_in_sequence (st : State) : Prop := {
  wsq_flight : forall t p, PACKET_DEPARTURE t p ∈ pq_elems EQ (eventQueue st) ->
      linkBusy st = true /\
      exists t0, latest_start (history st) = Some (p, t0) /\
                 t = t0 + inject_Z (pkt_size p) / linkCapacity st;
  wsq_idle : linkBusy st = false -> forall p t0 v, Started p t0 v ∈ history st ->
      t0 + inject_Z (pkt_size p) / linkCapacity st <= currentTime st;
  wsq_clock : forall p t0 v, Started p t0 v ∈ history st -> t0 <= currentTime st;
  wsq_order : sequential (linkCapacity st) (history st);
}.

(** ** Weights that keep size / weight finite in binary64

    With every weight at least [least_weight] each size / weight is a
    finite [double], so no virtual finish time and no x_i is a NaN and the
    comparisons of the buffer order the finish times totally. *)
Definition least_weight : Q := 1 / inject_Z (2 ^ 400).

Definition wfq_weights_bounded (st : State) : Prop :=
  Forall (fun src => least_weight <= weight src) (sources st).

(** ** Finish times in the order of the ids *)

(** The packets generated so far: each is in the buffer, has started its
    transmission or has been dropped. *)
Definition packets_seen (st : State) : list Packet :=
  pq_elems BQ (packetBuffer st)
  ++ omap (fun o => match o with
                    | Started p _ _ | Dropped p => Some p
                    | _ => None
                    end) (history st).

(** Of two packets generated so far the one generated later has the
    strictly larger virtualFinishTime. *)
Definition finish_times_increasing (st : State) : bool :=
  forallb (fun p =>
    forallb (fun q =>
      implb (pkt_id p <? pkt_id q)%Z
            (Qltb (virtualFinishTime p) (virtualFinishTime q)))
      (packets_seen st))
    (packets_seen st).

End Simulator.

Arguments numSources {EQ BQ G} _.
Arguments simulationTime {EQ BQ G} _.
Arguments linkCapacity {EQ BQ G} _.
Arguments bufferSize {EQ BQ G} _.
Arguments currentTime {EQ BQ G} _.
Arguments systemVirtualTime {EQ BQ G} _.
Arguments linkBusy {EQ BQ G} _.
Arguments nextPacketId {EQ BQ G} _.
Arguments sources {EQ BQ G} _.
Arguments stats {EQ BQ G} _.
Arguments packetBuffer {EQ BQ G} _.
Arguments eventQueue {EQ BQ G} _.
Arguments generator {EQ BQ G} _.
Arguments history {EQ BQ G} _.
Arguments set_currentTime {EQ BQ G} _ _.
Arguments set_systemVirtualTime {EQ BQ G} _ _.
Arguments set_linkBusy {EQ BQ G} _ _.
Arguments set_nextPacketId {EQ BQ G} _ _.
Arguments set_sources {EQ BQ G} _ _.
Arguments set_stats {EQ BQ G} _ _.
Arguments set_packetBuffer {EQ BQ G} _ _.
Arguments set_eventQueue {EQ BQ G} _ _.
Arguments set_generator {EQ BQ G} _ _.
Arguments observe {EQ BQ G} _ _.
Arguments scheduleEvent {EQ BQ G} _ _.
Arguments startNextTransmission {EQ BQ G} _.
Arguments scheduleNextArrival {EQ BQ G} _ _ _.
Arguments generatePacket {EQ BQ G} _ _ _.
Arguments bufferManagement {EQ BQ G} _ _.
Arguments handleArrivalEvent {EQ BQ G} _ _.
Arguments handleDepartureEvent {EQ BQ G} _ _.
Arguments prime {EQ BQ G} _.
Arguments Running {EQ BQ G} _.
Arguments Halted {EQ BQ G} _.
Arguments state_of {EQ BQ G} _.
Arguments step {EQ BQ G} _.
Arguments loop {EQ BQ G} _ _.
Arguments run {EQ BQ G} _ _.
Arguments sum_loop {EQ BQ G} _ _ _.
Arguments printResults {EQ BQ G} _.
Arguments buffered {EQ BQ G} _ _.
Arguments in_flight {EQ BQ G} _ _.
Arguments lost {EQ BQ G} _ _.
Arguments config_of {EQ BQ G} _.
Arguments wfq_inv {EQ BQ G} _ _.
Arguments wi_num {EQ BQ G} _ _ _.
Arguments wi_sizes {EQ BQ G} _ _ _.
Arguments wi_events {EQ BQ G} _ _ _.
Arguments wi_buffer {EQ BQ G} _ _ _.
Arguments wi_account {EQ BQ G} _ _ _.
Arguments wi_link {EQ BQ G} _ _ _.
Arguments wi_bound {EQ BQ G} _ _ _.
Arguments wi_horizon {EQ BQ G} _ _ _.
Arguments wfq_ok {EQ BQ G} _.
Arguments wfq_loaded {EQ BQ G} _.
Arguments wl_stats {EQ BQ G} _ _.
Arguments wl_num {EQ BQ G} _ _.
Arguments wl_ids {EQ BQ G} _ _.
Arguments wl_buffer {EQ BQ G} _ _.
Arguments wl_queue {EQ BQ G} _ _.
Arguments wl_history {EQ BQ G} _ _.
Arguments wl_link {EQ BQ G} _ _.
Arguments wl_clock {EQ BQ G} _ _.
Arguments wl_virtual {EQ BQ G} _ _.
Arguments wl_nextid {EQ BQ G} _ _.
Arguments wfq_total_bytes {EQ BQ G} _.
Arguments wfq_timed {EQ BQ G} _ _.
Arguments wt_capacity {EQ BQ G} _ _ _.
Arguments wt_sources {EQ BQ G} _ _ _.
Arguments wt_clock {EQ BQ G} _ _ _.
Arguments wt_future {EQ BQ G} _ _ _.
Arguments wt_buffer {EQ BQ G} _ _ _.
Arguments wt_bytes {EQ BQ G} _ _ _.
Arguments wt_inflight {EQ BQ G} _ _ _.
Arguments wt_nonneg {EQ BQ G} _ _ _.
Arguments wfq_timed_ok {EQ BQ G} _.
Arguments wfq_valid_config {EQ BQ G} _.
Arguments wv_capacity {EQ BQ G} _ _.
Arguments wv_horizon {EQ BQ G} _ _.
Arguments wv_sources {EQ BQ G} _ _.
Arguments wfq_valid_sizes {EQ BQ G} _.
Arguments wfq_sized {EQ BQ G} _ _.
Arguments ws_sources {EQ BQ G} _ _ _.
Arguments ws_buffer {EQ BQ G} _ _ _.
Arguments ws_events {EQ BQ G} _ _ _.
Arguments ws_nonneg {EQ BQ G} _ _ _.
Arguments wfq_sized_ok {EQ BQ G} _.
Arguments wfq_shares {EQ BQ G} _.
Arguments wfq_idle_ext {EQ BQ G} _ _.
Arguments wfq_has_lost {EQ BQ G} _.
Arguments wfq_sampled {EQ BQ G} _.
Arguments wfq_valid_weights {EQ BQ G} _.

Arguments wfq_work_conserving {EQ BQ G} _.
Arguments wfq_ledger {EQ BQ G} _.
Arguments wfq_ids_ok {EQ BQ G} _.
Arguments wfq_timing {EQ BQ G} _ _.
Arguments wm_flight {EQ BQ G} _ _ _.
Arguments wm_done {EQ BQ G} _ _ _.
Arguments wfq_timing_ok {EQ BQ G} _.
Arguments wfq_waiting {EQ BQ G} _.
Arguments rows_loop {EQ BQ G} _ _.
Arguments printTable {EQ BQ G} _.
Arguments arrives_in_window {EQ BQ G} _ _ _.
Arguments indexed {EQ BQ G} _.
Arguments wfq_arrivals {EQ BQ G} _ _.
Arguments wa_nodup {EQ BQ G} _ _ _.
Arguments wa_events {EQ BQ G} _ _ _.
Arguments wa_buffer {EQ BQ G} _ _ _.
Arguments wa_started {EQ BQ G} _ _ _.
Arguments wa_dropped {EQ BQ G} _ _ _.
Arguments wfq_arrivals_ok {EQ BQ G} _.
Arguments wfq_in_sequence {EQ BQ G} _.
Arguments wsq_flight {EQ BQ G} _ _.
Arguments wsq_idle {EQ BQ G} _ _.
Arguments wsq_clock {EQ BQ G} _ _.
Arguments wsq_order {EQ BQ G} _ _.
Arguments wfq_weights_bounded {EQ BQ G} _.
Arguments packets_seen {EQ BQ G} _.
Arguments finish_times_increasing {EQ BQ G} _.

End WFQ.
(** * The two simulators side by side *)

Module Refinement.

(** A WFQ packet without the two members that the FCFS packet lacks. *)
Definition forget_packet (p : WFQ.Packet) : FCFS.Packet :=
  {| FCFS.pkt_id := WFQ.pkt_id p; FCFS.pkt_sourceID := WFQ.pkt_sourceID p;
     FCFS.pkt_size := WFQ.pkt_size p;
     FCFS.pkt_arrivalTime := WFQ.pkt_arrivalTime p |}.

Definition forget_event (e : WFQ.Event) : FCFS.Event :=
  match e with
  | WFQ.PACKET_ARRIVAL t s => FCFS.PACKET_ARRIVAL t s
  | WFQ.PACKET_DEPARTURE t p => FCFS.PACKET_DEPARTURE t (forget_packet p)
  end.

Definition forget_source (src : WFQ.Source) : FCFS.Source :=
  {| FCFS.src_id := WFQ.src_id src; FCFS.packetRate := WFQ.packetRate src;
     FCFS.minSize := WFQ.minSize src; FCFS.maxSize := WFQ.maxSize src;
     FCFS.weight := WFQ.weight src; FCFS.startTime := WFQ.startTime src;
     FCFS.endTime := WFQ.endTime src |}.

Definition forget_obs (o : WFQ.Obs) : FCFS.Obs :=
  match o with
  | WFQ.Started p now _ => FCFS.Started (forget_packet p) now
  | WFQ.Departed p now => FCFS.Departed (forget_packet p) now
  | WFQ.Dropped p => FCFS.Dropped (forget_packet p)
  | WFQ.Discarded e => FCFS.Discarded (forget_event e)
  end.

Definition same_event (a : FCFS.Event) (b : WFQ.Event) : Prop :=
  a = forget_event b.

(** The departures that a history records, most recent first: which packet
    (id, source, size, arrival time) was counted at which time. *)
Fixpoint fcfs_departures (h : list FCFS.Obs) : list (FCFS.Packet * Q) :=
  match h with
  | [] => []
  | FCFS.Departed p now :: h' => (p, now) :: fcfs_departures h'
  | _ :: h' => fcfs_departures h'
  end.

Fixpoint wfq_departures (h : list WFQ.Obs) : list (FCFS.Packet * Q) :=
  match h with
  | [] => []
  | WFQ.Departed p now :: h' => (forget_packet p, now) :: wfq_departures h'
  | _ :: h' => wfq_departures h'
  end.

Definition is_drop (o : FCFS.Obs) : bool :=
  match o with
  | FCFS.Dropped _ => true
  | _ => false
  end.

Definition no_drops (h : list FCFS.Obs) : Prop :=
  Forall (fun o => is_drop o = false) h.

Definition vft_lt (p q : WFQ.Packet) : Prop :=
  WFQ.virtualFinishTime p < WFQ.virtualFinishTime q.

(** The FCFS buffer [fb], front first, holds the packets of the WFQ buffer
    [wb] in the order of their VFTs, which all differ and do not exceed
    [F]. *)
Definition sim_buffer (F : Q) (fb : list FCFS.Packet) (wb : list WFQ.Packet) : Prop :=
  exists l, Permutation l wb /\ fb = map forget_packet l /\
    StronglySorted vft_lt l /\
    Forall (fun p => WFQ.virtualFinishTime p <= F) l.

Section Sim.
Context {EQf : MinPQ FCFS.Event FCFS.ev_time} {EQw : MinPQ WFQ.Event WFQ.ev_time}
        {BQ : MinPQ WFQ.Packet WFQ.virtualFinishTime} {G : RandomEngine}.
Context (S : PQSim EQf EQw same_event).

(** An FCFS state and a WFQ state with one source that agree on everything
    the FCFS state has. *)
Record sim (f : FCFS.State EQf G) (w : WFQ.State EQw BQ G) : Prop := {
  sm_numSources : FCFS.numSources f = WFQ.numSources w;
  sm_simulationTime : FCFS.simulationTime f = WFQ.simulationTime w;
  sm_linkCapacity : FCFS.linkCapacity f = WFQ.linkCapacity w;
  sm_bufferSize : FCFS.bufferSize f = WFQ.bufferSize w;
  sm_currentTime : FCFS.currentTime f = WFQ.currentTime w;
  sm_linkBusy : FCFS.linkBusy f = WFQ.linkBusy w;
  sm_nextPacketId : FCFS.nextPacketId f = WFQ.nextPacketId w;
  sm_generator : FCFS.generator f = WFQ.generator w;
  sm_stats : FCFS.stats f = WFQ.stats w;
  sm_sources : FCFS.sources f = map forget_source (WFQ.sources w);
  sm_single : exists src, WFQ.sources w = [src] /\ WFQ.valid_source src /\
      sim_buffer (WFQ.lastFinishTime src) (FCFS.packetBuffer f)
        (pq_elems BQ (WFQ.packetBuffer w));
  sm_events : pq_sim S (FCFS.eventQueue f) (WFQ.eventQueue w);
  sm_history : FCFS.history f = map forget_obs (WFQ.history w);
}.

Definition sim_outcome (o : FCFS.outcome EQf G) (o' : WFQ.outcome EQw BQ G) : Prop :=
  match o, o' with
  | FCFS.Running f, WFQ.Running w => sim f w
  | FCFS.Halted f, WFQ.Halted w => sim f w
  | _, _ => False
  end.

End Sim.

End Refinement.
(** * wfq_simulator.cpp over IEEE 754 binary64

    [WFQ] above computes with exact rationals.  [WFQ64] is the same program
    with each [double] a binary64 number and each operation on doubles the
    correctly rounded machine operation, comparisons included; it is used
    for runs whose outcome depends on rounding.

    - The two priority queues are lists in insertion order whose [top] is
      the first element of least key.  On keys that are numbers and
      pairwise distinct this is the element [std::priority_queue] returns;
      the runs evaluated with this model never hold two equal keys or a
      NaN in a queue at once.
    - The random engine replays a tape as [ScriptedEngine] does.
    - [operator>>] stores the double nearest to the decimal field read
      ([of_Q]); [Extractor] supplies the field as a rational. *)

Module WFQ64.
Import PrimFloat.
Local Open Scope float_scope.

(** [int] and [long] converted to [double], for magnitudes below 2^63. *)
Definition of_Z (z : Z) : float :=
  if (z <? 0)%Z then - of_uint63 (Uint63.of_Z (- z))
  else of_uint63 (Uint63.of_Z z).

(** The double nearest to [n / d], ties to even, for a quotient in the
    range of the normal numbers: [m] is the 53-bit integer part of
    [n / d / 2^e] and [r] what is left of it. *)
Definition nearest (n d : positive) : float :=
  let k := (Z.log2 (Zpos n) - Z.log2 (Zpos d))%Z in
  let scaled (e : Z) : Z * Z :=
    if (e <=? 0)%Z then (Zpos n * 2 ^ (- e), Zpos d)%Z
    else (Zpos n, Zpos d * 2 ^ e)%Z in
  let e := (let '(a, b) := scaled (k - 52)%Z in
            if (a / b <? 2 ^ 52)%Z then k - 53 else k - 52)%Z in
  let '(a, b) := scaled e in
  let m := (a / b)%Z in
  let r := (a mod b)%Z in
  let m' := if ((b <? 2 * r) || ((b =? 2 * r) && Z.odd m))%Z then (m + 1)%Z else m in
  FloatOps.Z.ldexp (of_uint63 (Uint63.of_Z m')) e.

Definition of_Q (q : Q) : float :=
  match Qnum q with
  | Z0 => 0
  | Zpos n => nearest n (Qden q)
  | Zneg n => - nearest n (Qden q)
  end.

(** [std::max(a, b)] is [(a < b) ? b : a]. *)
Definition fmax (a b : float) : float := if a <? b then b else a.

Record Packet : Type := {
  pkt_id : Z;
  pkt_sourceID : nat;
  pkt_size : Z;
  pkt_weight : float;
  pkt_arrivalTime : float;
  virtualFinishTime : float;
}.

Inductive Event : Type :=
  | PACKET_ARRIVAL (time : float) (sourceID : nat)
  | PACKET_DEPARTURE (time : float) (packet : Packet).

Definition ev_time (e : Event) : float :=
  match e with
  | PACKET_ARRIVAL t _ => t
  | PACKET_DEPARTURE t _ => t
  end.

Record Source : Type := {
  src_id : nat;
  packetRate : float;
  minSize : Z;
  maxSize : Z;
  weight : float;
  startTime : float;
  endTime : float;
  lastFinishTime : float;
}.

Definition set_lastFinishTime (f : float) (src : Source) : Source :=
  {| src_id := src_id src; packetRate := packetRate src; minSize := minSize src;
     maxSize := maxSize src; weight := weight src; startTime := startTime src;
     endTime := endTime src; lastFinishTime := f |}.

Record SourceStats : Type := {
  packetsGenerated : Z;
  packetsTransmitted : Z;
  packetsDropped : Z;
  bytesTransmitted : float;
  totalDelay : float;
}.

Definition SourceStats_init : SourceStats :=
  {| packetsGenerated := 0; packetsTransmitted := 0; packetsDropped := 0;
     bytesTransmitted := 0; totalDelay := 0 |}.

Definition incr_generated (r : SourceStats) : SourceStats :=
  {| packetsGenerated := packetsGenerated r + 1;
     packetsTransmitted := packetsTransmitted r;
     packetsDropped := packetsDropped r;
     bytesTransmitted := bytesTransmitted r;
     totalDelay := totalDelay r |}.

Definition incr_dropped (r : SourceStats) : SourceStats :=
  {| packetsGenerated := packetsGenerated r;
     packetsTransmitted := packetsTransmitted r;
     packetsDropped := packetsDropped r + 1;
     bytesTransmitted := bytesTransmitted r;
     totalDelay := totalDelay r |}.

Definition record_departure (size : Z) (delay : float) (r : SourceStats)
    : SourceStats :=
  {| packetsGenerated := packetsGenerated r;
     packetsTransmitted := packetsTransmitted r + 1;
     packetsDropped := packetsDropped r;
     bytesTransmitted := bytesTransmitted r + of_Z size;
     totalDelay := totalDelay r + delay |}.

(** What the history variable records. *)
Inductive Obs : Type :=
  | Started (p : Packet) (now : float) (v : float)
  | Departed (p : Packet) (now : float)
  | Dropped (p : Packet)
  | Discarded (e : Event).

(** The queue operations. *)
Fixpoint extract_min {A} (key : A -> float) (l : list A) : option (A * list A) :=
  match l with
  | [] => None
  | x :: l' =>
      match extract_min key l' with
      | None => Some (x, [])
      | Some (m, r) => if key m <? key x then Some (m, x :: r) else Some (x, l')
      end
  end.

Definition top {A} (key : A -> float) (l : list A) : result A :=
  match extract_min key l with
  | Some (x, _) => Ok x
  | None => Undefined TopOfEmptyQueue
  end.

Definition pop {A} (key : A -> float) (l : list A) : list A :=
  match extract_min key l with
  | Some (_, r) => r
  | None => []
  end.

Definition push {A} (x : A) (l : list A) : list A := l ++ [x].

Record State : Type := {
  numSources : Z;
  simulationTime : float;
  linkCapacity : float;
  bufferSize : nat;
  currentTime : float;
  systemVirtualTime : float;
  linkBusy : bool;
  nextPacketId : Z;
  sources : list Source;
  stats : list SourceStats;
  packetBuffer : list Packet;
  eventQueue : list Event;
  generator : list Z;
  history : list Obs;                  (* most recent first *)
}.

Definition set_currentTime (t : float) (st : State) : State :=
  {| numSources := numSources st; simulationTime := simulationTime st;
     linkCapacity := linkCapacity st; bufferSize := bufferSize st;
     currentTime := t; systemVirtualTime := systemVirtualTime st;
     linkBusy := linkBusy st; nextPacketId := nextPacketId st;
     sources := sources st; stats := stats st;
     packetBuffer := packetBuffer st; eventQueue := eventQueue st;
     generator := generator st; history := history st |}.

Definition set_systemVirtualTime (v : float) (st : State) : State :=
  {| numSources := numSources st; simulationTime := simulationTime st;
     linkCapacity := linkCapacity st; bufferSize := bufferSize st;
     currentTime := currentTime st; systemVirtualTime := v;
     linkBusy := linkBusy st; nextPacketId := nextPacketId st;
     sources := sources st; stats := stats st;
     packetBuffer := packetBuffer st; eventQueue := eventQueue st;
     generator := generator st; history := history st |}.

Definition set_linkBusy (b : bool) (st : State) : State :=
  {| numSources := numSources st; simulationTime := simulationTime st;
     linkCapacity := linkCapacity st; bufferSize := bufferSize st;
     currentTime := currentTime st; systemVirtualTime := systemVirtualTime st;
     linkBusy := b; nextPacketId := nextPacketId st;
     sources := sources st; stats := stats st;
     packetBuffer := packetBuffer st; eventQueue := eventQueue st;
     generator := generator st; history := history st |}.

Definition set_nextPacketId (n : Z) (st : State) : State :=
  {| numSources := numSources st; simulationTime := simulationTime st;
     linkCapacity := linkCapacity st; bufferSize := bufferSize st;
     currentTime := currentTime st; systemVirtualTime := systemVirtualTime st;
     linkBusy := linkBusy st; nextPacketId := n;
     sources := sources st; stats := stats st;
     packetBuffer := packetBuffer st; eventQueue := eventQueue st;
     generator := generator st; history := history st |}.

Definition set_sources (s : list Source) (st : State) : State :=
  {| numSources := numSources st; simulationTime := simulationTime st;
     linkCapacity := linkCapacity st; bufferSize := bufferSize st;
     currentTime := currentTime st; systemVirtualTime := systemVirtualTime st;
     linkBusy := linkBusy st; nextPacketId := nextPacketId st;
     sources := s; stats := stats st;
     packetBuffer := packetBuffer st; eventQueue := eventQueue st;
     generator := generator st; history := history st |}.

Definition set_stats (s : list SourceStats) (st : State) : State :=
  {| numSources := numSources st; simulationTime := simulationTime st;
     linkCapacity := linkCapacity st; bufferSize := bufferSize st;
     currentTime := currentTime st; systemVirtualTime := systemVirtualTime st;
     linkBusy := linkBusy st; nextPacketId := nextPacketId st;
     sources := sources st; stats := s;
     packetBuffer := packetBuffer st; eventQueue := eventQueue st;
     generator := generator st; history := history st |}.

Definition set_packetBuffer (b : list Packet) (st : State) : State :=
  {| numSources := numSources st; simulationTime := simulationTime st;
     linkCapacity := linkCapacity st; bufferSize := bufferSize st;
     currentTime := currentTime st; systemVirtualTime := systemVirtualTime st;
     linkBusy := linkBusy st; nextPacketId := nextPacketId st;
     sources := sources st; stats := stats st;
     packetBuffer := b; eventQueue := eventQueue st;
     generator := generator st; history := history st |}.

Definition set_eventQueue (q : list Event) (st : State) : State :=
  {| numSources := numSources st; simulationTime := simulationTime st;
     linkCapacity := linkCapacity st; bufferSize := bufferSize st;
     currentTime := currentTime st; systemVirtualTime := systemVirtualTime st;
     linkBusy := linkBusy st; nextPacketId := nextPacketId st;
     sources := sources st; stats := stats st;
     packetBuffer := packetBuffer st; eventQueue := q;
     generator := generator st; history := history st |}.

Definition set_generator (g : list Z) (st : State) : State :=
  {| numSources := numSources st; simulationTime := simulationTime st;
     linkCapacity := linkCapacity st; bufferSize := bufferSize st;
     currentTime := currentTime st; systemVirtualTime := systemVirtualTime st;
     linkBusy := linkBusy st; nextPacketId := nextPacketId st;
     sources := sources st; stats := stats st;
     packetBuffer := packetBuffer st; eventQueue := eventQueue st;
     generator := g; history := history st |}.

Definition observe (o : Obs) (st : State) : State :=
  {| numSources := numSources st; simulationTime := simulationTime st;
     linkCapacity := linkCapacity st; bufferSize := bufferSize st;
     currentTime := currentTime st; systemVirtualTime := systemVirtualTime st;
     linkBusy := linkBusy st; nextPacketId := nextPacketId st;
     sources := sources st; stats := stats st;
     packetBuffer := packetBuffer st; eventQueue := eventQueue st;
     generator := generator st; history := o :: history st |}.

(** The draws of the scripted engine: an interarrival time is the next
    entry of the tape in milliseconds, a size the next entry reduced into
    [[a, b]]. *)
Definition exponential_draw (g : list Z) : float * list Z :=
  match g with
  | [] => (1, [])
  | z :: g' => (of_Z (Z.abs z) / 1000, g')
  end.

Definition uniform_int_draw (a b : Z) (g : list Z) : Z * list Z :=
  match g with
  | [] => (a, [])
  | z :: g' => ((a + z mod (b - a + 1))%Z, g')
  end.

Definition scheduleEvent (e : Event) (st : State) : State :=
  if ev_time e <=? simulationTime st
  then set_eventQueue (push e (eventQueue st)) st
  else observe (Discarded e) st.

Definition startNextTransmission (st : State) : result State :=
  if linkBusy st || Nat.eqb (length (packetBuffer st)) 0 then Ok st
  else
    let st := set_linkBusy true st in
    packetToTransmit ← top virtualFinishTime (packetBuffer st);
    let st := set_packetBuffer (pop virtualFinishTime (packetBuffer st)) st in
    let virtualStartTime :=
      virtualFinishTime packetToTransmit
      - of_Z (pkt_size packetToTransmit) / pkt_weight packetToTransmit in
    let st := set_systemVirtualTime virtualStartTime st in
    let transmissionTime := of_Z (pkt_size packetToTransmit) / linkCapacity st in
    Ok (scheduleEvent
          (PACKET_DEPARTURE (currentTime st + transmissionTime) packetToTransmit)
          (observe (Started packetToTransmit (currentTime st) (systemVirtualTime st))
             st)).

Definition handleArrivalEvent (srcID : nat) (st : State) : result State :=
  src ← at_index (sources st) srcID;
  (* 1. Schedule next arrival *)
  let '(dt, g) := exponential_draw (generator st) in
  let st := set_generator g st in
  let nextArrivalTime := currentTime st + dt in
  let st := if nextArrivalTime <? endTime src
            then scheduleEvent (PACKET_ARRIVAL nextArrivalTime srcID) st
            else st in
  (* 2. Generate packet *)
  let '(sz, g) := uniform_int_draw (minSize src) (maxSize src) (generator st) in
  let virtualStartTime := fmax (systemVirtualTime st) (lastFinishTime src) in
  let newPacket :=
    {| pkt_id := nextPacketId st; pkt_sourceID := srcID; pkt_size := sz;
       pkt_weight := weight src; pkt_arrivalTime := currentTime st;
       virtualFinishTime := virtualStartTime + of_Z sz / weight src |} in
  let st := set_nextPacketId (nextPacketId st + 1) (set_generator g st) in
  sources1 ← modify_at (set_lastFinishTime (virtualFinishTime newPacket)) srcID
               (sources st);
  let st := set_sources sources1 st in
  stats1 ← modify_at incr_generated srcID (stats st);
  let st := set_stats stats1 st in
  (* 3. Buffer management *)
  st ← (if (length (packetBuffer st) <? bufferSize st)%nat
        then Ok (set_packetBuffer (push newPacket (packetBuffer st)) st)
        else
          packetToDrop ← top virtualFinishTime (packetBuffer st);
          let st := set_packetBuffer (pop virtualFinishTime (packetBuffer st)) st in
          stats1 ← modify_at incr_dropped (pkt_sourceID packetToDrop) (stats st);
          let st := observe (Dropped packetToDrop) (set_stats stats1 st) in
          Ok (set_packetBuffer (push newPacket (packetBuffer st)) st));
  (* 4. Try transmission *)
  startNextTransmission st.

Definition handleDepartureEvent (p : Packet) (st : State) : result State :=
  let st := set_linkBusy false st in
  let srcID := pkt_sourceID p in
  stats1 ← modify_at
    (record_departure (pkt_size p) (currentTime st - pkt_arrivalTime p))
    srcID (stats st);
  let st := observe (Departed p (currentTime st)) (set_stats stats1 st) in
  startNextTransmission st.

Definition prime (st : State) : State :=
  fold_left
    (fun st src => scheduleEvent (PACKET_ARRIVAL (startTime src) (src_id src)) st)
    (sources st) st.

Inductive outcome : Type :=
  | Running (st : State)
  | Halted (st : State).

Definition state_of (o : outcome) : State :=
  match o with
  | Running st => st
  | Halted st => st
  end.

Definition step (st : State) : result outcome :=
  if Nat.eqb (length (eventQueue st)) 0 then Ok (Halted st)
  else
    currentEvent ← top ev_time (eventQueue st);
    let st := set_eventQueue (pop ev_time (eventQueue st)) st in
    let st := set_currentTime (ev_time currentEvent) st in
    if simulationTime st <? currentTime st then Ok (Halted st)
    else
      st ← match currentEvent with
           | PACKET_ARRIVAL _ srcID => handleArrivalEvent srcID st
           | PACKET_DEPARTURE _ p => handleDepartureEvent p st
           end;
      Ok (Running st).

Fixpoint loop (fuel : nat) (st : State) : result outcome :=
  match fuel with
  | O => Ok (Running st)
  | S fuel' =>
      o ← step st;
      match o with
      | Running st' => loop fuel' st'
      | Halted st' => Ok (Halted st')
      end
  end.

Definition run (fuel : nat) (st : State) : result outcome :=
  loop fuel (prime st).

(** The headline metrics of [printResults]. *)
Record Metrics : Type := {
  util : float;
  avgDelay : float;
  dropProb : float;
  fairness : float;
}.

Record Totals : Type := {
  totGen : Z;
  totTrans : Z;
  totDrop : Z;
  totBytes : float;
  totDelay : float;
  sum_x : float;
  sum_x_sq : float;
}.

Definition Totals_init : Totals :=
  {| totGen := 0; totTrans := 0; totDrop := 0; totBytes := 0; totDelay := 0;
     sum_x := 0; sum_x_sq := 0 |}.

Fixpoint sum_loop (st : State) (idx : list nat) (t : Totals) : result Totals :=
  match idx with
  | [] => Ok t
  | i :: rest =>
      r ← at_index (stats st) i;
      src ← at_index (sources st) i;
      let x_i := if 0 <? weight src then bytesTransmitted r / weight src else 0 in
      sum_loop st rest
        {| totGen := totGen t + packetsGenerated r;
           totTrans := totTrans t + packetsTransmitted r;
           totDrop := totDrop t + packetsDropped r;
           totBytes := totBytes t + bytesTransmitted r;
           totDelay := totDelay t + totalDelay r;
           sum_x := sum_x t + x_i;
           sum_x_sq := sum_x_sq t + x_i * x_i |}
  end.

Definition printResults (st : State) : result Metrics :=
  t ← sum_loop st (seq 0 (Z.to_nat (numSources st))) Totals_init;
  Ok {| util := (totBytes t / linkCapacity st) / simulationTime st;
        avgDelay := if (0 <? totTrans t)%Z
                    then totDelay t / of_Z (totTrans t) else 0;
        dropProb := if (0 <? totGen t)%Z
                    then of_Z (totDrop t) / of_Z (totGen t) else 0;
        fairness := if 0 <? sum_x_sq t
                    then (sum_x t * sum_x t) / (of_Z (numSources st) * sum_x_sq t)
                    else 0 |}.

Fixpoint read_sources (X : Extractor) (T : float) (i n : nat) (lines : list string)
    (acc : list Source) : exn + list Source :=
  match n with
  | O => inr acc
  | S n' =>
      match lines with
      | [] => inl MissingSourceConfigurations
      | line :: rest =>
          let '(rate, minSz, maxSz, w, tb_frac, te_frac) := extract_source X line in
          read_sources X T (S i) n' rest
            (acc ++ [{| src_id := i; packetRate := of_Q rate; minSize := minSz;
                        maxSize := maxSz; weight := of_Q w;
                        startTime := of_Q tb_frac * T; endTime := of_Q te_frac * T;
                        lastFinishTime := 0 |}])
      end
  end.

Definition loadConfig (X : Extractor) (tape : list Z) (file : option (list string))
    : exn + State :=
  match file with
  | None => inl CouldNotOpenInputFile
  | Some [] => inl EmptyConfigFile
  | Some (line :: rest) =>
      let '(n, T, C, B) := extract_header X line in
      if (n <? 0)%Z then inl LengthError
      else
        match read_sources X (of_Q T) 0 (Z.to_nat n) rest [] with
        | inl e => inl e
        | inr srcs =>
            inr {| numSources := n; simulationTime := of_Q T;
                   linkCapacity := of_Q C;
                   bufferSize := B; currentTime := 0; systemVirtualTime := 0;
                   linkBusy := false; nextPacketId := 1; sources := srcs;
                   stats := replicate (Z.to_nat n) SourceStats_init;
                   packetBuffer := []; eventQueue := [];
                   generator := tape; history := [] |}
        end
  end.

(** The values of [systemVirtualTime] sampled at the transmission starts of
    the packets of source [s], most recent first. *)
Fixpoint samples_of (s : nat) (h : list Obs) : list float :=
  match h with
  | [] => []
  | Started p _ v :: h' =>
      if Nat.eqb (pkt_sourceID p) s then v :: samples_of s h' else samples_of s h'
  | _ :: h' => samples_of s h'
  end.

End WFQ64.
(** * Facts shared by the two simulators *)

Lemma Qltb_lt a b : Qltb a b = true <-> a < b.
Proof.
  unfold Qltb. rewrite negb_true_iff, <- not_true_iff_false, Qle_bool_iff.
  split; [apply Qnot_le_lt | apply Qlt_not_le].
Qed.

Lemma Qltb_ge a b : Qltb a b = false <-> b <= a.
Proof.
  unfold Qltb. rewrite negb_false_iff. apply Qle_bool_iff.
Qed.

(** ** The list queue satisfies the laws *)

Section ListPQFacts.
Context {A : Type} (key : A -> Q).

Lemma extract_min_none l : extract_min key l = None <-> l = [].
Proof.
  destruct l as [|x l]; simpl; [tauto|].
  split; [|discriminate].
  destruct (extract_min key l) as [[m r]|]; [destruct (Qltb _ _)|]; discriminate.
Qed.

Lemma extract_min_perm l m r :
  extract_min key l = Some (m, r) -> Permutation l (m :: r).
Proof.
  revert m r. induction l as [|x l IH]; simpl; intros m r H; [discriminate|].
  destruct (extract_min key l) as [[m' r']|] eqn:E.
  - specialize (IH _ _ eq_refl).
    destruct (Qltb (key m') (key x)); inversion H; subst; clear H.
    + rewrite IH. apply perm_swap.
    + reflexivity.
  - apply extract_min_none in E. subst l. inversion H; subst. reflexivity.
Qed.

Lemma extract_min_least l m r :
  extract_min key l = Some (m, r) -> Forall (fun y => key m <= key y) l.
Proof.
  revert m r. induction l as [|x l IH]; simpl; intros m r H; [discriminate|].
  destruct (extract_min key l) as [[m' r']|] eqn:E.
  - specialize (IH _ _ eq_refl).
    destruct (Qltb (key m') (key x)) eqn:C; inversion H; subst; clear H.
    + apply Qltb_lt in C. constructor; [lra | exact IH].
    + apply Qltb_ge in C. constructor; [lra|].
      eapply Forall_impl; [exact IH|]. intros y Hy. simpl in Hy. lra.
  - apply extract_min_none in E. subst l. inversion H; subst.
    constructor; [lra | constructor].
Qed.

Lemma list_push_elems (x : A) (q : list A) : Permutation (q ++ [x]) (x :: q).
Proof. symmetry. apply Permutation_cons_append. Qed.

Lemma list_top_none q : list_top key q = None <-> q = [].
Proof.
  unfold list_top. rewrite <- extract_min_none.
  destruct (extract_min key q); simpl; split; congruence.
Qed.

Lemma list_top_pop q x : list_top key q = Some x -> Permutation q (x :: list_pop key q).
Proof.
  unfold list_top, list_pop.
  destruct (extract_min key q) as [[m r]|] eqn:E; simpl; [|discriminate].
  intros [= ->]. by apply extract_min_perm.
Qed.

Lemma list_top_min q x : list_top key q = Some x -> Forall (fun y => key x <= key y) q.
Proof.
  unfold list_top.
  destruct (extract_min key q) as [[m r]|] eqn:E; simpl; [|discriminate].
  intros [= ->]. by eapply extract_min_least.
Qed.

Definition ListPQ : MinPQ A key := {|
  pq_t := list A;
  pq_new := [];
  pq_push := fun x q => q ++ [x];
  pq_top := list_top key;
  pq_pop := list_pop key;
  pq_elems := fun q => q;
  pq_new_elems := eq_refl;
  pq_push_elems := list_push_elems;
  pq_top_none := list_top_none;
  pq_top_pop := list_top_pop;
  pq_top_min := list_top_min;
|}.
End ListPQFacts.

Lemma count_app {A} (f : A -> bool) (l1 l2 : list A) :
  count f (l1 ++ l2) = (count f l1 + count f l2)%nat.
Proof. induction l1 as [|x l1 IH]; simpl; [reflexivity | rewrite IH; lia]. Qed.

Lemma count_perm {A} (f : A -> bool) (l1 l2 : list A) :
  Permutation l1 l2 -> count f l1 = count f l2.
Proof. induction 1; simpl; lia. Qed.

#[export] Instance count_proper {A} (f : A -> bool) :
  Proper (Permutation ==> eq) (count f).
Proof. intros l1 l2 H. by apply count_perm. Qed.

Lemma count_zero_Forall {A} (f : A -> bool) (l : list A) :
  count f l = 0%nat <-> Forall (fun x => f x = false) l.
Proof.
  induction l as [|x l IH]; simpl.
  - split; [constructor | reflexivity].
  - rewrite Forall_cons. destruct (f x); simpl.
    + split; [discriminate | intros [? _]; discriminate].
    + rewrite IH. tauto.
Qed.

Lemma count_le {A} (f g : A -> bool) (l : list A) :
  (forall x, f x = true -> g x = true) -> (count f l <= count g l)%nat.
Proof.
  intros H. induction l as [|x l IH]; simpl; [lia|].
  destruct (f x) eqn:E; [rewrite (H _ E); lia | destruct (g x); lia].
Qed.

Lemma count_In {A} (f : A -> bool) (l : list A) x :
  In x l -> f x = true -> (1 <= count f l)%nat.
Proof.
  induction l as [|y l IH]; simpl; [tauto|].
  intros [->|H] Hx; [rewrite Hx; lia|]. specialize (IH H Hx). lia.
Qed.

Lemma bind_Ok {A B} (f : A -> result B) (m : result A) (b : B) :
  m ≫= f = Ok b -> exists a, m = Ok a /\ f a = Ok b.
Proof. destruct m as [a|w]; simpl; [eauto | discriminate]. Qed.

Lemma at_index_Ok {A} (l : list A) i a : at_index l i = Ok a <-> l !! i = Some a.
Proof. unfold at_index. destruct (l !! i); split; congruence. Qed.

Lemma at_index_lt {A} (l : list A) i :
  (i < length l)%nat -> exists a, at_index l i = Ok a.
Proof.
  intros H. destruct (lookup_lt_is_Some_2 l i H) as [a Ha].
  exists a. by apply at_index_Ok.
Qed.

Lemma modify_at_Ok {A} (f : A -> A) (l l' : list A) i :
  modify_at f i l = Ok l' <-> (i < length l)%nat /\ l' = alter f i l.
Proof.
  unfold modify_at. destruct (l !! i) eqn:E.
  - apply lookup_lt_Some in E. split; [intros [= <-]; auto | intros [_ ->]; auto].
  - apply lookup_ge_None in E. split; [discriminate | lia].
Qed.

Lemma modify_at_lt {A} (f : A -> A) (l : list A) i :
  (i < length l)%nat -> modify_at f i l = Ok (alter f i l).
Proof. intros H. apply modify_at_Ok. auto. Qed.

Lemma pq_is_empty_true {A key} (P : MinPQ A key) (q : pq_t P) :
  pq_is_empty P q = true <-> pq_elems P q = [].
Proof.
  unfold pq_is_empty, pq_size. rewrite Nat.eqb_eq.
  destruct (pq_elems P q); simpl; split; congruence.
Qed.

Lemma pq_nonempty_top {A key} (P : MinPQ A key) (q : pq_t P) :
  pq_is_empty P q = false -> exists x, pq_top P q = Some x.
Proof.
  intros H. destruct (pq_top P q) as [x|] eqn:E; [eauto|].
  apply pq_top_none in E. apply pq_is_empty_true in E. congruence.
Qed.

(** Splits a hypothesis [m ≫= f = Ok b] into its two steps. *)
Ltac bind_inv H :=
  let a := fresh "a" in
  let H1 := fresh H "a" in
  apply bind_Ok in H; destruct H as (a & H1 & H).

Lemma lookup_alter_Some {A} (f : A -> A) i (l : list A) s r :
  alter f i l !! s = Some r ->
  (s = i /\ exists r0, l !! i = Some r0 /\ r = f r0) \/ (s <> i /\ l !! s = Some r).
Proof.
  rewrite list_lookup_alter. case_decide as E.
  - subst s. destruct (l !! i) as [r0|]; simpl; [|discriminate].
    intros [= <-]. left. eauto.
  - intros Hr. right. auto.
Qed.

(** Case analysis on a lookup in a vector after in-place updates. *)
Ltac alter_cases Hr :=
  repeat match type of Hr with
  | alter _ ?i _ !! ?s = Some _ =>
      apply lookup_alter_Some in Hr;
      let r0 := fresh "r" in
      let Heq := fresh "Heq" in
      destruct Hr as [(Heq & r0 & Hr & ->)|[? Hr]];
      [try (first [subst s | subst i])|]
  end.

Lemma map_alter_same {A B} (g : A -> B) (f : A -> A) i (l : list A) :
  (forall a, g (f a) = g a) -> map g (alter f i l) = map g l.
Proof.
  intros H. revert i. induction l as [|a l IH]; intros [|i]; simpl; auto.
  - by rewrite H.
  - f_equal. apply IH.
Qed.

Lemma Qsum_alter {A} (g : A -> Q) (f : A -> A) i (l : list A) a :
  l !! i = Some a ->
  Qsum (map g (alter f i l)) == Qsum (map g l) + (g (f a) - g a).
Proof.
  revert i. induction l as [|b l IH]; intros [|i]; simpl; try discriminate.
  - intros [= ->]. lra.
  - intros H. unfold alter in IH. rewrite (IH _ H). lra.
Qed.

Lemma Forall_alter_keep {A} (P : A -> Prop) (f : A -> A) i (l : list A) :
  (forall a, P a -> P (f a)) -> Forall P l -> Forall P (alter f i l).
Proof.
  intros H. revert i. induction l as [|b l IH]; intros i Hl; [destruct i; done|].
  apply Forall_cons in Hl as [Hb Hl].
  destruct i; simpl; constructor; auto. by apply IH.
Qed.

(** ** Jain's index over exact rationals *)

Lemma Qlen_cons x l : Qlen (x :: l) == Qlen l + 1.
Proof.
  unfold Qlen. simpl length. rewrite Nat2Z.inj_succ, <- Z.add_1_r, inject_Z_plus.
  reflexivity.
Qed.

Lemma Qlen_nonneg l : 0 <= Qlen l.
Proof. unfold Qlen. change 0 with (inject_Z 0). rewrite <- Zle_Qle. lia. Qed.

Lemma sqr_nonneg x : 0 <= sqr x.
Proof. unfold sqr. nra. Qed.

Lemma sqr_zero x : sqr x == 0 -> x == 0.
Proof. unfold sqr. intros H. nra. Qed.

Lemma Qsum_nonneg l : Forall (fun x => 0 <= x) l -> 0 <= Qsum l.
Proof. induction 1; simpl; lra. Qed.

Lemma dev_nonneg c l : 0 <= dev c l.
Proof.
  unfold dev. induction l as [|y l IH]; simpl; [lra|].
  pose proof (sqr_nonneg (y - c)). lra.
Qed.

Lemma dev_zero c l : dev c l == 0 <-> Forall (fun y => y == c) l.
Proof.
  induction l as [|y l IH]; unfold dev in *; simpl.
  - split; [constructor | reflexivity].
  - pose proof (sqr_nonneg (y - c)) as H1. pose proof (dev_nonneg c l) as H2.
    unfold dev in H2. rewrite Forall_cons. split.
    + intros H. split.
      * assert (sqr (y - c) == 0) as E by lra. apply sqr_zero in E. lra.
      * apply IH. lra.
    + intros [Hy Hl]. apply IH in Hl.
      assert (sqr (y - c) == 0) as E by (unfold sqr; rewrite Hy; ring). lra.
Qed.

Lemma dev_expand c l :
  dev c l == Qsum (map sqr l) - 2 * c * Qsum l + Qlen l * sqr c.
Proof.
  induction l as [|y l IH]; unfold dev in *.
  - simpl. unfold Qlen, sqr. simpl. ring.
  - simpl map. simpl Qsum. rewrite IH, Qlen_cons. unfold sqr. ring.
Qed.


Lemma spread_cons x l : spread (x :: l) == spread l + dev x l.
Proof.
  unfold spread. rewrite dev_expand, Qlen_cons. simpl. unfold sqr. ring.
Qed.

Lemma spread_nonneg l : 0 <= spread l.
Proof.
  induction l as [|x l IH].
  - unfold spread, Qlen, sqr. simpl. lra.
  - rewrite spread_cons. pose proof (dev_nonneg x l). lra.
Qed.

Lemma all_equal_cons x l :
  all_equal (x :: l) <-> all_equal l /\ Forall (fun y => y == x) l.
Proof.
  unfold all_equal. split.
  - intros H. split.
    + intros a b Ha Hb. apply H; by apply list_elem_of_further.
    + apply Forall_forall. intros y Hy.
      apply H; [by apply list_elem_of_further | apply list_elem_of_here].
  - intros [H1 H2] a b Ha Hb. rewrite Forall_forall in H2.
    apply elem_of_cons in Ha as [->|Ha]; apply elem_of_cons in Hb as [->|Hb].
    + reflexivity.
    + symmetry. by apply H2.
    + by apply H2.
    + by apply H1.
Qed.

Lemma spread_zero l : spread l == 0 <-> all_equal l.
Proof.
  induction l as [|x l IH].
  - split; [intros _ a b Ha; by apply elem_of_nil in Ha|].
    intros _. unfold spread, Qlen, sqr. simpl. ring.
  - rewrite spread_cons, all_equal_cons, <- IH, <- dev_zero.
    pose proof (spread_nonneg l). pose proof (dev_nonneg x l).
    split; [intros E; split; lra | intros [E1 E2]; lra].
Qed.

Lemma sum_squares_le l :
  Forall (fun x => 0 <= x) l -> Qsum (map sqr l) <= sqr (Qsum l).
Proof.
  induction 1 as [|x l Hx Hl IH]; simpl.
  - unfold sqr. lra.
  - pose proof (Qsum_nonneg l Hl) as Hs. unfold sqr in *. nra.
Qed.

(** The three facts about [(sum x)^2 / (n * sum x^2)] when it is defined. *)
Lemma jain_bounds (l : list Q) (sx sq : Q) :
  sx == Qsum l -> sq == Qsum (map sqr l) ->
  Forall (fun x => 0 <= x) l -> 0 < sq ->
  let J := (sx * sx) / (Qlen l * sq) in
  1 / Qlen l <= J /\ J <= 1 /\ (J == 1 <-> all_equal l).
Proof.
  intros Hsx Hsq Hpos Hlt J.
  assert (Hn : 1 <= Qlen l).
  { destruct l as [|x l]; [simpl in Hsq; lra|].
    rewrite Qlen_cons. pose proof (Qlen_nonneg l). lra. }
  pose proof (spread_nonneg l) as Hsp. unfold spread in Hsp.
  pose proof (sum_squares_le l Hpos) as Hle.
  assert (Hd : 0 < Qlen l * sq) by nra.
  assert (HJ : J * (Qlen l * sq) == sx * sx) by (unfold J; field; lra).
  unfold sqr in *. split; [|split].
  - unfold J. apply Qle_shift_div_l; [exact Hd|].
    assert (1 / Qlen l * (Qlen l * sq) == sq) as -> by (field; lra).
    rewrite Hsx, Hsq. exact Hle.
  - unfold J. apply Qle_shift_div_r; [exact Hd|].
    rewrite Hsx, Hsq. lra.
  - rewrite <- spread_zero. unfold spread, sqr. rewrite <- Hsx, <- Hsq. split.
    + intros E. rewrite E in HJ. lra.
    + intros E. assert (sx * sx == Qlen l * sq) as E' by lra.
      unfold J. rewrite E'. field. lra.
Qed.

Lemma sum_squares_nonneg l : 0 <= Qsum (map sqr l).
Proof.
  induction l as [|x l IH]; simpl; [lra|]. pose proof (sqr_nonneg x). lra.
Qed.

Lemma sum_squares_zero l : Qsum (map sqr l) == 0 <-> Forall (fun x => x == 0) l.
Proof.
  induction l as [|x l IH]; simpl.
  - split; [constructor | reflexivity].
  - pose proof (sqr_nonneg x). pose proof (sum_squares_nonneg l).
    rewrite Forall_cons, <- IH. split.
    + intros E. split; [apply sqr_zero|]; lra.
    + intros [E1 E2]. assert (sqr x == 0) by (unfold sqr; rewrite E1; ring). lra.
Qed.

(** The index computed without rounding, for values that are not all 0. *)
Lemma jain_exact (xs : list Q) :
  Forall (fun x => 0 <= x) xs -> ~ Forall (fun x => x == 0) xs ->
  1 / Qlen xs <= jain xs /\ jain xs <= 1 /\ (jain xs == 1 <-> all_equal xs).
Proof.
  intros Hpos Hnz. apply jain_bounds; try reflexivity; [exact Hpos|].
  pose proof (sum_squares_nonneg xs) as H0.
  destruct (Qlt_le_dec 0 (Qsum (map sqr xs))) as [H|H]; [exact H|].
  exfalso. apply Hnz. apply sum_squares_zero. lra.
Qed.

(** The [fairness] field of [metrics_of]: never negative, and 0 when every
    x_i is 0. *)
Lemma fairness_reported (n : Z) (C T : Q) (t : Totals) (xs : list Q) :
  inject_Z n = Qlen xs ->
  sum_x_sq t == Qsum (map sqr xs) ->
  let J := fairness (metrics_of n C T t) in
  0 <= J /\ (Forall (fun x => x == 0) xs -> J = 0).
Proof.
  intros Hn Hsq. simpl.
  destruct (Qltb 0 (sum_x_sq t)) eqn:E.
  - apply Qltb_lt in E. split.
    + rewrite Hn. pose proof (Qlen_nonneg xs) as Hl.
      assert (Hsx : 0 <= sum_x t * sum_x t) by nra.
      destruct (Qlt_le_dec 0 (Qlen xs)) as [Hp|Hz].
      * apply Qle_shift_div_l; [nra | lra].
      * assert (Hq : Qlen xs == 0) by lra.
        assert (Hd : Qlen xs * sum_x_sq t == 0) by (rewrite Hq; ring).
        unfold Qdiv. rewrite Hd. change (/ 0) with 0. lra.
    + intros Hz. apply sum_squares_zero in Hz. lra.
  - split; [lra | done].
Qed.

(** * Facts about the FCFS simulator *)

Module FCFSFacts.
Import FCFS.

Section Invariant.
Context {EQ : MinPQ Event ev_time} {G : RandomEngine}.
Local Abbreviation State := (State EQ G).


Lemma fcfs_inv_perm evs evs' (st : State) :
  Permutation evs evs' -> fcfs_inv evs st -> fcfs_inv evs' st.
Proof.
  intros P [].
  split; try done; try (by rewrite <- P).
  intros s r Hr. rewrite <- P. auto.
Qed.

Lemma scheduleEvent_arrival_ok t s (st : State) :
  (s < length (stats st))%nat -> fcfs_ok st ->
  fcfs_ok (scheduleEvent (PACKET_ARRIVAL t s) st).
Proof.
  intros Hs H. unfold fcfs_ok, scheduleEvent. simpl.
  destruct (Qle_bool t (simulationTime st)) eqn:E.
  - simpl. eapply fcfs_inv_perm; [symmetry; apply pq_push_elems|].
    apply Qle_bool_iff in E.
    destruct H. split; simpl; auto.
  - destruct H. split; simpl; auto.
Qed.

Lemma scheduleNextArrival_ok srcID src (st : State) :
  (srcID < length (stats st))%nat -> fcfs_ok st ->
  fcfs_ok (scheduleNextArrival srcID src st).
Proof.
  intros Hs H. unfold scheduleNextArrival.
  destruct (exponential_draw G (packetRate src) (generator st)) as [dt g].
  assert (H' : fcfs_ok (set_generator g st)) by (destruct H; split; simpl; auto).
  simpl. destruct (Qltb _ _); [|exact H'].
  by apply scheduleEvent_arrival_ok.
Qed.

Lemma scheduleNextArrival_frame srcID src (st : State) :
  let st' := scheduleNextArrival srcID src st in
  sources st' = sources st /\ stats st' = stats st /\
  packetBuffer st' = packetBuffer st /\ linkBusy st' = linkBusy st /\
  bufferSize st' = bufferSize st.
Proof.
  unfold scheduleNextArrival, scheduleEvent.
  destruct (exponential_draw G (packetRate src) (generator st)) as [dt g].
  simpl. destruct (Qltb _ _); [destruct (Qle_bool _ _)|]; simpl; auto.
Qed.

Lemma generate_buffer_ok srcID src (st : State) p (st1 : State) (st2 : State) :
  generatePacket srcID src st = Ok (p, st1) ->
  bufferOrDrop srcID p st1 = Ok st2 ->
  fcfs_ok st -> fcfs_ok st2.
Proof.
  unfold generatePacket, bufferOrDrop.
  destruct (uniform_int_draw G _ _ _) as [sz g]. simpl.
  intros H1 H2 H. bind_inv H1. apply modify_at_Ok in H1a as [Hs ->].
  injection H1 as <- <-. simpl in H2.
  destruct (length (packetBuffer st) <? bufferSize st)%nat eqn:Hb.
  - apply Nat.ltb_lt in Hb. injection H2 as <-.
    destruct H. split; simpl; rewrite ?length_alter; auto.
    + apply Forall_app. split; [done|]. constructor; [exact Hs | constructor].
    + unfold buffered, lost in *. simpl. intros s r Hr. rewrite count_app. simpl.
      unfold from_source at 2. simpl.
      alter_cases Hr; apply fi_account0 in Hr; simpl.
      * rewrite Nat.eqb_refl. lia.
      * destruct (Nat.eqb_spec srcID s); [congruence|]. lia.
    + rewrite length_app. simpl. lia.
  - apply Nat.ltb_ge in Hb. bind_inv H2. apply modify_at_Ok in H2a as [_ ->].
    injection H2 as <-.
    destruct H. split; simpl; rewrite ?length_alter; auto.
    unfold buffered, lost in *. simpl. intros s r Hr.
    alter_cases Hr; apply fi_account0 in Hr; simpl; lia.
Qed.

Lemma startNextTransmission_ok (st : State) :
  fcfs_ok st -> fcfs_ok (startNextTransmission st).
Proof.
  intros H. unfold startNextTransmission.
  destruct (linkBusy st) eqn:Hbusy; [exact H|].
  destruct (packetBuffer st) as [|p rest] eqn:Hbuf; [exact H|].
  unfold fcfs_ok, scheduleEvent. simpl.
  destruct H. rewrite Hbusy in fi_link0. rewrite Hbuf in *.
  apply Forall_cons in fi_buffer0 as [Hp Hrest].
  unfold buffered, lost in *. rewrite Hbuf in fi_account0.
  simpl in *.
  destruct (Qle_bool _ _) eqn:E; simpl.
  - apply Qle_bool_iff in E.
    eapply fcfs_inv_perm; [symmetry; apply pq_push_elems|].
    split; simpl; auto; try lia.
    + intros s r Hr. apply fi_account0 in Hr.
      unfold buffered, lost. simpl. destruct (from_source s p); lia.
  - split; simpl; auto; try lia.
    intros s r Hr. apply fi_account0 in Hr.
    unfold buffered, lost. simpl. destruct (from_source s p); lia.
Qed.

Lemma handleArrivalEvent_ok srcID (st : State) :
  (srcID < length (stats st))%nat -> fcfs_ok st ->
  exists st', handleArrivalEvent srcID st = Ok st' /\ fcfs_ok st'.
Proof.
  intros Hs H. unfold handleArrivalEvent.
  destruct (at_index_lt (sources st) srcID) as [src ->];
    [rewrite (fi_sizes _ _ H); exact Hs|].
  simpl.
  pose proof (scheduleNextArrival_ok srcID src st Hs H) as H1.
  destruct (scheduleNextArrival_frame srcID src st) as (_ & Est & _).
  set (st1 := scheduleNextArrival srcID src st) in *.
  assert (Hs1 : (srcID < length (stats st1))%nat) by (rewrite Est; exact Hs).
  destruct (generatePacket srcID src st1) as [[p st2]|] eqn:E2.
  2:{ exfalso. unfold generatePacket in E2.
      destruct (uniform_int_draw G _ _ _) as [sz g]. simpl in E2.
      rewrite (modify_at_lt _ _ _ Hs1) in E2. discriminate. }
  simpl.
  assert (Hs2 : (srcID < length (stats st2))%nat /\
                exists q, packetBuffer st2 = q).
  { unfold generatePacket in E2.
    destruct (uniform_int_draw G _ _ _) as [sz g]. simpl in E2.
    rewrite (modify_at_lt _ _ _ Hs1) in E2. injection E2 as <- <-.
    simpl. rewrite length_alter. eauto. }
  destruct Hs2 as [Hs2 _].
  destruct (bufferOrDrop srcID p st2) as [st3|] eqn:E3.
  2:{ exfalso. unfold bufferOrDrop in E3.
      destruct (_ <? _)%nat; [discriminate|].
      rewrite (modify_at_lt _ _ _ Hs2) in E3. discriminate. }
  simpl. eexists. split; [reflexivity|].
  apply startNextTransmission_ok. eapply generate_buffer_ok; eauto.
Qed.

Lemma handleDepartureEvent_ok t p (st : State) :
  fcfs_inv (PACKET_DEPARTURE t p :: pq_elems EQ (eventQueue st)) st ->
  exists st', handleDepartureEvent p st = Ok st' /\ fcfs_ok st'.
Proof.
  intros H. unfold handleDepartureEvent. simpl.
  pose proof (fi_events _ _ H) as He. apply Forall_cons in He as [Hp He].
  simpl in Hp. rewrite (modify_at_lt _ _ _ Hp). simpl.
  eexists. split; [reflexivity|].
  apply startNextTransmission_ok.
  destruct H. unfold fcfs_ok. simpl in *.
  apply Forall_cons in fi_horizon0 as [_ Hh].
  destruct (linkBusy st); [|lia].
  split; simpl; rewrite ?length_alter; auto; try lia.
  unfold buffered, lost in *. simpl. intros s r Hr.
  alter_cases Hr; apply fi_account0 in Hr; simpl; unfold from_source in *.
  - rewrite Nat.eqb_refl in Hr. lia.
  - destruct (Nat.eqb_spec (pkt_sourceID p) s); [congruence|]. lia.
Qed.

Lemma step_ok (st : State) :
  fcfs_ok st -> exists o, step st = Ok o /\ fcfs_ok (state_of o).
Proof.
  intros H. unfold step.
  destruct (pq_is_empty EQ (eventQueue st)) eqn:Hemp.
  { eexists. split; [reflexivity | exact H]. }
  destruct (pq_nonempty_top _ _ Hemp) as [e He].
  unfold pq_top_ub. rewrite He. simpl.
  pose proof (pq_top_pop EQ _ _ He) as Hperm.
  pose proof (fcfs_inv_perm _ _ _ Hperm H) as H1.
  set (st1 := set_currentTime (ev_time e)
                (set_eventQueue (pq_pop EQ (eventQueue st)) st)).
  assert (H2 : fcfs_inv (e :: pq_elems EQ (eventQueue st1)) st1).
  { destruct H1. split; simpl; auto. }
  destruct (Qltb (simulationTime st) (ev_time e)) eqn:Hlt.
  { exfalso. apply Qltb_lt in Hlt.
    pose proof (fi_horizon _ _ H1) as Hh. apply Forall_cons in Hh as [Hh _]. lra. }
  destruct e as [t srcID | t p].
  - destruct (handleArrivalEvent_ok srcID st1) as (st' & -> & H').
    + pose proof (fi_events _ _ H2) as Hev. by apply Forall_cons in Hev as [Hev _].
    + destruct H2. unfold fcfs_ok.
      apply Forall_cons in fi_events0 as [_ ?].
      apply Forall_cons in fi_horizon0 as [_ ?].
      split; simpl in *; auto.
    + simpl. eexists. split; [reflexivity | exact H'].
  - destruct (handleDepartureEvent_ok t p st1 H2) as (st' & -> & H').
    simpl. eexists. split; [reflexivity | exact H'].
Qed.

Lemma halted_empty (st : State) (st' : State) :
  fcfs_ok st -> step st = Ok (Halted st') ->
  st' = st /\ pq_elems EQ (eventQueue st) = [].
Proof.
  intros H. unfold step.
  destruct (pq_is_empty EQ (eventQueue st)) eqn:Hemp.
  { intros [= <-]. split; [reflexivity | by apply pq_is_empty_true]. }
  destruct (pq_nonempty_top _ _ Hemp) as [e He].
  unfold pq_top_ub. rewrite He. simpl.
  pose proof (pq_top_pop EQ _ _ He) as Hperm.
  pose proof (fcfs_inv_perm _ _ _ Hperm H) as H1.
  destruct (Qltb (simulationTime st) (ev_time e)) eqn:Hlt.
  { exfalso. apply Qltb_lt in Hlt.
    pose proof (fi_horizon _ _ H1) as Hh. apply Forall_cons in Hh as [Hh _]. lra. }
  intros Hb. bind_inv Hb. discriminate.
Qed.

Lemma loop_ok fuel (st : State) :
  fcfs_ok st -> exists o, loop fuel st = Ok o /\ fcfs_ok (state_of o).
Proof.
  revert st. induction fuel as [|fuel IH]; intros st H; simpl.
  { eexists. split; [reflexivity | exact H]. }
  destruct (step_ok st H) as (o & -> & Ho). simpl.
  destruct o as [st'|st']; [by apply IH|].
  eexists. split; [reflexivity | exact Ho].
Qed.

Lemma loop_halted fuel (st : State) (st' : State) :
  fcfs_ok st -> loop fuel st = Ok (Halted st') ->
  pq_elems EQ (eventQueue st') = [].
Proof.
  revert st. induction fuel as [|fuel IH]; intros st H; simpl; [discriminate|].
  destruct (step_ok st H) as (o & Hs & Ho). rewrite Hs. simpl.
  destruct o as [st1|st1]; [by apply IH|].
  intros [= <-]. by destruct (halted_empty _ _ H Hs) as [-> ?].
Qed.

Lemma scheduleEvent_stats e (st : State) :
  stats (scheduleEvent e st) = stats st /\ sources (scheduleEvent e st) = sources st.
Proof. unfold scheduleEvent. destruct (Qle_bool _ _); simpl; auto. Qed.

Lemma prime_fold_ok (l : list Source) (st : State) :
  fcfs_ok st ->
  Forall (fun src => src_id src < length (stats st))%nat l ->
  fcfs_ok (fold_left
    (fun st src => scheduleEvent (PACKET_ARRIVAL (startTime src) (src_id src)) st)
    l st).
Proof.
  revert st. induction l as [|src l IH]; intros st H Hl; simpl; [exact H|].
  apply Forall_cons in Hl as [Hsrc Hl].
  apply IH.
  - by apply scheduleEvent_arrival_ok.
  - by rewrite (proj1 (scheduleEvent_stats _ _)).
Qed.

Lemma read_sources_spec X T i n lines acc srcs :
  read_sources X T i n lines acc = inr srcs ->
  Forall (fun src => src_id src < i + n)%nat acc ->
  length srcs = (length acc + n)%nat /\
  Forall (fun src => src_id src < i + n)%nat srcs.
Proof.
  revert i lines acc. induction n as [|n IH]; intros i lines acc; simpl.
  { intros [= <-] Hacc. split; [lia | exact Hacc]. }
  destruct lines as [|line rest]; [discriminate|].
  destruct (extract_source X line) as [[[[[rate minSz] maxSz] w] tb] te].
  intros H Hacc. apply IH in H.
  - destruct H as [Hlen Hall]. rewrite length_app in Hlen. simpl in Hlen.
    split; [lia|]. eapply Forall_impl; [exact Hall|]. simpl. intros; lia.
  - apply Forall_app. split.
    + eapply Forall_impl; [exact Hacc|]. simpl. intros; lia.
    + constructor; [simpl; lia | constructor].
Qed.


Lemma loadConfig_loaded X file (st : State) :
  loadConfig EQ G X file = inr st -> loaded st.
Proof.
  unfold loadConfig. destruct file as [[|line rest]|]; try discriminate.
  destruct (extract_header X line) as [[[n T] C] B].
  destruct (n <? 0)%Z eqn:Hn; [discriminate|]. apply Z.ltb_ge in Hn.
  destruct (read_sources X T 0 (Z.to_nat n) rest []) as [e|srcs] eqn:E;
    [discriminate|].
  intros [= <-]. apply read_sources_spec in E; [|constructor].
  destruct E as [Hlen Hall]. simpl in Hlen.
  split; simpl; auto.
  - by rewrite Hlen.
  - rewrite Hlen. lia.
  - by rewrite Hlen.
Qed.

Lemma loaded_ok (st : State) : loaded st -> fcfs_ok st.
Proof.
  intros []. unfold fcfs_ok. rewrite ld_queue0, pq_new_elems.
  split; simpl; auto.
  - by rewrite ld_num0, ld_stats0, length_replicate.
  - by rewrite ld_stats0, length_replicate.
  - rewrite ld_buffer0. constructor.
  - unfold buffered, lost. rewrite ld_buffer0, ld_history0, ld_stats0. simpl.
    intros s r Hr. apply lookup_replicate in Hr as [-> _]. reflexivity.
  - by rewrite ld_history0, ld_link0.
  - rewrite ld_buffer0. simpl. lia.
Qed.

Lemma prime_ok (st : State) : loaded st -> fcfs_ok (prime st).
Proof.
  intros H. apply prime_fold_ok; [by apply loaded_ok|].
  rewrite (ld_stats _ H), length_replicate. apply (ld_ids _ H).
Qed.

Lemma run_ok fuel (st : State) :
  loaded st -> exists o, run fuel st = Ok o /\ fcfs_ok (state_of o).
Proof. intros H. apply loop_ok. by apply prime_ok. Qed.

(** ** The configuration is not written after [loadConfig] *)

Lemma scheduleEvent_config e (st : State) :
  config_of (scheduleEvent e st) = config_of st.
Proof. unfold scheduleEvent. by destruct (Qle_bool _ _). Qed.

Lemma startNextTransmission_config (st : State) :
  config_of (startNextTransmission st) = config_of st.
Proof.
  unfold startNextTransmission. destruct (linkBusy st); [done|].
  destruct (packetBuffer st); [done|]. by rewrite scheduleEvent_config.
Qed.

Lemma handleArrivalEvent_config srcID (st : State) (st' : State) :
  handleArrivalEvent srcID st = Ok st' -> config_of st' = config_of st.
Proof.
  unfold handleArrivalEvent. intros H.
  bind_inv H. rename a into src. bind_inv H. destruct a as [p st2].
  bind_inv H. injection H as <-.
  rewrite startNextTransmission_config.
  assert (E1 : config_of (scheduleNextArrival srcID src st) = config_of st).
  { unfold scheduleNextArrival. destruct (exponential_draw G _ _) as [dt g].
    destruct (Qltb _ _); [by rewrite scheduleEvent_config | done]. }
  assert (E2 : config_of st2 = config_of (scheduleNextArrival srcID src st)).
  { unfold generatePacket in Ha0. destruct (uniform_int_draw G _ _ _) as [sz g].
    bind_inv Ha0. by injection Ha0 as _ <-. }
  assert (E3 : config_of a = config_of st2).
  { unfold bufferOrDrop in Ha1. destruct (_ <? _)%nat.
    - by injection Ha1 as <-.
    - bind_inv Ha1. by injection Ha1 as <-. }
  congruence.
Qed.

Lemma handleDepartureEvent_config p (st : State) (st' : State) :
  handleDepartureEvent p st = Ok st' -> config_of st' = config_of st.
Proof.
  unfold handleDepartureEvent. intros H. bind_inv H. injection H as <-.
  by rewrite startNextTransmission_config.
Qed.

Lemma step_config (st : State) o :
  step st = Ok o -> config_of (state_of o) = config_of st.
Proof.
  unfold step. destruct (pq_is_empty EQ (eventQueue st)); [by intros [= <-]|].
  intros H. bind_inv H. rename a into e.
  destruct (Qltb _ _); [by injection H as <-|].
  bind_inv H. injection H as <-. simpl.
  destruct e as [t srcID | t p].
  - by rewrite (handleArrivalEvent_config _ _ _ Ha0).
  - by rewrite (handleDepartureEvent_config _ _ _ Ha0).
Qed.

Lemma loop_config fuel (st : State) o :
  loop fuel st = Ok o -> config_of (state_of o) = config_of st.
Proof.
  revert st. induction fuel as [|fuel IH]; intros st; simpl; [by intros [= <-]|].
  destruct (step st) as [o1|w] eqn:Hs; simpl; [|discriminate].
  apply step_config in Hs.
  destruct o1 as [st1|st1]; [|by intros [= <-]].
  intros H. apply IH in H. simpl in Hs. congruence.
Qed.

Lemma run_config fuel (st : State) o :
  run fuel st = Ok o -> config_of (state_of o) = config_of st.
Proof.
  unfold run, prime. intros H. apply loop_config in H. rewrite H. clear H.
  generalize (sources st) at 1. intros l. revert st.
  induction l as [|src l IH]; intros st; simpl; [done|].
  by rewrite IH, scheduleEvent_config.
Qed.

(** ** [loadConfig] checks the number of lines and nothing else *)

Lemma read_sources_inr X T i n lines acc :
  (n <= length lines)%nat ->
  read_sources X T i n lines acc
  = inr (acc ++ zip_with (source_of_line X T) (seq i n) (take n lines)).
Proof.
  revert i lines acc. induction n as [|n IH]; intros i lines acc Hn; simpl.
  { by rewrite app_nil_r. }
  destruct lines as [|line rest]; [simpl in Hn; lia|].
  simpl in Hn. unfold source_of_line at 1. simpl.
  destruct (extract_source X line) as [[[[[rate minSz] maxSz] w] tb] te].
  rewrite IH by lia. by rewrite <- app_assoc.
Qed.

Lemma read_sources_inl X T i n lines acc :
  (length lines < n)%nat ->
  read_sources X T i n lines acc = inl MissingSourceConfigurations.
Proof.
  revert i lines acc. induction n as [|n IH]; intros i lines acc Hn; simpl; [lia|].
  destruct lines as [|line rest]; [done|].
  simpl in Hn.
  destruct (extract_source X line) as [[[[[rate minSz] maxSz] w] tb] te].
  apply IH. lia.
Qed.

End Invariant.
End FCFSFacts.

Module FCFSTimed.
Import FCFS FCFSFacts.

Section Timed.
Context {EQ : MinPQ Event ev_time} {G : RandomEngine}.
Context (laws : RandomEngineLaws G).
Local Abbreviation State := (State EQ G).

(** Reduces only the projections of updated states. *)
Ltac fsimpl :=
  cbn [numSources simulationTime linkCapacity bufferSize currentTime linkBusy
       nextPacketId sources stats packetBuffer eventQueue generator history
       set_currentTime set_linkBusy set_nextPacketId set_stats set_packetBuffer
       set_eventQueue set_generator observe state_of ev_time ev_sourceID
       pkt_id pkt_sourceID pkt_size pkt_arrivalTime fst snd] in *.


Lemma fcfs_timed_perm evs evs' (st : State) :
  Permutation evs evs' -> fcfs_timed evs st -> fcfs_timed evs' st.
Proof. intros P []. split; try done; by rewrite <- P. Qed.

Lemma timed_scheduleEvent_arrival t s (st : State) :
  currentTime st <= t -> fcfs_timed_ok st ->
  fcfs_timed_ok (scheduleEvent (PACKET_ARRIVAL t s) st).
Proof.
  intros Ht H. unfold fcfs_timed_ok, scheduleEvent. simpl.
  destruct (Qle_bool t (simulationTime st)) eqn:E; simpl.
  - eapply fcfs_timed_perm; [symmetry; apply pq_push_elems|].
    destruct H. split; simpl; auto.
  - destruct H. split; simpl; auto.
Qed.

Lemma timed_scheduleNextArrival srcID src (st : State) :
  fcfs_timed_ok st -> fcfs_timed_ok (scheduleNextArrival srcID src st).
Proof.
  intros H. unfold scheduleNextArrival.
  pose proof (exponential_nonneg G laws (packetRate src) (generator st)) as Hdt.
  destruct (exponential_draw G (packetRate src) (generator st)) as [dt g].
  simpl in Hdt.
  assert (H' : fcfs_timed_ok (set_generator g st)) by (destruct H; split; simpl; auto).
  simpl. destruct (Qltb _ _); [|exact H'].
  apply timed_scheduleEvent_arrival; [simpl; lra | exact H'].
Qed.

Lemma timed_generate_buffer srcID src (st : State) p (st1 : State) (st2 : State) :
  src ∈ sources st ->
  generatePacket srcID src st = Ok (p, st1) ->
  bufferOrDrop srcID p st1 = Ok st2 ->
  fcfs_timed_ok st -> fcfs_timed_ok st2.
Proof.
  unfold generatePacket, bufferOrDrop. intros Hsrc.
  pose proof (uniform_int_range G laws (minSize src) (maxSize src) (generator st)) as Hsz.
  destruct (uniform_int_draw G _ _ _) as [sz g]. simpl in *.
  intros H1 H2 H. bind_inv H1. apply modify_at_Ok in H1a as [Hs ->].
  injection H1 as <- <-. simpl in H2.
  assert (0 <= sz)%Z as Hsz0.
  { pose proof (ft_sources _ _ H) as Hall. rewrite Forall_forall in Hall.
    specialize (Hall _ Hsrc). lia. }
  assert (Hmap : forall i l, map bytesTransmitted (alter incr_generated i l)
                             = map bytesTransmitted l)
    by (intros; by apply map_alter_same).
  assert (Hmap' : forall i l, map bytesTransmitted (alter incr_dropped i l)
                             = map bytesTransmitted l)
    by (intros; by apply map_alter_same).
  destruct (length (packetBuffer st) <? bufferSize st)%nat eqn:Hb.
  - injection H2 as <-.
    destruct H. unfold fcfs_timed_ok.
    split; unfold total_bytes in *; fsimpl; rewrite ?Hmap; auto.
    + apply Forall_app. split; [done|]. constructor; [exact Hsz0 | constructor].
    + by apply Forall_alter_keep.
  - bind_inv H2. apply modify_at_Ok in H2a as [_ ->]. injection H2 as <-.
    destruct H. unfold fcfs_timed_ok.
    split; unfold total_bytes in *; fsimpl; rewrite ?Hmap', ?Hmap; auto.
    do 2 (apply Forall_alter_keep; [done|]). done.
Qed.

Lemma timed_startNextTransmission (st : State) :
  fcfs_timed_ok st -> fcfs_timed_ok (startNextTransmission st).
Proof.
  intros H. unfold startNextTransmission.
  destruct (linkBusy st) eqn:Hbusy; [exact H|].
  destruct (packetBuffer st) as [|p rest] eqn:Hbuf; [exact H|].
  unfold fcfs_timed_ok, scheduleEvent. fsimpl.
  destruct H. rewrite Hbuf in *.
  apply Forall_cons in ft_buffer0 as [Hp Hrest].
  assert (Hdiv : linkCapacity st * (inject_Z (pkt_size p) / linkCapacity st)
                 == inject_Z (pkt_size p)) by (field; lra).
  assert (Hp' : 0 <= inject_Z (pkt_size p)).
  { change 0 with (inject_Z 0). by rewrite <- Zle_Qle. }
  assert (Hq : 0 <= inject_Z (pkt_size p) / linkCapacity st).
  { apply Qle_shift_div_l; [done | lra]. }
  destruct (Qle_bool _ _) eqn:E; fsimpl.
  - eapply fcfs_timed_perm; [symmetry; apply pq_push_elems|].
    split; unfold total_bytes in *; fsimpl; auto.
    + constructor; [fsimpl; lra | done].
    + constructor; [|done]. split; [done|]. lra.
  - split; unfold total_bytes in *; fsimpl; auto.
Qed.

Lemma timed_handleArrivalEvent srcID (st : State) (st' : State) :
  handleArrivalEvent srcID st = Ok st' ->
  fcfs_timed_ok st -> fcfs_timed_ok st'.
Proof.
  unfold handleArrivalEvent. intros H Ht.
  bind_inv H. apply at_index_Ok in Ha. rename a into src.
  bind_inv H. destruct a as [p st2]. bind_inv H. injection H as <-.
  apply timed_startNextTransmission.
  eapply timed_generate_buffer; [| exact Ha0 | exact Ha1 |].
  - destruct (scheduleNextArrival_frame srcID src st) as (-> & _).
    by eapply list_elem_of_lookup_2.
  - by apply timed_scheduleNextArrival.
Qed.

Lemma timed_handleDepartureEvent t p (st : State) (st' : State) :
  handleDepartureEvent p st = Ok st' ->
  fcfs_inv (PACKET_DEPARTURE t p :: pq_elems EQ (eventQueue st)) st ->
  fcfs_timed (PACKET_DEPARTURE t p :: pq_elems EQ (eventQueue st)) st ->
  currentTime st == t ->
  fcfs_timed_ok st'.
Proof.
  unfold handleDepartureEvent. fsimpl. intros H Hi Ht Hnow.
  bind_inv H. apply modify_at_Ok in Ha as [Hs ->]. injection H as <-.
  apply timed_startNextTransmission.
  destruct (lookup_lt_is_Some_2 _ _ Hs) as [r Hr].
  pose proof (Qsum_alter bytesTransmitted
    (record_departure (pkt_size p) (currentTime st - pkt_arrivalTime p))
    _ _ _ Hr) as Hsum. simpl in Hsum.
  pose proof (fi_link _ _ Hi) as Hlink. simpl in Hlink.
  assert (Hnodep : count is_departure (pq_elems EQ (eventQueue st)) = 0%nat)
    by (destruct (linkBusy st); lia).
  apply count_zero_Forall in Hnodep.
  destruct Ht. unfold fcfs_timed_ok, total_bytes in *. fsimpl.
  apply Forall_cons in ft_future0 as [_ Hfut].
  apply Forall_cons in ft_inflight0 as [[Hp0 Hp] Hinf].
  assert (Hp' : 0 <= inject_Z (pkt_size p)).
  { change 0 with (inject_Z 0). by rewrite <- Zle_Qle. }
  split; fsimpl; auto.
  - rewrite Hsum, Hnow. lra.
  - eapply Forall_impl; [exact Hnodep|]. intros [] ?; simpl in *; [done | discriminate].
  - apply Forall_alter_keep; [|done]. intros a Ha. simpl. lra.
Qed.

Lemma timed_step (st : State) o :
  fcfs_ok st -> fcfs_timed_ok st -> step st = Ok o -> fcfs_timed_ok (state_of o).
Proof.
  intros Hi Ht. unfold step.
  destruct (pq_is_empty EQ (eventQueue st)) eqn:Hemp.
  { intros [= <-]. exact Ht. }
  destruct (pq_nonempty_top _ _ Hemp) as [e He].
  unfold pq_top_ub. rewrite He. cbn [mbind result_bind].
  pose proof (pq_top_pop EQ _ _ He) as Hperm.
  pose proof (pq_top_min EQ _ _ He) as Hmin. rewrite Hperm in Hmin.
  pose proof (fcfs_inv_perm _ _ _ Hperm Hi) as Hi1.
  pose proof (fcfs_timed_perm _ _ _ Hperm Ht) as Ht1.
  set (st1 := set_currentTime (ev_time e)
                (set_eventQueue (pq_pop EQ (eventQueue st)) st)).
  assert (Hi2 : fcfs_inv (e :: pq_elems EQ (eventQueue st1)) st1).
  { destruct Hi1. split; simpl; auto. }
  assert (Ht2 : fcfs_timed (e :: pq_elems EQ (eventQueue st1)) st1).
  { pose proof (fi_horizon _ _ Hi1) as Hh. apply Forall_cons in Hh as [Hh _].
    destruct Ht1. pose proof ft_future0 as Hf. apply Forall_cons in Hf as [Hf _].
    split; unfold total_bytes in *; subst st1; fsimpl; auto.
    assert (linkCapacity st * currentTime st <= linkCapacity st * ev_time e)
      by (apply Qmult_le_l; done).
    lra. }
  destruct (Qltb _ _); [intros [= <-]; fsimpl|].
  { destruct Ht2. split; auto.
    - by apply Forall_cons in ft_future0 as [_ ?].
    - by apply Forall_cons in ft_inflight0 as [_ ?]. }
  intros H. bind_inv H. injection H as <-. fsimpl.
  destruct e as [t srcID | t p].
  - eapply timed_handleArrivalEvent; [exact Ha|].
    destruct Ht2. split; auto.
    + by apply Forall_cons in ft_future0 as [_ ?].
    + by apply Forall_cons in ft_inflight0 as [_ ?].
  - eapply timed_handleDepartureEvent; [exact Ha | exact Hi2 | exact Ht2 |].
    subst st1. fsimpl. reflexivity.
Qed.

Lemma timed_loop fuel (st : State) o :
  fcfs_ok st -> fcfs_timed_ok st -> loop fuel st = Ok o ->
  fcfs_timed_ok (state_of o).
Proof.
  revert st. induction fuel as [|fuel IH]; intros st Hi Ht; simpl.
  { intros [= <-]. exact Ht. }
  destruct (step_ok st Hi) as (o1 & Hs & Hi1). rewrite Hs. simpl.
  pose proof (timed_step _ _ Hi Ht Hs) as Ht1.
  destruct o1 as [st1|st1]; [by apply IH|].
  intros [= <-]. exact Ht1.
Qed.


Lemma timed_prime_fold (l : list Source) (st : State) :
  fcfs_timed_ok st ->
  Forall (fun src => currentTime st <= startTime src) l ->
  fcfs_timed_ok (fold_left
    (fun st src => scheduleEvent (PACKET_ARRIVAL (startTime src) (src_id src)) st)
    l st).
Proof.
  revert st. induction l as [|src l IH]; intros st H Hl; simpl; [exact H|].
  apply Forall_cons in Hl as [Hsrc Hl].
  apply IH.
  - by apply timed_scheduleEvent_arrival.
  - unfold scheduleEvent. destruct (Qle_bool _ _); exact Hl.
Qed.

Lemma timed_prime (st : State) :
  loaded st -> valid_config st -> fcfs_timed_ok (prime st).
Proof.
  intros Hl Hv. destruct Hv, Hl.
  apply timed_prime_fold.
  - unfold fcfs_timed_ok. rewrite ld_queue0, pq_new_elems.
    split; unfold total_bytes; rewrite ?ld_stats0, ?ld_buffer0, ?ld_clock0; auto.
    + eapply Forall_impl; [exact vc_sources0|]. intros src [? _]. done.
    + lra.
    + generalize (length (sources st)). intros n.
      induction n as [|n IH]; simpl; [lra|].
      assert (linkCapacity st * 0 == 0) as E by ring. rewrite E in *. lra.
    + apply Forall_replicate. simpl. lra.
  - rewrite ld_clock0.
    eapply Forall_impl; [exact vc_sources0|]. intros src [_ ?]. done.
Qed.

(** Every state of a run of a valid configuration satisfies both invariants. *)
Lemma timed_run fuel (st : State) o :
  loaded st -> valid_config st -> run fuel st = Ok o ->
  fcfs_ok (state_of o) /\ fcfs_timed_ok (state_of o).
Proof.
  intros Hl Hv Hr. split.
  - destruct (run_ok fuel st Hl) as (o' & Ho' & Hok). congruence.
  - eapply timed_loop; [by apply prime_ok | by apply timed_prime | exact Hr].
Qed.

(** ** Sizes and byte counters are never negative *)

Lemma fcfs_sized_perm evs evs' (st : State) :
  Permutation evs evs' -> fcfs_sized evs st -> fcfs_sized evs' st.
Proof. intros P []. split; try done; by rewrite <- P. Qed.

Lemma sized_scheduleEvent_arrival t s (st : State) :
  fcfs_sized_ok st -> fcfs_sized_ok (scheduleEvent (PACKET_ARRIVAL t s) st).
Proof.
  intros H. unfold fcfs_sized_ok, scheduleEvent. simpl.
  destruct (Qle_bool t (simulationTime st)) eqn:E; simpl.
  - eapply fcfs_sized_perm; [symmetry; apply pq_push_elems|].
    destruct H. split; simpl; auto.
  - destruct H. split; simpl; auto.
Qed.

Lemma sized_scheduleNextArrival srcID src (st : State) :
  fcfs_sized_ok st -> fcfs_sized_ok (scheduleNextArrival srcID src st).
Proof.
  intros H. unfold scheduleNextArrival.
  destruct (exponential_draw G (packetRate src) (generator st)) as [dt g].
  assert (H' : fcfs_sized_ok (set_generator g st)) by (destruct H; split; simpl; auto).
  simpl. destruct (Qltb _ _); [|exact H'].
  by apply sized_scheduleEvent_arrival.
Qed.

Lemma sized_generate_buffer srcID src (st : State) p (st1 : State) (st2 : State) :
  src ∈ sources st ->
  generatePacket srcID src st = Ok (p, st1) ->
  bufferOrDrop srcID p st1 = Ok st2 ->
  fcfs_sized_ok st -> fcfs_sized_ok st2.
Proof.
  unfold generatePacket, bufferOrDrop. intros Hsrc.
  pose proof (uniform_int_range G laws (minSize src) (maxSize src) (generator st)) as Hsz.
  destruct (uniform_int_draw G _ _ _) as [sz g]. simpl in *.
  intros H1 H2 H. bind_inv H1. apply modify_at_Ok in H1a as [Hs ->].
  injection H1 as <- <-. simpl in H2.
  assert (0 <= sz)%Z as Hsz0.
  { pose proof (fs_sources _ _ H) as Hall. unfold valid_sizes in Hall.
    rewrite Forall_forall in Hall. specialize (Hall _ Hsrc). lia. }
  destruct (length (packetBuffer st) <? bufferSize st)%nat eqn:Hb.
  - injection H2 as <-.
    destruct H. unfold fcfs_sized_ok.
    split; fsimpl; auto.
    + apply Forall_app. split; [done|]. constructor; [exact Hsz0 | constructor].
    + by apply Forall_alter_keep.
  - bind_inv H2. apply modify_at_Ok in H2a as [_ ->]. injection H2 as <-.
    destruct H. unfold fcfs_sized_ok.
    split; fsimpl; auto.
    do 2 (apply Forall_alter_keep; [done|]). done.
Qed.

Lemma sized_startNextTransmission (st : State) :
  fcfs_sized_ok st -> fcfs_sized_ok (startNextTransmission st).
Proof.
  intros H. unfold startNextTransmission.
  destruct (linkBusy st) eqn:Hbusy; [exact H|].
  destruct (packetBuffer st) as [|p rest] eqn:Hbuf; [exact H|].
  unfold fcfs_sized_ok, scheduleEvent. fsimpl.
  destruct H. rewrite Hbuf in *.
  apply Forall_cons in fs_buffer0 as [Hp Hrest].
  destruct (Qle_bool _ _) eqn:E; fsimpl.
  - eapply fcfs_sized_perm; [symmetry; apply pq_push_elems|].
    split; fsimpl; auto.
  - split; fsimpl; auto.
Qed.

Lemma sized_handleArrivalEvent srcID (st : State) (st' : State) :
  handleArrivalEvent srcID st = Ok st' ->
  fcfs_sized_ok st -> fcfs_sized_ok st'.
Proof.
  unfold handleArrivalEvent. intros H Ht.
  bind_inv H. apply at_index_Ok in Ha. rename a into src.
  bind_inv H. destruct a as [p st2]. bind_inv H. injection H as <-.
  apply sized_startNextTransmission.
  eapply sized_generate_buffer; [| exact Ha0 | exact Ha1 |].
  - destruct (scheduleNextArrival_frame srcID src st) as (-> & _).
    by eapply list_elem_of_lookup_2.
  - by apply sized_scheduleNextArrival.
Qed.

Lemma sized_handleDepartureEvent t p (st : State) (st' : State) :
  handleDepartureEvent p st = Ok st' ->
  fcfs_sized (PACKET_DEPARTURE t p :: pq_elems EQ (eventQueue st)) st ->
  fcfs_sized_ok st'.
Proof.
  unfold handleDepartureEvent. fsimpl. intros H Ht.
  bind_inv H. apply modify_at_Ok in Ha as [Hs ->]. injection H as <-.
  apply sized_startNextTransmission.
  destruct Ht. unfold fcfs_sized_ok. fsimpl.
  apply Forall_cons in fs_events0 as [Hp0 Hev].
  assert (Hp' : 0 <= inject_Z (pkt_size p)).
  { change 0 with (inject_Z 0). by rewrite <- Zle_Qle. }
  split; fsimpl; auto.
  apply Forall_alter_keep; [|done]. intros a Ha. simpl. lra.
Qed.

Lemma sized_step (st : State) o :
  fcfs_sized_ok st -> step st = Ok o -> fcfs_sized_ok (state_of o).
Proof.
  intros Ht. unfold step.
  destruct (pq_is_empty EQ (eventQueue st)) eqn:Hemp.
  { intros [= <-]. exact Ht. }
  destruct (pq_nonempty_top _ _ Hemp) as [e He].
  unfold pq_top_ub. rewrite He. cbn [mbind result_bind].
  pose proof (pq_top_pop EQ _ _ He) as Hperm.
  pose proof (fcfs_sized_perm _ _ _ Hperm Ht) as Ht1.
  set (st1 := set_currentTime (ev_time e)
                (set_eventQueue (pq_pop EQ (eventQueue st)) st)).
  assert (Ht2 : fcfs_sized (e :: pq_elems EQ (eventQueue st1)) st1).
  { destruct Ht1. split; subst st1; fsimpl; auto. }
  assert (Ht3 : fcfs_sized_ok st1).
  { destruct Ht2. split; auto. by apply Forall_cons in fs_events0 as [_ ?]. }
  destruct (Qltb _ _); [intros [= <-]; exact Ht3|].
  intros H. bind_inv H. injection H as <-. fsimpl.
  destruct e as [t srcID | t p].
  - by eapply sized_handleArrivalEvent.
  - by eapply sized_handleDepartureEvent.
Qed.

Lemma sized_loop fuel (st : State) o :
  fcfs_sized_ok st -> loop fuel st = Ok o -> fcfs_sized_ok (state_of o).
Proof.
  revert st. induction fuel as [|fuel IH]; intros st Ht; simpl.
  { intros [= <-]. exact Ht. }
  destruct (step st) as [o1|w] eqn:Hs; simpl; [|discriminate].
  pose proof (sized_step _ _ Ht Hs) as Ht1.
  destruct o1 as [st1|st1]; [by apply IH|].
  intros [= <-]. exact Ht1.
Qed.

Lemma sized_prime_fold (l : list Source) (st : State) :
  fcfs_sized_ok st ->
  fcfs_sized_ok (fold_left
    (fun st src => scheduleEvent (PACKET_ARRIVAL (startTime src) (src_id src)) st)
    l st).
Proof.
  revert st. induction l as [|src l IH]; intros st H; simpl; [exact H|].
  apply IH. by apply sized_scheduleEvent_arrival.
Qed.

Lemma sized_run fuel (st : State) o :
  loaded st -> valid_sizes st -> run fuel st = Ok o ->
  fcfs_sized_ok (state_of o).
Proof.
  intros Hl Hv. apply sized_loop. apply sized_prime_fold.
  destruct Hl. unfold fcfs_sized_ok. rewrite ld_queue0, pq_new_elems.
  split; rewrite ?ld_stats0, ?ld_buffer0; auto.
  apply Forall_replicate. simpl. lra.
Qed.

End Timed.
End FCFSTimed.

Module FCFSResults.
Import FCFS FCFSFacts FCFSTimed.

Section Results.
Context {EQ : MinPQ Event ev_time} {G : RandomEngine}.
Local Abbreviation State := (State EQ G).


Lemma sum_loop_spec (st : State) k i t0 :
  (i + k = length (stats st))%nat ->
  exists t, sum_loop st (seq i k) t0 = Ok t /\
    totBytes t == totBytes t0 + Qsum (map bytesTransmitted (drop i (stats st))) /\
    sum_x t == sum_x t0 + Qsum (drop i (shares st)) /\
    sum_x_sq t == sum_x_sq t0 + Qsum (map sqr (drop i (shares st))).
Proof.
  revert i t0. induction k as [|k IH]; intros i t0 Hlen; simpl.
  - exists t0. unfold shares. rewrite skipn_map, !drop_ge by lia.
    simpl. repeat split; try reflexivity; ring.
  - destruct (lookup_lt_is_Some_2 (stats st) i) as [r Hr]; [lia|].
    unfold at_index. rewrite Hr. simpl.
    destruct (IH (S i) (accumulate (bytesTransmitted r) r t0)) as (t & Ht & H1 & H2 & H3);
      [lia|].
    exists t. split; [exact Ht|].
    unfold shares in *. rewrite !skipn_map in *.
    rewrite (drop_S _ _ _ Hr). simpl in *. unfold sqr at 1.
    rewrite H1, H2, H3. repeat split; ring.
Qed.

Lemma printResults_spec (st : State) :
  fcfs_ok st ->
  exists t, printResults st
            = Ok (metrics_of (numSources st) (linkCapacity st) (simulationTime st) t) /\
    totBytes t == total_bytes st /\
    sum_x t == Qsum (shares st) /\
    sum_x_sq t == Qsum (map sqr (shares st)) /\
    inject_Z (numSources st) = Qlen (shares st).
Proof.
  intros H. unfold printResults.
  rewrite (fi_num _ _ H), Nat2Z.id.
  destruct (sum_loop_spec st (length (stats st)) 0 Totals_init) as (t & -> & H1 & H2 & H3);
    [lia|].
  exists t. split; [reflexivity|].
  change (drop 0 (stats st)) with (stats st) in H1.
  change (drop 0 (shares st)) with (shares st) in H2, H3.
  change (totBytes Totals_init) with 0 in H1.
  change (sum_x Totals_init) with 0 in H2.
  change (sum_x_sq Totals_init) with 0 in H3.
  unfold total_bytes.
  repeat split; try lra.
  unfold Qlen, shares. by rewrite length_map.
Qed.


Lemma idle_ext_same (st : State) (st' : State) :
  linkBusy st' = linkBusy st -> history st' = history st -> stats st' = stats st ->
  idle_ext st st'.
Proof.
  intros H1 H2 H3. split; [done|]. split; [|by rewrite H3].
  exists []. by rewrite H2.
Qed.

Lemma idle_ext_refl (st : State) : idle_ext st st.
Proof. by apply idle_ext_same. Qed.

Lemma idle_ext_trans (st1 : State) (st2 : State) (st3 : State) :
  idle_ext st1 st2 -> idle_ext st2 st3 -> idle_ext st1 st3.
Proof.
  intros (H1 & (n1 & E1 & Q1) & T1) (H2 & (n2 & E2 & Q2) & T2).
  split; [congruence|]. split; [|congruence].
  exists (n2 ++ n1). rewrite E2, E1, app_assoc. split; [done|].
  by apply Forall_app.
Qed.

Lemma idle_scheduleEvent_arrival t s (st : State) :
  idle_ext st (scheduleEvent (PACKET_ARRIVAL t s) st).
Proof.
  unfold scheduleEvent. destruct (Qle_bool _ _); [by apply idle_ext_same|].
  split; [done|]. split; [|done].
  exists [Discarded (PACKET_ARRIVAL t s)]. split; [done|]. by constructor.
Qed.

Lemma idle_handleArrivalEvent srcID (st : State) (st' : State) :
  linkBusy st = true -> handleArrivalEvent srcID st = Ok st' -> idle_ext st st'.
Proof.
  intros Hbusy. unfold handleArrivalEvent. intros H.
  bind_inv H. rename a into src. bind_inv H. destruct a as [p st2].
  bind_inv H. injection H as <-.
  assert (E1 : idle_ext st (scheduleNextArrival srcID src st)).
  { unfold scheduleNextArrival. destruct (exponential_draw G _ _) as [dt g].
    destruct (Qltb _ _).
    - eapply idle_ext_trans; [|apply idle_scheduleEvent_arrival].
      by apply idle_ext_same.
    - by apply idle_ext_same. }
  assert (E2 : idle_ext (scheduleNextArrival srcID src st) st2).
  { unfold generatePacket in Ha0. destruct (uniform_int_draw G _ _ _) as [sz g].
    bind_inv Ha0. apply modify_at_Ok in Ha0a as [_ ->]. injection Ha0 as _ <-.
    split; [done|]. split; [by exists []|]. simpl.
    by apply map_alter_same. }
  assert (E3 : idle_ext st2 a).
  { unfold bufferOrDrop in Ha1. destruct (_ <? _)%nat.
    - injection Ha1 as <-. by apply idle_ext_same.
    - bind_inv Ha1. apply modify_at_Ok in Ha1a as [_ ->]. injection Ha1 as <-.
      split; [done|]. split.
      + exists [Dropped p]. split; [done|]. by constructor.
      + simpl. by apply map_alter_same. }
  pose proof (idle_ext_trans _ _ _ (idle_ext_trans _ _ _ E1 E2) E3) as E.
  unfold startNextTransmission.
  destruct E as (Hb & ?). rewrite Hb, Hbusy. split; [congruence|done].
Qed.


Lemma has_lost_ext (st : State) (st' : State) : idle_ext st st' -> has_lost st -> has_lost st'.
Proof.
  unfold has_lost. intros (_ & (newer & E & _) & _). rewrite E, count_app. lia.
Qed.

Lemma lost_step (st : State) o :
  fcfs_ok st -> has_lost st -> step st = Ok o -> idle_ext st (state_of o).
Proof.
  intros Hi Hl. unfold step.
  destruct (pq_is_empty EQ (eventQueue st)) eqn:Hemp.
  { intros [= <-]. apply idle_ext_refl. }
  destruct (pq_nonempty_top _ _ Hemp) as [e He].
  unfold pq_top_ub. rewrite He. cbn [mbind result_bind].
  pose proof (pq_top_pop EQ _ _ He) as Hperm.
  pose proof (fcfs_inv_perm _ _ _ Hperm Hi) as Hi1.
  pose proof (fi_link _ _ Hi1) as Hlink. unfold has_lost in Hl.
  assert (Hbusy : linkBusy st = true) by (destruct (linkBusy st); [done|lia]).
  rewrite Hbusy in Hlink.
  assert (E0 : idle_ext st (set_currentTime (ev_time e)
                 (set_eventQueue (pq_pop EQ (eventQueue st)) st))).
  { by apply idle_ext_same. }
  destruct (Qltb _ _); [intros [= <-]; exact E0|].
  intros H. bind_inv H. injection H as <-.
  destruct e as [t srcID | t p]; [|simpl in Hlink; lia].
  eapply idle_ext_trans; [exact E0|].
  eapply idle_handleArrivalEvent; [|exact Ha]. exact Hbusy.
Qed.

Lemma lost_loop fuel (st : State) o :
  fcfs_ok st -> has_lost st -> loop fuel st = Ok o -> idle_ext st (state_of o).
Proof.
  revert st. induction fuel as [|fuel IH]; intros st Hi Hl; simpl.
  { intros [= <-]. apply idle_ext_refl. }
  destruct (step_ok st Hi) as (o1 & Hs & Hi1). rewrite Hs. simpl.
  pose proof (lost_step _ _ Hi Hl Hs) as E1.
  destruct o1 as [st1|st1]; [|intros [= <-]; exact E1].
  intros H. eapply idle_ext_trans; [exact E1|].
  apply IH; [exact Hi1 | by eapply has_lost_ext | exact H].
Qed.

Lemma loop_add n k (st : State) :
  loop (n + k) st =
  match loop n st with
  | Ok (Running st') => loop k st'
  | other => other
  end.
Proof.
  revert st. induction n as [|n IH]; intros st; simpl; [reflexivity|].
  destruct (step st) as [[st'|st']|w]; simpl; auto.
Qed.

(** Once a departure is lost, the rest of the run is idle. *)
Lemma lost_run n k (f0 : State) o_n o :
  loaded f0 -> run n f0 = Ok o_n -> has_lost (state_of o_n) ->
  run (n + k) f0 = Ok o ->
  idle_ext (state_of o_n) (state_of o) /\ fcfs_ok (state_of o) /\
  has_lost (state_of o).
Proof.
  intros Hl Hn Hlost Hnk.
  destruct (run_ok n f0 Hl) as (o' & Ho' & Hok). rewrite Hn in Ho'.
  injection Ho' as <-.
  destruct (run_ok (n + k) f0 Hl) as (o' & Ho' & Hok'). rewrite Hnk in Ho'.
  injection Ho' as <-.
  unfold run in *. rewrite loop_add, Hn in Hnk.
  assert (E : idle_ext (state_of o_n) (state_of o)).
  { destruct o_n as [st|st]; [|injection Hnk as <-; apply idle_ext_refl].
    by eapply lost_loop. }
  split; [exact E|]. split; [exact Hok'|]. by eapply has_lost_ext.
Qed.

(** With a lost departure in the history, nothing is in flight and the lost
    packet's source counts exactly one packet as lost. *)
Lemma lost_accounting (st : State) t p :
  fcfs_ok st -> In (Discarded (PACKET_DEPARTURE t p)) (history st) ->
  linkBusy st = true /\
  (forall s, in_flight s st = 0%nat) /\
  lost (pkt_sourceID p) st = 1%nat.
Proof.
  intros Hok Hin.
  pose proof (fi_link _ _ Hok) as Hlink.
  pose proof (count_In is_lost _ _ Hin eq_refl) as H1.
  assert (Hsrc : lost_from (pkt_sourceID p) (Discarded (PACKET_DEPARTURE t p)) = true).
  { simpl. unfold from_source. apply Nat.eqb_refl. }
  pose proof (count_In (lost_from (pkt_sourceID p)) _ _ Hin Hsrc) as H2.
  assert (H3 : (count (lost_from (pkt_sourceID p)) (history st)
                <= count is_lost (history st))%nat).
  { apply count_le. intros [] ; simpl; try discriminate.
    destruct e; simpl; [discriminate | done]. }
  destruct (linkBusy st); [|lia].
  split; [done|]. split; [|unfold lost; lia].
  intros s. unfold in_flight.
  assert (H4 : (count (departure_from s) (pq_elems EQ (eventQueue st))
                <= count is_departure (pq_elems EQ (eventQueue st)))%nat).
  { apply count_le. intros []; simpl; [discriminate | done]. }
  lia.
Qed.

(** ** bufferSize = 0 *)

Lemma starved_handleArrivalEvent srcID (st : State) (st' : State) :
  packetBuffer st = [] -> starved st ->
  handleArrivalEvent srcID st = Ok st' ->
  starved st' /\ packetBuffer st' = [].
Proof.
  intros Hbuf (HB & Hbusy & Htr). unfold handleArrivalEvent. intros H.
  bind_inv H. rename a into src. bind_inv H. destruct a as [p st2].
  bind_inv H. injection H as <-.
  destruct (scheduleNextArrival_frame srcID src st) as (_ & Est & Eb & El & EB).
  set (st1 := scheduleNextArrival srcID src st) in *.
  unfold generatePacket in Ha0. destruct (uniform_int_draw G _ _ _) as [sz g].
  bind_inv Ha0. apply modify_at_Ok in Ha0a as [_ ->]. injection Ha0 as <- <-.
  unfold bufferOrDrop in Ha1. simpl in Ha1. rewrite Eb, Hbuf, EB, HB in Ha1.
  simpl in Ha1. bind_inv Ha1. apply modify_at_Ok in Ha1a as [_ ->].
  injection Ha1 as <-.
  unfold startNextTransmission. simpl. rewrite El, Hbusy, Eb, Hbuf.
  split; [|by simpl; rewrite Eb].
  split; [simpl; congruence|]. split; [simpl; congruence|]. simpl.
  rewrite Est. by do 2 (apply Forall_alter_keep; [done|]).
Qed.

Lemma starved_step (st : State) o :
  fcfs_ok st -> starved st -> step st = Ok o -> starved (state_of o).
Proof.
  intros Hok Hst. pose proof Hst as (HB & Hbusy & Htr). unfold step.
  destruct (pq_is_empty EQ (eventQueue st)) eqn:Hemp.
  { by intros [= <-]. }
  destruct (pq_nonempty_top _ _ Hemp) as [e He].
  unfold pq_top_ub. rewrite He. cbn [mbind result_bind].
  pose proof (pq_top_pop EQ _ _ He) as Hperm.
  pose proof (fcfs_inv_perm _ _ _ Hperm Hok) as Hok1.
  pose proof (fi_link _ _ Hok1) as Hlink. rewrite Hbusy in Hlink.
  pose proof (fi_bound _ _ Hok) as Hbound. rewrite HB in Hbound.
  assert (Hbuf : packetBuffer st = []).
  { destruct (packetBuffer st); [done | simpl in Hbound; lia]. }
  destruct (Qltb _ _); [by intros [= <-]|].
  intros H. bind_inv H. injection H as <-.
  destruct e as [t srcID | t p]; [|simpl in Hlink; lia].
  simpl. refine (proj1 (starved_handleArrivalEvent srcID _ a _ _ Ha)).
  - exact Hbuf.
  - exact Hst.
Qed.

Lemma starved_loop fuel (st : State) o :
  fcfs_ok st -> starved st -> loop fuel st = Ok o -> starved (state_of o).
Proof.
  revert st. induction fuel as [|fuel IH]; intros st Hok Hst; simpl.
  { by intros [= <-]. }
  destruct (step_ok st Hok) as (o1 & Hs & Hok1). rewrite Hs. simpl.
  pose proof (starved_step _ _ Hok Hst Hs) as Hst1.
  destruct o1 as [st1|st1]; [by apply IH | by intros [= <-]].
Qed.

(** Under FCFS with bufferSize = 0 every generated packet is dropped and
    none is transmitted. *)
Lemma fcfs_zero_buffer_drops_all fuel (f0 : State) o :
  loaded f0 -> bufferSize f0 = 0%nat -> run fuel f0 = Ok o ->
  forall s r, stats (state_of o) !! s = Some r ->
    packetsTransmitted r = 0%Z /\ packetsDropped r = packetsGenerated r.
Proof.
  intros Hl HB Hrun s r Hr.
  destruct (run_ok fuel f0 Hl) as (o' & Ho' & Hok). rewrite Hrun in Ho'.
  injection Ho' as <-.
  assert (Hst : starved (state_of o)).
  { eapply starved_loop; [by apply prime_ok | | exact Hrun].
    unfold prime. destruct Hl.
    assert (H0 : starved f0).
    { split; [done|]. split; [done|]. rewrite ld_stats0.
      by apply Forall_replicate. }
    clear -H0. revert H0. generalize (sources f0). intros l. revert f0.
    induction l as [|src l IH]; intros f0 H0; simpl; [done|].
    apply IH. unfold scheduleEvent. by destruct (Qle_bool _ _). }
  destruct Hst as (HB' & Hbusy & Htr).
  rewrite Forall_forall in Htr.
  assert (Hr0 : packetsTransmitted r = 0%Z).
  { apply Htr. by eapply list_elem_of_lookup_2. }
  split; [exact Hr0|].
  pose proof (fi_account _ _ Hok _ _ Hr) as Hacc.
  pose proof (fi_link _ _ Hok) as Hlink. rewrite Hbusy in Hlink.
  pose proof (fi_bound _ _ Hok) as Hbound. rewrite HB' in Hbound.
  assert (Hbuf : packetBuffer (state_of o) = []).
  { destruct (packetBuffer (state_of o)); [done | simpl in Hbound; lia]. }
  assert (H1 : (count (departure_from s) (pq_elems EQ (eventQueue (state_of o)))
                <= count is_departure (pq_elems EQ (eventQueue (state_of o))))%nat).
  { apply count_le. intros []; simpl; [discriminate | done]. }
  assert (H2 : (count (lost_from s) (history (state_of o))
                <= count is_lost (history (state_of o)))%nat).
  { apply count_le. intros []; simpl; try discriminate.
    destruct e; simpl; [discriminate | done]. }
  unfold buffered, lost in Hacc. rewrite Hbuf in Hacc. simpl in Hacc. lia.
Qed.

End Results.
End FCFSResults.

(** * Facts about the WFQ simulator *)

Module WFQFacts.
Import WFQ.

Section Invariant.
Context {EQ : MinPQ Event ev_time} {BQ : MinPQ Packet virtualFinishTime}
        {G : RandomEngine}.
Local Abbreviation State := (State EQ BQ G).


Lemma wfq_inv_perm evs evs' (st : State) :
  Permutation evs evs' -> wfq_inv evs st -> wfq_inv evs' st.
Proof.
  intros P [].
  split; try done; try (by rewrite <- P).
  intros s r Hr. rewrite <- P. auto.
Qed.

Lemma wfq_scheduleEvent_arrival_ok t s (st : State) :
  (s < length (stats st))%nat -> wfq_ok st ->
  wfq_ok (scheduleEvent (PACKET_ARRIVAL t s) st).
Proof.
  intros Hs H. unfold wfq_ok, scheduleEvent. simpl.
  destruct (Qle_bool t (simulationTime st)) eqn:E.
  - simpl. eapply wfq_inv_perm; [symmetry; apply pq_push_elems|].
    apply Qle_bool_iff in E.
    destruct H. split; simpl; auto.
  - destruct H. split; simpl; auto.
Qed.

Lemma wfq_scheduleNextArrival_ok srcID src (st : State) :
  (srcID < length (stats st))%nat -> wfq_ok st ->
  wfq_ok (scheduleNextArrival srcID src st).
Proof.
  intros Hs H. unfold scheduleNextArrival.
  destruct (exponential_draw G (packetRate src) (generator st)) as [dt g].
  assert (H' : wfq_ok (set_generator g st)) by (destruct H; split; simpl; auto).
  simpl. destruct (Qltb _ _); [|exact H'].
  by apply wfq_scheduleEvent_arrival_ok.
Qed.

Lemma wfq_scheduleNextArrival_frame srcID src (st : State) :
  let st' := scheduleNextArrival srcID src st in
  sources st' = sources st /\ stats st' = stats st /\
  packetBuffer st' = packetBuffer st /\ linkBusy st' = linkBusy st /\
  bufferSize st' = bufferSize st /\ systemVirtualTime st' = systemVirtualTime st /\
  currentTime st' = currentTime st /\ nextPacketId st' = nextPacketId st.
Proof.
  unfold scheduleNextArrival, scheduleEvent.
  destruct (exponential_draw G (packetRate src) (generator st)) as [dt g].
  simpl. destruct (Qltb _ _); [destruct (Qle_bool _ _)|]; simpl; repeat split.
Qed.

(** What [generatePacket] returns, spelled out. *)
Lemma generatePacket_Ok srcID src (st : State) p (st1 : State) :
  generatePacket srcID src st = Ok (p, st1) ->
  let sz := fst (uniform_int_draw G (minSize src) (maxSize src) (generator st)) in
  let g := snd (uniform_int_draw G (minSize src) (maxSize src) (generator st)) in
  (srcID < length (sources st))%nat /\ (srcID < length (stats st))%nat /\
  p = {| pkt_id := nextPacketId st; pkt_sourceID := srcID; pkt_size := sz;
         pkt_weight := weight src; pkt_arrivalTime := currentTime st;
         virtualFinishTime :=
           fmax (systemVirtualTime st) (lastFinishTime src)
           + inject_Z sz / weight src |} /\
  st1 = set_stats (alter incr_generated srcID (stats st))
          (set_sources
             (alter (set_lastFinishTime (virtualFinishTime p)) srcID (sources st))
             (set_nextPacketId (nextPacketId st + 1) (set_generator g st))).
Proof.
  unfold generatePacket.
  destruct (uniform_int_draw G _ _ _) as [sz g]. simpl.
  intros H. bind_inv H. apply modify_at_Ok in Ha as [Hs ->].
  bind_inv H. simpl in Ha. apply modify_at_Ok in Ha as [Hs' ->].
  injection H as <- <-. auto.
Qed.

Lemma generatePacket_lt srcID src (st : State) :
  (srcID < length (sources st))%nat -> (srcID < length (stats st))%nat ->
  exists p st1, generatePacket srcID src st = Ok (p, st1).
Proof.
  intros H1 H2. unfold generatePacket.
  destruct (uniform_int_draw G _ _ _) as [sz g]. simpl.
  rewrite (modify_at_lt _ _ _ H1). simpl.
  rewrite (modify_at_lt _ _ _ H2). simpl. eauto.
Qed.

(** What [bufferManagement] returns, spelled out. *)
Lemma bufferManagement_Ok p (st st' : State) :
  bufferManagement p st = Ok st' ->
  ((pq_size BQ (packetBuffer st) < bufferSize st)%nat /\
   st' = set_packetBuffer (pq_push BQ p (packetBuffer st)) st) \/
  ((bufferSize st <= pq_size BQ (packetBuffer st))%nat /\
   exists d, pq_top BQ (packetBuffer st) = Some d /\
     (pkt_sourceID d < length (stats st))%nat /\
     st' = set_packetBuffer (pq_push BQ p (pq_pop BQ (packetBuffer st)))
             (observe (Dropped d)
                (set_stats (alter incr_dropped (pkt_sourceID d) (stats st))
                   (set_packetBuffer (pq_pop BQ (packetBuffer st)) st)))).
Proof.
  unfold bufferManagement.
  destruct (_ <? _)%nat eqn:Hb.
  - apply Nat.ltb_lt in Hb. intros [= <-]. left. auto.
  - apply Nat.ltb_ge in Hb. intros H. right. split; [exact Hb|].
    bind_inv H. unfold pq_top_ub in Ha.
    destruct (pq_top BQ (packetBuffer st)) as [d|] eqn:Ed; [|discriminate].
    injection Ha as <-. bind_inv H. simpl in Ha.
    apply modify_at_Ok in Ha as [Hd ->]. injection H as <-.
    exists d. auto.
Qed.

Lemma wfq_generate_buffer_ok srcID src (st : State) p (st1 : State) (st2 : State) :
  generatePacket srcID src st = Ok (p, st1) ->
  bufferManagement p st1 = Ok st2 ->
  wfq_ok st -> wfq_ok st2.
Proof.
  intros H1 H2 H. apply generatePacket_Ok in H1 as (Hs' & Hs & Hp & ->).
  assert (Hsrc : pkt_sourceID p = srcID) by (rewrite Hp; reflexivity).
  clear Hp.
  apply bufferManagement_Ok in H2 as [[Hb ->]|(Hb & d & Hd & Hdl & ->)];
    simpl in *.
  - destruct H. unfold wfq_ok, pq_size in *.
    split; simpl; rewrite ?length_alter; auto.
    + rewrite pq_push_elems. constructor; [by rewrite Hsrc | done].
    + unfold buffered, lost in *. simpl. intros s r Hr.
      rewrite pq_push_elems. simpl. unfold from_source at 1. rewrite Hsrc.
      alter_cases Hr; apply wi_account0 in Hr; simpl.
      * rewrite Nat.eqb_refl. lia.
      * destruct (Nat.eqb_spec srcID s); [congruence|]. lia.
    + unfold pq_size. rewrite pq_push_elems. simpl. lia.
  - pose proof (pq_top_pop BQ _ _ Hd) as Hperm.
    destruct H. unfold wfq_ok, pq_size in *. rewrite Hperm in *.
    apply Forall_cons in wi_buffer0 as [Hd0 Hrest].
    split; simpl; rewrite ?length_alter; auto.
    + rewrite pq_push_elems. constructor; [by rewrite Hsrc | done].
    + unfold buffered, lost in *. simpl. intros s r Hr.
      rewrite pq_push_elems. simpl. unfold from_source at 1. rewrite Hsrc.
      assert (Hacc : forall s r, stats st !! s = Some r ->
        packetsGenerated r =
        (packetsTransmitted r + packetsDropped r
         + Z.of_nat ((if from_source s d then 1 else 0)
                     + count (from_source s) (pq_elems BQ (pq_pop BQ (packetBuffer st))))
         + Z.of_nat (count (departure_from s) (pq_elems EQ (eventQueue st)))
         + Z.of_nat (count (lost_from s) (history st)))%Z).
      { intros s' r' Hr'. apply wi_account0 in Hr'. rewrite Hperm in Hr'. exact Hr'. }
      unfold from_source in *.
      alter_cases Hr; apply Hacc in Hr; simpl;
        repeat match goal with
        | |- context [Nat.eqb ?a ?b] => destruct (Nat.eqb_spec a b)
        | H : context [Nat.eqb ?a ?b] |- _ => destruct (Nat.eqb_spec a b)
        end; try congruence; try lia;
        match goal with
        | E : pkt_sourceID p = pkt_sourceID d |- _ => rewrite E in Hr; lia
        | E : pkt_sourceID d = pkt_sourceID p |- _ => rewrite <- E in Hr; lia
        end.
    + unfold pq_size. rewrite pq_push_elems. simpl in *. lia.
Qed.

(** What [startNextTransmission] returns, spelled out. *)
Lemma startNextTransmission_Ok (st st' : State) :
  startNextTransmission st = Ok st' ->
  ((linkBusy st = true \/ pq_elems BQ (packetBuffer st) = []) /\ st' = st) \/
  (linkBusy st = false /\
   exists p, pq_top BQ (packetBuffer st) = Some p /\
     st' = scheduleEvent
       (PACKET_DEPARTURE
          (currentTime st + inject_Z (pkt_size p) / linkCapacity st) p)
       (observe (Started p (currentTime st) (virtualStart p))
          (set_systemVirtualTime (virtualStart p)
             (set_packetBuffer (pq_pop BQ (packetBuffer st))
                (set_linkBusy true st))))).
Proof.
  unfold startNextTransmission.
  destruct (linkBusy st) eqn:Hbusy; simpl.
  { intros [= <-]. left. auto. }
  destruct (pq_is_empty BQ (packetBuffer st)) eqn:Hemp.
  { intros [= <-]. left. split; [|done]. right. by apply pq_is_empty_true. }
  intros H. right. split; [done|].
  bind_inv H. unfold pq_top_ub in Ha.
  destruct (pq_top BQ (packetBuffer st)) as [p|] eqn:Ep; [|discriminate].
  injection Ha as <-. injection H as <-. exists p. auto.
Qed.

Lemma startNextTransmission_total (st : State) :
  exists st', startNextTransmission st = Ok st'.
Proof.
  unfold startNextTransmission.
  destruct (linkBusy st); simpl; [eauto|].
  destruct (pq_is_empty BQ (packetBuffer st)) eqn:Hemp; [eauto|].
  destruct (pq_nonempty_top _ _ Hemp) as [p Hp].
  unfold pq_top_ub. simpl. rewrite Hp. simpl. eauto.
Qed.

(** ** The configuration is not written after [loadConfig] *)

Lemma wfq_scheduleEvent_config e (st : State) :
  config_of (scheduleEvent e st) = config_of st.
Proof. unfold scheduleEvent. by destruct (Qle_bool _ _). Qed.

Lemma wfq_startNextTransmission_config (st : State) (st' : State) :
  startNextTransmission st = Ok st' -> config_of st' = config_of st.
Proof.
  intros H. apply startNextTransmission_Ok in H as [[_ ->]|(_ & p & _ & ->)];
    [done|]. by rewrite wfq_scheduleEvent_config.
Qed.

Lemma wfq_handleArrivalEvent_config srcID (st : State) (st' : State) :
  handleArrivalEvent srcID st = Ok st' -> config_of st' = config_of st.
Proof.
  unfold handleArrivalEvent. intros H.
  bind_inv H. rename a into src. bind_inv H. destruct a as [p st2].
  bind_inv H. apply wfq_startNextTransmission_config in H.
  assert (E1 : config_of (scheduleNextArrival srcID src st) = config_of st).
  { unfold scheduleNextArrival. destruct (exponential_draw G _ _) as [dt g].
    destruct (Qltb _ _); [by rewrite wfq_scheduleEvent_config | done]. }
  assert (E2 : config_of st2 = config_of (scheduleNextArrival srcID src st)).
  { by apply generatePacket_Ok in Ha0 as (_ & _ & _ & ->). }
  assert (E3 : config_of a = config_of st2).
  { by apply bufferManagement_Ok in Ha1 as [[_ ->]|(_ & d & _ & _ & ->)]. }
  congruence.
Qed.

Lemma wfq_handleDepartureEvent_config p (st : State) (st' : State) :
  handleDepartureEvent p st = Ok st' -> config_of st' = config_of st.
Proof.
  unfold handleDepartureEvent. intros H. bind_inv H.
  by apply wfq_startNextTransmission_config in H.
Qed.

Lemma wfq_step_config (st : State) o :
  step st = Ok o -> config_of (state_of o) = config_of st.
Proof.
  unfold step. destruct (pq_is_empty EQ (eventQueue st)); [by intros [= <-]|].
  intros H. bind_inv H. rename a into e.
  destruct (Qltb _ _); [by injection H as <-|].
  bind_inv H. injection H as <-. simpl.
  destruct e as [t srcID | t p].
  - by rewrite (wfq_handleArrivalEvent_config _ _ _ Ha0).
  - by rewrite (wfq_handleDepartureEvent_config _ _ _ Ha0).
Qed.

Lemma wfq_loop_config fuel (st : State) o :
  loop fuel st = Ok o -> config_of (state_of o) = config_of st.
Proof.
  revert st. induction fuel as [|fuel IH]; intros st; simpl; [by intros [= <-]|].
  destruct (step st) as [o1|w] eqn:Hs; simpl; [|discriminate].
  apply wfq_step_config in Hs.
  destruct o1 as [st1|st1]; [|by intros [= <-]].
  intros H. apply IH in H. simpl in Hs. congruence.
Qed.

Lemma wfq_prime_config (st : State) : config_of (prime st) = config_of st.
Proof.
  unfold prime. generalize (sources st) at 1. intros l. revert st.
  induction l as [|src l IH]; intros st; simpl; [done|].
  by rewrite IH, wfq_scheduleEvent_config.
Qed.

Lemma wfq_run_config fuel (st : State) o :
  run fuel st = Ok o -> config_of (state_of o) = config_of st.
Proof.
  unfold run. intros H. apply wfq_loop_config in H.
  by rewrite H, wfq_prime_config.
Qed.

Lemma config_bufferSize (st st' : State) :
  config_of st' = config_of st -> bufferSize st' = bufferSize st.
Proof. by intros [= _ _ _ ->]. Qed.


(** ** The invariant is kept *)

Lemma wfq_startNextTransmission_ok (st : State) (st' : State) :
  startNextTransmission st = Ok st' -> wfq_ok st -> wfq_ok st'.
Proof.
  intros Hst H.
  apply startNextTransmission_Ok in Hst as [[_ ->]|(Hbusy & p & Hp & ->)];
    [exact H|].
  pose proof (pq_top_pop BQ _ _ Hp) as Hperm.
  unfold wfq_ok, scheduleEvent. simpl.
  destruct H. rewrite Hbusy in wi_link0. unfold pq_size in *.
  rewrite Hperm in wi_buffer0, wi_bound0.
  apply Forall_cons in wi_buffer0 as [Hp0 Hrest].
  assert (Hacc : forall s r, stats st !! s = Some r ->
    packetsGenerated r =
    (packetsTransmitted r + packetsDropped r
     + Z.of_nat ((if from_source s p then 1 else 0)
                 + count (from_source s) (pq_elems BQ (pq_pop BQ (packetBuffer st))))
     + Z.of_nat (count (departure_from s) (pq_elems EQ (eventQueue st)))
     + Z.of_nat (count (lost_from s) (history st)))%Z).
  { intros s r Hr. apply wi_account0 in Hr. unfold buffered, lost in Hr.
    rewrite Hperm in Hr. exact Hr. }
  simpl in *.
  destruct (Qle_bool _ _) eqn:E; simpl.
  - apply Qle_bool_iff in E.
    eapply wfq_inv_perm; [symmetry; apply pq_push_elems|].
    split; simpl; auto; unfold pq_size; try lia.
    intros s r Hr. apply Hacc in Hr.
    unfold buffered, lost. simpl. destruct (from_source s p); lia.
  - split; simpl; auto; unfold pq_size; try lia.
    intros s r Hr. apply Hacc in Hr.
    unfold buffered, lost. simpl. destruct (from_source s p); lia.
Qed.

Lemma bufferManagement_total p (st : State) :
  wfq_ok st -> (1 <= bufferSize st)%nat ->
  exists st', bufferManagement p st = Ok st'.
Proof.
  intros H Hroom. unfold bufferManagement.
  destruct (_ <? _)%nat eqn:Hb; [eauto|]. apply Nat.ltb_ge in Hb.
  destruct (pq_top BQ (packetBuffer st)) as [d|] eqn:Ed.
  - unfold pq_top_ub. rewrite Ed. simpl.
    pose proof (pq_top_pop BQ _ _ Ed) as Hperm.
    pose proof (wi_buffer _ _ H) as Hbuf. rewrite Hperm in Hbuf.
    apply Forall_cons in Hbuf as [Hd _].
    rewrite (modify_at_lt _ _ _ Hd). simpl. eauto.
  - exfalso. apply pq_top_none in Ed. unfold pq_size in Hb. rewrite Ed in Hb.
    simpl in Hb. lia.
Qed.

Lemma wfq_handleArrivalEvent_keeps srcID (st st' : State) :
  (srcID < length (stats st))%nat -> wfq_ok st ->
  handleArrivalEvent srcID st = Ok st' -> wfq_ok st'.
Proof.
  intros Hs H Hh. unfold handleArrivalEvent in Hh.
  bind_inv Hh. rename a into src. bind_inv Hh. destruct a as [p st2]. bind_inv Hh.
  eapply wfq_startNextTransmission_ok; [exact Hh|].
  eapply wfq_generate_buffer_ok; [exact Hha0 | exact Hha1 |].
  by apply wfq_scheduleNextArrival_ok.
Qed.

Lemma wfq_handleArrivalEvent_ok srcID (st : State) :
  (srcID < length (stats st))%nat -> wfq_ok st -> (1 <= bufferSize st)%nat ->
  exists st', handleArrivalEvent srcID st = Ok st' /\ wfq_ok st'.
Proof.
  intros Hs H Hroom. unfold handleArrivalEvent.
  destruct (at_index_lt (sources st) srcID) as [src ->];
    [rewrite (wi_sizes _ _ H); exact Hs|].
  simpl.
  pose proof (wfq_scheduleNextArrival_ok srcID src st Hs H) as H1.
  destruct (wfq_scheduleNextArrival_frame srcID src st)
    as (Eso & Est & _ & _ & EB & _).
  set (st1 := scheduleNextArrival srcID src st) in *.
  destruct (generatePacket_lt srcID src st1) as (p & st2 & E2).
  { rewrite Eso, (wi_sizes _ _ H). exact Hs. }
  { rewrite Est. exact Hs. }
  rewrite E2. simpl.
  destruct (bufferManagement p st2) as [st3|w] eqn:E3.
  - simpl. pose proof (wfq_generate_buffer_ok _ _ _ _ _ _ E2 E3 H1) as H3.
    destruct (startNextTransmission_total st3) as [st4 E4]. rewrite E4.
    eexists. split; [reflexivity|]. by eapply wfq_startNextTransmission_ok.
  - exfalso. apply generatePacket_Ok in E2 as (Hs2' & Hs2 & Hp & ->).
    assert (Hq : wfq_ok (set_stats (stats st1)
              (set_sources (sources st1)
                (set_nextPacketId (nextPacketId st1) (set_generator (generator st1) st1))))).
    { destruct H1. split; simpl; auto. }
    revert E3. unfold bufferManagement. simpl.
    destruct (_ <? _)%nat eqn:Hb; [discriminate|]. apply Nat.ltb_ge in Hb.
    destruct (pq_top BQ (packetBuffer st1)) as [d|] eqn:Ed.
    + unfold pq_top_ub. rewrite Ed. simpl.
      pose proof (pq_top_pop BQ _ _ Ed) as Hperm.
      pose proof (wi_buffer _ _ H1) as Hbuf. rewrite Hperm in Hbuf.
      apply Forall_cons in Hbuf as [Hd _].
      rewrite modify_at_lt by (by rewrite length_alter). discriminate.
    + apply pq_top_none in Ed. unfold pq_size in Hb. rewrite Ed in Hb.
      simpl in Hb. lia.
Qed.

Lemma wfq_handleDepartureEvent_ok t p (st : State) :
  wfq_inv (PACKET_DEPARTURE t p :: pq_elems EQ (eventQueue st)) st ->
  exists st', handleDepartureEvent p st = Ok st' /\ wfq_ok st'.
Proof.
  intros H. unfold handleDepartureEvent. simpl.
  pose proof (wi_events _ _ H) as He. apply Forall_cons in He as [Hp He].
  simpl in Hp. rewrite (modify_at_lt _ _ _ Hp). simpl.
  match goal with |- context [startNextTransmission ?s] => set (st1 := s) end.
  destruct (startNextTransmission_total st1) as [st2 E2]. rewrite E2.
  eexists. split; [reflexivity|].
  eapply wfq_startNextTransmission_ok; [exact E2|].
  destruct H. unfold wfq_ok. subst st1. simpl in *.
  apply Forall_cons in wi_horizon0 as [_ Hh].
  destruct (linkBusy st); [|lia].
  split; simpl; rewrite ?length_alter; auto; try lia.
  unfold buffered, lost in *. simpl. intros s r Hr.
  alter_cases Hr; apply wi_account0 in Hr; simpl; unfold from_source in *.
  - rewrite Nat.eqb_refl in Hr. lia.
  - destruct (Nat.eqb_spec (pkt_sourceID p) s); [congruence|]. lia.
Qed.

Lemma wfq_step_keeps (st : State) o :
  wfq_ok st -> step st = Ok o -> wfq_ok (state_of o).
Proof.
  intros H. unfold step.
  destruct (pq_is_empty EQ (eventQueue st)) eqn:Hemp.
  { by intros [= <-]. }
  destruct (pq_nonempty_top _ _ Hemp) as [e He].
  unfold pq_top_ub. rewrite He. simpl.
  pose proof (pq_top_pop EQ _ _ He) as Hperm.
  pose proof (wfq_inv_perm _ _ _ Hperm H) as H1.
  set (st1 := set_currentTime (ev_time e)
                (set_eventQueue (pq_pop EQ (eventQueue st)) st)).
  assert (H2 : wfq_inv (e :: pq_elems EQ (eventQueue st1)) st1).
  { destruct H1. split; simpl; auto. }
  destruct (Qltb (simulationTime st) (ev_time e)) eqn:Hlt.
  { exfalso. apply Qltb_lt in Hlt.
    pose proof (wi_horizon _ _ H1) as Hh. apply Forall_cons in Hh as [Hh _]. lra. }
  intros Hs. bind_inv Hs. injection Hs as <-. simpl.
  destruct e as [t srcID | t p].
  - eapply wfq_handleArrivalEvent_keeps; [| |exact Hsa].
    + pose proof (wi_events _ _ H2) as Hev. by apply Forall_cons in Hev as [Hev _].
    + destruct H2. unfold wfq_ok.
      apply Forall_cons in wi_events0 as [_ ?].
      apply Forall_cons in wi_horizon0 as [_ ?].
      split; simpl in *; auto.
  - destruct (wfq_handleDepartureEvent_ok t p st1 H2) as (st' & E & H').
    rewrite E in Hsa. by injection Hsa as <-.
Qed.

Lemma wfq_step_ok (st : State) :
  wfq_ok st -> (1 <= bufferSize st)%nat ->
  exists o, step st = Ok o /\ wfq_ok (state_of o).
Proof.
  intros H Hroom. unfold step.
  destruct (pq_is_empty EQ (eventQueue st)) eqn:Hemp.
  { eexists. split; [reflexivity | exact H]. }
  destruct (pq_nonempty_top _ _ Hemp) as [e He].
  unfold pq_top_ub. rewrite He. simpl.
  pose proof (pq_top_pop EQ _ _ He) as Hperm.
  pose proof (wfq_inv_perm _ _ _ Hperm H) as H1.
  set (st1 := set_currentTime (ev_time e)
                (set_eventQueue (pq_pop EQ (eventQueue st)) st)).
  assert (H2 : wfq_inv (e :: pq_elems EQ (eventQueue st1)) st1).
  { destruct H1. split; simpl; auto. }
  destruct (Qltb (simulationTime st) (ev_time e)) eqn:Hlt.
  { exfalso. apply Qltb_lt in Hlt.
    pose proof (wi_horizon _ _ H1) as Hh. apply Forall_cons in Hh as [Hh _]. lra. }
  destruct e as [t srcID | t p].
  - destruct (wfq_handleArrivalEvent_ok srcID st1) as (st' & -> & H').
    + pose proof (wi_events _ _ H2) as Hev. by apply Forall_cons in Hev as [Hev _].
    + destruct H2. unfold wfq_ok.
      apply Forall_cons in wi_events0 as [_ ?].
      apply Forall_cons in wi_horizon0 as [_ ?].
      split; simpl in *; auto.
    + exact Hroom.
    + simpl. eexists. split; [reflexivity | exact H'].
  - destruct (wfq_handleDepartureEvent_ok t p st1 H2) as (st' & -> & H').
    simpl. eexists. split; [reflexivity | exact H'].
Qed.

Lemma wfq_halted_empty (st : State) (st' : State) :
  wfq_ok st -> step st = Ok (Halted st') ->
  st' = st /\ pq_elems EQ (eventQueue st) = [].
Proof.
  intros H. unfold step.
  destruct (pq_is_empty EQ (eventQueue st)) eqn:Hemp.
  { intros [= <-]. split; [reflexivity | by apply pq_is_empty_true]. }
  destruct (pq_nonempty_top _ _ Hemp) as [e He].
  unfold pq_top_ub. rewrite He. simpl.
  pose proof (pq_top_pop EQ _ _ He) as Hperm.
  pose proof (wfq_inv_perm _ _ _ Hperm H) as H1.
  destruct (Qltb (simulationTime st) (ev_time e)) eqn:Hlt.
  { exfalso. apply Qltb_lt in Hlt.
    pose proof (wi_horizon _ _ H1) as Hh. apply Forall_cons in Hh as [Hh _]. lra. }
  intros Hb. bind_inv Hb. discriminate.
Qed.

Lemma wfq_loop_keeps fuel (st : State) o :
  wfq_ok st -> loop fuel st = Ok o -> wfq_ok (state_of o).
Proof.
  revert st. induction fuel as [|fuel IH]; intros st H; simpl.
  { by intros [= <-]. }
  destruct (step st) as [o1|u] eqn:Hs; simpl; [|discriminate].
  pose proof (wfq_step_keeps _ _ H Hs) as H1.
  destruct o1 as [st1|st1]; [by apply IH|]. by intros [= <-].
Qed.

Lemma wfq_loop_ok fuel (st : State) :
  wfq_ok st -> (1 <= bufferSize st)%nat ->
  exists o, loop fuel st = Ok o /\ wfq_ok (state_of o).
Proof.
  revert st. induction fuel as [|fuel IH]; intros st H Hroom; simpl.
  { eexists. split; [reflexivity | exact H]. }
  destruct (wfq_step_ok st H Hroom) as (o & Hs & Ho). rewrite Hs. simpl.
  destruct o as [st'|st']; [|eexists; split; [reflexivity | exact Ho]].
  apply IH; [exact Ho|].
  apply wfq_step_config, config_bufferSize in Hs. simpl in Hs. by rewrite Hs.
Qed.

Lemma wfq_loop_halted fuel (st : State) (st' : State) :
  wfq_ok st -> loop fuel st = Ok (Halted st') ->
  pq_elems EQ (eventQueue st') = [].
Proof.
  revert st. induction fuel as [|fuel IH]; intros st H; simpl; [discriminate|].
  destruct (step st) as [o|u] eqn:Hs; simpl; [|discriminate].
  pose proof (wfq_step_keeps _ _ H Hs) as Ho.
  destruct o as [st1|st1]; [by apply IH|].
  intros [= <-]. by destruct (wfq_halted_empty _ _ H Hs) as [-> ?].
Qed.

Lemma wfq_scheduleEvent_stats e (st : State) :
  stats (scheduleEvent e st) = stats st /\ sources (scheduleEvent e st) = sources st.
Proof. unfold scheduleEvent. destruct (Qle_bool _ _); simpl; auto. Qed.

Lemma wfq_prime_fold_ok (l : list Source) (st : State) :
  wfq_ok st ->
  Forall (fun src => src_id src < length (stats st))%nat l ->
  wfq_ok (fold_left
    (fun st src => scheduleEvent (PACKET_ARRIVAL (startTime src) (src_id src)) st)
    l st).
Proof.
  revert st. induction l as [|src l IH]; intros st H Hl; simpl; [exact H|].
  apply Forall_cons in Hl as [Hsrc Hl].
  apply IH.
  - by apply wfq_scheduleEvent_arrival_ok.
  - by rewrite (proj1 (wfq_scheduleEvent_stats _ _)).
Qed.

Lemma wfq_read_sources_spec X T i n lines acc srcs :
  read_sources X T i n lines acc = inr srcs ->
  Forall (fun src => (src_id src < i + n)%nat /\ lastFinishTime src = 0) acc ->
  length srcs = (length acc + n)%nat /\
  Forall (fun src => (src_id src < i + n)%nat /\ lastFinishTime src = 0) srcs.
Proof.
  revert i lines acc. induction n as [|n IH]; intros i lines acc; simpl.
  { intros [= <-] Hacc. split; [lia | exact Hacc]. }
  destruct lines as [|line rest]; [discriminate|].
  destruct (extract_source X line) as [[[[[rate minSz] maxSz] w] tb] te].
  intros H Hacc. apply IH in H.
  - destruct H as [Hlen Hall]. rewrite length_app in Hlen. simpl in Hlen.
    split; [lia|]. eapply Forall_impl; [exact Hall|]. simpl. intros ? []. split; [lia|done].
  - apply Forall_app. split.
    + eapply Forall_impl; [exact Hacc|]. simpl. intros ? []. split; [lia|done].
    + constructor; [simpl; split; [lia|done] | constructor].
Qed.


Lemma wfq_loadConfig_loaded X file (st : State) :
  loadConfig EQ BQ G X file = inr st -> wfq_loaded st.
Proof.
  unfold loadConfig. destruct file as [[|line rest]|]; try discriminate.
  destruct (extract_header X line) as [[[n T] C] B].
  destruct (n <? 0)%Z eqn:Hn; [discriminate|]. apply Z.ltb_ge in Hn.
  destruct (read_sources X T 0 (Z.to_nat n) rest []) as [e|srcs] eqn:E;
    [discriminate|].
  intros [= <-]. apply wfq_read_sources_spec in E; [|constructor].
  destruct E as [Hlen Hall]. simpl in Hlen.
  split; simpl; auto.
  - by rewrite Hlen.
  - rewrite Hlen. lia.
  - by rewrite Hlen.
Qed.

Lemma wfq_loaded_ok (st : State) : wfq_loaded st -> wfq_ok st.
Proof.
  intros []. unfold wfq_ok. rewrite wl_queue0, pq_new_elems.
  split; simpl; auto.
  - by rewrite wl_num0, wl_stats0, length_replicate.
  - by rewrite wl_stats0, length_replicate.
  - rewrite wl_buffer0, pq_new_elems. constructor.
  - unfold buffered, lost. rewrite wl_buffer0, pq_new_elems, wl_history0, wl_stats0.
    simpl. intros s r Hr. apply lookup_replicate in Hr as [-> _]. reflexivity.
  - by rewrite wl_history0, wl_link0.
  - unfold pq_size. rewrite wl_buffer0, pq_new_elems. simpl. lia.
Qed.

Lemma wfq_prime_ok (st : State) : wfq_loaded st -> wfq_ok (prime st).
Proof.
  intros H. apply wfq_prime_fold_ok; [by apply wfq_loaded_ok|].
  rewrite (wl_stats _ H), length_replicate.
  eapply Forall_impl; [apply (wl_ids _ H)|]. by intros ? [].
Qed.

Lemma wfq_run_ok fuel (st : State) :
  wfq_loaded st -> (1 <= bufferSize st)%nat ->
  exists o, run fuel st = Ok o /\ wfq_ok (state_of o).
Proof.
  intros H Hroom. apply wfq_loop_ok; [by apply wfq_prime_ok|].
  by rewrite (config_bufferSize _ _ (wfq_prime_config st)).
Qed.

Lemma wfq_run_keeps fuel (st : State) o :
  wfq_loaded st -> run fuel st = Ok o -> wfq_ok (state_of o).
Proof. intros H. apply wfq_loop_keeps. by apply wfq_prime_ok. Qed.

(** ** [loadConfig] checks the number of lines and nothing else *)

Lemma wfq_read_sources_inr X T i n lines acc :
  (n <= length lines)%nat ->
  read_sources X T i n lines acc
  = inr (acc ++ zip_with (source_of_line X T) (seq i n) (take n lines)).
Proof.
  revert i lines acc. induction n as [|n IH]; intros i lines acc Hn; simpl.
  { by rewrite app_nil_r. }
  destruct lines as [|line rest]; [simpl in Hn; lia|].
  simpl in Hn. unfold source_of_line at 1. simpl.
  destruct (extract_source X line) as [[[[[rate minSz] maxSz] w] tb] te].
  rewrite IH by lia. by rewrite <- app_assoc.
Qed.

Lemma wfq_read_sources_inl X T i n lines acc :
  (length lines < n)%nat ->
  read_sources X T i n lines acc = inl MissingSourceConfigurations.
Proof.
  revert i lines acc. induction n as [|n IH]; intros i lines acc Hn; simpl; [lia|].
  destruct lines as [|line rest]; [done|].
  simpl in Hn.
  destruct (extract_source X line) as [[[[[rate minSz] maxSz] w] tb] te].
  apply IH. lia.
Qed.

End Invariant.
End WFQFacts.

Module WFQTimed.
Import WFQ WFQFacts.

Section Timed.
Context {EQ : MinPQ Event ev_time} {BQ : MinPQ Packet virtualFinishTime}
        {G : RandomEngine}.
Context (laws : RandomEngineLaws G).
Local Abbreviation State := (State EQ BQ G).

(** Reduces only the projections of updated states. *)
Ltac wsimpl :=
  cbn [numSources simulationTime linkCapacity bufferSize currentTime
       systemVirtualTime linkBusy
       nextPacketId sources stats packetBuffer eventQueue generator history
       set_currentTime set_systemVirtualTime set_linkBusy set_nextPacketId
       set_sources set_stats set_packetBuffer
       set_eventQueue set_generator observe state_of ev_time ev_sourceID
       pkt_id pkt_sourceID pkt_size pkt_weight pkt_arrivalTime virtualFinishTime
       src_id packetRate minSize maxSize weight startTime endTime lastFinishTime
       set_lastFinishTime fst snd] in *.


Lemma wfq_timed_perm evs evs' (st : State) :
  Permutation evs evs' -> wfq_timed evs st -> wfq_timed evs' st.
Proof. intros P []. split; try done; by rewrite <- P. Qed.

Lemma wfq_timed_scheduleEvent_arrival t s (st : State) :
  currentTime st <= t -> wfq_timed_ok st ->
  wfq_timed_ok (scheduleEvent (PACKET_ARRIVAL t s) st).
Proof.
  intros Ht H. unfold wfq_timed_ok, scheduleEvent. simpl.
  destruct (Qle_bool t (simulationTime st)) eqn:E; simpl.
  - eapply wfq_timed_perm; [symmetry; apply pq_push_elems|].
    destruct H. split; simpl; auto.
  - destruct H. split; simpl; auto.
Qed.

Lemma wfq_timed_scheduleNextArrival srcID src (st : State) :
  wfq_timed_ok st -> wfq_timed_ok (scheduleNextArrival srcID src st).
Proof.
  intros H. unfold scheduleNextArrival.
  pose proof (exponential_nonneg G laws (packetRate src) (generator st)) as Hdt.
  destruct (exponential_draw G (packetRate src) (generator st)) as [dt g].
  simpl in Hdt.
  assert (H' : wfq_timed_ok (set_generator g st)) by (destruct H; split; simpl; auto).
  simpl. destruct (Qltb _ _); [|exact H'].
  apply wfq_timed_scheduleEvent_arrival; [simpl; lra | exact H'].
Qed.

Lemma wfq_timed_generate_buffer srcID src (st : State) p (st1 : State) (st2 : State) :
  src ∈ sources st ->
  generatePacket srcID src st = Ok (p, st1) ->
  bufferManagement p st1 = Ok st2 ->
  wfq_timed_ok st -> wfq_timed_ok st2.
Proof.
  intros Hsrc H1 H2 H.
  pose proof (uniform_int_range G laws (minSize src) (maxSize src) (generator st)) as Hsz.
  apply generatePacket_Ok in H1 as (Hs' & Hs & Hp & ->).
  assert (0 <= pkt_size p)%Z as Hsz0.
  { pose proof (wt_sources _ _ H) as Hall. rewrite Forall_forall in Hall.
    specialize (Hall _ Hsrc). rewrite Hp. simpl. lia. }
  clear Hp.
  assert (Hmap : forall i l, map bytesTransmitted (alter incr_generated i l)
                             = map bytesTransmitted l)
    by (intros; by apply map_alter_same).
  assert (Hmap' : forall i l, map bytesTransmitted (alter incr_dropped i l)
                             = map bytesTransmitted l)
    by (intros; by apply map_alter_same).
  apply bufferManagement_Ok in H2 as [[Hb ->]|(Hb & d & Hd & Hdl & ->)]; wsimpl.
  - destruct H. unfold wfq_timed_ok.
    split; unfold wfq_total_bytes in *; wsimpl; rewrite ?Hmap; auto.
    + by apply Forall_alter_keep.
    + rewrite pq_push_elems. by constructor.
    + by apply Forall_alter_keep.
  - pose proof (pq_top_pop BQ _ _ Hd) as Hperm.
    destruct H. unfold wfq_timed_ok. rewrite Hperm in wt_buffer0.
    apply Forall_cons in wt_buffer0 as [_ Hrest].
    split; unfold wfq_total_bytes in *; wsimpl; rewrite ?Hmap', ?Hmap; auto.
    + by apply Forall_alter_keep.
    + rewrite pq_push_elems. by constructor.
    + do 2 (apply Forall_alter_keep; [done|]). done.
Qed.

Lemma wfq_timed_startNextTransmission (st : State) (st' : State) :
  startNextTransmission st = Ok st' -> wfq_timed_ok st -> wfq_timed_ok st'.
Proof.
  intros Hst H.
  apply startNextTransmission_Ok in Hst as [[_ ->]|(Hbusy & p & Hp & ->)];
    [exact H|].
  pose proof (pq_top_pop BQ _ _ Hp) as Hperm.
  unfold wfq_timed_ok, scheduleEvent. wsimpl.
  destruct H. rewrite Hperm in wt_buffer0.
  apply Forall_cons in wt_buffer0 as [Hp0 Hrest].
  assert (Hdiv : linkCapacity st * (inject_Z (pkt_size p) / linkCapacity st)
                 == inject_Z (pkt_size p)) by (field; lra).
  assert (Hp' : 0 <= inject_Z (pkt_size p)).
  { change 0 with (inject_Z 0). by rewrite <- Zle_Qle. }
  assert (Hq : 0 <= inject_Z (pkt_size p) / linkCapacity st).
  { apply Qle_shift_div_l; [done | lra]. }
  destruct (Qle_bool _ _) eqn:E; wsimpl.
  - eapply wfq_timed_perm; [symmetry; apply pq_push_elems|].
    split; unfold wfq_total_bytes in *; wsimpl; auto.
    + constructor; [wsimpl; lra | done].
    + constructor; [|done]. split; [done|]. lra.
  - split; unfold wfq_total_bytes in *; wsimpl; auto.
Qed.

Lemma wfq_timed_handleArrivalEvent srcID (st : State) (st' : State) :
  handleArrivalEvent srcID st = Ok st' ->
  wfq_timed_ok st -> wfq_timed_ok st'.
Proof.
  unfold handleArrivalEvent. intros H Ht.
  bind_inv H. apply at_index_Ok in Ha. rename a into src.
  bind_inv H. destruct a as [p st2]. bind_inv H.
  eapply wfq_timed_startNextTransmission; [exact H|].
  eapply wfq_timed_generate_buffer; [| exact Ha0 | exact Ha1 |].
  - destruct (wfq_scheduleNextArrival_frame srcID src st) as (-> & _).
    by eapply list_elem_of_lookup_2.
  - by apply wfq_timed_scheduleNextArrival.
Qed.

Lemma wfq_timed_handleDepartureEvent t p (st : State) (st' : State) :
  handleDepartureEvent p st = Ok st' ->
  wfq_inv (PACKET_DEPARTURE t p :: pq_elems EQ (eventQueue st)) st ->
  wfq_timed (PACKET_DEPARTURE t p :: pq_elems EQ (eventQueue st)) st ->
  currentTime st == t ->
  wfq_timed_ok st'.
Proof.
  unfold handleDepartureEvent. wsimpl. intros H Hi Ht Hnow.
  bind_inv H. apply modify_at_Ok in Ha as [Hs ->].
  eapply wfq_timed_startNextTransmission; [exact H|].
  destruct (lookup_lt_is_Some_2 _ _ Hs) as [r Hr].
  pose proof (Qsum_alter bytesTransmitted
    (record_departure (pkt_size p) (currentTime st - pkt_arrivalTime p))
    _ _ _ Hr) as Hsum. simpl in Hsum.
  pose proof (wi_link _ _ Hi) as Hlink. simpl in Hlink.
  assert (Hnodep : count is_departure (pq_elems EQ (eventQueue st)) = 0%nat)
    by (destruct (linkBusy st); lia).
  apply count_zero_Forall in Hnodep.
  destruct Ht. unfold wfq_timed_ok, wfq_total_bytes in *. wsimpl.
  apply Forall_cons in wt_future0 as [_ Hfut].
  apply Forall_cons in wt_inflight0 as [[Hp0 Hp] Hinf].
  assert (Hp' : 0 <= inject_Z (pkt_size p)).
  { change 0 with (inject_Z 0). by rewrite <- Zle_Qle. }
  split; wsimpl; auto.
  - rewrite Hsum, Hnow. lra.
  - eapply Forall_impl; [exact Hnodep|]. intros [] ?; simpl in *; [done | discriminate].
  - apply Forall_alter_keep; [|done]. intros a Ha. simpl. lra.
Qed.

Lemma wfq_timed_step (st : State) o :
  wfq_ok st -> wfq_timed_ok st -> step st = Ok o -> wfq_timed_ok (state_of o).
Proof.
  intros Hi Ht. unfold step.
  destruct (pq_is_empty EQ (eventQueue st)) eqn:Hemp.
  { intros [= <-]. exact Ht. }
  destruct (pq_nonempty_top _ _ Hemp) as [e He].
  unfold pq_top_ub. rewrite He. cbn [mbind result_bind].
  pose proof (pq_top_pop EQ _ _ He) as Hperm.
  pose proof (pq_top_min EQ _ _ He) as Hmin. rewrite Hperm in Hmin.
  pose proof (wfq_inv_perm _ _ _ Hperm Hi) as Hi1.
  pose proof (wfq_timed_perm _ _ _ Hperm Ht) as Ht1.
  set (st1 := set_currentTime (ev_time e)
                (set_eventQueue (pq_pop EQ (eventQueue st)) st)).
  assert (Hi2 : wfq_inv (e :: pq_elems EQ (eventQueue st1)) st1).
  { destruct Hi1. split; simpl; auto. }
  assert (Ht2 : wfq_timed (e :: pq_elems EQ (eventQueue st1)) st1).
  { pose proof (wi_horizon _ _ Hi1) as Hh. apply Forall_cons in Hh as [Hh _].
    destruct Ht1. pose proof wt_future0 as Hf. apply Forall_cons in Hf as [Hf _].
    split; unfold wfq_total_bytes in *; subst st1; wsimpl; auto.
    assert (linkCapacity st * currentTime st <= linkCapacity st * ev_time e)
      by (apply Qmult_le_l; done).
    lra. }
  destruct (Qltb _ _); [intros [= <-]; wsimpl|].
  { destruct Ht2. split; auto.
    - by apply Forall_cons in wt_future0 as [_ ?].
    - by apply Forall_cons in wt_inflight0 as [_ ?]. }
  intros H. bind_inv H. injection H as <-. wsimpl.
  destruct e as [t srcID | t p].
  - eapply wfq_timed_handleArrivalEvent; [exact Ha|].
    destruct Ht2. split; auto.
    + by apply Forall_cons in wt_future0 as [_ ?].
    + by apply Forall_cons in wt_inflight0 as [_ ?].
  - eapply wfq_timed_handleDepartureEvent; [exact Ha | exact Hi2 | exact Ht2 |].
    subst st1. wsimpl. reflexivity.
Qed.

Lemma wfq_timed_loop fuel (st : State) o :
  wfq_ok st -> wfq_timed_ok st -> loop fuel st = Ok o ->
  wfq_timed_ok (state_of o).
Proof.
  revert st. induction fuel as [|fuel IH]; intros st Hi Ht; simpl.
  { intros [= <-]. exact Ht. }
  destruct (step st) as [o1|u] eqn:Hs; simpl; [|discriminate].
  pose proof (wfq_step_keeps _ _ Hi Hs) as Hi1.
  pose proof (wfq_timed_step _ _ Hi Ht Hs) as Ht1.
  destruct o1 as [st1|st1]; [by apply IH|].
  intros [= <-]. exact Ht1.
Qed.


Lemma wfq_timed_prime_fold (l : list Source) (st : State) :
  wfq_timed_ok st ->
  Forall (fun src => currentTime st <= startTime src) l ->
  wfq_timed_ok (fold_left
    (fun st src => scheduleEvent (PACKET_ARRIVAL (startTime src) (src_id src)) st)
    l st).
Proof.
  revert st. induction l as [|src l IH]; intros st H Hl; simpl; [exact H|].
  apply Forall_cons in Hl as [Hsrc Hl].
  apply IH.
  - by apply wfq_timed_scheduleEvent_arrival.
  - unfold scheduleEvent. destruct (Qle_bool _ _); exact Hl.
Qed.

Lemma wfq_timed_prime (st : State) :
  wfq_loaded st -> wfq_valid_config st -> wfq_timed_ok (prime st).
Proof.
  intros Hl Hv. destruct Hv, Hl.
  apply wfq_timed_prime_fold.
  - unfold wfq_timed_ok. rewrite wl_queue0, pq_new_elems.
    split; unfold wfq_total_bytes;
      rewrite ?wl_stats0, ?wl_buffer0, ?pq_new_elems, ?wl_clock0; auto.
    + eapply Forall_impl; [exact wv_sources0|]. intros src [? _]. done.
    + lra.
    + generalize (length (sources st)). intros n.
      induction n as [|n IH]; simpl; [lra|].
      assert (linkCapacity st * 0 == 0) as E by ring. rewrite E in *. lra.
    + apply Forall_replicate. simpl. lra.
  - rewrite wl_clock0.
    eapply Forall_impl; [exact wv_sources0|]. intros src [_ ?]. done.
Qed.

Lemma wfq_timed_run fuel (st : State) o :
  wfq_loaded st -> wfq_valid_config st -> run fuel st = Ok o ->
  wfq_ok (state_of o) /\ wfq_timed_ok (state_of o).
Proof.
  intros Hl Hv Hr. split.
  - by eapply wfq_run_keeps.
  - eapply wfq_timed_loop;
      [by apply wfq_prime_ok | by apply wfq_timed_prime | exact Hr].
Qed.

(** ** Sizes and byte counters are never negative *)

Lemma wfq_sized_perm evs evs' (st : State) :
  Permutation evs evs' -> wfq_sized evs st -> wfq_sized evs' st.
Proof. intros P []. split; try done; by rewrite <- P. Qed.

Lemma wfq_sized_scheduleEvent_arrival t s (st : State) :
  wfq_sized_ok st -> wfq_sized_ok (scheduleEvent (PACKET_ARRIVAL t s) st).
Proof.
  intros H. unfold wfq_sized_ok, scheduleEvent. simpl.
  destruct (Qle_bool t (simulationTime st)) eqn:E; simpl.
  - eapply wfq_sized_perm; [symmetry; apply pq_push_elems|].
    destruct H. split; simpl; auto.
  - destruct H. split; simpl; auto.
Qed.

Lemma wfq_sized_scheduleNextArrival srcID src (st : State) :
  wfq_sized_ok st -> wfq_sized_ok (scheduleNextArrival srcID src st).
Proof.
  intros H. unfold scheduleNextArrival.
  destruct (exponential_draw G (packetRate src) (generator st)) as [dt g].
  assert (H' : wfq_sized_ok (set_generator g st)) by (destruct H; split; simpl; auto).
  simpl. destruct (Qltb _ _); [|exact H'].
  by apply wfq_sized_scheduleEvent_arrival.
Qed.

Lemma wfq_sized_generate_buffer srcID src (st : State) p (st1 : State) (st2 : State) :
  src ∈ sources st ->
  generatePacket srcID src st = Ok (p, st1) ->
  bufferManagement p st1 = Ok st2 ->
  wfq_sized_ok st -> wfq_sized_ok st2.
Proof.
  intros Hsrc H1 H2 H.
  pose proof (uniform_int_range G laws (minSize src) (maxSize src) (generator st)) as Hsz.
  apply generatePacket_Ok in H1 as (Hs' & Hs & Hp & ->).
  assert (0 <= pkt_size p)%Z as Hsz0.
  { pose proof (ws_sources _ _ H) as Hall. unfold wfq_valid_sizes in Hall.
    rewrite Forall_forall in Hall.
    specialize (Hall _ Hsrc). rewrite Hp. simpl. lia. }
  clear Hp.
  apply bufferManagement_Ok in H2 as [[Hb ->]|(Hb & d & Hd & Hdl & ->)]; wsimpl.
  - destruct H. unfold wfq_sized_ok, wfq_valid_sizes in *.
    split; unfold wfq_valid_sizes; wsimpl; auto.
    + by apply Forall_alter_keep.
    + rewrite pq_push_elems. by constructor.
    + by apply Forall_alter_keep.
  - pose proof (pq_top_pop BQ _ _ Hd) as Hperm.
    destruct H. unfold wfq_sized_ok, wfq_valid_sizes in *. rewrite Hperm in ws_buffer0.
    apply Forall_cons in ws_buffer0 as [_ Hrest].
    split; unfold wfq_valid_sizes; wsimpl; auto.
    + by apply Forall_alter_keep.
    + rewrite pq_push_elems. by constructor.
    + do 2 (apply Forall_alter_keep; [done|]). done.
Qed.

Lemma wfq_sized_startNextTransmission (st : State) (st' : State) :
  startNextTransmission st = Ok st' -> wfq_sized_ok st -> wfq_sized_ok st'.
Proof.
  intros Hst H.
  apply startNextTransmission_Ok in Hst as [[_ ->]|(Hbusy & p & Hp & ->)];
    [exact H|].
  pose proof (pq_top_pop BQ _ _ Hp) as Hperm.
  unfold wfq_sized_ok, scheduleEvent. wsimpl.
  destruct H. rewrite Hperm in ws_buffer0.
  apply Forall_cons in ws_buffer0 as [Hp0 Hrest].
  destruct (Qle_bool _ _) eqn:E; wsimpl.
  - eapply wfq_sized_perm; [symmetry; apply pq_push_elems|].
    split; wsimpl; auto.
  - split; wsimpl; auto.
Qed.

Lemma wfq_sized_handleArrivalEvent srcID (st : State) (st' : State) :
  handleArrivalEvent srcID st = Ok st' ->
  wfq_sized_ok st -> wfq_sized_ok st'.
Proof.
  unfold handleArrivalEvent. intros H Ht.
  bind_inv H. apply at_index_Ok in Ha. rename a into src.
  bind_inv H. destruct a as [p st2]. bind_inv H.
  eapply wfq_sized_startNextTransmission; [exact H|].
  eapply wfq_sized_generate_buffer; [| exact Ha0 | exact Ha1 |].
  - destruct (wfq_scheduleNextArrival_frame srcID src st) as (-> & _).
    by eapply list_elem_of_lookup_2.
  - by apply wfq_sized_scheduleNextArrival.
Qed.

Lemma wfq_sized_handleDepartureEvent t p (st : State) (st' : State) :
  handleDepartureEvent p st = Ok st' ->
  wfq_sized (PACKET_DEPARTURE t p :: pq_elems EQ (eventQueue st)) st ->
  wfq_sized_ok st'.
Proof.
  unfold handleDepartureEvent. wsimpl. intros H Ht.
  bind_inv H. apply modify_at_Ok in Ha as [Hs ->].
  eapply wfq_sized_startNextTransmission; [exact H|].
  destruct Ht. unfold wfq_sized_ok. wsimpl.
  apply Forall_cons in ws_events0 as [Hp0 Hev].
  assert (Hp' : 0 <= inject_Z (pkt_size p)).
  { change 0 with (inject_Z 0). by rewrite <- Zle_Qle. }
  split; wsimpl; auto.
  apply Forall_alter_keep; [|done]. intros a Ha. simpl. lra.
Qed.

Lemma wfq_sized_step (st : State) o :
  wfq_sized_ok st -> step st = Ok o -> wfq_sized_ok (state_of o).
Proof.
  intros Ht. unfold step.
  destruct (pq_is_empty EQ (eventQueue st)) eqn:Hemp.
  { intros [= <-]. exact Ht. }
  destruct (pq_nonempty_top _ _ Hemp) as [e He].
  unfold pq_top_ub. rewrite He. cbn [mbind result_bind].
  pose proof (pq_top_pop EQ _ _ He) as Hperm.
  pose proof (wfq_sized_perm _ _ _ Hperm Ht) as Ht1.
  set (st1 := set_currentTime (ev_time e)
                (set_eventQueue (pq_pop EQ (eventQueue st)) st)).
  assert (Ht2 : wfq_sized (e :: pq_elems EQ (eventQueue st1)) st1).
  { destruct Ht1. split; subst st1; wsimpl; auto. }
  assert (Ht3 : wfq_sized_ok st1).
  { destruct Ht2. split; auto. by apply Forall_cons in ws_events0 as [_ ?]. }
  destruct (Qltb _ _); [intros [= <-]; exact Ht3|].
  intros H. bind_inv H. injection H as <-. wsimpl.
  destruct e as [t srcID | t p].
  - by eapply wfq_sized_handleArrivalEvent.
  - by eapply wfq_sized_handleDepartureEvent.
Qed.

Lemma wfq_sized_loop fuel (st : State) o :
  wfq_sized_ok st -> loop fuel st = Ok o -> wfq_sized_ok (state_of o).
Proof.
  revert st. induction fuel as [|fuel IH]; intros st Ht; simpl.
  { intros [= <-]. exact Ht. }
  destruct (step st) as [o1|w] eqn:Hs; simpl; [|discriminate].
  pose proof (wfq_sized_step _ _ Ht Hs) as Ht1.
  destruct o1 as [st1|st1]; [by apply IH|].
  intros [= <-]. exact Ht1.
Qed.

Lemma wfq_sized_prime_fold (l : list Source) (st : State) :
  wfq_sized_ok st ->
  wfq_sized_ok (fold_left
    (fun st src => scheduleEvent (PACKET_ARRIVAL (startTime src) (src_id src)) st)
    l st).
Proof.
  revert st. induction l as [|src l IH]; intros st H; simpl; [exact H|].
  apply IH. by apply wfq_sized_scheduleEvent_arrival.
Qed.

Lemma wfq_sized_run fuel (st : State) o :
  wfq_loaded st -> wfq_valid_sizes st -> run fuel st = Ok o ->
  wfq_sized_ok (state_of o).
Proof.
  intros Hl Hv. apply wfq_sized_loop. apply wfq_sized_prime_fold.
  destruct Hl. unfold wfq_sized_ok. rewrite wl_queue0, pq_new_elems.
  split; rewrite ?wl_stats0, ?wl_buffer0, ?pq_new_elems; auto.
  apply Forall_replicate. simpl. lra.
Qed.

End Timed.
End WFQTimed.

Module WFQResults.
Import WFQ WFQFacts WFQTimed.

Section Results.
Context {EQ : MinPQ Event ev_time} {BQ : MinPQ Packet virtualFinishTime}
        {G : RandomEngine}.
Local Abbreviation State := (State EQ BQ G).


Lemma wfq_sum_loop_spec (st : State) k i t0 :
  (i + k = length (stats st))%nat -> length (sources st) = length (stats st) ->
  exists t, sum_loop st (seq i k) t0 = Ok t /\
    totBytes t == totBytes t0 + Qsum (map bytesTransmitted (drop i (stats st))) /\
    sum_x t == sum_x t0 + Qsum (drop i (wfq_shares st)) /\
    sum_x_sq t == sum_x_sq t0 + Qsum (map sqr (drop i (wfq_shares st))).
Proof.
  intros Hlen Hsrc. revert i t0 Hlen.
  induction k as [|k IH]; intros i t0 Hlen; simpl.
  - exists t0. unfold wfq_shares.
    rewrite zip_with_drop, !drop_ge by lia.
    simpl. repeat split; try reflexivity; ring.
  - destruct (lookup_lt_is_Some_2 (stats st) i) as [r Hr]; [lia|].
    destruct (lookup_lt_is_Some_2 (sources st) i) as [src Hs]; [lia|].
    unfold at_index. rewrite Hr, Hs. simpl.
    match goal with |- context [accumulate ?x r t0] =>
      destruct (IH (S i) (accumulate x r t0)) as (t & Ht & H1 & H2 & H3); [lia|]
    end.
    exists t. split; [exact Ht|].
    unfold wfq_shares in *. rewrite !zip_with_drop in *.
    rewrite (drop_S _ _ _ Hr), (drop_S _ _ _ Hs). simpl in *. unfold sqr at 1.
    rewrite H1, H2, H3. unfold wfq_share. repeat split; ring.
Qed.

Lemma wfq_printResults_spec (st : State) :
  wfq_ok st ->
  exists t, printResults st
            = Ok (metrics_of (numSources st) (linkCapacity st) (simulationTime st) t) /\
    totBytes t == wfq_total_bytes st /\
    sum_x t == Qsum (wfq_shares st) /\
    sum_x_sq t == Qsum (map sqr (wfq_shares st)) /\
    inject_Z (numSources st) = Qlen (wfq_shares st).
Proof.
  intros H. unfold printResults.
  rewrite (wi_num _ _ H), Nat2Z.id.
  destruct (wfq_sum_loop_spec st (length (stats st)) 0 Totals_init)
    as (t & -> & H1 & H2 & H3); [lia | apply (wi_sizes _ _ H) |].
  exists t. split; [reflexivity|].
  change (drop 0 (stats st)) with (stats st) in H1.
  change (drop 0 (wfq_shares st)) with (wfq_shares st) in H2, H3.
  change (totBytes Totals_init) with 0 in H1.
  change (sum_x Totals_init) with 0 in H2.
  change (sum_x_sq Totals_init) with 0 in H3.
  unfold wfq_total_bytes.
  repeat split; try lra.
  unfold Qlen, wfq_shares. rewrite length_zip_with_l_eq; [done|].
  symmetry. apply (wi_sizes _ _ H).
Qed.

Lemma wfq_shares_nonneg (st : State) :
  Forall (fun r => 0 <= bytesTransmitted r) (stats st) ->
  Forall (fun x => 0 <= x) (wfq_shares st).
Proof.
  unfold wfq_shares. intros H. generalize (sources st).
  induction H as [|r rs Hr Hl IH]; intros [|src k]; simpl; try constructor.
  - unfold wfq_share. destruct (Qltb 0 (weight src)) eqn:E; [|lra].
    apply Qltb_lt in E. apply Qle_shift_div_l; [done | lra].
  - apply IH.
Qed.


Lemma wfq_idle_ext_same (st : State) (st' : State) :
  linkBusy st' = linkBusy st -> history st' = history st -> stats st' = stats st ->
  wfq_idle_ext st st'.
Proof.
  intros H1 H2 H3. split; [done|]. split; [|by rewrite H3].
  exists []. by rewrite H2.
Qed.

Lemma wfq_idle_ext_refl (st : State) : wfq_idle_ext st st.
Proof. by apply wfq_idle_ext_same. Qed.

Lemma wfq_idle_ext_trans (st1 : State) (st2 : State) (st3 : State) :
  wfq_idle_ext st1 st2 -> wfq_idle_ext st2 st3 -> wfq_idle_ext st1 st3.
Proof.
  intros (H1 & (n1 & E1 & Q1) & T1) (H2 & (n2 & E2 & Q2) & T2).
  split; [congruence|]. split; [|congruence].
  exists (n2 ++ n1). rewrite E2, E1, app_assoc. split; [done|].
  by apply Forall_app.
Qed.

Lemma wfq_idle_scheduleEvent_arrival t s (st : State) :
  wfq_idle_ext st (scheduleEvent (PACKET_ARRIVAL t s) st).
Proof.
  unfold scheduleEvent. destruct (Qle_bool _ _); [by apply wfq_idle_ext_same|].
  split; [done|]. split; [|done].
  exists [Discarded (PACKET_ARRIVAL t s)]. split; [done|]. by constructor.
Qed.

Lemma wfq_idle_handleArrivalEvent srcID (st : State) (st' : State) :
  linkBusy st = true -> handleArrivalEvent srcID st = Ok st' -> wfq_idle_ext st st'.
Proof.
  intros Hbusy. unfold handleArrivalEvent. intros H.
  bind_inv H. rename a into src. bind_inv H. destruct a as [p st2].
  bind_inv H.
  assert (E1 : wfq_idle_ext st (scheduleNextArrival srcID src st)).
  { unfold scheduleNextArrival. destruct (exponential_draw G _ _) as [dt g].
    destruct (Qltb _ _).
    - eapply wfq_idle_ext_trans; [|apply wfq_idle_scheduleEvent_arrival].
      by apply wfq_idle_ext_same.
    - by apply wfq_idle_ext_same. }
  assert (E2 : wfq_idle_ext (scheduleNextArrival srcID src st) st2).
  { apply generatePacket_Ok in Ha0 as (_ & _ & _ & ->).
    split; [done|]. split; [by exists []|]. simpl.
    by apply map_alter_same. }
  assert (E3 : wfq_idle_ext st2 a).
  { apply bufferManagement_Ok in Ha1 as [[_ ->]|(_ & d & _ & _ & ->)].
    - by apply wfq_idle_ext_same.
    - split; [done|]. split.
      + exists [Dropped d]. split; [done|]. by constructor.
      + simpl. by apply map_alter_same. }
  pose proof (wfq_idle_ext_trans _ _ _ (wfq_idle_ext_trans _ _ _ E1 E2) E3) as E.
  apply startNextTransmission_Ok in H as [[_ ->]|(Hb & _)]; [exact E|].
  destruct E as (Hb' & _). congruence.
Qed.


Lemma wfq_has_lost_ext (st : State) (st' : State) :
  wfq_idle_ext st st' -> wfq_has_lost st -> wfq_has_lost st'.
Proof.
  unfold wfq_has_lost. intros (_ & (newer & E & _) & _). rewrite E, count_app. lia.
Qed.

Lemma wfq_lost_step (st : State) o :
  wfq_ok st -> wfq_has_lost st -> step st = Ok o -> wfq_idle_ext st (state_of o).
Proof.
  intros Hi Hl. unfold step.
  destruct (pq_is_empty EQ (eventQueue st)) eqn:Hemp.
  { intros [= <-]. apply wfq_idle_ext_refl. }
  destruct (pq_nonempty_top _ _ Hemp) as [e He].
  unfold pq_top_ub. rewrite He. cbn [mbind result_bind].
  pose proof (pq_top_pop EQ _ _ He) as Hperm.
  pose proof (wfq_inv_perm _ _ _ Hperm Hi) as Hi1.
  pose proof (wi_link _ _ Hi1) as Hlink. unfold wfq_has_lost in Hl.
  assert (Hbusy : linkBusy st = true) by (destruct (linkBusy st); [done|lia]).
  rewrite Hbusy in Hlink.
  assert (E0 : wfq_idle_ext st (set_currentTime (ev_time e)
                 (set_eventQueue (pq_pop EQ (eventQueue st)) st))).
  { by apply wfq_idle_ext_same. }
  destruct (Qltb _ _); [intros [= <-]; exact E0|].
  intros H. bind_inv H. injection H as <-.
  destruct e as [t srcID | t p]; [|simpl in Hlink; lia].
  eapply wfq_idle_ext_trans; [exact E0|].
  eapply wfq_idle_handleArrivalEvent; [|exact Ha]. exact Hbusy.
Qed.

Lemma wfq_lost_loop fuel (st : State) o :
  wfq_ok st -> wfq_has_lost st -> loop fuel st = Ok o ->
  wfq_idle_ext st (state_of o).
Proof.
  revert st. induction fuel as [|fuel IH]; intros st Hi Hl; simpl.
  { intros [= <-]. apply wfq_idle_ext_refl. }
  destruct (step st) as [o1|u] eqn:Hs; simpl; [|discriminate].
  pose proof (wfq_step_keeps _ _ Hi Hs) as Hi1.
  pose proof (wfq_lost_step _ _ Hi Hl Hs) as E1.
  destruct o1 as [st1|st1]; [|intros [= <-]; exact E1].
  intros H. eapply wfq_idle_ext_trans; [exact E1|].
  apply IH; [exact Hi1 | by eapply wfq_has_lost_ext | exact H].
Qed.

Lemma wfq_loop_add n k (st : State) :
  loop (n + k) st =
  match loop n st with
  | Ok (Running st') => loop k st'
  | other => other
  end.
Proof.
  revert st. induction n as [|n IH]; intros st; simpl; [reflexivity|].
  destruct (step st) as [[st'|st']|w]; simpl; auto.
Qed.

Lemma wfq_lost_run n k (w0 : State) o_n o :
  wfq_loaded w0 ->
  run n w0 = Ok o_n -> wfq_has_lost (state_of o_n) ->
  run (n + k) w0 = Ok o ->
  wfq_idle_ext (state_of o_n) (state_of o) /\ wfq_ok (state_of o) /\
  wfq_has_lost (state_of o).
Proof.
  intros Hl Hn Hlost Hnk.
  pose proof (wfq_run_keeps n w0 _ Hl Hn) as Hok.
  pose proof (wfq_run_keeps (n + k) w0 _ Hl Hnk) as Hok'.
  unfold run in *. rewrite wfq_loop_add, Hn in Hnk.
  assert (E : wfq_idle_ext (state_of o_n) (state_of o)).
  { destruct o_n as [st|st]; [|injection Hnk as <-; apply wfq_idle_ext_refl].
    by eapply wfq_lost_loop. }
  split; [exact E|]. split; [exact Hok'|]. by eapply wfq_has_lost_ext.
Qed.

Lemma wfq_lost_accounting (st : State) t p :
  wfq_ok st -> In (Discarded (PACKET_DEPARTURE t p)) (history st) ->
  linkBusy st = true /\
  (forall s, in_flight s st = 0%nat) /\
  lost (pkt_sourceID p) st = 1%nat.
Proof.
  intros Hok Hin.
  pose proof (wi_link _ _ Hok) as Hlink.
  pose proof (count_In is_lost _ _ Hin eq_refl) as H1.
  assert (Hsrc : lost_from (pkt_sourceID p) (Discarded (PACKET_DEPARTURE t p)) = true).
  { simpl. unfold from_source. apply Nat.eqb_refl. }
  pose proof (count_In (lost_from (pkt_sourceID p)) _ _ Hin Hsrc) as H2.
  assert (H3 : (count (lost_from (pkt_sourceID p)) (history st)
                <= count is_lost (history st))%nat).
  { apply count_le. intros [] ; simpl; try discriminate.
    destruct e; simpl; [discriminate | done]. }
  destruct (linkBusy st); [|lia].
  split; [done|]. split; [|unfold lost; lia].
  intros s. unfold in_flight.
  assert (H4 : (count (departure_from s) (pq_elems EQ (eventQueue st))
                <= count is_departure (pq_elems EQ (eventQueue st)))%nat).
  { apply count_le. intros []; simpl; [discriminate | done]. }
  lia.
Qed.

(** ** bufferSize = 0 *)

(** With bufferSize = 0 the arrival handler asks an empty buffer for its
    top element. *)
Lemma wfq_zero_buffer_undefined srcID (st : State) :
  bufferSize st = 0%nat -> pq_elems BQ (packetBuffer st) = [] ->
  (srcID < length (sources st))%nat -> (srcID < length (stats st))%nat ->
  handleArrivalEvent srcID st = Undefined TopOfEmptyQueue.
Proof.
  intros HB Hbuf Hs1 Hs2. unfold handleArrivalEvent.
  destruct (at_index_lt (sources st) srcID Hs1) as [src ->]. simpl.
  destruct (wfq_scheduleNextArrival_frame srcID src st)
    as (Eso & Est & Eb & _ & EB & _).
  set (st1 := scheduleNextArrival srcID src st) in *.
  destruct (generatePacket_lt srcID src st1) as (p & st2 & Hgen);
    [by rewrite Eso | by rewrite Est |].
  rewrite Hgen. simpl.
  apply generatePacket_Ok in Hgen as (_ & _ & _ & ->).
  unfold bufferManagement, pq_size. simpl. rewrite Eb, Hbuf, EB, HB. simpl.
  unfold pq_top_ub.
  assert (Htop : pq_top BQ (packetBuffer st) = None) by (by apply pq_top_none).
  by rewrite Htop.
Qed.

End Results.
End WFQResults.
(** * Sums, ratios and the report *)

Lemma Zsum_nonneg (l : list Z) : Forall (fun x => (0 <= x)%Z) l -> (0 <= Zsum l)%Z.
Proof. induction 1; simpl; lia. Qed.

Lemma Zsum_le {A} (f g : A -> Z) (l : list A) :
  Forall (fun a => (f a <= g a)%Z) l -> (Zsum (map f l) <= Zsum (map g l))%Z.
Proof. induction 1; simpl; lia. Qed.

Lemma Qsum_map_nonneg {A} (f : A -> Q) (l : list A) :
  Forall (fun a => 0 <= f a) l -> 0 <= Qsum (map f l).
Proof. induction 1; simpl; lra. Qed.

(** [n > 0 ? (double)d / n : 0.0] for counters with [0 <= d <= n]. *)
Lemma ratio_bounds (d n : Z) :
  (0 <= d <= n)%Z ->
  let q := if (0 <? n)%Z then inject_Z d / inject_Z n else 0 in
  0 <= q <= 1.
Proof.
  intros H. cbv zeta. destruct (0 <? n)%Z eqn:E; [|lra]. apply Z.ltb_lt in E.
  assert (Hn : 0 < inject_Z n) by (change 0 with (inject_Z 0); by rewrite <- Zlt_Qlt).
  assert (Hd : 0 <= inject_Z d) by (change 0 with (inject_Z 0); rewrite <- Zle_Qle; lia).
  assert (Hdn : inject_Z d <= inject_Z n) by (rewrite <- Zle_Qle; lia).
  split.
  - apply Qle_shift_div_l; [exact Hn | lra].
  - apply Qle_shift_div_r; [exact Hn | lra].
Qed.

(** [n > 0 ? total / n : 0.0] for a total that is not negative. *)
Lemma mean_nonneg (total : Q) (n : Z) :
  0 <= total -> 0 <= (if (0 <? n)%Z then total / inject_Z n else 0).
Proof.
  intros H. destruct (0 <? n)%Z eqn:E; [|lra]. apply Z.ltb_lt in E.
  assert (Hn : 0 < inject_Z n) by (change 0 with (inject_Z 0); by rewrite <- Zlt_Qlt).
  apply Qle_shift_div_l; [exact Hn | lra].
Qed.

Lemma Zsum_alter {A} (g : A -> Z) (f : A -> A) i (l : list A) a :
  l !! i = Some a ->
  Zsum (map g (alter f i l)) = (Zsum (map g l) + (g (f a) - g a))%Z.
Proof.
  revert i. induction l as [|b l IH]; intros [|i]; simpl; try discriminate.
  - intros [= ->]. lia.
  - intros H. unfold alter in IH. rewrite (IH _ H). lia.
Qed.

(** * More facts about the FCFS simulator *)

Module FCFSMore.
Import FCFS FCFSFacts.

Section More.
Context {EQ : MinPQ Event ev_time} {G : RandomEngine}.
Local Abbreviation State := (State EQ G).

(** ** What the functions return, spelled out *)

Lemma scheduleEvent_cases e (st : State) :
  (ev_time e <= simulationTime st /\
   scheduleEvent e st = set_eventQueue (pq_push EQ e (eventQueue st)) st) \/
  (simulationTime st < ev_time e /\ scheduleEvent e st = observe (Discarded e) st).
Proof.
  unfold scheduleEvent. destruct (Qle_bool _ _) eqn:E.
  - left. split; [by apply Qle_bool_iff | reflexivity].
  - right. split; [|reflexivity]. apply Qnot_le_lt. intros H.
    apply Qle_bool_iff in H. congruence.
Qed.

Lemma startNextTransmission_cases (st : State) :
  ((linkBusy st = true \/ packetBuffer st = []) /\ startNextTransmission st = st) \/
  (linkBusy st = false /\ exists p rest, packetBuffer st = p :: rest /\
     startNextTransmission st =
     scheduleEvent
       (PACKET_DEPARTURE (currentTime st + inject_Z (pkt_size p) / linkCapacity st) p)
       (observe (Started p (currentTime st))
          (set_packetBuffer rest (set_linkBusy true st)))).
Proof.
  unfold startNextTransmission. destruct (linkBusy st); [left; auto|].
  destruct (packetBuffer st) as [|p rest]; [left; auto|].
  right. split; [done|]. by exists p, rest.
Qed.

(** [scheduleNextArrival] writes the generator and, through
    [scheduleEvent], the event queue or the history. *)
Lemma scheduleNextArrival_rest srcID src (st : State) :
  let st' := scheduleNextArrival srcID src st in
  config_of st' = config_of st /\ currentTime st' = currentTime st /\
  nextPacketId st' = nextPacketId st /\
  (history st' = history st \/
   exists t, history st' = Discarded (PACKET_ARRIVAL t srcID) :: history st).
Proof.
  unfold scheduleNextArrival, scheduleEvent.
  destruct (exponential_draw G (packetRate src) (generator st)) as [dt g].
  simpl. destruct (Qltb _ _); [destruct (Qle_bool _ _)|]; simpl; eauto 10.
Qed.

Lemma handleArrivalEvent_Ok srcID (st st' : State) :
  handleArrivalEvent srcID st = Ok st' ->
  exists src, sources st !! srcID = Some src /\ (srcID < length (stats st))%nat /\
    let st1 := scheduleNextArrival srcID src st in
    let draw := uniform_int_draw G (minSize src) (maxSize src) (generator st1) in
    let p := {| pkt_id := nextPacketId st1; pkt_sourceID := srcID;
                pkt_size := fst draw; pkt_arrivalTime := currentTime st1 |} in
    let st2 := set_stats (alter incr_generated srcID (stats st1))
                 (set_nextPacketId (nextPacketId st1 + 1)
                    (set_generator (snd draw) st1)) in
    ((length (packetBuffer st1) < bufferSize st1)%nat /\
     st' = startNextTransmission (set_packetBuffer (packetBuffer st1 ++ [p]) st2)) \/
    ((bufferSize st1 <= length (packetBuffer st1))%nat /\
     st' = startNextTransmission
             (observe (Dropped p)
                (set_stats (alter incr_dropped srcID (stats st2)) st2))).
Proof.
  unfold handleArrivalEvent. intros H.
  bind_inv H. apply at_index_Ok in Ha. rename a into src. exists src.
  split; [exact Ha|].
  destruct (scheduleNextArrival_frame srcID src st) as (_ & Est & _).
  bind_inv H. destruct a as [p st2]. bind_inv H. injection H as <-.
  unfold generatePacket in Ha0.
  destruct (uniform_int_draw G _ _ _) as [sz g]. simpl in *.
  bind_inv Ha0. apply modify_at_Ok in Ha0a as [Hs ->]. injection Ha0 as <- <-.
  split; [by rewrite <- Est|].
  unfold bufferOrDrop in Ha1. simpl in Ha1.
  destruct (_ <? _)%nat eqn:Hb.
  - apply Nat.ltb_lt in Hb. injection Ha1 as <-. left. auto.
  - apply Nat.ltb_ge in Hb. bind_inv Ha1. apply modify_at_Ok in Ha1a as [_ ->].
    injection Ha1 as <-. right. auto.
Qed.

Lemma handleDepartureEvent_Ok p (st st' : State) :
  handleDepartureEvent p st = Ok st' ->
  (pkt_sourceID p < length (stats st))%nat /\
  st' = startNextTransmission
          (observe (Departed p (currentTime st))
             (set_stats
                (alter (record_departure (pkt_size p)
                          (currentTime st - pkt_arrivalTime p))
                   (pkt_sourceID p) (stats st))
                (set_linkBusy false st))).
Proof.
  unfold handleDepartureEvent. simpl. intros H. bind_inv H.
  apply modify_at_Ok in Ha as [Hs ->]. by injection H as <-.
Qed.

(** One test of the loop condition and one iteration, case by case. *)
Lemma step_Ok (st : State) o :
  step st = Ok o ->
  (pq_elems EQ (eventQueue st) = [] /\ o = Halted st) \/
  exists e, pq_top EQ (eventQueue st) = Some e /\
    let st1 := set_currentTime (ev_time e)
                 (set_eventQueue (pq_pop EQ (eventQueue st)) st) in
    (simulationTime st < ev_time e /\ o = Halted st1) \/
    (ev_time e <= simulationTime st /\ exists st', o = Running st' /\
       match e with
       | PACKET_ARRIVAL _ srcID => handleArrivalEvent srcID st1 = Ok st'
       | PACKET_DEPARTURE _ p => handleDepartureEvent p st1 = Ok st'
       end).
Proof.
  unfold step. destruct (pq_is_empty EQ (eventQueue st)) eqn:Hemp.
  { intros [= <-]. left. split; [by apply pq_is_empty_true | done]. }
  destruct (pq_nonempty_top _ _ Hemp) as [e He].
  unfold pq_top_ub. rewrite He. simpl. intros H. right. exists e.
  split; [done|]. simpl.
  destruct (Qltb _ _) eqn:Hlt.
  - apply Qltb_lt in Hlt. injection H as <-. left. auto.
  - apply Qltb_ge in Hlt. right. split; [exact Hlt|].
    bind_inv H. injection H as <-. exists a. split; [done|]. by destruct e.
Qed.

Lemma loop_preserves (P : State -> Prop) :
  (forall st o, P st -> step st = Ok o -> P (state_of o)) ->
  forall fuel st o, P st -> loop fuel st = Ok o -> P (state_of o).
Proof.
  intros Hstep fuel. induction fuel as [|fuel IH]; intros st o H; simpl.
  { by intros [= <-]. }
  destruct (step st) as [o1|u] eqn:Hs; simpl; [|discriminate].
  pose proof (Hstep _ _ H Hs) as H1.
  destruct o1 as [st1|st1]; [by apply IH|]. by intros [= <-].
Qed.

Lemma prime_preserves (P : State -> Prop) :
  (forall e st, P st -> P (scheduleEvent e st)) ->
  forall st, P st -> P (prime st).
Proof.
  intros Hs st. unfold prime. generalize (sources st). intros l. revert st.
  induction l as [|src l IH]; intros st H; simpl; [exact H|]. apply IH, Hs, H.
Qed.

Lemma run_keeps fuel (st : State) o :
  loaded st -> run fuel st = Ok o -> fcfs_ok (state_of o).
Proof.
  intros Hl Hrun. destruct (run_ok fuel st Hl) as (o' & Ho' & Hok). congruence.
Qed.

Lemma step_keeps (st : State) o :
  fcfs_ok st -> step st = Ok o -> fcfs_ok (state_of o).
Proof. intros H Hs. destruct (step_ok st H) as (o' & Ho' & Hok). congruence. Qed.

(** ** The link is idle only when nothing waits *)

Lemma startNextTransmission_conserves (st : State) :
  work_conserving (startNextTransmission st).
Proof.
  destruct (startNextTransmission_cases st)
    as [[[Hb|Hb] ->]|(Hb & p & rest & Hbuf & ->)]; unfold work_conserving.
  - congruence.
  - done.
  - destruct (scheduleEvent_cases
      (PACKET_DEPARTURE (currentTime st + inject_Z (pkt_size p) / linkCapacity st) p)
      (observe (Started p (currentTime st))
         (set_packetBuffer rest (set_linkBusy true st)))) as [[_ ->]|[_ ->]];
      simpl; discriminate.
Qed.

Lemma step_conserves (st : State) o :
  work_conserving st -> step st = Ok o -> work_conserving (state_of o).
Proof.
  intros H Hs. apply step_Ok in Hs as [[_ ->]|(e & _ & Hs)]; [exact H|].
  simpl in Hs. destruct Hs as [[_ ->]|(_ & st' & -> & Hs)]; [exact H|].
  simpl. destruct e as [t srcID|t p].
  - apply handleArrivalEvent_Ok in Hs as (src & _ & _ & Hs). simpl in Hs.
    destruct Hs as [[_ ->]|[_ ->]]; apply startNextTransmission_conserves.
  - apply handleDepartureEvent_Ok in Hs as [_ ->].
    apply startNextTransmission_conserves.
Qed.

Lemma run_conserves fuel (st : State) o :
  loaded st -> run fuel st = Ok o -> work_conserving (state_of o).
Proof.
  intros Hl. apply (loop_preserves _ step_conserves).
  apply prime_preserves.
  - intros e st0 H. destruct (scheduleEvent_cases e st0) as [[_ ->]|[_ ->]]; exact H.
  - intros _. apply (ld_buffer _ Hl).
Qed.

(** ** The counters against the history *)

Definition neutral (o : Obs) : Prop :=
  match o with
  | Departed _ _ | Dropped _ => False
  | _ => True
  end.

Lemma ledger_neutral (st st' : State) o :
  stats st' = stats st -> history st' = o :: history st -> neutral o ->
  ledger st -> ledger st'.
Proof.
  intros Es Eh Ho H s r Hr. rewrite Es in Hr. rewrite Eh.
  destruct (H s r Hr) as (H1 & H2 & H3 & H4).
  destruct o; try done; simpl; repeat split; auto; lra.
Qed.

Lemma ledger_same (st st' : State) :
  stats st' = stats st -> history st' = history st -> ledger st -> ledger st'.
Proof. intros Es Eh H s r Hr. rewrite Es in Hr. rewrite Eh. by apply H. Qed.

Lemma ledger_scheduleEvent e (st : State) : ledger st -> ledger (scheduleEvent e st).
Proof.
  intros H. destruct (scheduleEvent_cases e st) as [[_ ->]|[_ ->]].
  - by eapply ledger_same.
  - by eapply (ledger_neutral st).
Qed.

Lemma ledger_startNextTransmission (st : State) :
  ledger st -> ledger (startNextTransmission st).
Proof.
  intros H.
  destruct (startNextTransmission_cases st) as [[_ ->]|(_ & p & rest & _ & ->)];
    [exact H|].
  apply ledger_scheduleEvent. by eapply (ledger_neutral st).
Qed.

Lemma ledger_scheduleNextArrival srcID src (st : State) :
  ledger st -> ledger (scheduleNextArrival srcID src st).
Proof.
  intros H.
  destruct (scheduleNextArrival_frame srcID src st) as (_ & Est & _).
  destruct (scheduleNextArrival_rest srcID src st) as (_ & _ & _ & [Eh|[t Eh]]).
  - by eapply ledger_same.
  - by eapply (ledger_neutral st).
Qed.

Lemma ledger_generated srcID (st st' : State) :
  stats st' = alter incr_generated srcID (stats st) -> history st' = history st ->
  ledger st -> ledger st'.
Proof.
  intros Es Eh H s r Hr. rewrite Es in Hr. rewrite Eh.
  alter_cases Hr; by apply H in Hr.
Qed.

Lemma ledger_dropped p (st st' : State) :
  stats st' = alter incr_dropped (pkt_sourceID p) (stats st) ->
  history st' = Dropped p :: history st ->
  ledger st -> ledger st'.
Proof.
  intros Es Eh H s r Hr. rewrite Es in Hr. rewrite Eh. simpl. unfold from_source.
  alter_cases Hr; apply H in Hr as (H1 & H2 & H3 & H4); simpl.
  - rewrite Nat.eqb_refl. repeat split; auto; try lra. lia.
  - destruct (Nat.eqb_spec (pkt_sourceID p) s); [congruence|].
    repeat split; auto; lra.
Qed.

Lemma ledger_departed p now (st st' : State) :
  stats st' = alter (record_departure (pkt_size p) (now - pkt_arrivalTime p))
                (pkt_sourceID p) (stats st) ->
  history st' = Departed p now :: history st ->
  ledger st -> ledger st'.
Proof.
  intros Es Eh H s r Hr. rewrite Es in Hr. rewrite Eh. simpl. unfold from_source.
  alter_cases Hr; apply H in Hr as (H1 & H2 & H3 & H4); simpl.
  - rewrite Nat.eqb_refl. repeat split; auto; try lra. lia.
  - destruct (Nat.eqb_spec (pkt_sourceID p) s); [congruence|].
    repeat split; auto; lra.
Qed.

Lemma ledger_step (st : State) o :
  ledger st -> step st = Ok o -> ledger (state_of o).
Proof.
  intros H Hs. apply step_Ok in Hs as [[_ ->]|(e & _ & Hs)]; [exact H|].
  simpl in Hs. destruct Hs as [[_ ->]|(_ & st' & -> & Hs)]; [exact H|].
  simpl. destruct e as [t srcID|t p].
  - apply handleArrivalEvent_Ok in Hs as (src & _ & _ & Hs). simpl in Hs.
    match type of Hs with context [scheduleNextArrival ?a ?b ?c] =>
      pose proof (ledger_scheduleNextArrival a b c H) as H1;
      set (st1 := scheduleNextArrival a b c) in *
    end.
    destruct Hs as [[_ ->]|[_ ->]]; apply ledger_startNextTransmission.
    + by eapply (ledger_generated srcID st1).
    + match goal with |- ledger (observe (Dropped ?p) (set_stats _ ?st2)) =>
        apply (ledger_dropped p st2); [reflexivity | reflexivity |]
      end.
      by eapply (ledger_generated srcID st1).
  - apply handleDepartureEvent_Ok in Hs as [_ ->].
    apply ledger_startNextTransmission.
    by eapply (ledger_departed p (ev_time (PACKET_DEPARTURE t p))).
Qed.

Lemma ledger_run fuel (st : State) o :
  loaded st -> run fuel st = Ok o -> ledger (state_of o).
Proof.
  intros Hl. apply (loop_preserves _ ledger_step).
  apply (prime_preserves _ ledger_scheduleEvent).
  intros s r Hr. rewrite (ld_stats _ Hl) in Hr.
  apply lookup_replicate in Hr as [-> _]. rewrite (ld_history _ Hl). simpl.
  repeat split; reflexivity.
Qed.

(** ** Packet ids *)

Lemma sorted_lt_snoc (l : list Z) (x : Z) :
  StronglySorted Z.lt l -> Forall (fun y => (y < x)%Z) l ->
  StronglySorted Z.lt (l ++ [x]).
Proof.
  induction 1 as [|y l Hl IH Hy]; intros Hx; simpl.
  - constructor; constructor.
  - apply Forall_cons in Hx as [Hyx Hx]. constructor; [by apply IH|].
    apply Forall_app. split; [exact Hy|]. by constructor.
Qed.

Lemma ids_quiet next buf h o :
  match o with Started _ _ | Dropped _ => False | _ => True end ->
  ids_inv next buf h -> ids_inv next buf (o :: h).
Proof. intros Ho []. by destruct o. Qed.

Lemma ids_push next buf h p :
  pkt_id p = next -> ids_inv next buf h -> ids_inv (next + 1) (buf ++ [p]) h.
Proof.
  intros Hp [Hn Hr Hd Hs].
  assert (Hlt : Forall (fun i => (i < next)%Z)
                  (dropped_ids h ++ started_ids h ++ map pkt_id buf)).
  { eapply Forall_impl; [exact Hr|]. simpl. intros; lia. }
  assert (E : dropped_ids h ++ started_ids h ++ map pkt_id (buf ++ [p])
              = (dropped_ids h ++ started_ids h ++ map pkt_id buf) ++ [next]).
  { rewrite map_app. simpl. rewrite Hp. by rewrite <- !app_assoc. }
  split.
  - lia.
  - rewrite E. apply Forall_app. split.
    + eapply Forall_impl; [exact Hr|]. simpl. intros; lia.
    + constructor; [lia | constructor].
  - rewrite E. apply NoDup_app. split; [exact Hd|]. split; [|apply NoDup_singleton].
    intros x Hx Hx'. apply list_elem_of_singleton in Hx'. subst x.
    rewrite Forall_forall in Hlt. specialize (Hlt _ Hx). lia.
  - rewrite map_app. simpl. rewrite Hp, app_assoc. apply sorted_lt_snoc; [exact Hs|].
    apply Forall_app. apply Forall_app in Hlt as [_ Hlt]. apply Forall_app in Hlt as [H1 H2].
    split; [|exact H2]. by apply Forall_rev.
Qed.

Lemma ids_drop next buf h p :
  pkt_id p = next -> ids_inv next buf h -> ids_inv (next + 1) buf (Dropped p :: h).
Proof.
  intros Hp [Hn Hr Hd Hs]. split; simpl; try done.
  - lia.
  - rewrite Hp. constructor; [lia|]. eapply Forall_impl; [exact Hr|]. simpl. intros; lia.
  - rewrite Hp. apply NoDup_cons_2; [|exact Hd]. intros Hx.
    rewrite Forall_forall in Hr. specialize (Hr _ Hx). lia.
Qed.

Lemma ids_start next p rest h t :
  ids_inv next (p :: rest) h -> ids_inv next rest (Started p t :: h).
Proof.
  intros [Hn Hr Hd Hs].
  assert (P : Permutation
            (dropped_ids h ++ started_ids h ++ map pkt_id (p :: rest))
            (dropped_ids (Started p t :: h) ++ started_ids (Started p t :: h)
             ++ map pkt_id rest)).
  { simpl. apply Permutation_app_head. symmetry. apply Permutation_middle. }
  split.
  - exact Hn.
  - by rewrite <- P.
  - by rewrite <- P.
  - simpl. by rewrite <- app_assoc.
Qed.

Lemma ids_scheduleEvent e (st : State) :
  match e with PACKET_ARRIVAL _ _ | PACKET_DEPARTURE _ _ => True end ->
  ids_ok st -> ids_ok (scheduleEvent e st).
Proof.
  intros _ H. destruct (scheduleEvent_cases e st) as [[_ ->]|[_ ->]]; [exact H|].
  by apply (ids_quiet _ _ _ (Discarded e)).
Qed.

Lemma ids_startNextTransmission (st : State) :
  ids_ok st -> ids_ok (startNextTransmission st).
Proof.
  intros H.
  destruct (startNextTransmission_cases st) as [[_ ->]|(_ & p & rest & Hbuf & ->)];
    [exact H|].
  apply ids_scheduleEvent; [done|]. unfold ids_ok in *. simpl.
  rewrite Hbuf in H. by apply ids_start.
Qed.

Lemma ids_step (st : State) o :
  ids_ok st -> step st = Ok o -> ids_ok (state_of o).
Proof.
  intros H Hs. apply step_Ok in Hs as [[_ ->]|(e & _ & Hs)]; [exact H|].
  simpl in Hs. destruct Hs as [[_ ->]|(_ & st' & -> & Hs)]; [exact H|].
  simpl. destruct e as [t srcID|t p].
  - apply handleArrivalEvent_Ok in Hs as (src & _ & _ & Hs). simpl in Hs.
    match type of Hs with context [scheduleNextArrival ?a ?b ?c] =>
      destruct (scheduleNextArrival_frame a b c) as (_ & _ & Eb & _);
      destruct (scheduleNextArrival_rest a b c) as (_ & _ & En & Eh);
      set (st1 := scheduleNextArrival a b c) in *
    end.
    assert (H1 : ids_ok st1).
    { unfold ids_ok. rewrite Eb, En. simpl.
      destruct Eh as [->|[t' ->]]; [exact H|]. by apply ids_quiet. }
    destruct Hs as [[_ ->]|[_ ->]]; apply ids_startNextTransmission;
      unfold ids_ok; simpl.
    + by apply ids_push.
    + by apply ids_drop.
  - apply handleDepartureEvent_Ok in Hs as [_ ->].
    apply ids_startNextTransmission. unfold ids_ok. simpl. by apply ids_quiet.
Qed.

Lemma ids_run fuel (st : State) o :
  loaded st -> nextPacketId st = 1%Z -> run fuel st = Ok o -> ids_ok (state_of o).
Proof.
  intros Hl Hn. apply (loop_preserves _ ids_step).
  apply prime_preserves.
  - intros e st0. by apply ids_scheduleEvent; destruct e.
  - unfold ids_ok. rewrite Hn, (ld_buffer _ Hl), (ld_history _ Hl).
    split; simpl; try constructor. lia.
Qed.

Lemma loadConfig_nextPacketId X file (st : State) :
  loadConfig EQ G X file = inr st -> nextPacketId st = 1%Z.
Proof.
  unfold loadConfig. destruct file as [[|line rest]|]; try discriminate.
  destruct (extract_header X line) as [[[n T] C] B].
  destruct (n <? 0)%Z; [discriminate|].
  destruct (read_sources X T 0 (Z.to_nat n) rest []); [discriminate|].
  by intros [= <-].
Qed.

(** ** Transmission times *)

Lemma timing_perm evs evs' (st : State) :
  Permutation evs evs' -> timing evs st -> timing evs' st.
Proof.
  intros P [H1 H2]. split; [|exact H2]. intros t p Hin. apply H1. by rewrite P.
Qed.

Lemma timing_same evs (st st' : State) :
  config_of st' = config_of st -> history st' = history st ->
  timing evs st -> timing evs st'.
Proof.
  intros [= _ ET EC _] Eh [H1 H2]. split; rewrite ?Eh, ?ET, ?EC; assumption.
Qed.

Lemma timing_obs evs (st st' : State) o :
  config_of st' = config_of st -> history st' = o :: history st ->
  match o with
  | Departed p t =>
      t <= simulationTime st /\
      exists t0, Started p t0 ∈ history st /\
        t = t0 + inject_Z (pkt_size p) / linkCapacity st
  | _ => True
  end ->
  timing evs st -> timing evs st'.
Proof.
  intros [= _ ET EC _] Eh Ho [H1 H2]. split; rewrite Eh, ?ET, EC.
  - intros t p Hin. destruct (H1 t p Hin) as (t0 & Hs & Ht).
    exists t0. split; [by apply list_elem_of_further | exact Ht].
  - intros t p Hin. apply elem_of_cons in Hin as [Heq|Hin].
    + subst o. destruct Ho as (Hle & t0 & Hs & Ht). split; [exact Hle|].
      exists t0. split; [by apply list_elem_of_further | exact Ht].
    + destruct (H2 t p Hin) as (Hle & t0 & Hs & Ht). split; [exact Hle|].
      exists t0. split; [by apply list_elem_of_further | exact Ht].
Qed.

Lemma timing_arrival evs (st : State) t s :
  timing evs st -> timing (PACKET_ARRIVAL t s :: evs) st.
Proof.
  intros [H1 H2]. split; [|exact H2]. intros t' p Hin.
  apply elem_of_cons in Hin as [Heq|Hin]; [discriminate | by apply H1].
Qed.

Lemma timing_tail e evs (st : State) : timing (e :: evs) st -> timing evs st.
Proof.
  intros [H1 H2]. split; [|exact H2]. intros t p Hin. apply H1.
  by apply list_elem_of_further.
Qed.

Lemma timing_departure evs (st : State) p t0 :
  Started p t0 ∈ history st -> timing evs st ->
  timing (PACKET_DEPARTURE (t0 + inject_Z (pkt_size p) / linkCapacity st) p :: evs) st.
Proof.
  intros Hs [H1 H2]. split; [|exact H2]. intros t' q Hin.
  apply elem_of_cons in Hin as [[= -> ->]|Hin]; [eauto | by apply H1].
Qed.

Lemma timing_scheduleEvent_arrival t s (st : State) :
  timing_ok st -> timing_ok (scheduleEvent (PACKET_ARRIVAL t s) st).
Proof.
  intros H. unfold timing_ok.
  destruct (scheduleEvent_cases (PACKET_ARRIVAL t s) st) as [[_ ->]|[_ ->]]; simpl.
  - eapply timing_perm; [symmetry; apply pq_push_elems|].
    apply timing_arrival. eapply (timing_same _ st); [reflexivity | reflexivity | exact H].
  - eapply (timing_obs _ st); [reflexivity | reflexivity | done | done].
Qed.

Lemma timing_startNextTransmission (st : State) :
  timing_ok st -> timing_ok (startNextTransmission st).
Proof.
  intros H.
  destruct (startNextTransmission_cases st) as [[_ ->]|(_ & p & rest & _ & ->)];
    [exact H|].
  set (st2 := observe (Started p (currentTime st))
                (set_packetBuffer rest (set_linkBusy true st))).
  assert (H2 : timing (pq_elems EQ (eventQueue st)) st2)
    by (eapply (timing_obs _ st); [reflexivity | reflexivity | done | done]).
  assert (Hin : Started p (currentTime st) ∈ history st2) by apply list_elem_of_here.
  unfold timing_ok.
  match goal with |- context [scheduleEvent ?e st2] =>
    destruct (scheduleEvent_cases e st2) as [[_ ->]|[_ ->]]
  end; simpl.
  - eapply timing_perm; [symmetry; apply pq_push_elems|].
    eapply (timing_same _ st2); [reflexivity | reflexivity |].
    by apply (timing_departure _ st2 p (currentTime st)).
  - eapply (timing_obs _ st2); [reflexivity | reflexivity | done | done].
Qed.

Lemma timing_step (st : State) o :
  timing_ok st -> step st = Ok o -> timing_ok (state_of o).
Proof.
  intros H Hs. apply step_Ok in Hs as [[_ ->]|(e & He & Hs)]; [exact H|].
  pose proof (timing_perm _ _ _ (pq_top_pop EQ _ _ He) H) as H0.
  simpl in Hs.
  set (st0 := set_currentTime (ev_time e)
                (set_eventQueue (pq_pop EQ (eventQueue st)) st)) in *.
  assert (H1 : timing (e :: pq_elems EQ (eventQueue st0)) st0)
    by (eapply (timing_same _ st); [reflexivity | reflexivity | done]).
  destruct Hs as [[_ ->]|(Hle & st' & -> & Hs)]; [by apply timing_tail in H1|].
  simpl. destruct e as [t srcID|t p].
  - apply timing_tail in H1.
    apply handleArrivalEvent_Ok in Hs as (src & _ & _ & Hs). simpl in Hs.
    assert (H2 : timing_ok (scheduleNextArrival srcID src st0)).
    { unfold scheduleNextArrival.
      destruct (exponential_draw G (packetRate src) (generator st0)) as [dt g].
      simpl. destruct (Qltb _ _).
      - apply timing_scheduleEvent_arrival. eapply (timing_same _ st0); [reflexivity | reflexivity | done].
      - eapply (timing_same _ st0); [reflexivity | reflexivity | done]. }
    set (st1 := scheduleNextArrival srcID src st0) in *.
    destruct Hs as [[_ ->]|[_ ->]]; apply timing_startNextTransmission.
    + eapply (timing_same _ st1); [reflexivity | reflexivity | done].
    + match goal with |- timing_ok (observe ?o ?s) =>
        apply (timing_obs _ s _ o); [reflexivity | reflexivity | done |]
      end.
      eapply (timing_same _ st1); [reflexivity | reflexivity | done].
  - apply handleDepartureEvent_Ok in Hs as [_ ->].
    apply timing_startNextTransmission.
    destruct (tm_flight _ _ H1 t p) as (t0 & Hst & Ht); [apply list_elem_of_here|].
    apply timing_tail in H1.
    match goal with |- timing_ok (observe ?o ?s) =>
      apply (timing_obs _ s _ o); [reflexivity | reflexivity | |]
    end.
    + simpl. split; [exact Hle|]. exists t0. split; [exact Hst | exact Ht].
    + eapply (timing_same _ st0); [reflexivity | reflexivity | done].
Qed.

Lemma timing_run fuel (st : State) o :
  loaded st -> run fuel st = Ok o -> timing_ok (state_of o).
Proof.
  intros Hl. apply (loop_preserves _ timing_step).
  unfold prime. generalize (sources st). intros l.
  assert (H : timing_ok st).
  { unfold timing_ok. rewrite (ld_queue _ Hl), pq_new_elems.
    split; rewrite ?(ld_history _ Hl); intros t p Hin; by apply elem_of_nil in Hin. }
  revert H. generalize st. clear. intros st.
  revert st. induction l as [|src l IH]; intros st H; simpl; [exact H|].
  apply IH. by apply timing_scheduleEvent_arrival.
Qed.

(** ** The report *)

Lemma sum_loop_counts (st : State) k i t0 :
  (i + k = length (stats st))%nat ->
  exists t, sum_loop st (seq i k) t0 = Ok t /\
    totGen t = (totGen t0 + Zsum (map packetsGenerated (drop i (stats st))))%Z /\
    totTrans t = (totTrans t0 + Zsum (map packetsTransmitted (drop i (stats st))))%Z /\
    totDrop t = (totDrop t0 + Zsum (map packetsDropped (drop i (stats st))))%Z /\
    totDelay t == totDelay t0 + Qsum (map totalDelay (drop i (stats st))).
Proof.
  revert i t0. induction k as [|k IH]; intros i t0 Hlen; simpl.
  - exists t0. rewrite !drop_ge by lia. simpl. repeat split; try lia. ring.
  - destruct (lookup_lt_is_Some_2 (stats st) i) as [r Hr]; [lia|].
    unfold at_index. rewrite Hr. simpl.
    destruct (IH (S i) (accumulate (bytesTransmitted r) r t0))
      as (t & Ht & H1 & H2 & H3 & H4); [lia|].
    exists t. split; [exact Ht|].
    rewrite (drop_S _ _ _ Hr). simpl in *. rewrite H1, H2, H3, H4.
    repeat split; try lia. ring.
Qed.

Lemma rows_loop_spec (st : State) k i :
  (i + k = length (stats st))%nat -> length (sources st) = length (stats st) ->
  rows_loop st (seq i k)
  = Ok (zip_with (fun r src => row_of (simulationTime st) (weight src) r)
          (drop i (stats st)) (drop i (sources st))).
Proof.
  revert i. induction k as [|k IH]; intros i Hlen Hsz; simpl.
  - by rewrite !drop_ge by lia.
  - destruct (lookup_lt_is_Some_2 (stats st) i) as [r Hr]; [lia|].
    destruct (lookup_lt_is_Some_2 (sources st) i) as [src Hsrc]; [lia|].
    unfold at_index. rewrite Hr, Hsrc. simpl.
    rewrite IH by (done || lia). simpl.
    by rewrite (drop_S _ _ _ Hr), (drop_S _ _ _ Hsrc).
Qed.

Lemma printTable_spec (st : State) :
  fcfs_ok st ->
  printTable st
  = Ok (zip_with (fun r src => row_of (simulationTime st) (weight src) r)
          (stats st) (sources st)).
Proof.
  intros H. unfold printTable. rewrite (fi_num _ _ H), Nat2Z.id.
  apply (rows_loop_spec st (length (stats st)) 0); [lia | apply (fi_sizes _ _ H)].
Qed.

Lemma printResults_counts (st : State) :
  fcfs_ok st ->
  exists t, printResults st
            = Ok (metrics_of (numSources st) (linkCapacity st) (simulationTime st) t) /\
    totGen t = Zsum (map packetsGenerated (stats st)) /\
    totTrans t = Zsum (map packetsTransmitted (stats st)) /\
    totDrop t = Zsum (map packetsDropped (stats st)) /\
    totDelay t == Qsum (map totalDelay (stats st)) /\
    totBytes t == total_bytes st.
Proof.
  intros H. unfold printResults.
  destruct (FCFSResults.printResults_spec st H) as (t' & Ht' & Hb & _).
  unfold printResults in Ht'. rewrite (fi_num _ _ H), Nat2Z.id in *.
  destruct (sum_loop_counts st (length (stats st)) 0 Totals_init)
    as (t & Ht & H1 & H2 & H3 & H4); [lia|].
  rewrite Ht in *. simpl in Ht'. injection Ht' as Ht'.
  exists t. split; [reflexivity|].
  change (drop 0 (stats st)) with (stats st) in *. simpl in *.
  assert (Hb' : totBytes t == total_bytes st).
  { destruct (FCFSResults.sum_loop_spec st (length (stats st)) 0 Totals_init)
      as (t2 & Ht2 & Hb2 & _); [lia|].
    rewrite Ht in Ht2. injection Ht2 as <-. simpl in Hb2.
    change (drop 0 (stats st)) with (stats st) in Hb2. unfold total_bytes. lra. }
  repeat split; try assumption. lra.
Qed.

(** The counters of a source after any run. *)
Lemma counters_bounds (st : State) s r :
  fcfs_ok st -> ledger st -> stats st !! s = Some r ->
  (0 <= packetsTransmitted r)%Z /\ (0 <= packetsDropped r)%Z /\
  (packetsTransmitted r + packetsDropped r <= packetsGenerated r)%Z.
Proof.
  intros Hok Hl Hr. destruct (Hl s r Hr) as (H1 & H2 & _).
  pose proof (fi_account _ _ Hok s r Hr). lia.
Qed.

End More.

(** ** The clock *)

Section Clock.
Context {EQ : MinPQ Event ev_time} {G : RandomEngine}.
Context (laws : RandomEngineLaws G).
Local Abbreviation State := (State EQ G).

Lemma startNextTransmission_clock (st : State) :
  currentTime (startNextTransmission st) = currentTime st.
Proof.
  destruct (startNextTransmission_cases st) as [[_ ->]|(_ & p & rest & _ & ->)];
    [done|].
  match goal with |- context [scheduleEvent ?e ?s] =>
    destruct (scheduleEvent_cases e s) as [[_ ->]|[_ ->]]
  end; reflexivity.
Qed.

(** An iteration leaves the clock at the time of the event it took. *)
Lemma step_clock (st : State) o :
  step st = Ok o ->
  currentTime (state_of o) = currentTime st \/
  exists e, pq_top EQ (eventQueue st) = Some e /\
            currentTime (state_of o) = ev_time e.
Proof.
  intros Hs. apply step_Ok in Hs as [[_ ->]|(e & He & Hs)]; [by left|].
  right. exists e. split; [exact He|]. simpl in Hs.
  destruct Hs as [[_ ->]|(_ & st' & -> & Hs)]; [reflexivity|].
  simpl. destruct e as [t srcID|t p].
  - apply handleArrivalEvent_Ok in Hs as (src & _ & _ & Hs). simpl in Hs.
    match type of Hs with context [scheduleNextArrival ?a ?b ?c] =>
      destruct (scheduleNextArrival_rest a b c) as (_ & Ec & _)
    end.
    destruct Hs as [[_ ->]|[_ ->]]; rewrite startNextTransmission_clock; exact Ec.
  - apply handleDepartureEvent_Ok in Hs as [_ ->].
    by rewrite startNextTransmission_clock.
Qed.

Lemma step_clock_le (st : State) o :
  fcfs_timed_ok st -> step st = Ok o -> currentTime st <= currentTime (state_of o).
Proof.
  intros Ht Hs. destruct (step_clock _ _ Hs) as [->|(e & He & ->)]; [lra|].
  pose proof (ft_future _ _ Ht) as Hf.
  rewrite (pq_top_pop EQ _ _ He) in Hf. by apply Forall_cons in Hf as [Hf _].
Qed.

Lemma loop_clock_le fuel (st : State) o :
  fcfs_ok st -> fcfs_timed_ok st -> loop fuel st = Ok o ->
  currentTime st <= currentTime (state_of o).
Proof.
  revert st. induction fuel as [|fuel IH]; intros st Hi Ht; simpl.
  { intros [= <-]. simpl. lra. }
  destruct (step st) as [o1|u] eqn:Hs; simpl; [|discriminate].
  pose proof (step_clock_le _ _ Ht Hs) as Hle.
  pose proof (step_keeps _ _ Hi Hs) as Hi1.
  pose proof (FCFSTimed.timed_step laws _ _ Hi Ht Hs) as Ht1.
  destruct o1 as [st1|st1]; [|by intros [= <-]].
  intros Hl. specialize (IH _ Hi1 Ht1 Hl). eapply Qle_trans; [exact Hle | exact IH].
Qed.

Lemma run_clock_le n k (f0 : State) o_n o :
  loaded f0 -> valid_config f0 ->
  run n f0 = Ok o_n -> run (n + k) f0 = Ok o ->
  currentTime (state_of o_n) <= currentTime (state_of o).
Proof.
  intros Hl Hv Hn Hnk.
  destruct (FCFSTimed.timed_run laws n f0 o_n Hl Hv Hn) as [Hi Ht].
  unfold run in *. rewrite FCFSResults.loop_add, Hn in Hnk.
  destruct o_n as [st|st]; [|injection Hnk as <-; apply Qle_refl].
  by apply (loop_clock_le k).
Qed.

(** ** No packet starts before it arrived *)

Lemma waiting_obs (st st' : State) o :
  packetBuffer st' = packetBuffer st -> currentTime st' = currentTime st ->
  history st' = o :: history st ->
  match o with Started _ _ => False | _ => True end ->
  waiting st -> waiting st'.
Proof.
  intros Eb Ec Eh Ho [H1 H2]. split; rewrite ?Eb, ?Ec, ?Eh; [exact H1|].
  intros p t0 Hin. apply elem_of_cons in Hin as [Heq|Hin]; [by subst o|].
  by apply H2.
Qed.

Lemma waiting_same (st st' : State) :
  packetBuffer st' = packetBuffer st -> currentTime st' = currentTime st ->
  history st' = history st -> waiting st -> waiting st'.
Proof. intros Eb Ec Eh [H1 H2]. split; rewrite ?Eb, ?Ec, ?Eh; assumption. Qed.

Lemma waiting_scheduleEvent e (st : State) :
  waiting st -> waiting (scheduleEvent e st).
Proof.
  intros H. destruct (scheduleEvent_cases e st) as [[_ ->]|[_ ->]].
  - by apply (waiting_same st).
  - by apply (waiting_obs st _ (Discarded e)).
Qed.

Lemma waiting_startNextTransmission (st : State) :
  waiting st -> waiting (startNextTransmission st).
Proof.
  intros H.
  destruct (startNextTransmission_cases st) as [[_ ->]|(_ & p & rest & Hbuf & ->)];
    [exact H|].
  apply waiting_scheduleEvent. destruct H as [H1 H2]. rewrite Hbuf in H1.
  split; simpl.
  - intros q Hq. apply H1. by apply list_elem_of_further.
  - intros q t0 Hin. apply elem_of_cons in Hin as [[= -> ->]|Hin]; [|by apply H2].
    apply H1. apply list_elem_of_here.
Qed.

Lemma waiting_later (st : State) t q :
  currentTime st <= t -> waiting st ->
  waiting (set_currentTime t (set_eventQueue q st)).
Proof.
  intros Hle [H1 H2]. split; simpl; [|exact H2].
  intros p Hp. destruct (H1 p Hp). split; [lra | done].
Qed.

Lemma waiting_step (st : State) o :
  fcfs_timed_ok st -> waiting st -> step st = Ok o -> waiting (state_of o).
Proof.
  intros Ht H Hs. apply step_Ok in Hs as [[_ ->]|(e & He & Hs)]; [exact H|].
  assert (Hle : currentTime st <= ev_time e).
  { pose proof (ft_future _ _ Ht) as Hf.
    rewrite (pq_top_pop EQ _ _ He) in Hf. by apply Forall_cons in Hf as [Hf _]. }
  pose proof (waiting_later st (ev_time e) (pq_pop EQ (eventQueue st)) Hle H) as H0.
  simpl in Hs.
  set (st0 := set_currentTime (ev_time e)
                (set_eventQueue (pq_pop EQ (eventQueue st)) st)) in *.
  destruct Hs as [[_ ->]|(_ & st' & -> & Hs)]; [exact H0|].
  simpl. destruct e as [t srcID|t p].
  - apply handleArrivalEvent_Ok in Hs as (src & Hsrc & _ & Hs). simpl in Hs.
    assert (Hsz : (minSize src <= maxSize src)%Z /\ (0 <= minSize src)%Z).
    { pose proof (ft_sources _ _ Ht) as Hall. rewrite Forall_forall in Hall.
      specialize (Hall src (list_elem_of_lookup_2 _ _ _ Hsrc)). simpl in Hall. lia. }
    destruct (scheduleNextArrival_frame srcID src st0) as (_ & _ & Eb & _).
    destruct (scheduleNextArrival_rest srcID src st0) as (_ & Ec & _ & Eh).
    assert (H1 : waiting (scheduleNextArrival srcID src st0)).
    { destruct Eh as [Eh|[t' Eh]].
      - by apply (waiting_same st0).
      - by apply (waiting_obs st0 _ _ Eb Ec Eh). }
    set (st1 := scheduleNextArrival srcID src st0) in *.
    pose proof (uniform_int_range G laws (minSize src) (maxSize src) (generator st1)
                  (proj1 Hsz)) as Hdraw.
    destruct Hs as [[_ ->]|[_ ->]]; apply waiting_startNextTransmission.
    + destruct H1 as [H1 H2]. split; simpl; [|exact H2].
      intros q Hq. apply elem_of_app in Hq as [Hq|Hq]; [by apply H1|].
      apply list_elem_of_singleton in Hq. subst q. simpl. split; [lra | lia].
    + match goal with |- waiting (observe ?o ?s) =>
        apply (waiting_obs s _ o); [reflexivity | reflexivity | reflexivity | done |]
      end.
      by apply (waiting_same st1).
  - apply handleDepartureEvent_Ok in Hs as [_ ->].
    apply waiting_startNextTransmission.
    match goal with |- waiting (observe ?o ?s) =>
      apply (waiting_obs s _ o); [reflexivity | reflexivity | reflexivity | done |]
    end.
    by apply (waiting_same st0).
Qed.

Lemma waiting_run fuel (st : State) o :
  loaded st -> valid_config st -> run fuel st = Ok o -> waiting (state_of o).
Proof.
  intros Hl Hv Hrun.
  assert (H : fcfs_ok (state_of o) /\ fcfs_timed_ok (state_of o) /\ waiting (state_of o)).
  { revert Hrun. unfold run.
    apply (loop_preserves (fun st => fcfs_ok st /\ fcfs_timed_ok st /\ waiting st)).
    - intros st0 o0 (Hi & Ht & Hw) Hs. split; [by eapply step_keeps|].
      split; [by eapply FCFSTimed.timed_step | by eapply waiting_step].
    - split; [by apply prime_ok|]. split; [by apply FCFSTimed.timed_prime|].
      apply (prime_preserves _ waiting_scheduleEvent).
      split; rewrite ?(ld_buffer _ Hl), ?(ld_history _ Hl);
        intros; by match goal with H : _ ∈ [] |- _ => apply elem_of_nil in H end. }
  tauto.
Qed.

End Clock.

Section Counting.
Context {EQ : MinPQ Event ev_time} {G : RandomEngine}.
Local Abbreviation State := (State EQ G).

(** ** The id counter against the generated packets *)

Lemma next_id_same (st st' : State) :
  stats st' = stats st -> nextPacketId st' = nextPacketId st ->
  nextPacketId st = (1 + Zsum (map packetsGenerated (stats st)))%Z ->
  nextPacketId st' = (1 + Zsum (map packetsGenerated (stats st')))%Z.
Proof. by intros -> ->. Qed.

Lemma scheduleEvent_counters e (st : State) :
  stats (scheduleEvent e st) = stats st /\
  nextPacketId (scheduleEvent e st) = nextPacketId st.
Proof. by destruct (scheduleEvent_cases e st) as [[_ ->]|[_ ->]]. Qed.

Lemma startNextTransmission_counters (st : State) :
  stats (startNextTransmission st) = stats st /\
  nextPacketId (startNextTransmission st) = nextPacketId st.
Proof.
  destruct (startNextTransmission_cases st) as [[_ ->]|(_ & p & rest & _ & ->)];
    [done|].
  match goal with |- context [scheduleEvent ?e ?s] =>
    destruct (scheduleEvent_counters e s) as [-> ->]
  end. done.
Qed.

Lemma next_id_step (st : State) o :
  nextPacketId st = (1 + Zsum (map packetsGenerated (stats st)))%Z ->
  step st = Ok o ->
  nextPacketId (state_of o)
  = (1 + Zsum (map packetsGenerated (stats (state_of o))))%Z.
Proof.
  intros H Hs. apply step_Ok in Hs as [[_ ->]|(e & _ & Hs)]; [exact H|].
  simpl in Hs. destruct Hs as [[_ ->]|(_ & st' & -> & Hs)]; [exact H|].
  simpl. destruct e as [t srcID|t p].
  - apply handleArrivalEvent_Ok in Hs as (src & _ & Hlt & Hs). simpl in Hs.
    simpl in Hlt. destruct (lookup_lt_is_Some_2 (stats st) srcID Hlt) as [r Hr].
    match type of Hs with context [scheduleNextArrival ?a ?b ?c] =>
      destruct (scheduleNextArrival_frame a b c) as (_ & Est & _);
      destruct (scheduleNextArrival_rest a b c) as (_ & _ & En & _)
    end.
    simpl in Est, En.
    destruct Hs as [[_ ->]|[_ ->]];
      match goal with |- context [startNextTransmission ?s] =>
        destruct (startNextTransmission_counters s) as [-> ->] end; simpl;
      rewrite ?(map_alter_same packetsGenerated incr_dropped) by done;
      rewrite Est, En, (Zsum_alter _ _ _ _ _ Hr), H; simpl; lia.
  - apply handleDepartureEvent_Ok in Hs as [_ ->].
    match goal with |- context [startNextTransmission ?s] =>
        destruct (startNextTransmission_counters s) as [-> ->] end. simpl.
    rewrite map_alter_same by done. exact H.
Qed.

Lemma next_id_run fuel (st : State) o :
  loaded st -> nextPacketId st = 1%Z -> run fuel st = Ok o ->
  nextPacketId (state_of o)
  = (1 + Zsum (map packetsGenerated (stats (state_of o))))%Z.
Proof.
  intros Hl H1.
  apply (loop_preserves
           (fun st => nextPacketId st
                      = (1 + Zsum (map packetsGenerated (stats st)))%Z)
           next_id_step).
  apply (prime_preserves
           (fun st => nextPacketId st
                      = (1 + Zsum (map packetsGenerated (stats st)))%Z)).
  - intros e s H. by destruct (scheduleEvent_counters e s) as [-> ->].
  - rewrite H1, (ld_stats _ Hl). generalize (length (sources st)).
    intros n. induction n as [|n IH]; simpl; [done | lia].
Qed.

(** ** Delays are not negative *)

Lemma delay_nonneg (st : State) s r :
  0 < linkCapacity st -> ledger st -> timing_ok st -> waiting st ->
  stats st !! s = Some r -> 0 <= totalDelay r.
Proof.
  intros HC Hl Ht [_ Hw] Hr. destruct (Hl s r Hr) as (_ & _ & _ & ->).
  apply Qsum_map_nonneg. apply Forall_forall. intros o Ho.
  destruct o as [p' t'|p t|p'|e]; simpl; try lra.
  destruct (from_source s p); [|lra].
  destruct (tm_done _ _ Ht t p Ho) as (_ & t0 & Hst & ->).
  destruct (Hw p t0 Hst) as [Ha Hsz].
  assert (0 <= inject_Z (pkt_size p) / linkCapacity st).
  { apply Qle_shift_div_l; [exact HC|].
    assert (0 <= inject_Z (pkt_size p))
      by (change 0 with (inject_Z 0); by rewrite <- Zle_Qle).
    lra. }
  lra.
Qed.

(** ** The sources are only read *)

Lemma scheduleEvent_sources e (st : State) :
  sources (scheduleEvent e st) = sources st.
Proof. by destruct (scheduleEvent_cases e st) as [[_ ->]|[_ ->]]. Qed.

Lemma startNextTransmission_sources (st : State) :
  sources (startNextTransmission st) = sources st.
Proof.
  destruct (startNextTransmission_cases st) as [[_ ->]|(_ & p & rest & _ & ->)];
    [done|].
  by rewrite scheduleEvent_sources.
Qed.

Lemma step_sources (st : State) o :
  step st = Ok o -> sources (state_of o) = sources st.
Proof.
  intros Hs. apply step_Ok in Hs as [[_ ->]|(e & _ & Hs)]; [done|].
  simpl in Hs. destruct Hs as [[_ ->]|(_ & st' & -> & Hs)]; [done|].
  simpl. destruct e as [t srcID|t p].
  - apply handleArrivalEvent_Ok in Hs as (src & _ & _ & Hs). simpl in Hs.
    match type of Hs with context [scheduleNextArrival ?a ?b ?c] =>
      destruct (scheduleNextArrival_frame a b c) as (Esrc & _)
    end.
    destruct Hs as [[_ ->]|[_ ->]]; rewrite startNextTransmission_sources;
      exact Esrc.
  - apply handleDepartureEvent_Ok in Hs as [_ ->].
    by rewrite startNextTransmission_sources.
Qed.

Lemma run_sources fuel (st : State) o :
  run fuel st = Ok o -> sources (state_of o) = sources st.
Proof.
  apply (loop_preserves (fun s => sources s = sources st)).
  - intros s o' H Hs. by rewrite (step_sources _ _ Hs).
  - apply (prime_preserves (fun s => sources s = sources st)); [|done].
    intros e s H. by rewrite scheduleEvent_sources.
Qed.

(** ** bufferSize = 0 *)

Lemma starved_run fuel (f0 : State) o :
  loaded f0 -> bufferSize f0 = 0%nat -> run fuel f0 = Ok o ->
  starved (state_of o).
Proof.
  intros Hl HB Hrun.
  eapply FCFSResults.starved_loop; [by apply prime_ok | | exact Hrun].
  apply (prime_preserves starved).
  - intros e st H. unfold scheduleEvent. by destruct (Qle_bool _ _).
  - split; [done|]. split; [apply (ld_link _ Hl)|]. rewrite (ld_stats _ Hl).
    by apply Forall_replicate.
Qed.

Lemma no_departure_no_bytes s (h : list Obs) :
  count (departed_from s) h = 0%nat -> Qsum (map (departed_bytes s) h) == 0.
Proof.
  induction h as [|ob h IH]; simpl; [reflexivity|].
  destruct ob as [p t|p t|p|e]; simpl; try (intros H; rewrite (IH H); lra).
  destruct (from_source s p); [discriminate|]. intros H. rewrite (IH H). lra.
Qed.

End Counting.
End FCFSMore.
(** * More facts about the WFQ simulator *)

Module WFQMore.
Import WFQ WFQFacts.

Section More.
Context {EQ : MinPQ Event ev_time} {BQ : MinPQ Packet virtualFinishTime}
        {G : RandomEngine}.
Local Abbreviation State := (State EQ BQ G).

(** ** What the functions return, spelled out *)

Lemma wfq_scheduleEvent_cases e (st : State) :
  (ev_time e <= simulationTime st /\
   scheduleEvent e st = set_eventQueue (pq_push EQ e (eventQueue st)) st) \/
  (simulationTime st < ev_time e /\ scheduleEvent e st = observe (Discarded e) st).
Proof.
  unfold scheduleEvent. destruct (Qle_bool _ _) eqn:E.
  - left. split; [by apply Qle_bool_iff | reflexivity].
  - right. split; [|reflexivity]. apply Qnot_le_lt. intros H.
    apply Qle_bool_iff in H. congruence.
Qed.

Lemma wfq_scheduleNextArrival_rest srcID src (st : State) :
  let st' := scheduleNextArrival srcID src st in
  config_of st' = config_of st /\
  (history st' = history st \/
   exists t, history st' = Discarded (PACKET_ARRIVAL t srcID) :: history st).
Proof.
  unfold scheduleNextArrival, scheduleEvent.
  destruct (exponential_draw G (packetRate src) (generator st)) as [dt g].
  simpl. destruct (Qltb _ _); [destruct (Qle_bool _ _)|]; simpl; eauto 10.
Qed.

Lemma wfq_handleArrivalEvent_Ok srcID (st st' : State) :
  handleArrivalEvent srcID st = Ok st' ->
  exists src, sources st !! srcID = Some src /\ (srcID < length (stats st))%nat /\
    let st1 := scheduleNextArrival srcID src st in
    let draw := uniform_int_draw G (minSize src) (maxSize src) (generator st1) in
    let p := {| pkt_id := nextPacketId st1; pkt_sourceID := srcID;
                pkt_size := fst draw; pkt_weight := weight src;
                pkt_arrivalTime := currentTime st1;
                virtualFinishTime :=
                  fmax (systemVirtualTime st1) (lastFinishTime src)
                  + inject_Z (fst draw) / weight src |} in
    let st2 := set_stats (alter incr_generated srcID (stats st1))
                 (set_sources
                    (alter (set_lastFinishTime (virtualFinishTime p)) srcID
                       (sources st1))
                    (set_nextPacketId (nextPacketId st1 + 1)
                       (set_generator (snd draw) st1))) in
    exists st3, startNextTransmission st3 = Ok st' /\
      (((pq_size BQ (packetBuffer st1) < bufferSize st1)%nat /\
        st3 = set_packetBuffer (pq_push BQ p (packetBuffer st1)) st2) \/
       ((bufferSize st1 <= pq_size BQ (packetBuffer st1))%nat /\
        exists d, pq_top BQ (packetBuffer st1) = Some d /\
          st3 = set_packetBuffer (pq_push BQ p (pq_pop BQ (packetBuffer st1)))
                  (observe (Dropped d)
                     (set_stats (alter incr_dropped (pkt_sourceID d) (stats st2))
                        (set_packetBuffer (pq_pop BQ (packetBuffer st1)) st2))))).
Proof.
  unfold handleArrivalEvent. intros H.
  bind_inv H. apply at_index_Ok in Ha. rename a into src. exists src.
  split; [exact Ha|].
  destruct (wfq_scheduleNextArrival_frame srcID src st) as (_ & Est & _).
  bind_inv H. destruct a as [p st2]. bind_inv H.
  apply generatePacket_Ok in Ha0 as (_ & Hs & Hp & Hst2).
  split; [by rewrite <- Est|]. cbv zeta. exists a. split; [exact H|].
  rewrite <- Hp.
  apply bufferManagement_Ok in Ha1 as [[Hb ->]|(Hb & d & Hd & _ & ->)];
    rewrite Hst2 in *; simpl in *.
  - left. auto.
  - right. split; [exact Hb|]. exists d. auto.
Qed.

Lemma wfq_handleDepartureEvent_Ok p (st st' : State) :
  handleDepartureEvent p st = Ok st' ->
  (pkt_sourceID p < length (stats st))%nat /\
  startNextTransmission
    (observe (Departed p (currentTime st))
       (set_stats
          (alter (record_departure (pkt_size p)
                    (currentTime st - pkt_arrivalTime p))
             (pkt_sourceID p) (stats st))
          (set_linkBusy false st))) = Ok st'.
Proof.
  unfold handleDepartureEvent. simpl. intros H. bind_inv H.
  apply modify_at_Ok in Ha as [Hs ->]. auto.
Qed.

(** One test of the loop condition and one iteration, case by case. *)
Lemma wfq_step_Ok (st : State) o :
  step st = Ok o ->
  (pq_elems EQ (eventQueue st) = [] /\ o = Halted st) \/
  exists e, pq_top EQ (eventQueue st) = Some e /\
    let st1 := set_currentTime (ev_time e)
                 (set_eventQueue (pq_pop EQ (eventQueue st)) st) in
    (simulationTime st < ev_time e /\ o = Halted st1) \/
    (ev_time e <= simulationTime st /\ exists st', o = Running st' /\
       match e with
       | PACKET_ARRIVAL _ srcID => handleArrivalEvent srcID st1 = Ok st'
       | PACKET_DEPARTURE _ p => handleDepartureEvent p st1 = Ok st'
       end).
Proof.
  unfold step. destruct (pq_is_empty EQ (eventQueue st)) eqn:Hemp.
  { intros [= <-]. left. split; [by apply pq_is_empty_true | done]. }
  destruct (pq_nonempty_top _ _ Hemp) as [e He].
  unfold pq_top_ub. rewrite He. simpl. intros H. right. exists e.
  split; [done|]. simpl.
  destruct (Qltb _ _) eqn:Hlt.
  - apply Qltb_lt in Hlt. injection H as <-. left. auto.
  - apply Qltb_ge in Hlt. right. split; [exact Hlt|].
    bind_inv H. injection H as <-. exists a. split; [done|]. by destruct e.
Qed.

Lemma wfq_loop_preserves (P : State -> Prop) :
  (forall st o, P st -> step st = Ok o -> P (state_of o)) ->
  forall fuel st o, P st -> loop fuel st = Ok o -> P (state_of o).
Proof.
  intros Hstep fuel. induction fuel as [|fuel IH]; intros st o H; simpl.
  { by intros [= <-]. }
  destruct (step st) as [o1|u] eqn:Hs; simpl; [|discriminate].
  pose proof (Hstep _ _ H Hs) as H1.
  destruct o1 as [st1|st1]; [by apply IH|]. by intros [= <-].
Qed.

Lemma wfq_prime_preserves (P : State -> Prop) :
  (forall e st, P st -> P (scheduleEvent e st)) ->
  forall st, P st -> P (prime st).
Proof.
  intros Hs st. unfold prime. generalize (sources st). intros l. revert st.
  induction l as [|src l IH]; intros st H; simpl; [exact H|]. apply IH, Hs, H.
Qed.

(** ** The link is idle only when nothing waits *)

Lemma wfq_startNextTransmission_conserves (st st' : State) :
  startNextTransmission st = Ok st' -> wfq_work_conserving st'.
Proof.
  intros H. unfold wfq_work_conserving.
  apply startNextTransmission_Ok in H as [[[Hb|Hb] ->]|(Hb & p & Hp & ->)].
  - congruence.
  - done.
  - match goal with |- context [scheduleEvent ?e ?s] =>
      destruct (wfq_scheduleEvent_cases e s) as [[_ ->]|[_ ->]]
    end; simpl; discriminate.
Qed.

Lemma wfq_step_conserves (st : State) o :
  wfq_work_conserving st -> step st = Ok o -> wfq_work_conserving (state_of o).
Proof.
  intros H Hs. apply wfq_step_Ok in Hs as [[_ ->]|(e & _ & Hs)]; [exact H|].
  simpl in Hs. destruct Hs as [[_ ->]|(_ & st' & -> & Hs)]; [exact H|].
  simpl. destruct e as [t srcID|t p].
  - apply wfq_handleArrivalEvent_Ok in Hs as (src & _ & _ & Hs). simpl in Hs.
    destruct Hs as (st3 & Hs & _). by eapply wfq_startNextTransmission_conserves.
  - apply wfq_handleDepartureEvent_Ok in Hs as [_ Hs].
    by eapply wfq_startNextTransmission_conserves.
Qed.

Lemma wfq_run_conserves fuel (st : State) o :
  wfq_loaded st -> run fuel st = Ok o -> wfq_work_conserving (state_of o).
Proof.
  intros Hl. apply (wfq_loop_preserves _ wfq_step_conserves).
  apply wfq_prime_preserves.
  - intros e st0 H. destruct (wfq_scheduleEvent_cases e st0) as [[_ ->]|[_ ->]]; exact H.
  - intros _. by rewrite (wl_buffer _ Hl), pq_new_elems.
Qed.

(** ** The counters against the history *)

Definition wfq_neutral (o : Obs) : Prop :=
  match o with
  | Departed _ _ | Dropped _ => False
  | _ => True
  end.

Lemma wfq_ledger_neutral (st st' : State) o :
  stats st' = stats st -> history st' = o :: history st -> wfq_neutral o ->
  wfq_ledger st -> wfq_ledger st'.
Proof.
  intros Es Eh Ho H s r Hr. rewrite Es in Hr. rewrite Eh.
  destruct (H s r Hr) as (H1 & H2 & H3 & H4).
  destruct o; try done; simpl; repeat split; auto; lra.
Qed.

Lemma wfq_ledger_same (st st' : State) :
  stats st' = stats st -> history st' = history st -> wfq_ledger st -> wfq_ledger st'.
Proof. intros Es Eh H s r Hr. rewrite Es in Hr. rewrite Eh. by apply H. Qed.

Lemma wfq_ledger_scheduleEvent e (st : State) :
  wfq_ledger st -> wfq_ledger (scheduleEvent e st).
Proof.
  intros H. destruct (wfq_scheduleEvent_cases e st) as [[_ ->]|[_ ->]].
  - by eapply wfq_ledger_same.
  - by eapply (wfq_ledger_neutral st).
Qed.

Lemma wfq_ledger_startNextTransmission (st st' : State) :
  startNextTransmission st = Ok st' -> wfq_ledger st -> wfq_ledger st'.
Proof.
  intros Hs H.
  apply startNextTransmission_Ok in Hs as [[_ ->]|(_ & p & _ & ->)]; [exact H|].
  apply wfq_ledger_scheduleEvent. by eapply (wfq_ledger_neutral st).
Qed.

Lemma wfq_ledger_scheduleNextArrival srcID src (st : State) :
  wfq_ledger st -> wfq_ledger (scheduleNextArrival srcID src st).
Proof.
  intros H.
  destruct (wfq_scheduleNextArrival_frame srcID src st) as (_ & Est & _).
  destruct (wfq_scheduleNextArrival_rest srcID src st) as (_ & [Eh|[t Eh]]).
  - by eapply wfq_ledger_same.
  - by eapply (wfq_ledger_neutral st).
Qed.

Lemma wfq_ledger_generated srcID (st st' : State) :
  stats st' = alter incr_generated srcID (stats st) -> history st' = history st ->
  wfq_ledger st -> wfq_ledger st'.
Proof.
  intros Es Eh H s r Hr. rewrite Es in Hr. rewrite Eh.
  alter_cases Hr; by apply H in Hr.
Qed.

Lemma wfq_ledger_dropped p (st st' : State) :
  stats st' = alter incr_dropped (pkt_sourceID p) (stats st) ->
  history st' = Dropped p :: history st ->
  wfq_ledger st -> wfq_ledger st'.
Proof.
  intros Es Eh H s r Hr. rewrite Es in Hr. rewrite Eh. simpl. unfold from_source.
  alter_cases Hr; apply H in Hr as (H1 & H2 & H3 & H4); simpl.
  - rewrite Nat.eqb_refl. repeat split; auto; try lra. lia.
  - destruct (Nat.eqb_spec (pkt_sourceID p) s); [congruence|].
    repeat split; auto; lra.
Qed.

Lemma wfq_ledger_departed p now (st st' : State) :
  stats st' = alter (record_departure (pkt_size p) (now - pkt_arrivalTime p))
                (pkt_sourceID p) (stats st) ->
  history st' = Departed p now :: history st ->
  wfq_ledger st -> wfq_ledger st'.
Proof.
  intros Es Eh H s r Hr. rewrite Es in Hr. rewrite Eh. simpl. unfold from_source.
  alter_cases Hr; apply H in Hr as (H1 & H2 & H3 & H4); simpl.
  - rewrite Nat.eqb_refl. repeat split; auto; try lra. lia.
  - destruct (Nat.eqb_spec (pkt_sourceID p) s); [congruence|].
    repeat split; auto; lra.
Qed.

Lemma wfq_ledger_step (st : State) o :
  wfq_ledger st -> step st = Ok o -> wfq_ledger (state_of o).
Proof.
  intros H Hs. apply wfq_step_Ok in Hs as [[_ ->]|(e & _ & Hs)]; [exact H|].
  simpl in Hs. destruct Hs as [[_ ->]|(_ & st' & -> & Hs)]; [exact H|].
  simpl. destruct e as [t srcID|t p].
  - apply wfq_handleArrivalEvent_Ok in Hs as (src & _ & _ & Hs). simpl in Hs.
    match type of Hs with context [scheduleNextArrival ?a ?b ?c] =>
      pose proof (wfq_ledger_scheduleNextArrival a b c H) as H1;
      set (st1 := scheduleNextArrival a b c) in *
    end.
    destruct Hs as (st3 & Hs & [[_ ->]|(_ & d & _ & ->)]);
      (eapply wfq_ledger_startNextTransmission; [exact Hs|]).
    + by eapply (wfq_ledger_generated srcID st1).
    + match goal with
      | |- wfq_ledger (set_packetBuffer _ (observe _ (set_stats _ (set_packetBuffer _ ?s2)))) =>
          eapply (wfq_ledger_dropped d s2); [reflexivity | reflexivity |]
      end.
      by eapply (wfq_ledger_generated srcID st1).
  - apply wfq_handleDepartureEvent_Ok in Hs as [_ Hs].
    eapply wfq_ledger_startNextTransmission; [exact Hs|].
    by eapply (wfq_ledger_departed p (ev_time (PACKET_DEPARTURE t p))).
Qed.

Lemma wfq_ledger_run fuel (st : State) o :
  wfq_loaded st -> run fuel st = Ok o -> wfq_ledger (state_of o).
Proof.
  intros Hl. apply (wfq_loop_preserves _ wfq_ledger_step).
  apply (wfq_prime_preserves _ wfq_ledger_scheduleEvent).
  intros s r Hr. rewrite (wl_stats _ Hl) in Hr.
  apply lookup_replicate in Hr as [-> _]. rewrite (wl_history _ Hl). simpl.
  repeat split; reflexivity.
Qed.

(** ** Packet ids *)

Lemma wfq_ids_perm next buf buf' h :
  Permutation buf buf' -> wfq_ids_inv next buf h -> wfq_ids_inv next buf' h.
Proof. intros P [Hn Hr Hd]. split; [exact Hn | by rewrite <- P | by rewrite <- P]. Qed.

Lemma wfq_ids_quiet next buf h o :
  match o with Started _ _ _ | Dropped _ => False | _ => True end ->
  wfq_ids_inv next buf h -> wfq_ids_inv next buf (o :: h).
Proof. intros Ho []. by destruct o. Qed.

Lemma wfq_ids_push next buf h p :
  pkt_id p = next -> wfq_ids_inv next buf h -> wfq_ids_inv (next + 1) (p :: buf) h.
Proof.
  intros Hp [Hn Hr Hd].
  assert (P : Permutation (dropped_ids h ++ started_ids h ++ map pkt_id (p :: buf))
                (next :: dropped_ids h ++ started_ids h ++ map pkt_id buf)).
  { simpl. rewrite Hp, app_assoc. symmetry. rewrite app_assoc.
    apply Permutation_middle. }
  split.
  - lia.
  - rewrite P. constructor; [lia|]. eapply Forall_impl; [exact Hr|]. simpl. intros; lia.
  - rewrite P. apply NoDup_cons_2; [|exact Hd]. intros Hx.
    rewrite Forall_forall in Hr. specialize (Hr _ Hx). lia.
Qed.

Lemma wfq_ids_drop next d buf h :
  wfq_ids_inv next (d :: buf) h -> wfq_ids_inv next buf (Dropped d :: h).
Proof.
  intros [Hn Hr Hd].
  assert (P : Permutation (dropped_ids h ++ started_ids h ++ map pkt_id (d :: buf))
                (dropped_ids (Dropped d :: h) ++ started_ids (Dropped d :: h)
                 ++ map pkt_id buf)).
  { simpl. rewrite app_assoc. symmetry. rewrite app_assoc.
    apply Permutation_middle. }
  split; [exact Hn | by rewrite <- P | by rewrite <- P].
Qed.

Lemma wfq_ids_start next p buf h t v :
  wfq_ids_inv next (p :: buf) h -> wfq_ids_inv next buf (Started p t v :: h).
Proof.
  intros [Hn Hr Hd].
  assert (P : Permutation (dropped_ids h ++ started_ids h ++ map pkt_id (p :: buf))
                (dropped_ids (Started p t v :: h) ++ started_ids (Started p t v :: h)
                 ++ map pkt_id buf)).
  { simpl. apply Permutation_app_head. symmetry. apply Permutation_middle. }
  split; [exact Hn | by rewrite <- P | by rewrite <- P].
Qed.

Lemma wfq_ids_scheduleEvent e (st : State) :
  wfq_ids_ok st -> wfq_ids_ok (scheduleEvent e st).
Proof.
  intros H. destruct (wfq_scheduleEvent_cases e st) as [[_ ->]|[_ ->]]; [exact H|].
  by apply (wfq_ids_quiet _ _ _ (Discarded e)).
Qed.

Lemma wfq_ids_startNextTransmission (st st' : State) :
  startNextTransmission st = Ok st' -> wfq_ids_ok st -> wfq_ids_ok st'.
Proof.
  intros Hs H.
  apply startNextTransmission_Ok in Hs as [[_ ->]|(_ & p & Hp & ->)]; [exact H|].
  apply wfq_ids_scheduleEvent. unfold wfq_ids_ok in *. simpl.
  apply wfq_ids_start. eapply wfq_ids_perm; [apply (pq_top_pop BQ _ _ Hp) | exact H].
Qed.

Lemma wfq_ids_step (st : State) o :
  wfq_ids_ok st -> step st = Ok o -> wfq_ids_ok (state_of o).
Proof.
  intros H Hs. apply wfq_step_Ok in Hs as [[_ ->]|(e & _ & Hs)]; [exact H|].
  simpl in Hs. destruct Hs as [[_ ->]|(_ & st' & -> & Hs)]; [exact H|].
  simpl. destruct e as [t srcID|t p].
  - apply wfq_handleArrivalEvent_Ok in Hs as (src & _ & _ & Hs). simpl in Hs.
    match type of Hs with context [scheduleNextArrival ?a ?b ?c] =>
      destruct (wfq_scheduleNextArrival_frame a b c)
        as (_ & _ & Eb & _ & _ & _ & _ & En);
      destruct (wfq_scheduleNextArrival_rest a b c) as (_ & Eh);
      set (st1 := scheduleNextArrival a b c) in *
    end.
    assert (H1 : wfq_ids_ok st1).
    { unfold wfq_ids_ok. rewrite Eb, En. simpl.
      destruct Eh as [->|[t' ->]]; [exact H|]. by apply wfq_ids_quiet. }
    destruct Hs as (st3 & Hs & [[_ ->]|(_ & d & Hd & ->)]);
      (eapply wfq_ids_startNextTransmission; [exact Hs|]);
      unfold wfq_ids_ok; simpl.
    + eapply wfq_ids_perm; [symmetry; apply pq_push_elems|].
      by apply wfq_ids_push.
    + eapply wfq_ids_perm; [symmetry; apply pq_push_elems|].
      apply wfq_ids_push; [reflexivity|]. apply wfq_ids_drop.
      eapply wfq_ids_perm; [apply (pq_top_pop BQ _ _ Hd) | exact H1].
  - apply wfq_handleDepartureEvent_Ok in Hs as [_ Hs].
    eapply wfq_ids_startNextTransmission; [exact Hs|].
    unfold wfq_ids_ok. simpl. by apply wfq_ids_quiet.
Qed.

Lemma wfq_ids_run fuel (st : State) o :
  wfq_loaded st -> run fuel st = Ok o -> wfq_ids_ok (state_of o).
Proof.
  intros Hl. apply (wfq_loop_preserves _ wfq_ids_step).
  apply (wfq_prime_preserves _ wfq_ids_scheduleEvent).
  unfold wfq_ids_ok.
  rewrite (wl_nextid _ Hl), (wl_buffer _ Hl), (wl_history _ Hl), pq_new_elems.
  split; simpl; try constructor. lia.
Qed.

(** ** Timing of departures *)

Lemma wfq_timing_perm evs evs' (st : State) :
  Permutation evs evs' -> wfq_timing evs st -> wfq_timing evs' st.
Proof.
  intros P [H1 H2]. split; [|exact H2]. intros t p Hin. apply H1. by rewrite P.
Qed.

Lemma wfq_timing_same evs (st st' : State) :
  config_of st' = config_of st -> history st' = history st ->
  wfq_timing evs st -> wfq_timing evs st'.
Proof.
  intros [= _ ET EC _] Eh [H1 H2]. split; rewrite ?Eh, ?ET, ?EC; assumption.
Qed.

Lemma wfq_timing_obs evs (st st' : State) o :
  config_of st' = config_of st -> history st' = o :: history st ->
  match o with
  | Departed p t =>
      t <= simulationTime st /\
      exists t0 v, Started p t0 v ∈ history st /\
        t = t0 + inject_Z (pkt_size p) / linkCapacity st
  | _ => True
  end ->
  wfq_timing evs st -> wfq_timing evs st'.
Proof.
  intros [= _ ET EC _] Eh Ho [H1 H2]. split; rewrite Eh, ?ET, EC.
  - intros t p Hin. destruct (H1 t p Hin) as (t0 & v & Hs & Ht).
    exists t0, v. split; [by apply list_elem_of_further | exact Ht].
  - intros t p Hin. apply elem_of_cons in Hin as [Heq|Hin].
    + subst o. destruct Ho as (Hle & t0 & v & Hs & Ht). split; [exact Hle|].
      exists t0, v. split; [by apply list_elem_of_further | exact Ht].
    + destruct (H2 t p Hin) as (Hle & t0 & v & Hs & Ht). split; [exact Hle|].
      exists t0, v. split; [by apply list_elem_of_further | exact Ht].
Qed.

Lemma wfq_timing_arrival evs (st : State) t s :
  wfq_timing evs st -> wfq_timing (PACKET_ARRIVAL t s :: evs) st.
Proof.
  intros [H1 H2]. split; [|exact H2]. intros t' p Hin.
  apply elem_of_cons in Hin as [Heq|Hin]; [discriminate | by apply H1].
Qed.

Lemma wfq_timing_tail e evs (st : State) :
  wfq_timing (e :: evs) st -> wfq_timing evs st.
Proof.
  intros [H1 H2]. split; [|exact H2]. intros t p Hin. apply H1.
  by apply list_elem_of_further.
Qed.

Lemma wfq_timing_departure evs (st : State) p t0 v :
  Started p t0 v ∈ history st -> wfq_timing evs st ->
  wfq_timing
    (PACKET_DEPARTURE (t0 + inject_Z (pkt_size p) / linkCapacity st) p :: evs) st.
Proof.
  intros Hs [H1 H2]. split; [|exact H2]. intros t' q Hin.
  apply elem_of_cons in Hin as [[= -> ->]|Hin]; [eauto | by apply H1].
Qed.

Lemma wfq_timing_scheduleEvent_arrival t s (st : State) :
  wfq_timing_ok st -> wfq_timing_ok (scheduleEvent (PACKET_ARRIVAL t s) st).
Proof.
  intros H. unfold wfq_timing_ok.
  destruct (wfq_scheduleEvent_cases (PACKET_ARRIVAL t s) st) as [[_ ->]|[_ ->]]; simpl.
  - eapply wfq_timing_perm; [symmetry; apply pq_push_elems|].
    apply wfq_timing_arrival.
    eapply (wfq_timing_same _ st); [reflexivity | reflexivity | exact H].
  - eapply (wfq_timing_obs _ st); [reflexivity | reflexivity | done | done].
Qed.

Lemma wfq_timing_startNextTransmission (st st' : State) :
  startNextTransmission st = Ok st' -> wfq_timing_ok st -> wfq_timing_ok st'.
Proof.
  intros Hs H.
  apply startNextTransmission_Ok in Hs as [[_ ->]|(_ & p & _ & ->)]; [exact H|].
  set (st2 := observe (Started p (currentTime st) (virtualStart p))
                (set_systemVirtualTime (virtualStart p)
                   (set_packetBuffer (pq_pop BQ (packetBuffer st))
                      (set_linkBusy true st)))).
  assert (H2 : wfq_timing (pq_elems EQ (eventQueue st)) st2)
    by (eapply (wfq_timing_obs _ st); [reflexivity | reflexivity | done | done]).
  assert (Hin : Started p (currentTime st) (virtualStart p) ∈ history st2)
    by apply list_elem_of_here.
  unfold wfq_timing_ok.
  match goal with |- context [scheduleEvent ?e st2] =>
    destruct (wfq_scheduleEvent_cases e st2) as [[_ ->]|[_ ->]]
  end; simpl.
  - eapply wfq_timing_perm; [symmetry; apply pq_push_elems|].
    eapply (wfq_timing_same _ st2); [reflexivity | reflexivity |].
    by apply (wfq_timing_departure _ st2 p (currentTime st) (virtualStart p)).
  - eapply (wfq_timing_obs _ st2); [reflexivity | reflexivity | done | done].
Qed.

Lemma wfq_timing_step (st : State) o :
  wfq_timing_ok st -> step st = Ok o -> wfq_timing_ok (state_of o).
Proof.
  intros H Hs. apply wfq_step_Ok in Hs as [[_ ->]|(e & He & Hs)]; [exact H|].
  pose proof (wfq_timing_perm _ _ _ (pq_top_pop EQ _ _ He) H) as H0.
  simpl in Hs.
  set (st0 := set_currentTime (ev_time e)
                (set_eventQueue (pq_pop EQ (eventQueue st)) st)) in *.
  assert (H1 : wfq_timing (e :: pq_elems EQ (eventQueue st0)) st0)
    by (eapply (wfq_timing_same _ st); [reflexivity | reflexivity | done]).
  destruct Hs as [[_ ->]|(Hle & st' & -> & Hs)]; [by apply wfq_timing_tail in H1|].
  simpl. destruct e as [t srcID|t p].
  - apply wfq_timing_tail in H1.
    apply wfq_handleArrivalEvent_Ok in Hs as (src & _ & _ & Hs). simpl in Hs.
    assert (H2 : wfq_timing_ok (scheduleNextArrival srcID src st0)).
    { unfold scheduleNextArrival.
      destruct (exponential_draw G (packetRate src) (generator st0)) as [dt g].
      simpl. destruct (Qltb _ _).
      - apply wfq_timing_scheduleEvent_arrival.
        eapply (wfq_timing_same _ st0); [reflexivity | reflexivity | done].
      - eapply (wfq_timing_same _ st0); [reflexivity | reflexivity | done]. }
    set (st1 := scheduleNextArrival srcID src st0) in *.
    destruct Hs as (st3 & Hs & [[_ ->]|(_ & d & _ & ->)]);
      (eapply wfq_timing_startNextTransmission; [exact Hs|]).
    + eapply (wfq_timing_same _ st1); [reflexivity | reflexivity | done].
    + eapply (wfq_timing_obs _ st1 _ (Dropped d));
        [reflexivity | reflexivity | done | done].
  - apply wfq_handleDepartureEvent_Ok in Hs as [_ Hs].
    eapply wfq_timing_startNextTransmission; [exact Hs|].
    destruct (wm_flight _ _ H1 t p) as (t0 & v & Hst & Ht); [apply list_elem_of_here|].
    apply wfq_timing_tail in H1.
    match goal with |- wfq_timing_ok (observe ?o ?s) =>
      apply (wfq_timing_obs _ s _ o); [reflexivity | reflexivity | |]
    end.
    + simpl. split; [exact Hle|]. exists t0, v. split; [exact Hst | exact Ht].
    + eapply (wfq_timing_same _ st0); [reflexivity | reflexivity | done].
Qed.

Lemma wfq_timing_run fuel (st : State) o :
  wfq_loaded st -> run fuel st = Ok o -> wfq_timing_ok (state_of o).
Proof.
  intros Hl. apply (wfq_loop_preserves _ wfq_timing_step).
  unfold prime. generalize (sources st). intros l.
  assert (H : wfq_timing_ok st).
  { unfold wfq_timing_ok. rewrite (wl_queue _ Hl), pq_new_elems.
    split; rewrite ?(wl_history _ Hl); intros t p Hin; by apply elem_of_nil in Hin. }
  revert H. generalize st. clear. intros st.
  revert st. induction l as [|src l IH]; intros st H; simpl; [exact H|].
  apply IH. by apply wfq_timing_scheduleEvent_arrival.
Qed.

(** ** The report *)

Lemma wfq_sum_loop_counts (st : State) k i t0 :
  (i + k = length (stats st))%nat -> length (sources st) = length (stats st) ->
  exists t, sum_loop st (seq i k) t0 = Ok t /\
    totGen t = (totGen t0 + Zsum (map packetsGenerated (drop i (stats st))))%Z /\
    totTrans t = (totTrans t0 + Zsum (map packetsTransmitted (drop i (stats st))))%Z /\
    totDrop t = (totDrop t0 + Zsum (map packetsDropped (drop i (stats st))))%Z /\
    totDelay t == totDelay t0 + Qsum (map totalDelay (drop i (stats st))).
Proof.
  intros Hlen Hsz. revert i t0 Hlen.
  induction k as [|k IH]; intros i t0 Hlen; simpl.
  - exists t0. rewrite !drop_ge by lia. simpl. repeat split; try lia. ring.
  - destruct (lookup_lt_is_Some_2 (stats st) i) as [r Hr]; [lia|].
    destruct (lookup_lt_is_Some_2 (sources st) i) as [src Hsrc]; [lia|].
    unfold at_index. rewrite Hr, Hsrc. simpl.
    match goal with |- context [accumulate ?x r t0] =>
      destruct (IH (S i) (accumulate x r t0))
        as (t & Ht & H1 & H2 & H3 & H4); [lia|]
    end.
    exists t. split; [exact Ht|].
    rewrite (drop_S _ _ _ Hr). simpl in *. rewrite H1, H2, H3, H4.
    repeat split; try lia. ring.
Qed.

Lemma wfq_rows_loop_spec (st : State) k i :
  (i + k = length (stats st))%nat -> length (sources st) = length (stats st) ->
  rows_loop st (seq i k)
  = Ok (zip_with (fun r src => row_of (simulationTime st) (weight src) r)
          (drop i (stats st)) (drop i (sources st))).
Proof.
  revert i. induction k as [|k IH]; intros i Hlen Hsz; simpl.
  - by rewrite !drop_ge by lia.
  - destruct (lookup_lt_is_Some_2 (stats st) i) as [r Hr]; [lia|].
    destruct (lookup_lt_is_Some_2 (sources st) i) as [src Hsrc]; [lia|].
    unfold at_index. rewrite Hr, Hsrc. simpl.
    rewrite IH by (done || lia). simpl.
    by rewrite (drop_S _ _ _ Hr), (drop_S _ _ _ Hsrc).
Qed.

Lemma wfq_printTable_spec (st : State) :
  wfq_ok st ->
  printTable st
  = Ok (zip_with (fun r src => row_of (simulationTime st) (weight src) r)
          (stats st) (sources st)).
Proof.
  intros H. unfold printTable. rewrite (wi_num _ _ H), Nat2Z.id.
  apply (wfq_rows_loop_spec st (length (stats st)) 0); [lia | apply (wi_sizes _ _ H)].
Qed.

Lemma wfq_printResults_counts (st : State) :
  wfq_ok st ->
  exists t, printResults st
            = Ok (metrics_of (numSources st) (linkCapacity st) (simulationTime st) t) /\
    totGen t = Zsum (map packetsGenerated (stats st)) /\
    totTrans t = Zsum (map packetsTransmitted (stats st)) /\
    totDrop t = Zsum (map packetsDropped (stats st)) /\
    totDelay t == Qsum (map totalDelay (stats st)) /\
    totBytes t == wfq_total_bytes st.
Proof.
  intros H. unfold printResults.
  rewrite (wi_num _ _ H), Nat2Z.id.
  destruct (wfq_sum_loop_counts st (length (stats st)) 0 Totals_init)
    as (t & Ht & H1 & H2 & H3 & H4); [lia | apply (wi_sizes _ _ H) |].
  rewrite Ht. simpl.
  exists t. split; [reflexivity|].
  change (drop 0 (stats st)) with (stats st) in *. simpl in *.
  assert (Hb' : totBytes t == wfq_total_bytes st).
  { destruct (WFQResults.wfq_sum_loop_spec st (length (stats st)) 0 Totals_init)
      as (t2 & Ht2 & Hb2 & _); [lia | apply (wi_sizes _ _ H) |].
    rewrite Ht in Ht2. injection Ht2 as <-. simpl in Hb2.
    change (drop 0 (stats st)) with (stats st) in Hb2. unfold wfq_total_bytes. lra. }
  repeat split; try assumption. lra.
Qed.

(** The counters of a source after any run. *)
Lemma wfq_counters_bounds (st : State) s r :
  wfq_ok st -> wfq_ledger st -> stats st !! s = Some r ->
  (0 <= packetsTransmitted r)%Z /\ (0 <= packetsDropped r)%Z /\
  (packetsTransmitted r + packetsDropped r <= packetsGenerated r)%Z.
Proof.
  intros Hok Hl Hr. destruct (Hl s r Hr) as (H1 & H2 & _).
  pose proof (wi_account _ _ Hok s r Hr). lia.
Qed.

End More.

(** ** The clock *)

Section Clock.
Context {EQ : MinPQ Event ev_time} {BQ : MinPQ Packet virtualFinishTime}
        {G : RandomEngine}.
Context (laws : RandomEngineLaws G).
Local Abbreviation State := (State EQ BQ G).

Lemma wfq_startNextTransmission_clock (st st' : State) :
  startNextTransmission st = Ok st' -> currentTime st' = currentTime st.
Proof.
  intros Hs.
  apply startNextTransmission_Ok in Hs as [[_ ->]|(_ & p & _ & ->)]; [done|].
  match goal with |- context [scheduleEvent ?e ?s] =>
    destruct (wfq_scheduleEvent_cases e s) as [[_ ->]|[_ ->]]
  end; reflexivity.
Qed.

(** An iteration leaves the clock at the time of the event it took. *)
Lemma wfq_step_clock (st : State) o :
  step st = Ok o ->
  currentTime (state_of o) = currentTime st \/
  exists e, pq_top EQ (eventQueue st) = Some e /\
            currentTime (state_of o) = ev_time e.
Proof.
  intros Hs. apply wfq_step_Ok in Hs as [[_ ->]|(e & He & Hs)]; [by left|].
  right. exists e. split; [exact He|]. simpl in Hs.
  destruct Hs as [[_ ->]|(_ & st' & -> & Hs)]; [reflexivity|].
  simpl. destruct e as [t srcID|t p].
  - apply wfq_handleArrivalEvent_Ok in Hs as (src & _ & _ & Hs). simpl in Hs.
    match type of Hs with context [scheduleNextArrival ?a ?b ?c] =>
      destruct (wfq_scheduleNextArrival_frame a b c)
        as (_ & _ & _ & _ & _ & _ & Ec & _)
    end.
    destruct Hs as (st3 & Hs & [[_ ->]|(_ & d & _ & ->)]);
      rewrite (wfq_startNextTransmission_clock _ _ Hs); exact Ec.
  - apply wfq_handleDepartureEvent_Ok in Hs as [_ Hs].
    by rewrite (wfq_startNextTransmission_clock _ _ Hs).
Qed.

Lemma wfq_step_clock_le (st : State) o :
  wfq_timed_ok st -> step st = Ok o -> currentTime st <= currentTime (state_of o).
Proof.
  intros Ht Hs. destruct (wfq_step_clock _ _ Hs) as [->|(e & He & ->)]; [lra|].
  pose proof (wt_future _ _ Ht) as Hf.
  rewrite (pq_top_pop EQ _ _ He) in Hf. by apply Forall_cons in Hf as [Hf _].
Qed.

Lemma wfq_loop_clock_le fuel (st : State) o :
  wfq_ok st -> wfq_timed_ok st -> loop fuel st = Ok o ->
  currentTime st <= currentTime (state_of o).
Proof.
  revert st. induction fuel as [|fuel IH]; intros st Hi Ht; simpl.
  { intros [= <-]. simpl. lra. }
  destruct (step st) as [o1|u] eqn:Hs; simpl; [|discriminate].
  pose proof (wfq_step_clock_le _ _ Ht Hs) as Hle.
  pose proof (wfq_step_keeps _ _ Hi Hs) as Hi1.
  pose proof (WFQTimed.wfq_timed_step laws _ _ Hi Ht Hs) as Ht1.
  destruct o1 as [st1|st1]; [|by intros [= <-]].
  intros Hl. specialize (IH _ Hi1 Ht1 Hl). eapply Qle_trans; [exact Hle | exact IH].
Qed.

Lemma wfq_run_clock_le n k (w0 : State) o_n o :
  wfq_loaded w0 -> wfq_valid_config w0 ->
  run n w0 = Ok o_n -> run (n + k) w0 = Ok o ->
  currentTime (state_of o_n) <= currentTime (state_of o).
Proof.
  intros Hl Hv Hn Hnk.
  destruct (WFQTimed.wfq_timed_run laws n w0 o_n Hl Hv Hn) as [Hi Ht].
  unfold run in *. rewrite WFQResults.wfq_loop_add, Hn in Hnk.
  destruct o_n as [st|st]; [|injection Hnk as <-; apply Qle_refl].
  by apply (wfq_loop_clock_le k).
Qed.

(** ** No packet starts before it arrived *)

Lemma wfq_waiting_obs (st st' : State) o :
  packetBuffer st' = packetBuffer st -> currentTime st' = currentTime st ->
  history st' = o :: history st ->
  match o with Started _ _ _ => False | _ => True end ->
  wfq_waiting st -> wfq_waiting st'.
Proof.
  intros Eb Ec Eh Ho [H1 H2]. split; rewrite ?Eb, ?Ec, ?Eh; [exact H1|].
  intros p t0 v Hin. apply elem_of_cons in Hin as [Heq|Hin]; [by subst o|].
  by apply (H2 p t0 v).
Qed.

Lemma wfq_waiting_same (st st' : State) :
  packetBuffer st' = packetBuffer st -> currentTime st' = currentTime st ->
  history st' = history st -> wfq_waiting st -> wfq_waiting st'.
Proof. intros Eb Ec Eh [H1 H2]. split; rewrite ?Eb, ?Ec, ?Eh; assumption. Qed.

Lemma wfq_waiting_scheduleEvent e (st : State) :
  wfq_waiting st -> wfq_waiting (scheduleEvent e st).
Proof.
  intros H. destruct (wfq_scheduleEvent_cases e st) as [[_ ->]|[_ ->]].
  - by apply (wfq_waiting_same st).
  - by apply (wfq_waiting_obs st _ (Discarded e)).
Qed.

Lemma wfq_waiting_startNextTransmission (st st' : State) :
  startNextTransmission st = Ok st' -> wfq_waiting st -> wfq_waiting st'.
Proof.
  intros Hs H.
  apply startNextTransmission_Ok in Hs as [[_ ->]|(_ & p & Hp & ->)]; [exact H|].
  apply wfq_waiting_scheduleEvent. destruct H as [H1 H2].
  pose proof (pq_top_pop BQ _ _ Hp) as P.
  split; simpl.
  - intros q Hq. apply H1. rewrite P. by apply list_elem_of_further.
  - intros q t0 v Hin. apply elem_of_cons in Hin as [[= -> -> ->]|Hin];
      [|by apply (H2 q t0 v)].
    apply H1. rewrite P. apply list_elem_of_here.
Qed.

Lemma wfq_waiting_later (st : State) t q :
  currentTime st <= t -> wfq_waiting st ->
  wfq_waiting (set_currentTime t (set_eventQueue q st)).
Proof.
  intros Hle [H1 H2]. split; simpl; [|exact H2].
  intros p Hp. destruct (H1 p Hp). split; [lra | done].
Qed.

Lemma wfq_waiting_step (st : State) o :
  wfq_timed_ok st -> wfq_waiting st -> step st = Ok o -> wfq_waiting (state_of o).
Proof.
  intros Ht H Hs. apply wfq_step_Ok in Hs as [[_ ->]|(e & He & Hs)]; [exact H|].
  assert (Hle : currentTime st <= ev_time e).
  { pose proof (wt_future _ _ Ht) as Hf.
    rewrite (pq_top_pop EQ _ _ He) in Hf. by apply Forall_cons in Hf as [Hf _]. }
  pose proof (wfq_waiting_later st (ev_time e) (pq_pop EQ (eventQueue st)) Hle H)
    as H0.
  simpl in Hs.
  set (st0 := set_currentTime (ev_time e)
                (set_eventQueue (pq_pop EQ (eventQueue st)) st)) in *.
  destruct Hs as [[_ ->]|(_ & st' & -> & Hs)]; [exact H0|].
  simpl. destruct e as [t srcID|t p].
  - apply wfq_handleArrivalEvent_Ok in Hs as (src & Hsrc & _ & Hs). simpl in Hs.
    assert (Hsz : (minSize src <= maxSize src)%Z /\ (0 <= minSize src)%Z).
    { pose proof (wt_sources _ _ Ht) as Hall. rewrite Forall_forall in Hall.
      specialize (Hall src (list_elem_of_lookup_2 _ _ _ Hsrc)). simpl in Hall. lia. }
    destruct (wfq_scheduleNextArrival_frame srcID src st0)
      as (_ & _ & Eb & _ & _ & _ & Ec & _).
    destruct (wfq_scheduleNextArrival_rest srcID src st0) as (_ & Eh).
    assert (H1 : wfq_waiting (scheduleNextArrival srcID src st0)).
    { destruct Eh as [Eh|[t' Eh]].
      - by apply (wfq_waiting_same st0).
      - by apply (wfq_waiting_obs st0 _ _ Eb Ec Eh). }
    set (st1 := scheduleNextArrival srcID src st0) in *.
    pose proof (uniform_int_range G laws (minSize src) (maxSize src) (generator st1)
                  (proj1 Hsz)) as Hdraw.
    destruct H1 as [H1 H2].
    destruct Hs as (st3 & Hs & [[_ ->]|(_ & d & Hd & ->)]);
      (eapply wfq_waiting_startNextTransmission; [exact Hs|]);
      (split; simpl;
       [|intros q t0 v Hin; try (apply elem_of_cons in Hin as [Heq|Hin];
           [discriminate|]); by apply (H2 q t0 v)]).
    + intros q Hq. rewrite pq_push_elems in Hq.
      apply elem_of_cons in Hq as [->|Hq]; [simpl; split; [lra | lia]|].
      by apply H1.
    + intros q Hq. rewrite pq_push_elems in Hq.
      apply elem_of_cons in Hq as [->|Hq]; [simpl; split; [lra | lia]|].
      apply H1. rewrite (pq_top_pop BQ _ _ Hd). by apply list_elem_of_further.
  - apply wfq_handleDepartureEvent_Ok in Hs as [_ Hs].
    eapply wfq_waiting_startNextTransmission; [exact Hs|].
    match goal with |- wfq_waiting (observe ?o ?s) =>
      apply (wfq_waiting_obs s _ o); [reflexivity | reflexivity | reflexivity | done |]
    end.
    by apply (wfq_waiting_same st0).
Qed.

Lemma wfq_waiting_run fuel (st : State) o :
  wfq_loaded st -> wfq_valid_config st -> run fuel st = Ok o ->
  wfq_waiting (state_of o).
Proof.
  intros Hl Hv Hrun.
  assert (H : wfq_ok (state_of o) /\ wfq_timed_ok (state_of o)
              /\ wfq_waiting (state_of o)).
  { revert Hrun. unfold run.
    apply (wfq_loop_preserves
             (fun st => wfq_ok st /\ wfq_timed_ok st /\ wfq_waiting st)).
    - intros st0 o0 (Hi & Ht & Hw) Hs. split; [by eapply wfq_step_keeps|].
      split; [by eapply WFQTimed.wfq_timed_step | by eapply wfq_waiting_step].
    - split; [by apply wfq_prime_ok|]. split; [by apply WFQTimed.wfq_timed_prime|].
      apply (wfq_prime_preserves _ wfq_waiting_scheduleEvent).
      split; rewrite ?(wl_buffer _ Hl), ?pq_new_elems, ?(wl_history _ Hl);
        intros; by match goal with H : _ ∈ [] |- _ => apply elem_of_nil in H end. }
  tauto.
Qed.

End Clock.

Section Counting.
Context {EQ : MinPQ Event ev_time} {BQ : MinPQ Packet virtualFinishTime}
        {G : RandomEngine}.
Local Abbreviation State := (State EQ BQ G).

(** ** The id counter against the generated packets *)

Lemma wfq_scheduleEvent_counters e (st : State) :
  stats (scheduleEvent e st) = stats st /\
  nextPacketId (scheduleEvent e st) = nextPacketId st.
Proof. by destruct (wfq_scheduleEvent_cases e st) as [[_ ->]|[_ ->]]. Qed.

Lemma wfq_startNextTransmission_counters (st st' : State) :
  startNextTransmission st = Ok st' ->
  stats st' = stats st /\ nextPacketId st' = nextPacketId st.
Proof.
  intros Hs.
  apply startNextTransmission_Ok in Hs as [[_ ->]|(_ & p & _ & ->)]; [done|].
  match goal with |- context [scheduleEvent ?e ?s] =>
    destruct (wfq_scheduleEvent_counters e s) as [-> ->]
  end. done.
Qed.

Lemma wfq_next_id_step (st : State) o :
  nextPacketId st = (1 + Zsum (map packetsGenerated (stats st)))%Z ->
  step st = Ok o ->
  nextPacketId (state_of o)
  = (1 + Zsum (map packetsGenerated (stats (state_of o))))%Z.
Proof.
  intros H Hs. apply wfq_step_Ok in Hs as [[_ ->]|(e & _ & Hs)]; [exact H|].
  simpl in Hs. destruct Hs as [[_ ->]|(_ & st' & -> & Hs)]; [exact H|].
  simpl. destruct e as [t srcID|t p].
  - apply wfq_handleArrivalEvent_Ok in Hs as (src & _ & Hlt & Hs). simpl in Hs.
    simpl in Hlt. destruct (lookup_lt_is_Some_2 (stats st) srcID Hlt) as [r Hr].
    match type of Hs with context [scheduleNextArrival ?a ?b ?c] =>
      destruct (wfq_scheduleNextArrival_frame a b c)
        as (_ & Est & _ & _ & _ & _ & _ & En)
    end.
    simpl in Est, En.
    destruct Hs as (st3 & Hs & [[_ ->]|(_ & d & _ & ->)]);
      destruct (wfq_startNextTransmission_counters _ _ Hs) as [-> ->]; simpl;
      rewrite ?(map_alter_same packetsGenerated incr_dropped) by done;
      rewrite Est, En, (Zsum_alter _ _ _ _ _ Hr), H; simpl; lia.
  - apply wfq_handleDepartureEvent_Ok in Hs as [_ Hs].
    destruct (wfq_startNextTransmission_counters _ _ Hs) as [-> ->]. simpl.
    rewrite map_alter_same by done. exact H.
Qed.

Lemma wfq_next_id_run fuel (st : State) o :
  wfq_loaded st -> run fuel st = Ok o ->
  nextPacketId (state_of o)
  = (1 + Zsum (map packetsGenerated (stats (state_of o))))%Z.
Proof.
  intros Hl.
  apply (wfq_loop_preserves
           (fun st => nextPacketId st
                      = (1 + Zsum (map packetsGenerated (stats st)))%Z)
           wfq_next_id_step).
  apply (wfq_prime_preserves
           (fun st => nextPacketId st
                      = (1 + Zsum (map packetsGenerated (stats st)))%Z)).
  - intros e s H. by destruct (wfq_scheduleEvent_counters e s) as [-> ->].
  - rewrite (wl_nextid _ Hl), (wl_stats _ Hl). generalize (length (sources st)).
    intros n. induction n as [|n IH]; simpl; [done | lia].
Qed.

(** ** Delays are not negative *)

Lemma wfq_delay_nonneg (st : State) s r :
  0 < linkCapacity st -> wfq_ledger st -> wfq_timing_ok st -> wfq_waiting st ->
  stats st !! s = Some r -> 0 <= totalDelay r.
Proof.
  intros HC Hl Ht [_ Hw] Hr. destruct (Hl s r Hr) as (_ & _ & _ & ->).
  apply Qsum_map_nonneg. apply Forall_forall. intros o Ho.
  destruct o as [p' t' v'|p t|p'|e]; simpl; try lra.
  destruct (from_source s p); [|lra].
  destruct (wm_done _ _ Ht t p Ho) as (_ & t0 & v & Hst & ->).
  destruct (Hw p t0 v Hst) as [Ha Hsz].
  assert (0 <= inject_Z (pkt_size p) / linkCapacity st).
  { apply Qle_shift_div_l; [exact HC|].
    assert (0 <= inject_Z (pkt_size p))
      by (change 0 with (inject_Z 0); by rewrite <- Zle_Qle).
    lra. }
  lra.
Qed.

(** ** Of the sources only [lastFinishTime] is written *)

Lemma wfq_scheduleEvent_sources e (st : State) :
  sources (scheduleEvent e st) = sources st.
Proof. by destruct (wfq_scheduleEvent_cases e st) as [[_ ->]|[_ ->]]. Qed.

Lemma wfq_startNextTransmission_sources (st st' : State) :
  startNextTransmission st = Ok st' -> sources st' = sources st.
Proof.
  intros Hs.
  apply startNextTransmission_Ok in Hs as [[_ ->]|(_ & p & _ & ->)]; [done|].
  by rewrite wfq_scheduleEvent_sources.
Qed.

Lemma wfq_step_sources (st : State) o :
  step st = Ok o ->
  map (set_lastFinishTime 0) (sources (state_of o))
  = map (set_lastFinishTime 0) (sources st).
Proof.
  intros Hs. apply wfq_step_Ok in Hs as [[_ ->]|(e & _ & Hs)]; [done|].
  simpl in Hs. destruct Hs as [[_ ->]|(_ & st' & -> & Hs)]; [done|].
  simpl. destruct e as [t srcID|t p].
  - apply wfq_handleArrivalEvent_Ok in Hs as (src & _ & _ & Hs). simpl in Hs.
    match type of Hs with context [scheduleNextArrival ?a ?b ?c] =>
      destruct (wfq_scheduleNextArrival_frame a b c) as (Esrc & _)
    end.
    simpl in Esrc.
    destruct Hs as (st3 & Hs & [[_ ->]|(_ & d & _ & ->)]);
      rewrite (wfq_startNextTransmission_sources _ _ Hs); simpl;
      rewrite map_alter_same by done; by rewrite Esrc.
  - apply wfq_handleDepartureEvent_Ok in Hs as [_ Hs].
    by rewrite (wfq_startNextTransmission_sources _ _ Hs).
Qed.

Lemma wfq_run_sources fuel (st : State) o :
  run fuel st = Ok o ->
  map (set_lastFinishTime 0) (sources (state_of o))
  = map (set_lastFinishTime 0) (sources st).
Proof.
  apply (wfq_loop_preserves
           (fun s => map (set_lastFinishTime 0) (sources s)
                     = map (set_lastFinishTime 0) (sources st))).
  - intros s o' H Hs. by rewrite (wfq_step_sources _ _ Hs).
  - apply (wfq_prime_preserves
             (fun s => map (set_lastFinishTime 0) (sources s)
                       = map (set_lastFinishTime 0) (sources st))); [|done].
    intros e s H. by rewrite wfq_scheduleEvent_sources.
Qed.

End Counting.
End WFQMore.
(** * The arrival processes *)

Module FCFSArrivals.
Import FCFS FCFSFacts FCFSMore.

Section Arrivals.
Context {EQ : MinPQ Event ev_time} {G : RandomEngine}.
Context (laws : RandomEngineLaws G).
Local Abbreviation State := (State EQ G).

Lemma arrival_ids_perm evs evs' :
  Permutation evs evs' -> Permutation (arrival_ids evs) (arrival_ids evs').
Proof.
  induction 1 as [|e l l' _ IH|e e' l|l l' l'' _ IH1 _ IH2]; simpl.
  - done.
  - destruct e; [by constructor | done].
  - destruct e, e'; try done. apply perm_swap.
  - by etrans.
Qed.

Lemma arrival_ids_elem t s evs : PACKET_ARRIVAL t s ∈ evs -> s ∈ arrival_ids evs.
Proof.
  induction evs as [|e evs IH]; intros Hin; [by apply elem_of_nil in Hin|].
  apply elem_of_cons in Hin as [<-|Hin]; simpl; [apply list_elem_of_here|].
  destruct e; [apply list_elem_of_further|]; by apply IH.
Qed.

Lemma arrival_ids_length evs :
  length evs = (count is_departure evs + length (arrival_ids evs))%nat.
Proof. induction evs as [|[] evs IH]; simpl; lia. Qed.

(** Ids that are all different and below [n] are at most [n]. *)
Lemma nodup_below (l : list nat) n :
  NoDup l -> Forall (fun i => i < n)%nat l -> (length l <= n)%nat.
Proof.
  intros Hd Hall. rewrite <- (length_seq n 0). apply submseteq_length.
  apply NoDup_submseteq; [exact Hd|]. intros i Hi. apply elem_of_seq.
  rewrite Forall_forall in Hall. specialize (Hall i Hi). lia.
Qed.

Lemma arrivals_perm evs evs' (st : State) :
  Permutation evs evs' -> arrivals evs st -> arrivals evs' st.
Proof.
  intros P [H1 H2 H3 H4 H5]. split; try done.
  - by rewrite <- (arrival_ids_perm _ _ P).
  - intros t s Hin. apply H2. by rewrite P.
Qed.

Lemma arrivals_same evs (st st' : State) :
  sources st' = sources st -> packetBuffer st' = packetBuffer st ->
  history st' = history st -> arrivals evs st -> arrivals evs st'.
Proof.
  intros Es Eb Eh [H1 H2 H3 H4 H5].
  split; unfold arrives_in_window in *; rewrite ?Es, ?Eb, ?Eh; done.
Qed.

Lemma arrivals_obs evs (st st' : State) o :
  sources st' = sources st -> packetBuffer st' = packetBuffer st ->
  history st' = o :: history st ->
  match o with
  | Started p _ | Dropped p =>
      arrives_in_window st (pkt_sourceID p) (pkt_arrivalTime p)
  | _ => True
  end ->
  arrivals evs st -> arrivals evs st'.
Proof.
  intros Es Eb Eh Ho [H1 H2 H3 H4 H5].
  split; unfold arrives_in_window in *; rewrite ?Es, ?Eb, ?Eh; try done.
  - intros p t0 Hin. apply elem_of_cons in Hin as [Heq|Hin]; [by subst o|].
    by apply (H4 p t0).
  - intros p Hin. apply elem_of_cons in Hin as [Heq|Hin]; [by subst o|].
    by apply H5.
Qed.

Lemma arrivals_tail e evs (st : State) : arrivals (e :: evs) st -> arrivals evs st.
Proof.
  intros [H1 H2 H3 H4 H5]. split; try done.
  - destruct e; simpl in H1; [by apply NoDup_cons_1_2 in H1 | done].
  - intros t s Hin. apply H2. by apply list_elem_of_further.
Qed.

Lemma arrivals_departure t p evs (st : State) :
  arrivals evs st -> arrivals (PACKET_DEPARTURE t p :: evs) st.
Proof.
  intros [H1 H2 H3 H4 H5]. split; try done.
  intros t' s Hin. apply elem_of_cons in Hin as [Heq|Hin]; [discriminate|].
  by apply H2.
Qed.

Lemma arrivals_arrival t s evs (st : State) :
  s ∉ arrival_ids evs -> arrives_in_window st s t ->
  arrivals evs st -> arrivals (PACKET_ARRIVAL t s :: evs) st.
Proof.
  intros Hs Hw [H1 H2 H3 H4 H5]. split; try done.
  - simpl. by apply NoDup_cons_2.
  - intros t' s' Hin. apply elem_of_cons in Hin as [[= -> ->]|Hin]; [done|].
    by apply H2.
Qed.

(** [scheduleEvent e], when what would be pending with [e] is in order. *)
Lemma arrivals_scheduleEvent e (st : State) :
  arrivals (e :: pq_elems EQ (eventQueue st)) st ->
  arrivals_ok (scheduleEvent e st).
Proof.
  intros H. unfold arrivals_ok.
  destruct (scheduleEvent_cases e st) as [[_ ->]|[_ ->]]; simpl.
  - eapply arrivals_perm; [symmetry; apply pq_push_elems|].
    by eapply (arrivals_same _ st).
  - apply arrivals_tail in H.
    by eapply (arrivals_obs _ st _ (Discarded e)).
Qed.

Lemma arrivals_startNextTransmission (st : State) :
  arrivals_ok st -> arrivals_ok (startNextTransmission st).
Proof.
  intros H.
  destruct (startNextTransmission_cases st) as [[_ ->]|(_ & p & rest & Hb & ->)];
    [exact H|].
  apply arrivals_scheduleEvent. simpl. apply arrivals_departure.
  destruct H as [H1 H2 H3 H4 H5]. rewrite Hb in H3.
  split; unfold arrives_in_window in *; simpl; try done.
  - intros q Hq. apply H3. by apply list_elem_of_further.
  - intros q t0 Hin. apply elem_of_cons in Hin as [[= -> ->]|Hin];
      [apply H3, list_elem_of_here | by apply (H4 q t0)].
  - intros q Hin. apply elem_of_cons in Hin as [Heq|Hin]; [discriminate|].
    by apply H5.
Qed.

(** What [scheduleNextArrival] does to the event queue. *)
Lemma scheduleNextArrival_queue srcID src (st : State) :
  let st' := scheduleNextArrival srcID src st in
  let t := currentTime st + fst (exponential_draw G (packetRate src) (generator st)) in
  (t < endTime src /\ t <= simulationTime st /\
   eventQueue st' = pq_push EQ (PACKET_ARRIVAL t srcID) (eventQueue st) /\
   history st' = history st) \/
  (eventQueue st' = eventQueue st /\
   (history st' = history st \/
    history st' = Discarded (PACKET_ARRIVAL t srcID) :: history st)).
Proof.
  unfold scheduleNextArrival.
  destruct (exponential_draw G (packetRate src) (generator st)) as [dt g]. simpl.
  destruct (Qltb _ _) eqn:E; [|right; auto].
  apply Qltb_lt in E.
  match goal with |- context [scheduleEvent ?e ?s] =>
    destruct (scheduleEvent_cases e s) as [[Hle ->]|[_ ->]]
  end; simpl in *; [left; auto | right; auto].
Qed.

Lemma arrivals_step (st : State) o :
  arrivals_ok st -> step st = Ok o -> arrivals_ok (state_of o).
Proof.
  intros H Hs. apply step_Ok in Hs as [[_ ->]|(e & He & Hs)]; [exact H|].
  pose proof (arrivals_perm _ _ _ (pq_top_pop EQ _ _ He) H) as H0.
  simpl in Hs.
  set (st0 := set_currentTime (ev_time e)
                (set_eventQueue (pq_pop EQ (eventQueue st)) st)) in *.
  assert (H1 : arrivals (e :: pq_elems EQ (eventQueue st0)) st0)
    by (by eapply (arrivals_same _ st)).
  destruct Hs as [[_ ->]|(_ & st' & -> & Hs)]; [by apply arrivals_tail in H1|].
  simpl. destruct e as [t srcID|t p].
  - apply handleArrivalEvent_Ok in Hs as (src & Hsrc & _ & Hs). simpl in Hs.
    destruct (ar_events _ _ H1 t srcID (list_elem_of_here _ _)) as (src' & Hsrc' & Hw).
    assert (src' = src) by congruence. subst src'.
    pose proof (ar_nodup _ _ H1) as Hnd. simpl in Hnd.
    apply NoDup_cons in Hnd as [Hfresh _].
    apply arrivals_tail in H1.
    destruct (scheduleNextArrival_frame srcID src st0) as (Es & _ & Eb & _).
    destruct (scheduleNextArrival_rest srcID src st0) as (_ & Ec & _).
    set (st1 := scheduleNextArrival srcID src st0) in *.
    assert (H2 : arrivals_ok st1).
    { unfold arrivals_ok, st1 in *.
      destruct (scheduleNextArrival_queue srcID src st0)
        as [(Hend & _ & -> & Eh)|[-> Eh]].
      - eapply arrivals_perm; [symmetry; apply pq_push_elems|].
        eapply (arrivals_same _ st0); [exact Es | exact Eb | exact Eh |].
        apply arrivals_arrival; [exact Hfresh | | exact H1].
        exists src. split; [exact Hsrc|]. destruct Hw as [Hw _].
        pose proof (exponential_nonneg G laws (packetRate src) (generator st0)).
        simpl in *. split; [lra | right; exact Hend].
      - destruct Eh as [Eh|Eh].
        + by eapply (arrivals_same _ st0).
        + by eapply (arrivals_obs _ st0 _ _ Es Eb Eh). }
    assert (Hp : arrives_in_window st1 srcID (currentTime st1)).
    { exists src. rewrite Es, Ec. split; [exact Hsrc | exact Hw]. }
    destruct Hs as [[_ ->]|[_ ->]]; apply arrivals_startNextTransmission.
    + destruct H2 as [A1 A2 A3 A4 A5]. split; try done. simpl.
      intros q Hq. apply elem_of_app in Hq as [Hq|Hq]; [by apply A3|].
      apply list_elem_of_singleton in Hq. by subst q.
    + match goal with |- arrivals_ok (observe ?o ?s) =>
        apply (arrivals_obs _ s _ o); [reflexivity | reflexivity | reflexivity | |]
      end.
      * exact Hp.
      * by eapply (arrivals_same _ st1).
  - apply handleDepartureEvent_Ok in Hs as [_ ->].
    apply arrivals_startNextTransmission. apply arrivals_tail in H1.
    match goal with |- arrivals_ok (observe ?o ?s) =>
      apply (arrivals_obs _ s _ o); [reflexivity | reflexivity | reflexivity | done |]
    end.
    by eapply (arrivals_same _ st0).
Qed.

(** The first loop of [run], over the sources from position [k]. *)
Lemma arrivals_prime_fold (l : list Source) k (st : State) :
  (forall i src, l !! i = Some src ->
     sources st !! (k + i)%nat = Some src /\ src_id src = (k + i)%nat) ->
  Forall (fun s => s < k)%nat (arrival_ids (pq_elems EQ (eventQueue st))) ->
  arrivals_ok st ->
  arrivals_ok (fold_left
    (fun st src => scheduleEvent (PACKET_ARRIVAL (startTime src) (src_id src)) st)
    l st).
Proof.
  revert k st. induction l as [|src l IH]; intros k st Hl Hlt H; simpl; [exact H|].
  destruct (Hl 0%nat src eq_refl) as [Hsrc Hid]. rewrite Nat.add_0_r in Hsrc, Hid.
  assert (Hfresh : src_id src ∉ arrival_ids (pq_elems EQ (eventQueue st))).
  { intros Hin. rewrite Forall_forall in Hlt. specialize (Hlt _ Hin). lia. }
  assert (Hw : arrives_in_window st (src_id src) (startTime src)).
  { exists src. rewrite Hid. split; [exact Hsrc|].
    split; [apply Qle_refl | by left]. }
  apply (IH (S k)).
  - intros i src' Hi. rewrite scheduleEvent_sources.
    replace (S k + i)%nat with (k + S i)%nat by lia. by apply Hl.
  - destruct (scheduleEvent_cases (PACKET_ARRIVAL (startTime src) (src_id src)) st)
      as [[_ ->]|[_ ->]]; simpl.
    + rewrite (arrival_ids_perm _ _ (pq_push_elems EQ _ _)). simpl.
      constructor; [lia|]. eapply Forall_impl; [exact Hlt|]. simpl. intros; lia.
    + eapply Forall_impl; [exact Hlt|]. simpl. intros; lia.
  - apply arrivals_scheduleEvent. by apply arrivals_arrival.
Qed.

Lemma arrivals_run fuel (st : State) o :
  loaded st -> indexed st -> run fuel st = Ok o -> arrivals_ok (state_of o).
Proof.
  intros Hl Hix. apply (loop_preserves _ arrivals_step).
  apply (arrivals_prime_fold (sources st) 0).
  - intros i src Hi. split; [exact Hi | by apply Hix].
  - rewrite (ld_queue _ Hl), pq_new_elems. constructor.
  - unfold arrivals_ok. rewrite (ld_queue _ Hl), pq_new_elems.
    split; rewrite ?(ld_buffer _ Hl), ?(ld_history _ Hl); simpl;
      try constructor; intros; by match goal with H : _ ∈ [] |- _ =>
        apply elem_of_nil in H end.
Qed.

Lemma read_sources_indexed X T i n lines acc srcs :
  read_sources X T i n lines acc = inr srcs ->
  length acc = i ->
  (forall j src, acc !! j = Some src -> src_id src = j) ->
  forall j src, srcs !! j = Some src -> src_id src = j.
Proof.
  revert i lines acc. induction n as [|n IH]; intros i lines acc; simpl.
  { by intros [= <-]. }
  destruct lines as [|line rest]; [discriminate|].
  destruct (extract_source X line) as [[[[[rate minSz] maxSz] w] tb] te].
  intros H Hlen Hacc. eapply IH; [exact H | rewrite length_app; simpl; lia |].
  intros j src Hj. apply lookup_app_Some in Hj as [Hj|[Hge Hj]]; [by apply Hacc|].
  apply list_lookup_singleton_Some in Hj as [Hj <-]. simpl. lia.
Qed.

Lemma loadConfig_indexed X file (st : State) :
  loadConfig EQ G X file = inr st -> indexed st.
Proof.
  unfold loadConfig. destruct file as [[|line rest]|]; try discriminate.
  destruct (extract_header X line) as [[[n T] C] B].
  destruct (n <? 0)%Z; [discriminate|].
  destruct (read_sources X T 0 (Z.to_nat n) rest []) as [e|srcs] eqn:E;
    [discriminate|].
  intros [= <-]. unfold indexed. simpl.
  eapply read_sources_indexed; [exact E | done |].
  intros j src Hj. by rewrite lookup_nil in Hj.
Qed.

Lemma arrival_ids_below n evs :
  Forall (fun e => ev_sourceID e < n)%nat evs ->
  Forall (fun s => s < n)%nat (arrival_ids evs).
Proof.
  induction 1 as [|e evs He _ IH]; simpl; [constructor|].
  destruct e; [by constructor | exact IH].
Qed.

(** The event queue holds at most one arrival per source and one
    departure. *)
Lemma queue_bound (st : State) :
  fcfs_ok st -> arrivals_ok st ->
  (length (arrival_ids (pq_elems EQ (eventQueue st))) <= length (stats st))%nat /\
  (pq_size EQ (eventQueue st) <= length (stats st) + 1)%nat.
Proof.
  intros Hok Ha.
  assert (H1 : (length (arrival_ids (pq_elems EQ (eventQueue st)))
                <= length (stats st))%nat).
  { apply nodup_below; [apply (ar_nodup _ _ Ha)|].
    apply arrival_ids_below, (fi_events _ _ Hok). }
  split; [exact H1|]. unfold pq_size. rewrite arrival_ids_length.
  pose proof (fi_link _ _ Hok). destruct (linkBusy st); lia.
Qed.

End Arrivals.
End FCFSArrivals.

Module WFQArrivals.
Import WFQ WFQFacts WFQMore.

Section Arrivals.
Context {EQ : MinPQ Event ev_time} {BQ : MinPQ Packet virtualFinishTime}
        {G : RandomEngine}.
Context (laws : RandomEngineLaws G).
Local Abbreviation State := (State EQ BQ G).

Lemma wfq_arrival_ids_perm evs evs' :
  Permutation evs evs' -> Permutation (arrival_ids evs) (arrival_ids evs').
Proof.
  induction 1 as [|e l l' _ IH|e e' l|l l' l'' _ IH1 _ IH2]; simpl.
  - done.
  - destruct e; [by constructor | done].
  - destruct e, e'; try done. apply perm_swap.
  - by etrans.
Qed.

Lemma wfq_arrival_ids_length evs :
  length evs = (count is_departure evs + length (arrival_ids evs))%nat.
Proof. induction evs as [|[] evs IH]; simpl; lia. Qed.

Lemma wfq_arrivals_perm evs evs' (st : State) :
  Permutation evs evs' -> wfq_arrivals evs st -> wfq_arrivals evs' st.
Proof.
  intros P [H1 H2 H3 H4 H5]. split; try done.
  - by rewrite <- (wfq_arrival_ids_perm _ _ P).
  - intros t s Hin. apply H2. by rewrite P.
Qed.

(** Writing [lastFinishTime] moves no window. *)
Lemma wfq_window_sources (st st' : State) v i s t :
  sources st' = alter (set_lastFinishTime v) i (sources st) ->
  arrives_in_window st s t -> arrives_in_window st' s t.
Proof.
  intros Es (src & Hs & Hw). unfold arrives_in_window. rewrite Es.
  rewrite list_lookup_alter. destruct (decide (i = s)) as [->|_]; [|eauto].
  rewrite Hs. exists (set_lastFinishTime v src). split; [reflexivity | exact Hw].
Qed.

(** From [st] to a state whose new buffered, started and dropped packets
    all lie in their windows. *)
Lemma wfq_arrivals_move evs (st st' : State) :
  (forall s t, arrives_in_window st s t -> arrives_in_window st' s t) ->
  (forall p, p ∈ pq_elems BQ (packetBuffer st') ->
     p ∈ pq_elems BQ (packetBuffer st) \/
     arrives_in_window st' (pkt_sourceID p) (pkt_arrivalTime p)) ->
  (forall o, o ∈ history st' ->
     o ∈ history st \/
     match o with
     | Started p _ _ | Dropped p =>
         arrives_in_window st' (pkt_sourceID p) (pkt_arrivalTime p)
     | _ => True
     end) ->
  wfq_arrivals evs st -> wfq_arrivals evs st'.
Proof.
  intros Hw Hb Hh [H1 H2 H3 H4 H5]. split; [exact H1|..].
  - intros t s Hin. by apply Hw, H2.
  - intros p Hp. destruct (Hb p Hp) as [Hin|Hnew]; [by apply Hw, H3 | exact Hnew].
  - intros p t0 v Hp. destruct (Hh _ Hp) as [Hin|Hnew];
      [by apply Hw, (H4 p t0 v) | exact Hnew].
  - intros p Hp. destruct (Hh _ Hp) as [Hin|Hnew]; [by apply Hw, H5 | exact Hnew].
Qed.

Lemma wfq_arrivals_same evs (st st' : State) :
  sources st' = sources st -> packetBuffer st' = packetBuffer st ->
  history st' = history st -> wfq_arrivals evs st -> wfq_arrivals evs st'.
Proof.
  intros Es Eb Eh. apply wfq_arrivals_move.
  - unfold arrives_in_window. by rewrite Es.
  - rewrite Eb. auto.
  - rewrite Eh. auto.
Qed.

Lemma wfq_arrivals_quiet evs (st st' : State) o :
  sources st' = sources st -> packetBuffer st' = packetBuffer st ->
  history st' = o :: history st ->
  match o with Started _ _ _ | Dropped _ => False | _ => True end ->
  wfq_arrivals evs st -> wfq_arrivals evs st'.
Proof.
  intros Es Eb Eh Ho. apply wfq_arrivals_move.
  - unfold arrives_in_window. by rewrite Es.
  - rewrite Eb. auto.
  - rewrite Eh. intros o' Hin. apply elem_of_cons in Hin as [->|Hin]; [|by left].
    right. by destruct o.
Qed.

Lemma wfq_arrivals_tail e evs (st : State) :
  wfq_arrivals (e :: evs) st -> wfq_arrivals evs st.
Proof.
  intros [H1 H2 H3 H4 H5]. split; try done.
  - destruct e; simpl in H1; [by apply NoDup_cons_1_2 in H1 | done].
  - intros t s Hin. apply H2. by apply list_elem_of_further.
Qed.

Lemma wfq_arrivals_departure t p evs (st : State) :
  wfq_arrivals evs st -> wfq_arrivals (PACKET_DEPARTURE t p :: evs) st.
Proof.
  intros [H1 H2 H3 H4 H5]. split; try done.
  intros t' s Hin. apply elem_of_cons in Hin as [Heq|Hin]; [discriminate|].
  by apply H2.
Qed.

Lemma wfq_arrivals_arrival t s evs (st : State) :
  s ∉ arrival_ids evs -> arrives_in_window st s t ->
  wfq_arrivals evs st -> wfq_arrivals (PACKET_ARRIVAL t s :: evs) st.
Proof.
  intros Hs Hw [H1 H2 H3 H4 H5]. split; try done.
  - simpl. by apply NoDup_cons_2.
  - intros t' s' Hin. apply elem_of_cons in Hin as [[= -> ->]|Hin]; [done|].
    by apply H2.
Qed.

Lemma wfq_arrivals_scheduleEvent e (st : State) :
  wfq_arrivals (e :: pq_elems EQ (eventQueue st)) st ->
  wfq_arrivals_ok (scheduleEvent e st).
Proof.
  intros H. unfold wfq_arrivals_ok.
  destruct (wfq_scheduleEvent_cases e st) as [[_ ->]|[_ ->]]; simpl.
  - eapply wfq_arrivals_perm; [symmetry; apply pq_push_elems|].
    by eapply (wfq_arrivals_same _ st).
  - apply wfq_arrivals_tail in H.
    by eapply (wfq_arrivals_quiet _ st _ (Discarded e)).
Qed.

Lemma wfq_arrivals_startNextTransmission (st st' : State) :
  startNextTransmission st = Ok st' -> wfq_arrivals_ok st -> wfq_arrivals_ok st'.
Proof.
  intros Hs H.
  apply startNextTransmission_Ok in Hs as [[_ ->]|(_ & p & Hp & ->)]; [exact H|].
  pose proof (pq_top_pop BQ _ _ Hp) as P.
  apply wfq_arrivals_scheduleEvent. simpl. apply wfq_arrivals_departure.
  generalize H. apply wfq_arrivals_move; simpl.
  - done.
  - intros q Hq. left. rewrite P. by apply list_elem_of_further.
  - intros o Hin. apply elem_of_cons in Hin as [->|Hin]; [|by left].
    right. apply (wa_buffer _ _ H). rewrite P. apply list_elem_of_here.
Qed.

Lemma wfq_scheduleNextArrival_queue srcID src (st : State) :
  let st' := scheduleNextArrival srcID src st in
  let t := currentTime st + fst (exponential_draw G (packetRate src) (generator st)) in
  (t < endTime src /\ t <= simulationTime st /\
   eventQueue st' = pq_push EQ (PACKET_ARRIVAL t srcID) (eventQueue st) /\
   history st' = history st) \/
  (eventQueue st' = eventQueue st /\
   (history st' = history st \/
    history st' = Discarded (PACKET_ARRIVAL t srcID) :: history st)).
Proof.
  unfold scheduleNextArrival.
  destruct (exponential_draw G (packetRate src) (generator st)) as [dt g]. simpl.
  destruct (Qltb _ _) eqn:E; [|right; auto].
  apply Qltb_lt in E.
  match goal with |- context [scheduleEvent ?e ?s] =>
    destruct (wfq_scheduleEvent_cases e s) as [[Hle ->]|[_ ->]]
  end; simpl in *; [left; auto | right; auto].
Qed.

Lemma wfq_arrivals_step (st : State) o :
  wfq_arrivals_ok st -> step st = Ok o -> wfq_arrivals_ok (state_of o).
Proof.
  intros H Hs. apply wfq_step_Ok in Hs as [[_ ->]|(e & He & Hs)]; [exact H|].
  pose proof (wfq_arrivals_perm _ _ _ (pq_top_pop EQ _ _ He) H) as H0.
  simpl in Hs.
  set (st0 := set_currentTime (ev_time e)
                (set_eventQueue (pq_pop EQ (eventQueue st)) st)) in *.
  assert (H1 : wfq_arrivals (e :: pq_elems EQ (eventQueue st0)) st0)
    by (by eapply (wfq_arrivals_same _ st)).
  destruct Hs as [[_ ->]|(_ & st' & -> & Hs)]; [by apply wfq_arrivals_tail in H1|].
  simpl. destruct e as [t srcID|t p].
  - apply wfq_handleArrivalEvent_Ok in Hs as (src & Hsrc & _ & Hs). simpl in Hs.
    destruct (wa_events _ _ H1 t srcID (list_elem_of_here _ _))
      as (src' & Hsrc' & Hw).
    assert (src' = src) by congruence. subst src'.
    pose proof (wa_nodup _ _ H1) as Hnd. simpl in Hnd.
    apply NoDup_cons in Hnd as [Hfresh _].
    apply wfq_arrivals_tail in H1.
    destruct (wfq_scheduleNextArrival_frame srcID src st0)
      as (Es & _ & Eb & _ & _ & _ & Ec & _).
    assert (H2 : wfq_arrivals_ok (scheduleNextArrival srcID src st0)).
    { unfold wfq_arrivals_ok.
      destruct (wfq_scheduleNextArrival_queue srcID src st0)
        as [(Hend & _ & -> & Eh)|[-> Eh]].
      - eapply wfq_arrivals_perm; [symmetry; apply pq_push_elems|].
        eapply (wfq_arrivals_same _ st0); [exact Es | exact Eb | exact Eh |].
        apply wfq_arrivals_arrival; [exact Hfresh | | exact H1].
        exists src. split; [exact Hsrc|]. destruct Hw as [Hw _].
        pose proof (exponential_nonneg G laws (packetRate src) (generator st0)).
        simpl in *. split; [lra | right; exact Hend].
      - destruct Eh as [Eh|Eh].
        + by eapply (wfq_arrivals_same _ st0).
        + by eapply (wfq_arrivals_quiet _ st0 _ _ Es Eb Eh). }
    set (st1 := scheduleNextArrival srcID src st0) in *.
    assert (Hp : arrives_in_window st1 srcID (currentTime st1)).
    { exists src. rewrite Es, Ec. split; [exact Hsrc | exact Hw]. }
    destruct Hs as (st3 & Hs & [[_ ->]|(_ & d & Hd & ->)]);
      (eapply wfq_arrivals_startNextTransmission; [exact Hs|]);
      generalize H2; apply wfq_arrivals_move; simpl.
    + intros s' t'. eapply wfq_window_sources; reflexivity.
    + intros q Hq. rewrite pq_push_elems in Hq.
      apply elem_of_cons in Hq as [->|Hq]; [|by left].
      right. simpl. revert Hp. eapply wfq_window_sources; reflexivity.
    + auto.
    + intros s' t'. eapply wfq_window_sources; reflexivity.
    + intros q Hq. rewrite pq_push_elems in Hq.
      apply elem_of_cons in Hq as [->|Hq].
      * right. simpl. revert Hp. eapply wfq_window_sources; reflexivity.
      * left. rewrite (pq_top_pop BQ _ _ Hd). by apply list_elem_of_further.
    + intros o Hin. apply elem_of_cons in Hin as [->|Hin]; [|by left].
      right.
      assert (Hdw : arrives_in_window st1 (pkt_sourceID d) (pkt_arrivalTime d)).
      { apply (wa_buffer _ _ H2). rewrite (pq_top_pop BQ _ _ Hd).
        apply list_elem_of_here. }
      revert Hdw. eapply wfq_window_sources; reflexivity.
  - apply wfq_handleDepartureEvent_Ok in Hs as [_ Hs].
    eapply wfq_arrivals_startNextTransmission; [exact Hs|].
    apply wfq_arrivals_tail in H1.
    match goal with |- wfq_arrivals_ok (observe ?o ?s) =>
      apply (wfq_arrivals_quiet _ s _ o); [reflexivity | reflexivity | reflexivity | done |]
    end.
    by eapply (wfq_arrivals_same _ st0).
Qed.

Lemma wfq_arrivals_prime_fold (l : list Source) k (st : State) :
  (forall i src, l !! i = Some src ->
     sources st !! (k + i)%nat = Some src /\ src_id src = (k + i)%nat) ->
  Forall (fun s => s < k)%nat (arrival_ids (pq_elems EQ (eventQueue st))) ->
  wfq_arrivals_ok st ->
  wfq_arrivals_ok (fold_left
    (fun st src => scheduleEvent (PACKET_ARRIVAL (startTime src) (src_id src)) st)
    l st).
Proof.
  revert k st. induction l as [|src l IH]; intros k st Hl Hlt H; simpl; [exact H|].
  destruct (Hl 0%nat src eq_refl) as [Hsrc Hid]. rewrite Nat.add_0_r in Hsrc, Hid.
  assert (Hfresh : src_id src ∉ arrival_ids (pq_elems EQ (eventQueue st))).
  { intros Hin. rewrite Forall_forall in Hlt. specialize (Hlt _ Hin). lia. }
  assert (Hw : arrives_in_window st (src_id src) (startTime src)).
  { exists src. rewrite Hid. split; [exact Hsrc|].
    split; [apply Qle_refl | by left]. }
  apply (IH (S k)).
  - intros i src' Hi. rewrite wfq_scheduleEvent_sources.
    replace (S k + i)%nat with (k + S i)%nat by lia. by apply Hl.
  - destruct (wfq_scheduleEvent_cases (PACKET_ARRIVAL (startTime src) (src_id src)) st)
      as [[_ ->]|[_ ->]]; simpl.
    + rewrite (wfq_arrival_ids_perm _ _ (pq_push_elems EQ _ _)). simpl.
      constructor; [lia|]. eapply Forall_impl; [exact Hlt|]. simpl. intros; lia.
    + eapply Forall_impl; [exact Hlt|]. simpl. intros; lia.
  - apply wfq_arrivals_scheduleEvent. by apply wfq_arrivals_arrival.
Qed.

Lemma wfq_arrivals_run fuel (st : State) o :
  wfq_loaded st -> indexed st -> run fuel st = Ok o ->
  wfq_arrivals_ok (state_of o).
Proof.
  intros Hl Hix. apply (wfq_loop_preserves _ wfq_arrivals_step).
  apply (wfq_arrivals_prime_fold (sources st) 0).
  - intros i src Hi. split; [exact Hi | by apply Hix].
  - rewrite (wl_queue _ Hl), pq_new_elems. constructor.
  - unfold wfq_arrivals_ok. rewrite (wl_queue _ Hl), pq_new_elems.
    split; rewrite ?(wl_buffer _ Hl), ?pq_new_elems, ?(wl_history _ Hl); simpl;
      try constructor; intros; by match goal with H : _ ∈ [] |- _ =>
        apply elem_of_nil in H end.
Qed.

Lemma wfq_read_sources_indexed X T i n lines acc srcs :
  read_sources X T i n lines acc = inr srcs ->
  length acc = i ->
  (forall j src, acc !! j = Some src -> src_id src = j) ->
  forall j src, srcs !! j = Some src -> src_id src = j.
Proof.
  revert i lines acc. induction n as [|n IH]; intros i lines acc; simpl.
  { by intros [= <-]. }
  destruct lines as [|line rest]; [discriminate|].
  destruct (extract_source X line) as [[[[[rate minSz] maxSz] w] tb] te].
  intros H Hlen Hacc. eapply IH; [exact H | rewrite length_app; simpl; lia |].
  intros j src Hj. apply lookup_app_Some in Hj as [Hj|[Hge Hj]]; [by apply Hacc|].
  apply list_lookup_singleton_Some in Hj as [Hj <-]. simpl. lia.
Qed.

Lemma wfq_loadConfig_indexed X file (st : State) :
  loadConfig EQ BQ G X file = inr st -> indexed st.
Proof.
  unfold loadConfig. destruct file as [[|line rest]|]; try discriminate.
  destruct (extract_header X line) as [[[n T] C] B].
  destruct (n <? 0)%Z; [discriminate|].
  destruct (read_sources X T 0 (Z.to_nat n) rest []) as [e|srcs] eqn:E;
    [discriminate|].
  intros [= <-]. unfold indexed. simpl.
  eapply wfq_read_sources_indexed; [exact E | done |].
  intros j src Hj. by rewrite lookup_nil in Hj.
Qed.

Lemma wfq_arrival_ids_below n evs :
  Forall (fun e => ev_sourceID e < n)%nat evs ->
  Forall (fun s => s < n)%nat (arrival_ids evs).
Proof.
  induction 1 as [|e evs He _ IH]; simpl; [constructor|].
  destruct e; [by constructor | exact IH].
Qed.

Lemma wfq_queue_bound (st : State) :
  wfq_ok st -> wfq_arrivals_ok st ->
  (length (arrival_ids (pq_elems EQ (eventQueue st))) <= length (stats st))%nat /\
  (pq_size EQ (eventQueue st) <= length (stats st) + 1)%nat.
Proof.
  intros Hok Ha.
  assert (H1 : (length (arrival_ids (pq_elems EQ (eventQueue st)))
                <= length (stats st))%nat).
  { apply FCFSArrivals.nodup_below; [apply (wa_nodup _ _ Ha)|].
    apply wfq_arrival_ids_below, (wi_events _ _ Hok). }
  split; [exact H1|]. unfold pq_size. rewrite wfq_arrival_ids_length.
  pose proof (wi_link _ _ Hok). destruct (linkBusy st); lia.
Qed.

(** The windows are those of the configuration. *)
Lemma wfq_window_config (st st0 : State) s t :
  map (set_lastFinishTime 0) (sources st) = map (set_lastFinishTime 0) (sources st0) ->
  arrives_in_window st s t -> arrives_in_window st0 s t.
Proof.
  intros Hmap (src & Hs & Hw).
  assert (H : map (set_lastFinishTime 0) (sources st0) !! s
              = Some (set_lastFinishTime 0 src))
    by (by rewrite <- Hmap, list_lookup_fmap, Hs).
  rewrite list_lookup_fmap in H.
  destruct (sources st0 !! s) as [src0|] eqn:E; [|discriminate].
  injection H as _ _ _ _ _ Hstart Hend. exists src0. split; [exact E|].
  unfold in_window in *. rewrite Hstart, Hend. exact Hw.
Qed.

End Arrivals.
End WFQArrivals.
(** * One transmission after the other *)

Lemma count_zero_elem {A} (f : A -> bool) (l : list A) x :
  count f l = 0%nat -> x ∈ l -> f x = false.
Proof.
  intros H Hin. apply count_zero_Forall in H. rewrite Forall_forall in H.
  by apply H.
Qed.

Module FCFSSequential.
Import FCFS FCFSFacts FCFSMore.

Lemma sequential_obs C o h :
  match o with Started _ _ => False | _ => True end ->
  sequential C h -> sequential C (o :: h).
Proof. intros Ho H. by destruct o. Qed.

Lemma latest_start_obs o h :
  match o with Started _ _ => False | _ => True end ->
  latest_start (o :: h) = latest_start h.
Proof. intros Ho. by destruct o. Qed.

Lemma latest_start_elem h p t0 :
  latest_start h = Some (p, t0) -> Started p t0 ∈ h.
Proof.
  induction h as [|o h IH]; simpl; [discriminate|].
  destruct o; try (intros H; apply list_elem_of_further; by apply IH).
  intros [= -> ->]. apply list_elem_of_here.
Qed.

(** Every start recorded is the latest one or ended before the latest one
    began. *)
Lemma sequential_latest C h p t0 :
  sequential C h -> latest_start h = Some (p, t0) ->
  forall q t1, Started q t1 ∈ h ->
    (q = p /\ t1 = t0) \/ t1 + inject_Z (pkt_size q) / C <= t0.
Proof.
  induction h as [|o h IH]; simpl; [discriminate|].
  intros Hs Hl q t1 Hin. destruct o as [p' t'|p' t'|p'|e];
    try (apply elem_of_cons in Hin as [Heq|Hin]; [discriminate | by apply IH]).
  injection Hl as -> ->. destruct Hs as [Hs _].
  apply elem_of_cons in Hin as [[= -> ->]|Hin]; [by left | right; by eapply Hs].
Qed.

(** The statement of [sequential] for two starts picked out of a history. *)
Lemma sequential_split C h2 q t1 h1 p t0 h0 :
  sequential C (h2 ++ Started q t1 :: h1 ++ Started p t0 :: h0) ->
  t0 + inject_Z (pkt_size p) / C <= t1.
Proof.
  induction h2 as [|o h2 IH]; simpl.
  - intros [H _]. apply (H p t0). apply elem_of_app. right. apply list_elem_of_here.
  - destruct o; [intros [_ H]|intros H..]; by apply IH.
Qed.

Section Sequence.
Context {EQ : MinPQ Event ev_time} {G : RandomEngine}.
Local Abbreviation State := (State EQ G).

Lemma sequence_same (st st' : State) :
  (forall e, e ∈ pq_elems EQ (eventQueue st') ->
     e ∈ pq_elems EQ (eventQueue st) \/ is_departure e = false) ->
  linkBusy st' = linkBusy st -> linkCapacity st' = linkCapacity st ->
  currentTime st' = currentTime st -> history st' = history st ->
  in_sequence st -> in_sequence st'.
Proof.
  intros Ee Eb EC Ec Eh [H1 H2 H3 H4]. split; rewrite ?Eb, ?EC, ?Ec, ?Eh; try done.
  intros t p Hin. destruct (Ee _ Hin) as [Hin'|?]; [by apply H1 | discriminate].
Qed.

Lemma sequence_obs (st st' : State) o :
  match o with Started _ _ => False | _ => True end ->
  (forall e, e ∈ pq_elems EQ (eventQueue st') ->
     e ∈ pq_elems EQ (eventQueue st) \/ is_departure e = false) ->
  linkBusy st' = linkBusy st -> linkCapacity st' = linkCapacity st ->
  currentTime st' = currentTime st -> history st' = o :: history st ->
  in_sequence st -> in_sequence st'.
Proof.
  intros Ho Ee Eb EC Ec Eh [H1 H2 H3 H4].
  split; rewrite ?Eb, ?EC, ?Ec, ?Eh, ?(latest_start_obs _ _ Ho).
  - intros t p Hin. destruct (Ee _ Hin) as [Hin'|?]; [by apply H1 | discriminate].
  - intros Hb p t0 Hin. apply elem_of_cons in Hin as [Heq|Hin]; [by subst o|].
    by apply H2.
  - intros p t0 Hin. apply elem_of_cons in Hin as [Heq|Hin]; [by subst o|].
    by apply (H3 p).
  - by apply sequential_obs.
Qed.

Lemma sequence_scheduleEvent_arrival t s (st : State) :
  in_sequence st -> in_sequence (scheduleEvent (PACKET_ARRIVAL t s) st).
Proof.
  intros H.
  destruct (scheduleEvent_cases (PACKET_ARRIVAL t s) st) as [[_ ->]|[_ ->]].
  - apply (sequence_same st); try done. simpl. intros e He.
    rewrite pq_push_elems in He. apply elem_of_cons in He as [->|He]; auto.
  - apply (sequence_obs st _ (Discarded (PACKET_ARRIVAL t s))); try done. auto.
Qed.

Lemma sequence_startNextTransmission (st : State) :
  in_sequence st -> in_sequence (startNextTransmission st).
Proof.
  intros H.
  destruct (startNextTransmission_cases st) as [[_ ->]|(Hb & p & rest & _ & ->)];
    [exact H|].
  destruct H as [H1 H2 H3 H4].
  assert (Hnone : forall e, e ∈ pq_elems EQ (eventQueue st) -> is_departure e = false).
  { intros [t s|t q] He; [reflexivity|].
    destruct (H1 t q He) as [Hbusy _]. congruence. }
  set (now := currentTime st) in *.
  set (st2 := observe (Started p now) (set_packetBuffer rest (set_linkBusy true st))).
  assert (Hord : sequential (linkCapacity st) (Started p now :: history st)).
  { simpl. split; [|exact H4]. intros q t0 Hin. by apply H2. }
  assert (Hclk : forall q t0, Started q t0 ∈ Started p now :: history st ->
                   t0 <= currentTime st).
  { intros q t0 Hin. apply elem_of_cons in Hin as [[= -> ->]|Hin];
      [apply Qle_refl | by eapply H3]. }
  match goal with |- context [scheduleEvent ?e st2] =>
    destruct (scheduleEvent_cases e st2) as [[_ ->]|[_ ->]]
  end; split; simpl; try done.
  - intros t q Hin. rewrite pq_push_elems in Hin.
    apply elem_of_cons in Hin as [[= -> ->]|Hin].
    + split; [reflexivity|]. by exists now.
    + by specialize (Hnone _ Hin).
  - intros t q Hin. by specialize (Hnone _ Hin).
  - intros q t0 Hin. apply elem_of_cons in Hin as [Heq|Hin]; [discriminate|].
    by apply (Hclk q).
Qed.

Context (laws : RandomEngineLaws G).

Lemma sequence_step (st : State) o :
  fcfs_ok st -> fcfs_timed_ok st -> in_sequence st -> step st = Ok o ->
  in_sequence (state_of o).
Proof.
  intros Hi Ht H Hs. apply step_Ok in Hs as [[_ ->]|(e & He & Hs)]; [exact H|].
  pose proof (pq_top_pop EQ _ _ He) as Hperm.
  assert (Hle : currentTime st <= ev_time e).
  { pose proof (ft_future _ _ Ht) as Hf.
    rewrite Hperm in Hf. by apply Forall_cons in Hf as [Hf _]. }
  simpl in Hs.
  set (st0 := set_currentTime (ev_time e)
                (set_eventQueue (pq_pop EQ (eventQueue st)) st)) in *.
  assert (Hsub : forall e', e' ∈ pq_elems EQ (eventQueue st0) ->
                   e' ∈ pq_elems EQ (eventQueue st)).
  { intros e' Hin. rewrite Hperm. by apply list_elem_of_further. }
  assert (H0 : in_sequence st0).
  { destruct H as [H1 H2 H3 H4]. split; simpl; try done.
    - intros t p Hin. apply H1. by apply Hsub.
    - intros Hb p t0 Hin. specialize (H2 Hb p t0 Hin). lra.
    - intros p t0 Hin. specialize (H3 p t0 Hin). lra. }
  destruct Hs as [[_ ->]|(_ & st' & -> & Hs)]; [exact H0|].
  simpl. destruct e as [t srcID|t p].
  - apply handleArrivalEvent_Ok in Hs as (src & _ & _ & Hs). simpl in Hs.
    assert (H1 : in_sequence (scheduleNextArrival srcID src st0)).
    { unfold scheduleNextArrival.
      destruct (exponential_draw G (packetRate src) (generator st0)) as [dt g].
      simpl. destruct (Qltb _ _).
      - apply sequence_scheduleEvent_arrival. apply (sequence_same st0); auto.
      - apply (sequence_same st0); auto. }
    set (st1 := scheduleNextArrival srcID src st0) in *.
    destruct Hs as [[_ ->]|[_ ->]]; apply sequence_startNextTransmission.
    + apply (sequence_same st1); auto.
    + match goal with |- in_sequence (observe ?o ?s) =>
        apply (sequence_obs st1 _ o); auto
      end.
  - apply handleDepartureEvent_Ok in Hs as [_ ->].
    apply sequence_startNextTransmission.
    destruct (sq_flight _ H t p) as (Hbusy & t0 & Hl & Ht0).
    { rewrite Hperm. apply list_elem_of_here. }
    assert (Hnone : forall e', e' ∈ pq_elems EQ (eventQueue st0) ->
                      is_departure e' = false).
    { pose proof (fi_link _ _ Hi) as Hlink.
      rewrite Hbusy, (count_perm _ _ _ Hperm) in Hlink. simpl in Hlink.
      intros e' Hin.
      apply (count_zero_elem is_departure (pq_elems EQ (eventQueue st0))); [|exact Hin].
      simpl. lia. }
    destruct H0 as [_ _ H3 H4]. destruct H as [_ _ H3' _].
    split; simpl.
    + intros t' q Hin. by specialize (Hnone _ Hin).
    + intros _ q t1 Hin. apply elem_of_cons in Hin as [Heq|Hin]; [discriminate|].
      destruct (sequential_latest _ _ _ _ H4 Hl q t1 Hin) as [[-> ->]|Hq].
      * rewrite Ht0. apply Qle_refl.
      * assert (t0 <= currentTime st)
          by (eapply H3'; eapply latest_start_elem; exact Hl).
        simpl in Hle, Hq. lra.
    + intros q t1 Hin. apply elem_of_cons in Hin as [Heq|Hin]; [discriminate|].
      by eapply H3.
    + exact H4.
Qed.

Lemma sequence_run fuel (st : State) o :
  loaded st -> valid_config st -> run fuel st = Ok o -> in_sequence (state_of o).
Proof.
  intros Hl Hv Hrun.
  assert (H : fcfs_ok (state_of o) /\ fcfs_timed_ok (state_of o)
              /\ in_sequence (state_of o)).
  { revert Hrun. unfold run.
    apply (loop_preserves (fun st => fcfs_ok st /\ fcfs_timed_ok st /\ in_sequence st)).
    - intros st0 o0 (Hi & Ht & Hw) Hs. split; [by eapply step_keeps|].
      split; [by eapply FCFSTimed.timed_step | by eapply sequence_step].
    - split; [by apply prime_ok|]. split; [by apply FCFSTimed.timed_prime|].
      unfold prime. generalize (sources st). intros l.
      assert (H : in_sequence st).
      { split; rewrite ?(ld_queue _ Hl), ?pq_new_elems, ?(ld_history _ Hl);
          simpl; try done; intros; by match goal with
          | H : _ ∈ [] |- _ => apply elem_of_nil in H end. }
      revert H. generalize st. clear. intros st. revert st.
      induction l as [|src l IH]; intros st H; simpl; [exact H|].
      apply IH. by apply sequence_scheduleEvent_arrival. }
  tauto.
Qed.

End Sequence.
End FCFSSequential.

Module WFQSequential.
Import WFQ WFQFacts WFQMore.

Lemma wfq_sequential_obs C o h :
  match o with Started _ _ _ => False | _ => True end ->
  sequential C h -> sequential C (o :: h).
Proof. intros Ho H. by destruct o. Qed.

Lemma wfq_latest_start_obs o h :
  match o with Started _ _ _ => False | _ => True end ->
  latest_start (o :: h) = latest_start h.
Proof. intros Ho. by destruct o. Qed.

Lemma wfq_latest_start_elem h p t0 :
  latest_start h = Some (p, t0) -> exists v, Started p t0 v ∈ h.
Proof.
  induction h as [|o h IH]; simpl; [discriminate|].
  destruct o as [p' t' v'|p' t'|p'|e];
    try (intros H; destruct (IH H) as [v Hv]; exists v;
         by apply list_elem_of_further).
  intros [= -> ->]. exists v'. apply list_elem_of_here.
Qed.

(** Every start recorded is the latest one or ended before the latest one
    began. *)
Lemma wfq_sequential_latest C h p t0 :
  sequential C h -> latest_start h = Some (p, t0) ->
  forall q t1 v, Started q t1 v ∈ h ->
    (q = p /\ t1 = t0) \/ t1 + inject_Z (pkt_size q) / C <= t0.
Proof.
  induction h as [|o h IH]; simpl; [discriminate|].
  intros Hs Hl q t1 v Hin. destruct o as [p' t' v'|p' t'|p'|e];
    try (apply elem_of_cons in Hin as [Heq|Hin]; [discriminate | by eapply IH]).
  injection Hl as -> ->. destruct Hs as [Hs _].
  apply elem_of_cons in Hin as [[= -> -> _]|Hin]; [by left | right; by eapply Hs].
Qed.

(** The statement of [sequential] for two starts picked out of a history. *)
Lemma wfq_sequential_split C h2 q t1 v1 h1 p t0 v0 h0 :
  sequential C (h2 ++ Started q t1 v1 :: h1 ++ Started p t0 v0 :: h0) ->
  t0 + inject_Z (pkt_size p) / C <= t1.
Proof.
  induction h2 as [|o h2 IH]; simpl.
  - intros [H _]. apply (H p t0 v0). apply elem_of_app. right.
    apply list_elem_of_here.
  - destruct o; [intros [_ H]|intros H..]; by apply IH.
Qed.

Section Sequence.
Context {EQ : MinPQ Event ev_time} {BQ : MinPQ Packet virtualFinishTime}
        {G : RandomEngine}.
Local Abbreviation State := (State EQ BQ G).

Lemma wfq_sequence_same (st st' : State) :
  (forall e, e ∈ pq_elems EQ (eventQueue st') ->
     e ∈ pq_elems EQ (eventQueue st) \/ is_departure e = false) ->
  linkBusy st' = linkBusy st -> linkCapacity st' = linkCapacity st ->
  currentTime st' = currentTime st -> history st' = history st ->
  wfq_in_sequence st -> wfq_in_sequence st'.
Proof.
  intros Ee Eb EC Ec Eh [H1 H2 H3 H4]. split; rewrite ?Eb, ?EC, ?Ec, ?Eh; try done.
  intros t p Hin. destruct (Ee _ Hin) as [Hin'|?]; [by apply H1 | discriminate].
Qed.

Lemma wfq_sequence_obs (st st' : State) o :
  match o with Started _ _ _ => False | _ => True end ->
  (forall e, e ∈ pq_elems EQ (eventQueue st') ->
     e ∈ pq_elems EQ (eventQueue st) \/ is_departure e = false) ->
  linkBusy st' = linkBusy st -> linkCapacity st' = linkCapacity st ->
  currentTime st' = currentTime st -> history st' = o :: history st ->
  wfq_in_sequence st -> wfq_in_sequence st'.
Proof.
  intros Ho Ee Eb EC Ec Eh [H1 H2 H3 H4].
  split; rewrite ?Eb, ?EC, ?Ec, ?Eh, ?(wfq_latest_start_obs _ _ Ho).
  - intros t p Hin. destruct (Ee _ Hin) as [Hin'|?]; [by apply H1 | discriminate].
  - intros Hb p t0 v Hin. apply elem_of_cons in Hin as [Heq|Hin]; [by subst o|].
    by apply (H2 Hb p t0 v).
  - intros p t0 v Hin. apply elem_of_cons in Hin as [Heq|Hin]; [by subst o|].
    by apply (H3 p t0 v).
  - by apply wfq_sequential_obs.
Qed.

Lemma wfq_sequence_scheduleEvent_arrival t s (st : State) :
  wfq_in_sequence st -> wfq_in_sequence (scheduleEvent (PACKET_ARRIVAL t s) st).
Proof.
  intros H.
  destruct (wfq_scheduleEvent_cases (PACKET_ARRIVAL t s) st) as [[_ ->]|[_ ->]].
  - apply (wfq_sequence_same st); try done. simpl. intros e He.
    rewrite pq_push_elems in He. apply elem_of_cons in He as [->|He]; auto.
  - apply (wfq_sequence_obs st _ (Discarded (PACKET_ARRIVAL t s))); try done. auto.
Qed.

Lemma wfq_sequence_startNextTransmission (st st' : State) :
  startNextTransmission st = Ok st' -> wfq_in_sequence st -> wfq_in_sequence st'.
Proof.
  intros Hs H.
  apply startNextTransmission_Ok in Hs as [[_ ->]|(Hb & p & _ & ->)]; [exact H|].
  destruct H as [H1 H2 H3 H4].
  assert (Hnone : forall e, e ∈ pq_elems EQ (eventQueue st) -> is_departure e = false).
  { intros [t s|t q] He; [reflexivity|].
    destruct (H1 t q He) as [Hbusy _]. congruence. }
  set (now := currentTime st) in *.
  set (st2 := observe (Started p now (virtualStart p))
                (set_systemVirtualTime (virtualStart p)
                   (set_packetBuffer (pq_pop BQ (packetBuffer st))
                      (set_linkBusy true st)))).
  assert (Hord : sequential (linkCapacity st)
                   (Started p now (virtualStart p) :: history st)).
  { simpl. split; [|exact H4]. intros q t0 v Hin. by apply (H2 Hb q t0 v). }
  assert (Hclk : forall q t0 v,
            Started q t0 v ∈ Started p now (virtualStart p) :: history st ->
            t0 <= currentTime st).
  { intros q t0 v Hin. apply elem_of_cons in Hin as [[= -> -> _]|Hin];
      [apply Qle_refl | by eapply H3]. }
  match goal with |- context [scheduleEvent ?e st2] =>
    destruct (wfq_scheduleEvent_cases e st2) as [[_ ->]|[_ ->]]
  end; split; simpl; try done.
  - intros t q Hin. rewrite pq_push_elems in Hin.
    apply elem_of_cons in Hin as [[= -> ->]|Hin].
    + split; [reflexivity|]. by exists now.
    + by specialize (Hnone _ Hin).
  - intros t q Hin. by specialize (Hnone _ Hin).
  - intros q t0 v Hin. apply elem_of_cons in Hin as [Heq|Hin]; [discriminate|].
    by apply (Hclk q t0 v).
Qed.

Context (laws : RandomEngineLaws G).

Lemma wfq_sequence_step (st : State) o :
  wfq_ok st -> wfq_timed_ok st -> wfq_in_sequence st -> step st = Ok o ->
  wfq_in_sequence (state_of o).
Proof.
  intros Hi Ht H Hs. apply wfq_step_Ok in Hs as [[_ ->]|(e & He & Hs)]; [exact H|].
  pose proof (pq_top_pop EQ _ _ He) as Hperm.
  assert (Hle : currentTime st <= ev_time e).
  { pose proof (wt_future _ _ Ht) as Hf.
    rewrite Hperm in Hf. by apply Forall_cons in Hf as [Hf _]. }
  simpl in Hs.
  set (st0 := set_currentTime (ev_time e)
                (set_eventQueue (pq_pop EQ (eventQueue st)) st)) in *.
  assert (Hsub : forall e', e' ∈ pq_elems EQ (eventQueue st0) ->
                   e' ∈ pq_elems EQ (eventQueue st)).
  { intros e' Hin. rewrite Hperm. by apply list_elem_of_further. }
  assert (H0 : wfq_in_sequence st0).
  { destruct H as [H1 H2 H3 H4]. split; simpl; try done.
    - intros t p Hin. apply H1. by apply Hsub.
    - intros Hb p t0 v Hin. specialize (H2 Hb p t0 v Hin). lra.
    - intros p t0 v Hin. specialize (H3 p t0 v Hin). lra. }
  destruct Hs as [[_ ->]|(_ & st' & -> & Hs)]; [exact H0|].
  simpl. destruct e as [t srcID|t p].
  - apply wfq_handleArrivalEvent_Ok in Hs as (src & _ & _ & Hs). simpl in Hs.
    assert (H1 : wfq_in_sequence (scheduleNextArrival srcID src st0)).
    { unfold scheduleNextArrival.
      destruct (exponential_draw G (packetRate src) (generator st0)) as [dt g].
      simpl. destruct (Qltb _ _).
      - apply wfq_sequence_scheduleEvent_arrival.
        apply (wfq_sequence_same st0); auto.
      - apply (wfq_sequence_same st0); auto. }
    set (st1 := scheduleNextArrival srcID src st0) in *.
    destruct Hs as (st3 & Hs & [[_ ->]|(_ & d & _ & ->)]);
      (eapply wfq_sequence_startNextTransmission; [exact Hs|]).
    + apply (wfq_sequence_same st1); auto.
    + apply (wfq_sequence_obs st1 _ (Dropped d)); auto.
  - apply wfq_handleDepartureEvent_Ok in Hs as [_ Hs].
    eapply wfq_sequence_startNextTransmission; [exact Hs|].
    destruct (wsq_flight _ H t p) as (Hbusy & t0 & Hl & Ht0).
    { rewrite Hperm. apply list_elem_of_here. }
    assert (Hnone : forall e', e' ∈ pq_elems EQ (eventQueue st0) ->
                      is_departure e' = false).
    { pose proof (wi_link _ _ Hi) as Hlink.
      rewrite Hbusy, (count_perm _ _ _ Hperm) in Hlink. simpl in Hlink.
      intros e' Hin.
      apply (count_zero_elem is_departure (pq_elems EQ (eventQueue st0))); [|exact Hin].
      simpl. lia. }
    destruct H0 as [_ _ H3 H4]. destruct H as [_ _ H3' _].
    split; simpl.
    + intros t' q Hin. by specialize (Hnone _ Hin).
    + intros _ q t1 v Hin. apply elem_of_cons in Hin as [Heq|Hin]; [discriminate|].
      destruct (wfq_sequential_latest _ _ _ _ H4 Hl q t1 v Hin) as [[-> ->]|Hq].
      * rewrite Ht0. apply Qle_refl.
      * destruct (wfq_latest_start_elem _ _ _ Hl) as [v0 Hv0].
        assert (t0 <= currentTime st) by (by eapply H3').
        simpl in Hle, Hq. lra.
    + intros q t1 v Hin. apply elem_of_cons in Hin as [Heq|Hin]; [discriminate|].
      by eapply H3.
    + exact H4.
Qed.

Lemma wfq_sequence_run fuel (st : State) o :
  wfq_loaded st -> wfq_valid_config st -> run fuel st = Ok o ->
  wfq_in_sequence (state_of o).
Proof.
  intros Hl Hv Hrun.
  assert (H : wfq_ok (state_of o) /\ wfq_timed_ok (state_of o)
              /\ wfq_in_sequence (state_of o)).
  { revert Hrun. unfold run.
    apply (wfq_loop_preserves
             (fun st => wfq_ok st /\ wfq_timed_ok st /\ wfq_in_sequence st)).
    - intros st0 o0 (Hi & Ht & Hw) Hs. split; [by eapply wfq_step_keeps|].
      split; [by eapply WFQTimed.wfq_timed_step | by eapply wfq_sequence_step].
    - split; [by apply wfq_prime_ok|]. split; [by apply WFQTimed.wfq_timed_prime|].
      unfold prime. generalize (sources st). intros l.
      assert (H : wfq_in_sequence st).
      { split; rewrite ?(wl_queue _ Hl), ?pq_new_elems, ?(wl_history _ Hl);
          simpl; try done; intros; by match goal with
          | H : _ ∈ [] |- _ => apply elem_of_nil in H end. }
      revert H. generalize st. clear. intros st. revert st.
      induction l as [|src l IH]; intros st H; simpl; [exact H|].
      apply IH. by apply wfq_sequence_scheduleEvent_arrival. }
  tauto.
Qed.

End Sequence.
End WFQSequential.
(** * Virtual time in the WFQ simulator *)

Module WFQVirtual.
Import WFQ WFQFacts WFQMore.

Lemma fmax_ge_r a b : b <= fmax a b.
Proof.
  unfold fmax. destruct (Qltb a b) eqn:E; [lra|]. by apply Qltb_ge in E.
Qed.

Lemma size_over_weight_pos (sz : Z) w : (1 <= sz)%Z -> 0 < w -> 0 < inject_Z sz / w.
Proof.
  intros Hsz Hw. apply Qlt_shift_div_l; [exact Hw|].
  assert (inject_Z 1 <= inject_Z sz) by (by rewrite <- Zle_Qle).
  change (inject_Z 1) with 1 in H. lra.
Qed.

(** ** [systemVirtualTime] is written by transmission starts only *)

Section Sampled.
Context {EQ : MinPQ Event ev_time} {BQ : MinPQ Packet virtualFinishTime}
        {G : RandomEngine}.
Local Abbreviation State := (State EQ BQ G).

Lemma sampled_same (st st' : State) :
  systemVirtualTime st' = systemVirtualTime st -> history st' = history st ->
  wfq_sampled st -> wfq_sampled st'.
Proof. intros Ev Eh [H1 H2]. split; rewrite Eh, ?Ev; assumption. Qed.

Lemma sampled_obs (st st' : State) o :
  is_start o = false ->
  systemVirtualTime st' = systemVirtualTime st -> history st' = o :: history st ->
  wfq_sampled st -> wfq_sampled st'.
Proof.
  intros Ho Ev Eh [H1 H2]. split; rewrite Eh, ?Ev.
  - intros p t v Hin. apply elem_of_cons in Hin as [Heq|Hin]; [|by eapply H1].
    subst o. discriminate.
  - destruct o; try discriminate; exact H2.
Qed.

Lemma sampled_scheduleEvent e (st : State) :
  wfq_sampled st -> wfq_sampled (scheduleEvent e st).
Proof.
  intros H. destruct (wfq_scheduleEvent_cases e st) as [[_ ->]|[_ ->]].
  - by apply (sampled_same st).
  - by apply (sampled_obs st _ (Discarded e)).
Qed.

Lemma sampled_startNextTransmission (st st' : State) :
  startNextTransmission st = Ok st' -> wfq_sampled st -> wfq_sampled st'.
Proof.
  intros Hs H.
  apply startNextTransmission_Ok in Hs as [[_ ->]|(_ & p & _ & ->)]; [exact H|].
  apply sampled_scheduleEvent. destruct H as [H1 _]. split; simpl; [|reflexivity].
  intros q t v Hin. apply elem_of_cons in Hin as [[= -> _ ->]|Hin]; [reflexivity|].
  by eapply H1.
Qed.

Lemma sampled_step (st : State) o :
  wfq_sampled st -> step st = Ok o -> wfq_sampled (state_of o).
Proof.
  intros H Hs. apply wfq_step_Ok in Hs as [[_ ->]|(e & _ & Hs)]; [exact H|].
  simpl in Hs.
  set (st0 := set_currentTime (ev_time e)
                (set_eventQueue (pq_pop EQ (eventQueue st)) st)) in *.
  assert (H0 : wfq_sampled st0) by (by apply (sampled_same st)).
  destruct Hs as [[_ ->]|(_ & st' & -> & Hs)]; [exact H0|].
  simpl. destruct e as [t srcID|t p].
  - apply wfq_handleArrivalEvent_Ok in Hs as (src & _ & _ & Hs). simpl in Hs.
    assert (H1 : wfq_sampled (scheduleNextArrival srcID src st0)).
    { unfold scheduleNextArrival.
      destruct (exponential_draw G (packetRate src) (generator st0)) as [dt g].
      simpl. destruct (Qltb _ _).
      - apply sampled_scheduleEvent. by apply (sampled_same st0).
      - by apply (sampled_same st0). }
    set (st1 := scheduleNextArrival srcID src st0) in *.
    destruct Hs as (st3 & Hs & [[_ ->]|(_ & d & _ & ->)]);
      (eapply sampled_startNextTransmission; [exact Hs|]).
    + by apply (sampled_same st1).
    + by apply (sampled_obs st1 _ (Dropped d)).
  - apply wfq_handleDepartureEvent_Ok in Hs as [_ Hs].
    eapply sampled_startNextTransmission; [exact Hs|].
    match goal with |- wfq_sampled (observe ?o ?s) =>
      by apply (sampled_obs st0 _ o)
    end.
Qed.

Lemma sampled_run fuel (st : State) o :
  wfq_loaded st -> run fuel st = Ok o -> wfq_sampled (state_of o).
Proof.
  intros Hl. apply (wfq_loop_preserves _ sampled_step).
  apply (wfq_prime_preserves _ sampled_scheduleEvent).
  split; rewrite (wl_history _ Hl); [|by rewrite (wl_virtual _ Hl)].
  intros p t v Hin. by apply elem_of_nil in Hin.
Qed.

End Sampled.
End WFQVirtual.
(** * With one source and no drop, WFQ follows FCFS *)

Module RefinementFacts.
Import Refinement.

Lemma forget_event_time b : FCFS.ev_time (forget_event b) = WFQ.ev_time b.
Proof. by destruct b. Qed.

Lemma departures_forget h : fcfs_departures (map forget_obs h) = wfq_departures h.
Proof.
  induction h as [|o h IH]; simpl; [reflexivity|].
  destruct o; simpl; by rewrite IH.
Qed.

(** ** The buffers *)

Lemma sorted_snoc l q :
  StronglySorted vft_lt l -> Forall (fun p => vft_lt p q) l ->
  StronglySorted vft_lt (l ++ [q]).
Proof.
  induction 1 as [|p l Hl IH Hp]; intros Hq; simpl.
  - constructor; constructor.
  - apply Forall_cons in Hq as [Hpq Hq]. constructor; [by apply IH|].
    apply Forall_app. split; [exact Hp|]. by constructor.
Qed.

Lemma sim_buffer_length F fb wb : sim_buffer F fb wb -> length fb = length wb.
Proof.
  intros (l & Hperm & -> & _). rewrite length_map. by apply Permutation_length.
Qed.

Lemma sim_buffer_push F F' fb wb wb' q :
  sim_buffer F fb wb ->
  F < WFQ.virtualFinishTime q -> WFQ.virtualFinishTime q <= F' ->
  Permutation wb' (q :: wb) ->
  sim_buffer F' (fb ++ [forget_packet q]) wb'.
Proof.
  intros (l & Hperm & -> & Hsort & Hle) HF HF' Hwb'.
  exists (l ++ [q]). repeat split.
  - rewrite Hwb', <- Hperm. symmetry. apply Permutation_cons_append.
  - by rewrite map_app.
  - apply sorted_snoc; [exact Hsort|].
    eapply Forall_impl; [exact Hle|]. intros p Hp. unfold vft_lt. simpl in Hp. lra.
  - apply Forall_app. split.
    + eapply Forall_impl; [exact Hle|]. intros p Hp. simpl in Hp. lra.
    + by constructor.
Qed.

Lemma sim_buffer_pop {BQ : MinPQ WFQ.Packet WFQ.virtualFinishTime} F fb
    (b : pq_t BQ) x :
  sim_buffer F fb (pq_elems BQ b) -> pq_top BQ b = Some x ->
  exists rest, fb = forget_packet x :: rest /\
    sim_buffer F rest (pq_elems BQ (pq_pop BQ b)).
Proof.
  intros (l & Hperm & -> & Hsort & Hle) Htop.
  pose proof (pq_top_pop BQ _ _ Htop) as Hpop.
  pose proof (pq_top_min BQ _ _ Htop) as Hmin.
  rewrite <- Hperm in Hmin, Hpop.
  destruct l as [|y l].
  { by apply Permutation_nil_cons in Hpop. }
  assert (Hx : x = y).
  { assert (Hin : x ∈ y :: l) by (rewrite Hpop; apply list_elem_of_here).
    apply elem_of_cons in Hin as [Hin|Hin]; [exact Hin|].
    apply StronglySorted_inv in Hsort as [_ Hy].
    rewrite Forall_forall in Hy. specialize (Hy x Hin). unfold vft_lt in Hy.
    apply Forall_cons in Hmin as [Hmin _]. lra. }
  subst y. exists (map forget_packet l). split; [reflexivity|].
  exists l. apply Permutation_cons_inv in Hpop.
  apply StronglySorted_inv in Hsort as [Hsort _].
  apply Forall_cons in Hle as [_ Hle]. auto.
Qed.

(** ** History only grows *)

Section NoDrops.
Context {EQ : MinPQ FCFS.Event FCFS.ev_time} {G : RandomEngine}.
Local Abbreviation State := (FCFS.State EQ G).

Lemma no_drops_tail o h : no_drops (o :: h) -> no_drops h.
Proof. intros H. by apply Forall_cons in H as [_ H]. Qed.

Lemma no_drops_scheduleEvent e (st : State) :
  no_drops (FCFS.history (FCFS.scheduleEvent e st)) -> no_drops (FCFS.history st).
Proof.
  unfold FCFS.scheduleEvent. destruct (Qle_bool _ _); simpl; [done|].
  apply no_drops_tail.
Qed.

Lemma no_drops_startNextTransmission (st : State) :
  no_drops (FCFS.history (FCFS.startNextTransmission st)) ->
  no_drops (FCFS.history st).
Proof.
  unfold FCFS.startNextTransmission. destruct (FCFS.linkBusy st); [done|].
  destruct (FCFS.packetBuffer st) as [|p rest]; [done|].
  intros H. apply no_drops_scheduleEvent in H. simpl in H. by apply no_drops_tail in H.
Qed.

Lemma no_drops_scheduleNextArrival srcID src (st : State) :
  no_drops (FCFS.history (FCFS.scheduleNextArrival srcID src st)) ->
  no_drops (FCFS.history st).
Proof.
  unfold FCFS.scheduleNextArrival.
  destruct (exponential_draw G _ _) as [dt g]. simpl.
  destruct (Qltb _ _); [|done]. intros H. by apply no_drops_scheduleEvent in H.
Qed.

Lemma no_drops_handleArrivalEvent srcID (st st' : State) :
  FCFS.handleArrivalEvent srcID st = Ok st' ->
  no_drops (FCFS.history st') -> no_drops (FCFS.history st).
Proof.
  unfold FCFS.handleArrivalEvent. intros H Hnd.
  bind_inv H. bind_inv H. destruct a0 as [p st1]. bind_inv H. injection H as <-.
  apply no_drops_startNextTransmission in Hnd.
  apply (no_drops_scheduleNextArrival srcID a).
  unfold FCFS.generatePacket in Ha0.
  destruct (uniform_int_draw G _ _ _) as [sz g]. bind_inv Ha0.
  injection Ha0 as <- <-.
  unfold FCFS.bufferOrDrop in Ha1. simpl in Ha1.
  destruct (_ <? _)%nat.
  - injection Ha1 as <-. exact Hnd.
  - bind_inv Ha1. injection Ha1 as <-. simpl in Hnd. by apply no_drops_tail in Hnd.
Qed.

Lemma no_drops_handleDepartureEvent p (st st' : State) :
  FCFS.handleDepartureEvent p st = Ok st' ->
  no_drops (FCFS.history st') -> no_drops (FCFS.history st).
Proof.
  unfold FCFS.handleDepartureEvent. intros H Hnd.
  bind_inv H. injection H as <-.
  apply no_drops_startNextTransmission in Hnd. simpl in Hnd.
  by apply no_drops_tail in Hnd.
Qed.

Lemma no_drops_step (st : State) o :
  FCFS.step st = Ok o ->
  no_drops (FCFS.history (FCFS.state_of o)) -> no_drops (FCFS.history st).
Proof.
  unfold FCFS.step.
  destruct (pq_is_empty EQ (FCFS.eventQueue st)); [by intros [= <-]|].
  intros H. bind_inv H. simpl in H.
  destruct (Qltb _ _); [by injection H as <-|].
  bind_inv H. injection H as <-. simpl. intros Hnd.
  destruct a as [t srcID | t p].
  - by apply no_drops_handleArrivalEvent in Ha0.
  - by apply no_drops_handleDepartureEvent in Ha0.
Qed.

End NoDrops.

(** ** The simulation *)

Section Simulation.
Context {EQf : MinPQ FCFS.Event FCFS.ev_time} {EQw : MinPQ WFQ.Event WFQ.ev_time}
        {BQ : MinPQ WFQ.Packet WFQ.virtualFinishTime} {G : RandomEngine}.
Context (S : PQSim EQf EQw same_event).
Context (laws : RandomEngineLaws G).
Local Abbreviation FState := (FCFS.State EQf G).
Local Abbreviation WState := (WFQ.State EQw BQ G).

Lemma sim_scheduleEvent b (f : FState) (w : WState) :
  sim S f w -> sim S (FCFS.scheduleEvent (forget_event b) f) (WFQ.scheduleEvent b w).
Proof.
  intros H. unfold FCFS.scheduleEvent, WFQ.scheduleEvent.
  rewrite forget_event_time, (sm_simulationTime _ _ _ H).
  destruct (Qle_bool _ _); destruct H; split; simpl; try done.
  - by apply pq_sim_push.
  - by f_equal.
Qed.

Lemma sim_scheduleNextArrival srcID src (f : FState) (w : WState) :
  sim S f w ->
  sim S (FCFS.scheduleNextArrival srcID (forget_source src) f)
    (WFQ.scheduleNextArrival srcID src w).
Proof.
  intros H. unfold FCFS.scheduleNextArrival, WFQ.scheduleNextArrival. simpl.
  rewrite (sm_generator _ _ _ H).
  destruct (exponential_draw G _ _) as [dt g]. simpl.
  rewrite (sm_currentTime _ _ _ H).
  assert (H' : sim S (FCFS.set_generator g f) (WFQ.set_generator g w))
    by (destruct H; split; simpl; done).
  destruct (Qltb _ _); [|exact H'].
  apply (sim_scheduleEvent (WFQ.PACKET_ARRIVAL _ srcID) _ _ H').
Qed.

Lemma sim_generate_buffer srcID src (f : FState) (w : WState) p (f1 f2 : FState) :
  sim S f w -> WFQ.sources w !! srcID = Some src ->
  FCFS.generatePacket srcID (forget_source src) f = Ok (p, f1) ->
  FCFS.bufferOrDrop srcID p f1 = Ok f2 ->
  no_drops (FCFS.history f2) ->
  exists q w1 w2,
    WFQ.generatePacket srcID src w = Ok (q, w1) /\
    WFQ.bufferManagement q w1 = Ok w2 /\
    sim S f2 w2.
Proof.
  intros H Hsrc Hgen Hbuf Hnd.
  destruct (sm_single _ _ _ H) as (src0 & Hs0 & Hv & Hb).
  rewrite Hs0 in Hsrc.
  destruct srcID as [|srcID]; [|by destruct srcID].
  injection Hsrc as <-.
  destruct Hv as [Hw Hmin].
  pose proof (uniform_int_range G laws (WFQ.minSize src0) (WFQ.maxSize src0)
                (WFQ.generator w) ltac:(lia)) as Hsz.
  unfold FCFS.generatePacket in Hgen. unfold WFQ.generatePacket.
  simpl in Hgen. rewrite (sm_generator _ _ _ H) in Hgen.
  destruct (uniform_int_draw G _ _ _) as [sz g]. simpl in Hsz.
  bind_inv Hgen. simpl in Hgena. apply modify_at_Ok in Hgena as [Hlt ->].
  injection Hgen as <- <-.
  simpl. rewrite Hs0. simpl.
  rewrite <- (sm_stats _ _ _ H). rewrite (modify_at_lt _ _ _ Hlt). simpl.
  set (q := {| WFQ.pkt_id := WFQ.nextPacketId w; WFQ.pkt_sourceID := 0;
               WFQ.pkt_size := sz; WFQ.pkt_weight := WFQ.weight src0;
               WFQ.pkt_arrivalTime := WFQ.currentTime w;
               WFQ.virtualFinishTime :=
                 fmax (WFQ.systemVirtualTime w) (WFQ.lastFinishTime src0)
                 + inject_Z sz / WFQ.weight src0 |}).
  pose proof (sim_buffer_length _ _ _ Hb) as Hlen.
  unfold FCFS.bufferOrDrop in Hbuf. simpl in Hbuf.
  eexists _, _, _. split; [reflexivity|].
  unfold WFQ.bufferManagement, pq_size. simpl.
  rewrite <- Hlen, <- (sm_bufferSize _ _ _ H).
  destruct (_ <? _)%nat.
  2:{ bind_inv Hbuf. injection Hbuf as <-. simpl in Hnd.
      apply Forall_cons in Hnd as [Hd _]. discriminate. }
  injection Hbuf as <-. split; [reflexivity|].
  assert (Hd : 0 < inject_Z sz / WFQ.weight src0)
    by (apply WFQVirtual.size_over_weight_pos; [lia | done]).
  pose proof (WFQVirtual.fmax_ge_r (WFQ.systemVirtualTime w)
                (WFQ.lastFinishTime src0)) as Hmax.
  destruct H; split; simpl; try done.
  - by rewrite sm_nextPacketId0.
  - by rewrite sm_sources0, Hs0.
  - exists (WFQ.set_lastFinishTime (WFQ.virtualFinishTime q) src0).
    split; [reflexivity|]. split; [by split|].
    rewrite sm_nextPacketId0, sm_currentTime0.
    change (sim_buffer (WFQ.virtualFinishTime q)
              (FCFS.packetBuffer f ++ [forget_packet q])
              (pq_elems BQ (pq_push BQ q (WFQ.packetBuffer w)))).
    eapply sim_buffer_push; [exact Hb | | | apply pq_push_elems].
    + simpl. lra.
    + lra.
Qed.

Lemma sim_startNextTransmission (f : FState) (w : WState) :
  sim S f w ->
  exists w', WFQ.startNextTransmission w = Ok w' /\
    sim S (FCFS.startNextTransmission f) w'.
Proof.
  intros H. unfold FCFS.startNextTransmission, WFQ.startNextTransmission.
  rewrite <- (sm_linkBusy _ _ _ H).
  destruct (FCFS.linkBusy f) eqn:Hbusy; simpl; [eauto|].
  destruct (sm_single _ _ _ H) as (src0 & Hs0 & Hv & Hb).
  pose proof (sim_buffer_length _ _ _ Hb) as Hlen.
  destruct (pq_is_empty BQ (WFQ.packetBuffer w)) eqn:Hemp.
  { apply pq_is_empty_true in Hemp. rewrite Hemp in Hlen.
    destruct (FCFS.packetBuffer f); [eauto | discriminate]. }
  destruct (pq_nonempty_top _ _ Hemp) as [x Hx].
  unfold pq_top_ub. simpl. rewrite Hx. simpl.
  destruct (sim_buffer_pop _ _ _ _ Hb Hx) as (rest & -> & Hrest).
  eexists. split; [reflexivity|].
  rewrite (sm_currentTime _ _ _ H), (sm_linkCapacity _ _ _ H).
  apply (sim_scheduleEvent (WFQ.PACKET_DEPARTURE _ x)).
  destruct H; split; simpl; try done.
  - exists src0. auto.
  - by f_equal.
Qed.

Lemma sim_handleArrivalEvent srcID (f : FState) (w : WState) (f' : FState) :
  sim S f w -> FCFS.handleArrivalEvent srcID f = Ok f' ->
  no_drops (FCFS.history f') ->
  exists w', WFQ.handleArrivalEvent srcID w = Ok w' /\ sim S f' w'.
Proof.
  intros H Hf Hnd. unfold FCFS.handleArrivalEvent in Hf.
  bind_inv Hf. apply at_index_Ok in Hfa.
  destruct (sm_single _ _ _ H) as (src0 & Hs0 & _).
  rewrite (sm_sources _ _ _ H), Hs0 in Hfa.
  destruct srcID as [|srcID]; [|by destruct srcID].
  injection Hfa as <-.
  bind_inv Hf. destruct a as [p f1]. bind_inv Hf. injection Hf as <-.
  apply no_drops_startNextTransmission in Hnd.
  pose proof (sim_scheduleNextArrival 0 src0 _ _ H) as H1.
  assert (Hsrc : WFQ.sources (WFQ.scheduleNextArrival 0 src0 w) !! 0%nat = Some src0).
  { destruct (WFQFacts.wfq_scheduleNextArrival_frame 0 src0 w) as (-> & _).
    by rewrite Hs0. }
  destruct (sim_generate_buffer 0 src0 _ _ _ _ _ H1 Hsrc Hfa Hfa0 Hnd)
    as (q & w1 & w2 & Hg & Hbm & H2).
  destruct (sim_startNextTransmission _ _ H2) as (w' & Hw' & H3).
  exists w'. split; [|exact H3].
  unfold WFQ.handleArrivalEvent, at_index. rewrite Hs0. simpl.
  rewrite Hg. simpl. rewrite Hbm. simpl. exact Hw'.
Qed.

Lemma sim_handleDepartureEvent q (f : FState) (w : WState) (f' : FState) :
  sim S f w -> FCFS.handleDepartureEvent (forget_packet q) f = Ok f' ->
  exists w', WFQ.handleDepartureEvent q w = Ok w' /\ sim S f' w'.
Proof.
  intros H Hf. unfold FCFS.handleDepartureEvent in Hf. simpl in Hf.
  bind_inv Hf. apply modify_at_Ok in Hfa as [Hlt ->]. injection Hf as <-.
  unfold WFQ.handleDepartureEvent. simpl.
  rewrite <- (sm_stats _ _ _ H), (modify_at_lt _ _ _ Hlt). simpl.
  apply sim_startNextTransmission.
  destruct H; split; simpl; try done.
  - by rewrite sm_currentTime0.
  - by rewrite sm_currentTime0, sm_history0.
Qed.

Lemma sim_step (f : FState) (w : WState) o :
  sim S f w -> FCFS.step f = Ok o ->
  no_drops (FCFS.history (FCFS.state_of o)) ->
  exists o', WFQ.step w = Ok o' /\ sim_outcome S o o'.
Proof.
  intros H Hf Hnd. unfold FCFS.step in Hf. unfold WFQ.step.
  pose proof (pq_sim_elems S _ _ (sm_events _ _ _ H)) as Hel.
  pose proof (pq_sim_top S _ _ (sm_events _ _ _ H)) as Htop.
  pose proof (pq_sim_pop S _ _ (sm_events _ _ _ H)) as Hpop.
  assert (Hemp : pq_is_empty EQf (FCFS.eventQueue f)
                 = pq_is_empty EQw (WFQ.eventQueue w)).
  { unfold pq_is_empty, pq_size. by rewrite (Forall2_length _ _ _ Hel). }
  rewrite <- Hemp. destruct (pq_is_empty EQf (FCFS.eventQueue f)).
  { injection Hf as <-. eexists. split; [reflexivity | exact H]. }
  bind_inv Hf. unfold pq_top_ub in *.
  destruct Htop as [a' b Hab|]; [|discriminate].
  injection Hfa as <-. simpl. red in Hab. subst a'.
  simpl in Hf. rewrite forget_event_time, (sm_simulationTime _ _ _ H) in Hf.
  set (f1 := FCFS.set_currentTime (WFQ.ev_time b)
               (FCFS.set_eventQueue (pq_pop EQf (FCFS.eventQueue f)) f)) in *.
  set (w1 := WFQ.set_currentTime (WFQ.ev_time b)
               (WFQ.set_eventQueue (pq_pop EQw (WFQ.eventQueue w)) w)).
  assert (H1 : sim S f1 w1) by (destruct H; split; simpl; done).
  destruct (Qltb _ _).
  { injection Hf as <-. eexists. split; [reflexivity | exact H1]. }
  bind_inv Hf. injection Hf as <-. simpl in Hnd.
  destruct b as [t srcID | t q]; simpl in Hfa.
  - destruct (sim_handleArrivalEvent _ _ _ _ H1 Hfa Hnd) as (w' & -> & H2).
    eexists. split; [reflexivity | exact H2].
  - destruct (sim_handleDepartureEvent _ _ _ _ H1 Hfa) as (w' & -> & H2).
    eexists. split; [reflexivity | exact H2].
Qed.

Lemma no_drops_loop fuel (f : FState) o :
  FCFS.loop fuel f = Ok o ->
  no_drops (FCFS.history (FCFS.state_of o)) -> no_drops (FCFS.history f).
Proof.
  revert f. induction fuel as [|fuel IH]; intros f; simpl.
  { by intros [= <-]. }
  destruct (FCFS.step f) as [o1|u] eqn:Hs; simpl; [|discriminate].
  destruct o1 as [f1|f1].
  - intros Hl Hnd. apply (no_drops_step _ _ Hs). simpl. by eapply IH.
  - intros [= <-] Hnd. by apply (no_drops_step _ _ Hs).
Qed.

Lemma sim_loop fuel (f : FState) (w : WState) o :
  sim S f w -> FCFS.loop fuel f = Ok o ->
  no_drops (FCFS.history (FCFS.state_of o)) ->
  exists o', WFQ.loop fuel w = Ok o' /\ sim_outcome S o o'.
Proof.
  revert f w. induction fuel as [|fuel IH]; intros f w H; simpl.
  { intros [= <-] _. eexists. split; [reflexivity | exact H]. }
  destruct (FCFS.step f) as [o1|u] eqn:Hs; simpl; [|discriminate].
  intros Hl Hnd.
  assert (Hnd1 : no_drops (FCFS.history (FCFS.state_of o1))).
  { destruct o1 as [f1|f1]; simpl; [by eapply no_drops_loop|].
    by injection Hl as <-. }
  destruct (sim_step _ _ _ H Hs Hnd1) as (o1' & -> & H1). simpl.
  destruct o1 as [f1|f1], o1' as [w1|w1]; try done.
  - by apply (IH f1 w1).
  - injection Hl as <-. eexists. split; [reflexivity | exact H1].
Qed.

Lemma sim_prime_fold (l : list WFQ.Source) (f : FState) (w : WState) :
  sim S f w ->
  sim S
    (fold_left
       (fun st src =>
          FCFS.scheduleEvent (FCFS.PACKET_ARRIVAL (FCFS.startTime src) (FCFS.src_id src)) st)
       (map forget_source l) f)
    (fold_left
       (fun st src =>
          WFQ.scheduleEvent (WFQ.PACKET_ARRIVAL (WFQ.startTime src) (WFQ.src_id src)) st)
       l w).
Proof.
  revert f w. induction l as [|src l IH]; intros f w H; simpl; [exact H|].
  apply IH.
  apply (sim_scheduleEvent (WFQ.PACKET_ARRIVAL (WFQ.startTime src) (WFQ.src_id src))
           _ _ H).
Qed.

Lemma sim_prime (f : FState) (w : WState) :
  sim S f w -> sim S (FCFS.prime f) (WFQ.prime w).
Proof.
  intros H. unfold FCFS.prime, WFQ.prime. rewrite (sm_sources _ _ _ H).
  by apply sim_prime_fold.
Qed.

Lemma read_sources_forget X T n i lines acc :
  FCFS.read_sources X T i n lines (map forget_source acc)
  = match WFQ.read_sources X T i n lines acc with
    | inl e => inl e
    | inr srcs => inr (map forget_source srcs)
    end.
Proof.
  revert i lines acc. induction n as [|n IH]; intros i lines acc; simpl; [reflexivity|].
  destruct lines as [|line rest]; [reflexivity|].
  destruct (extract_source X line) as [[[[[rate minSz] maxSz] wt] tb] te].
  rewrite <- IH. by rewrite map_app.
Qed.

Lemma sim_loadConfig X file (f0 : FState) (w0 : WState) :
  FCFS.loadConfig EQf G X file = inr f0 ->
  WFQ.loadConfig EQw BQ G X file = inr w0 ->
  FCFS.numSources f0 = 1%Z ->
  WFQ.wfq_valid_weights w0 ->
  sim S f0 w0.
Proof.
  intros Hf Hw HN Hv.
  pose proof (WFQFacts.wfq_loadConfig_loaded _ _ _ Hw) as Hl.
  unfold FCFS.loadConfig in Hf. unfold WFQ.loadConfig in Hw.
  destruct file as [[|line rest]|]; try discriminate.
  destruct (extract_header X line) as [[[n T] C] B].
  destruct (n <? 0)%Z; [discriminate|].
  pose proof (read_sources_forget X T (Z.to_nat n) 0 rest []) as Hrs.
  simpl in Hrs. rewrite Hrs in Hf.
  destruct (WFQ.read_sources X T 0 (Z.to_nat n) rest []) as [e|srcs];
    [discriminate|].
  injection Hf as <-. injection Hw as <-. simpl in HN. subst n.
  pose proof (WFQ.wl_num _ Hl) as Hnum. simpl in Hnum.
  destruct srcs as [|src [|src' srcs]]; simpl in Hnum; try lia.
  split; simpl; try done.
  - exists src. split; [reflexivity|]. split.
    + unfold WFQ.wfq_valid_weights in Hv. simpl in Hv. by apply Forall_inv in Hv.
    + exists []. rewrite pq_new_elems. repeat split; constructor.
  - apply pq_sim_new.
Qed.

End Simulation.

(** ** The list queues run the same algorithm *)

Section ListSim.
Context {A B : Type} (keyA : A -> Q) (keyB : B -> Q) (R : A -> B -> Prop).
Context (HR : forall a b, R a b -> keyA a = keyB b).

Lemma extract_min_sim la lb :
  Forall2 R la lb ->
  match extract_min keyA la, extract_min keyB lb with
  | Some (ma, ra), Some (mb, rb) => R ma mb /\ Forall2 R ra rb
  | None, None => True
  | _, _ => False
  end.
Proof.
  induction 1 as [|a b la lb Hab H IH]; simpl; [done|].
  destruct (extract_min keyA la) as [[ma ra]|], (extract_min keyB lb) as [[mb rb]|];
    try done.
  - destruct IH as [Hm Hr]. rewrite (HR _ _ Hm), (HR _ _ Hab).
    destruct (Qltb _ _); split; auto.
Qed.

Lemma list_sim_push a b qa qb :
  R a b -> Forall2 R qa qb -> Forall2 R (qa ++ [a]) (qb ++ [b]).
Proof. intros Hab H. apply Forall2_app; [exact H|]. by constructor. Qed.

Lemma list_sim_pop qa qb :
  Forall2 R qa qb -> Forall2 R (list_pop keyA qa) (list_pop keyB qb).
Proof.
  intros H. apply extract_min_sim in H. unfold list_pop.
  destruct (extract_min keyA qa) as [[ma ra]|], (extract_min keyB qb) as [[mb rb]|];
    first [done | tauto | constructor].
Qed.

Lemma list_sim_top qa qb :
  Forall2 R qa qb -> option_Forall2 R (list_top keyA qa) (list_top keyB qb).
Proof.
  intros H. apply extract_min_sim in H. unfold list_top.
  destruct (extract_min keyA qa) as [[ma ra]|], (extract_min keyB qb) as [[mb rb]|];
    try done; simpl; constructor; tauto.
Qed.

Definition ListPQ_sim : PQSim (ListPQ keyA) (ListPQ keyB) R :=
  @Build_PQSim A B keyA keyB (ListPQ keyA) (ListPQ keyB) R
    (Forall2 R) (List.Forall2_nil R) list_sim_push list_sim_pop list_sim_top
    (fun qa qb H => H).

End ListSim.

Lemma same_event_time a b : same_event a b -> FCFS.ev_time a = WFQ.ev_time b.
Proof. intros ->. apply forget_event_time. Qed.

End RefinementFacts.

(** * Executable instances used in the examples *)

Lemma ScriptedEngine_laws (tape : list Z) : RandomEngineLaws (ScriptedEngine tape).
Proof.
  split; simpl.
  - intros _ [|z g]; simpl; [lra|].
    apply Qle_shift_div_l; [lra|].
    assert (0 <= inject_Z (Z.abs z)).
    { change 0 with (inject_Z 0). rewrite <- Zle_Qle. lia. }
    lra.
  - intros a b [|z g] Hab; simpl; [lia|].
    pose proof (Z.mod_pos_bound z (b - a + 1)). lia.
Qed.

Definition FcfsEvents : MinPQ FCFS.Event FCFS.ev_time := ListPQ FCFS.ev_time.
Definition WfqEvents : MinPQ WFQ.Event WFQ.ev_time := ListPQ WFQ.ev_time.
Definition WfqBuffer : MinPQ WFQ.Packet WFQ.virtualFinishTime :=
  ListPQ WFQ.virtualFinishTime.

(** One source sending 100-byte packets over a 1000 B/s link for 10 s. *)
Definition light_load : list string :=
  ["1 10 1000 5"; "1 100 100 1 0 1"]%string.

(** One source whose single 100-byte packet needs 100 s on a 1 B/s link,
    with a horizon of 10 s. *)
Definition slow_link : list string :=
  ["1 10 1 5"; "1 100 100 1 0 0"]%string.

(** Supplies the value a closed computation returns as the witness of an
    existential goal. *)
Ltac exists_value t :=
  let v := eval vm_compute in t in
  match v with
  | inr ?x => exists x
  | Ok (FCFS.Halted ?x) => exists x
  | Ok (WFQ.Halted ?x) => exists x
  | Ok (FCFS.Running ?x) => exists x
  | Ok (WFQ.Running ?x) => exists x
  | Ok ?x => exists x
  | Some ?x => exists x
  end.

(** Closes a closed comparison on [Z], [Q] or [nat] by evaluation. *)
Ltac by_evaluation :=
  vm_compute;
  first [ lazymatch goal with |- _ = _ => reflexivity end
        | lia | discriminate | intros; discriminate ].

(** [light_load] with bufferSize = 0. *)
Definition zero_buffer : list string :=
  ["1 10 1000 0"; "1 100 100 1 0 1"]%string.

(** A source whose activation window ends (at 0.2 T) before it starts (at
    0.5 T). *)
Definition inverted_window : list string :=
  ["1 10 1000 5"; "1 100 100 1 0.5 0.2"]%string.

(** Two sources on a 1 B/s link with room for one packet: source 0 sends
    10-byte packets with weight 10 from time 0 until 5, source 1 one
    100-byte packet with weight 1 at time 1. *)
Definition two_sources (bufferSize : string) : list string :=
  [("2 1000 1 " ++ bufferSize)%string; "1 10 10 10 0 0.005";
   "1 100 100 1 0.001 0.001"]%string.

(** Interarrival draws of 2 s for source 0 (and 5 s for source 1). *)
Definition two_sources_tape : list Z := [2000; 0; 5000; 0; 2000; 0; 2000; 0]%Z.

(** One source sending 100-byte packets every second for 2.5 s over a
    1 B/s link with room for one packet. *)
Definition one_source_overflow : list string :=
  ["1 1000 1 1"; "1 100 100 1 0 0.0025"]%string.

Definition one_second_tape : list Z := [1000; 0; 1000; 0; 1000; 0]%Z.

(** Evaluates [loadConfig] and [run] on a file and a tape, names the
    equations [E0] and [E2], and hands the state and the outcome on. *)
Ltac with_fcfs tape file fuel k :=
  let l := eval vm_compute in
    (FCFS.loadConfig FcfsEvents (ScriptedEngine tape) DecimalExtractor (Some file)) in
  match l with inr ?f0 =>
    let r := eval vm_compute in (FCFS.run fuel f0) in
    match r with Ok ?o =>
      assert (E0 : FCFS.loadConfig FcfsEvents (ScriptedEngine tape) DecimalExtractor
                     (Some file) = inr f0) by reflexivity;
      assert (E2 : FCFS.run fuel f0 = Ok o) by reflexivity;
      k f0 o
    end
  end.

Ltac with_wfq tape file fuel k :=
  let l := eval vm_compute in
    (WFQ.loadConfig WfqEvents WfqBuffer (ScriptedEngine tape) DecimalExtractor
       (Some file)) in
  match l with inr ?w0 =>
    let r := eval vm_compute in (WFQ.run fuel w0) in
    match r with Ok ?o =>
      assert (E0 : WFQ.loadConfig WfqEvents WfqBuffer (ScriptedEngine tape)
                     DecimalExtractor (Some file) = inr w0)
        by reflexivity;
      assert (E2 : WFQ.run fuel w0 = Ok o) by reflexivity;
      k w0 o
    end
  end.

(** The two equations, then the property from [H]. *)
Ltac loaded_and_ran H :=
  split; [eassumption|]; split; [eassumption|];
  match goal with E0 : _ = inr _, E2 : _ = Ok _ |- _ => exact (H _ _ E0 E2) end.

Ltac valid_here :=
  split; [by_evaluation | by_evaluation | repeat constructor; by_evaluation].

(** The two list queues of events make the same choices. *)
Definition EventsSim : PQSim FcfsEvents WfqEvents Refinement.same_event :=
  RefinementFacts.ListPQ_sim FCFS.ev_time WFQ.ev_time Refinement.same_event
    RefinementFacts.same_event_time.

(** Interarrival draws of 30 ms, then of 9 s: on [light_load], whose
    packets take 100 ms each, four packets arrive before the first has
    left. *)
Definition burst_tape : list Z := [30; 0; 30; 0; 30; 0; 9000; 0]%Z.

(** Two sources that send one packet each, of 12 bytes at time 0 and of 11
    bytes at a quarter of the horizon, over a 100 B/s link with a horizon
    of 0.22999999999999998 s. *)
Definition tight_horizon : list string :=
  ["2 0.22999999999999998 100 5"; "1 12 12 1 0 0"; "1 11 11 1 0.25 0.25"]%string.

(** Three sources of weight 3 that send one packet of [size] bytes each. *)
Definition three_alike (size : string) : list string :=
  ["3 10 1000 5"; ("1 " ++ size ++ " " ++ size ++ " 3 0 0")%string;
   ("1 " ++ size ++ " " ++ size ++ " 3 0.1 0.1")%string;
   ("1 " ++ size ++ " " ++ size ++ " 3 0.2 0.2")%string]%string.

(** Two sources of weight 1 that send one packet each, of 2^27 and of
    2^27 + 1 bytes. *)
Definition two_large : list string :=
  ["2 10 1000000000 5"; "1 134217728 134217728 1 0 0";
   "1 134217729 134217729 1 0.5 0.5"]%string.

(** Source 0, of weight 2^-50, sends two packets of 8 bytes; source 1, of
    weight 2, then sends a packet of 1 byte and one of 10 bytes. *)
Definition small_weight : list string :=
  ["2 100 8 5";
   "1 8 8 0.00000000000000088817841970012523233890533447265625 0 0.006";
   "1 1 10 2 0.015 0.018"]%string.

Definition small_weight_tape : list Z := [500; 0; 500; 0; 250; 0; 250; 9]%Z.

(** * The claims *)

(** C1 (amended): in every state of a run of either simulator, for every
    source, generated = transmitted + dropped + buffered + in flight +
    lost, where "in flight" counts the scheduled departures and "lost" the
    departures that were not scheduled; at most one packet is ever lost,
    and when the loop has ended nothing is in flight.  The FCFS run never
    runs into undefined behaviour, and neither does the WFQ run when
    bufferSize >= 1. *)
Theorem C1_accounting
    (EQf : MinPQ FCFS.Event FCFS.ev_time)
    (EQw : MinPQ WFQ.Event WFQ.ev_time)
    (BQ : MinPQ WFQ.Packet WFQ.virtualFinishTime)
    (G : RandomEngine) (X : Extractor) (file : option (list string)) (fuel : nat) :
  (forall f0, FCFS.loadConfig EQf G X file = inr f0 ->
     exists o, FCFS.run fuel f0 = Ok o /\
       let st := FCFS.state_of o in
       (forall s r, FCFS.stats st !! s = Some r ->
          packetsGenerated r =
          (packetsTransmitted r + packetsDropped r + Z.of_nat (FCFS.buffered s st)
           + Z.of_nat (FCFS.in_flight s st) + Z.of_nat (FCFS.lost s st))%Z) /\
       (count FCFS.is_lost (FCFS.history st) <= 1)%nat /\
       (o = FCFS.Halted st -> forall s, FCFS.in_flight s st = 0%nat)) /\
  (forall w0, WFQ.loadConfig EQw BQ G X file = inr w0 ->
     ((1 <= WFQ.bufferSize w0)%nat -> exists o, WFQ.run fuel w0 = Ok o) /\
     (forall o, WFQ.run fuel w0 = Ok o ->
       let st := WFQ.state_of o in
       (forall s r, WFQ.stats st !! s = Some r ->
          packetsGenerated r =
          (packetsTransmitted r + packetsDropped r + Z.of_nat (WFQ.buffered s st)
           + Z.of_nat (WFQ.in_flight s st) + Z.of_nat (WFQ.lost s st))%Z) /\
       (count WFQ.is_lost (WFQ.history st) <= 1)%nat /\
       (o = WFQ.Halted st -> forall s, WFQ.in_flight s st = 0%nat))).
Proof.
  split.
  - intros f0 Hload. apply FCFSFacts.loadConfig_loaded in Hload.
    destruct (FCFSFacts.run_ok fuel f0 Hload) as (o & Hrun & Hok).
    exists o. split; [exact Hrun|]. cbv zeta. split; [|split].
    + intros s r Hr. apply (FCFS.fi_account _ _ Hok s r Hr).
    + pose proof (FCFS.fi_link _ _ Hok). destruct (FCFS.linkBusy _); lia.
    + intros Ho s. destruct o as [st|st]; [discriminate|].
      unfold FCFS.in_flight. simpl.
      erewrite FCFSFacts.loop_halted; [reflexivity | | exact Hrun].
      by apply FCFSFacts.prime_ok.
  - intros w0 Hload. apply WFQFacts.wfq_loadConfig_loaded in Hload. split.
    { intros Hroom.
      destruct (WFQFacts.wfq_run_ok fuel w0 Hload Hroom) as (o & Hrun & _). eauto. }
    intros o Hrun.
    pose proof (WFQFacts.wfq_run_keeps fuel w0 o Hload Hrun) as Hok.
    cbv zeta. split; [|split].
    + intros s r Hr. apply (WFQ.wi_account _ _ Hok s r Hr).
    + pose proof (WFQ.wi_link _ _ Hok). destruct (WFQ.linkBusy _); lia.
    + intros Ho s. destruct o as [st|st]; [discriminate|].
      unfold WFQ.in_flight. simpl.
      erewrite WFQFacts.wfq_loop_halted; [reflexivity | | exact Hrun].
      by apply WFQFacts.wfq_prime_ok.
Qed.

(** C10: in either simulator, when [startNextTransmission] takes a packet
    whose departure time [currentTime + size / linkCapacity] exceeds the
    horizon, the event queue is left as it was (the departure is
    discarded, which the history records) and [linkBusy] is set; and from
    any state of a run whose history holds such a discarded departure of a
    packet [p], every later state of the run has [linkBusy] still set, has
    started and completed no transmission since, has the same transmitted
    counters, has nothing in flight, and counts [p] in none of transmitted,
    dropped or buffered: for [p]'s source, generated = transmitted +
    dropped + buffered + 1. *)
Theorem C10_lost_departure
    (EQf : MinPQ FCFS.Event FCFS.ev_time)
    (EQw : MinPQ WFQ.Event WFQ.ev_time)
    (BQ : MinPQ WFQ.Packet WFQ.virtualFinishTime)
    (G : RandomEngine) (X : Extractor) (file : option (list string)) :
  ((forall (st : FCFS.State EQf G) p rest,
      FCFS.linkBusy st = false -> FCFS.packetBuffer st = p :: rest ->
      let t := FCFS.currentTime st + inject_Z (FCFS.pkt_size p) / FCFS.linkCapacity st in
      FCFS.simulationTime st < t ->
      let st' := FCFS.startNextTransmission st in
      FCFS.eventQueue st' = FCFS.eventQueue st /\
      FCFS.linkBusy st' = true /\
      FCFS.packetBuffer st' = rest /\
      FCFS.history st' =
        FCFS.Discarded (FCFS.PACKET_DEPARTURE t p)
        :: FCFS.Started p (FCFS.currentTime st) :: FCFS.history st) /\
   (forall f0 n k o_n o t p,
      FCFS.loadConfig EQf G X file = inr f0 ->
      FCFS.run n f0 = Ok o_n ->
      In (FCFS.Discarded (FCFS.PACKET_DEPARTURE t p))
         (FCFS.history (FCFS.state_of o_n)) ->
      FCFS.run (n + k) f0 = Ok o ->
      let st_n := FCFS.state_of o_n in
      let st := FCFS.state_of o in
      FCFS.linkBusy st = true /\
      (exists newer, FCFS.history st = newer ++ FCFS.history st_n /\
                     Forall FCFS.quiet newer) /\
      map packetsTransmitted (FCFS.stats st)
        = map packetsTransmitted (FCFS.stats st_n) /\
      (forall s, FCFS.in_flight s st = 0%nat) /\
      (forall r, FCFS.stats st !! FCFS.pkt_sourceID p = Some r ->
         packetsGenerated r =
         (packetsTransmitted r + packetsDropped r
          + Z.of_nat (FCFS.buffered (FCFS.pkt_sourceID p) st) + 1)%Z))) /\
  ((forall (st : WFQ.State EQw BQ G) p,
      WFQ.linkBusy st = false -> pq_top BQ (WFQ.packetBuffer st) = Some p ->
      let t := WFQ.currentTime st + inject_Z (WFQ.pkt_size p) / WFQ.linkCapacity st in
      WFQ.simulationTime st < t ->
      exists st', WFQ.startNextTransmission st = Ok st' /\
      WFQ.eventQueue st' = WFQ.eventQueue st /\
      WFQ.linkBusy st' = true /\
      WFQ.packetBuffer st' = pq_pop BQ (WFQ.packetBuffer st) /\
      WFQ.history st' =
        WFQ.Discarded (WFQ.PACKET_DEPARTURE t p)
        :: WFQ.Started p (WFQ.currentTime st) (WFQ.virtualStart p)
        :: WFQ.history st) /\
   (forall w0 n k o_n o t p,
      WFQ.loadConfig EQw BQ G X file = inr w0 ->
      WFQ.run n w0 = Ok o_n ->
      In (WFQ.Discarded (WFQ.PACKET_DEPARTURE t p))
         (WFQ.history (WFQ.state_of o_n)) ->
      WFQ.run (n + k) w0 = Ok o ->
      let st_n := WFQ.state_of o_n in
      let st := WFQ.state_of o in
      WFQ.linkBusy st = true /\
      (exists newer, WFQ.history st = newer ++ WFQ.history st_n /\
                     Forall WFQ.wfq_quiet newer) /\
      map packetsTransmitted (WFQ.stats st)
        = map packetsTransmitted (WFQ.stats st_n) /\
      (forall s, WFQ.in_flight s st = 0%nat) /\
      (forall r, WFQ.stats st !! WFQ.pkt_sourceID p = Some r ->
         packetsGenerated r =
         (packetsTransmitted r + packetsDropped r
          + Z.of_nat (WFQ.buffered (WFQ.pkt_sourceID p) st) + 1)%Z))).
Proof.
  split; split.
  - intros st p rest Hbusy Hbuf t Ht st'. subst st'.
    unfold FCFS.startNextTransmission, FCFS.scheduleEvent. rewrite Hbusy, Hbuf.
    cbn [FCFS.ev_time FCFS.simulationTime FCFS.currentTime FCFS.linkCapacity
         FCFS.set_packetBuffer FCFS.set_linkBusy FCFS.observe].
    fold t. destruct (Qle_bool t (FCFS.simulationTime st)) eqn:E.
    + apply Qle_bool_iff in E. lra.
    + repeat split.
  - intros f0 n k o_n o t p Hload Hn Hin Hnk. cbv zeta.
    apply FCFSFacts.loadConfig_loaded in Hload.
    assert (Hlost : FCFS.has_lost (FCFS.state_of o_n))
      by (eapply count_In; [exact Hin | reflexivity]).
    destruct (FCFSResults.lost_run n k f0 o_n o Hload Hn Hlost Hnk)
      as ((Hb & Hnewer & Htrans) & Hok & _).
    assert (Hin' : In (FCFS.Discarded (FCFS.PACKET_DEPARTURE t p))
                      (FCFS.history (FCFS.state_of o))).
    { destruct Hnewer as (newer & E & _). rewrite E. apply in_or_app. by right. }
    destruct (FCFSResults.lost_accounting _ t p Hok Hin') as (Hbusy & Hfl & Hl).
    repeat split; try done.
    intros r Hr. pose proof (FCFS.fi_account _ _ Hok _ _ Hr) as Hacc.
    specialize (Hfl (FCFS.pkt_sourceID p)).
    unfold FCFS.in_flight, FCFS.lost in *. lia.
  - intros st p Hbusy Htop t Ht.
    unfold WFQ.startNextTransmission, WFQ.scheduleEvent. rewrite Hbusy.
    assert (Hemp : pq_is_empty BQ (WFQ.packetBuffer st) = false).
    { destruct (pq_is_empty BQ (WFQ.packetBuffer st)) eqn:E; [|done].
      apply pq_is_empty_true in E. apply pq_top_none in E. congruence. }
    rewrite Hemp. unfold pq_top_ub. simpl. rewrite Htop. simpl.
    fold t. destruct (Qle_bool t (WFQ.simulationTime st)) eqn:E.
    + apply Qle_bool_iff in E. lra.
    + eexists. split; [reflexivity|]. repeat split.
  - intros w0 n k o_n o t p Hload Hn Hin Hnk. cbv zeta.
    apply WFQFacts.wfq_loadConfig_loaded in Hload.
    assert (Hlost : WFQ.wfq_has_lost (WFQ.state_of o_n))
      by (eapply count_In; [exact Hin | reflexivity]).
    destruct (WFQResults.wfq_lost_run n k w0 o_n o Hload Hn Hlost Hnk)
      as ((Hb & Hnewer & Htrans) & Hok & _).
    assert (Hin' : In (WFQ.Discarded (WFQ.PACKET_DEPARTURE t p))
                      (WFQ.history (WFQ.state_of o))).
    { destruct Hnewer as (newer & E & _). rewrite E. apply in_or_app. by right. }
    destruct (WFQResults.wfq_lost_accounting _ t p Hok Hin') as (Hbusy & Hfl & Hl).
    repeat split; try done.
    intros r Hr. pose proof (WFQ.wi_account _ _ Hok _ _ Hr) as Hacc.
    specialize (Hfl (WFQ.pkt_sourceID p)).
    unfold WFQ.in_flight, WFQ.lost in *. lia.
Qed.

(** C9 (amended): for every run of either simulator on a valid configuration
    (linkCapacity > 0, simulationTime > 0, 0 <= minSize <= maxSize and
    startTime >= 0 for every source) with draws in range, in every state of
    the run: the link carries one packet at a time, a transmission
    starting no earlier than start + size / linkCapacity of every
    transmission started before it; a departure is counted only at a time
    start + size / linkCapacity that is at most simulationTime, for a
    packet whose size is not negative; and the utilization that
    [printResults] reports is the bytes transmitted, summed over the
    sources, divided by linkCapacity and then by simulationTime, and is
    not negative.  (With exact sums start + size / linkCapacity this bounds
    the bytes by linkCapacity * simulationTime; the sums the program
    computes are rounded, and the bound does not follow.) *)
Theorem C9_transmissions_in_sequence
    (EQf : MinPQ FCFS.Event FCFS.ev_time)
    (EQw : MinPQ WFQ.Event WFQ.ev_time)
    (BQ : MinPQ WFQ.Packet WFQ.virtualFinishTime)
    (G : RandomEngine) (laws : RandomEngineLaws G)
    (X : Extractor) (file : option (list string)) (fuel : nat) :
  (forall f0 o,
     FCFS.loadConfig EQf G X file = inr f0 -> FCFS.valid_config f0 ->
     FCFS.run fuel f0 = Ok o ->
     let st := FCFS.state_of o in
     let C := FCFS.linkCapacity f0 in
     let T := FCFS.simulationTime f0 in
     (forall h2 q t1 h1 p t0 h0,
        FCFS.history st = h2 ++ FCFS.Started q t1 :: h1 ++ FCFS.Started p t0 :: h0 ->
        t0 + inject_Z (FCFS.pkt_size p) / C <= t1) /\
     (forall p t, FCFS.Departed p t ∈ FCFS.history st ->
        t <= T /\ (0 <= FCFS.pkt_size p)%Z /\
        exists t0, FCFS.Started p t0 ∈ FCFS.history st /\
                   t = t0 + inject_Z (FCFS.pkt_size p) / C) /\
     exists m, FCFS.printResults st = Ok m /\
       util m == FCFS.total_bytes st / C / T /\ 0 <= util m) /\
  (forall w0 o,
     WFQ.loadConfig EQw BQ G X file = inr w0 -> WFQ.wfq_valid_config w0 ->
     WFQ.run fuel w0 = Ok o ->
     let st := WFQ.state_of o in
     let C := WFQ.linkCapacity w0 in
     let T := WFQ.simulationTime w0 in
     (forall h2 q t1 v1 h1 p t0 v0 h0,
        WFQ.history st
          = h2 ++ WFQ.Started q t1 v1 :: h1 ++ WFQ.Started p t0 v0 :: h0 ->
        t0 + inject_Z (WFQ.pkt_size p) / C <= t1) /\
     (forall p t, WFQ.Departed p t ∈ WFQ.history st ->
        t <= T /\ (0 <= WFQ.pkt_size p)%Z /\
        exists t0 v, WFQ.Started p t0 v ∈ WFQ.history st /\
                     t = t0 + inject_Z (WFQ.pkt_size p) / C) /\
     exists m, WFQ.printResults st = Ok m /\
       util m == WFQ.wfq_total_bytes st / C / T /\ 0 <= util m).
Proof.
  split.
  - intros f0 o Hload Hv Hrun. cbv zeta.
    apply FCFSFacts.loadConfig_loaded in Hload.
    destruct (FCFSTimed.timed_run laws fuel f0 o Hload Hv Hrun) as [Hok Ht].
    pose proof (FCFSSequential.sequence_run laws fuel f0 o Hload Hv Hrun) as Hsq.
    pose proof (FCFSMore.timing_run fuel f0 o Hload Hrun) as Htm.
    pose proof (FCFSMore.waiting_run laws fuel f0 o Hload Hv Hrun) as [_ Hw].
    pose proof (FCFSFacts.run_config _ _ _ Hrun) as Hcfg.
    injection Hcfg as _ HT HC _.
    destruct (FCFSResults.printResults_spec _ Hok) as (t & Hm & Hb & _).
    destruct Hv as [HC0 HT0 _]. rewrite <- HC, <- HT in *.
    split; [|split].
    + intros h2 q t1 h1 p t0 h0 Hh. pose proof (FCFS.sq_order _ Hsq) as Ho.
      rewrite Hh in Ho. exact (FCFSSequential.sequential_split _ _ _ _ _ _ _ _ Ho).
    + intros p t' Hin. destruct (FCFS.tm_done _ _ Htm t' p Hin) as (Hle & t0 & Hs & E).
      split; [exact Hle|]. split; [exact (proj2 (Hw p t0 Hs))|]. by exists t0.
    + eexists. split; [exact Hm|]. simpl. rewrite Hb. split; [reflexivity|].
      assert (H0 : 0 <= FCFS.total_bytes (FCFS.state_of o)).
      { unfold FCFS.total_bytes. apply Qsum_nonneg. apply Forall_map.
        apply (FCFS.ft_nonneg _ _ Ht). }
      apply Qle_shift_div_l; [exact HT0|].
      apply Qle_shift_div_l; [exact HC0|]. lra.
  - intros w0 o Hload Hv Hrun. cbv zeta.
    apply WFQFacts.wfq_loadConfig_loaded in Hload.
    destruct (WFQTimed.wfq_timed_run laws fuel w0 o Hload Hv Hrun) as [Hok Ht].
    pose proof (WFQSequential.wfq_sequence_run laws fuel w0 o Hload Hv Hrun) as Hsq.
    pose proof (WFQMore.wfq_timing_run fuel w0 o Hload Hrun) as Htm.
    pose proof (WFQMore.wfq_waiting_run laws fuel w0 o Hload Hv Hrun) as [_ Hw].
    pose proof (WFQFacts.wfq_run_config _ _ _ Hrun) as Hcfg.
    injection Hcfg as _ HT HC _.
    destruct (WFQResults.wfq_printResults_spec _ Hok) as (t & Hm & Hb & _).
    destruct Hv as [HC0 HT0 _]. rewrite <- HC, <- HT in *.
    split; [|split].
    + intros h2 q t1 v1 h1 p t0 v0 h0 Hh. pose proof (WFQ.wsq_order _ Hsq) as Ho.
      rewrite Hh in Ho.
      exact (WFQSequential.wfq_sequential_split _ _ _ _ _ _ _ _ _ _ Ho).
    + intros p t' Hin.
      destruct (WFQ.wm_done _ _ Htm t' p Hin) as (Hle & t0 & v & Hs & E).
      split; [exact Hle|]. split; [exact (proj2 (Hw p t0 v Hs))|]. by exists t0, v.
    + eexists. split; [exact Hm|]. simpl. rewrite Hb. split; [reflexivity|].
      assert (H0 : 0 <= WFQ.wfq_total_bytes (WFQ.state_of o)).
      { unfold WFQ.wfq_total_bytes. apply Qsum_nonneg. apply Forall_map.
        apply (WFQ.wt_nonneg _ _ Ht). }
      apply Qle_shift_div_l; [exact HT0|].
      apply Qle_shift_div_l; [exact HC0|]. lra.
Qed.



(** C3 (amended): in every WFQ run of a configuration whose weights are all
    at least [least_weight], for every arrival that the loop takes when the
    buffer holds exactly B >= 1 packets: the iteration does not halt; the
    packet d that [top] returns, a packet of smallest virtualFinishTime
    among the buffered ones, is removed and dropped[d.src] is incremented
    by one; the arriving packet, which takes the next id, is then inserted
    and the buffer again holds exactly B packets.  The arriving packet is
    never the one dropped, whatever its VFT: it is in the buffer
    afterwards.  (The bound on the weights keeps every size / weight a
    finite double, so that no finish time is a NaN and the comparisons of
    the buffer order the finish times.) *)
Theorem C3_drop_smallest_buffered
    (EQ : MinPQ WFQ.Event WFQ.ev_time)
    (BQ : MinPQ WFQ.Packet WFQ.virtualFinishTime)
    (G : RandomEngine) (X : Extractor) (file : option (list string))
    (w0 st : WFQ.State EQ BQ G) (fuel : nat) (t : Q) (srcID : nat) :
  WFQ.loadConfig EQ BQ G X file = inr w0 ->
  WFQ.wfq_weights_bounded w0 ->
  WFQ.run fuel w0 = Ok (WFQ.Running st) ->
  pq_top EQ (WFQ.eventQueue st) = Some (WFQ.PACKET_ARRIVAL t srcID) ->
  pq_size BQ (WFQ.packetBuffer st) = WFQ.bufferSize st ->
  (1 <= WFQ.bufferSize st)%nat ->
  exists d newPacket st',
    WFQ.step st = Ok (WFQ.Running st') /\
    pq_top BQ (WFQ.packetBuffer st) = Some d /\
    Forall (fun q => WFQ.virtualFinishTime d <= WFQ.virtualFinishTime q)
      (pq_elems BQ (WFQ.packetBuffer st)) /\
    WFQ.pkt_id newPacket = WFQ.nextPacketId st /\
    WFQ.pkt_sourceID newPacket = srcID /\
    WFQ.stats st'
      = alter incr_dropped (WFQ.pkt_sourceID d)
          (alter incr_generated srcID (WFQ.stats st)) /\
    Permutation (d :: pq_elems BQ (WFQ.packetBuffer st'))
                (newPacket :: pq_elems BQ (WFQ.packetBuffer st)) /\
    pq_size BQ (WFQ.packetBuffer st') = WFQ.bufferSize st /\
    newPacket ∈ pq_elems BQ (WFQ.packetBuffer st') /\
    (WFQ.history st' = WFQ.Dropped d :: WFQ.history st \/
     exists e, WFQ.history st' = WFQ.Dropped d :: WFQ.Discarded e :: WFQ.history st).
Proof.
  intros Hload _ Hrun He Hfull Hroom.
  apply WFQFacts.wfq_loadConfig_loaded in Hload.
  pose proof (WFQFacts.wfq_run_keeps fuel w0 _ Hload Hrun) as Hok.
  pose proof (WFQMore.wfq_run_conserves fuel w0 _ Hload Hrun) as Hwc.
  simpl in Hok, Hwc.
  assert (Hbusy : WFQ.linkBusy st = true).
  { destruct (WFQ.linkBusy st) eqn:E; [reflexivity|].
    specialize (Hwc E). unfold pq_size in Hfull. rewrite Hwc in Hfull.
    simpl in Hfull. lia. }
  pose proof (pq_top_pop EQ _ _ He) as Hperm.
  assert (Hle : t <= WFQ.simulationTime st).
  { pose proof (WFQ.wi_horizon _ _ Hok) as Hh. rewrite Hperm in Hh.
    by apply Forall_cons in Hh as [Hh _]. }
  destruct (WFQFacts.wfq_step_ok st Hok Hroom) as (o & Hs & _).
  pose proof Hs as Hs'.
  apply WFQMore.wfq_step_Ok in Hs' as [[Hemp _]|(e & He' & Hs')].
  { apply pq_top_none in Hemp. congruence. }
  rewrite He in He'. injection He' as <-. simpl in Hs'.
  destruct Hs' as [[Hlt _]|(_ & st' & -> & Ha)]; [lra|].
  apply WFQMore.wfq_handleArrivalEvent_Ok in Ha as (src & _ & _ & Ha).
  match type of Ha with context [WFQ.scheduleNextArrival ?a ?b ?c] =>
    destruct (WFQFacts.wfq_scheduleNextArrival_frame a b c)
      as (_ & Est & Eb & Elb & EB & _ & _ & En);
    destruct (WFQMore.wfq_scheduleNextArrival_rest a b c) as (_ & Eh);
    set (st1 := WFQ.scheduleNextArrival a b c) in *
  end.
  simpl in Est, Eb, Elb, EB, En, Eh.
  cbv zeta in Ha. destruct Ha as (st3 & Hst & [[Hlt _]|(_ & d & Hd & ->)]).
  { rewrite Eb, EB in Hlt. lia. }
  apply WFQFacts.startNextTransmission_Ok in Hst as [[_ ->]|(Hidle & _)];
    [|simpl in Hidle; congruence].
  rewrite Eb in Hd.
  exists d.
  eexists {| WFQ.pkt_id := WFQ.nextPacketId st1; WFQ.pkt_sourceID := srcID |}.
  eexists. split; [exact Hs|]. split; [exact Hd|].
  split; [exact (pq_top_min BQ _ _ Hd)|]. simpl.
  split; [exact En|]. split; [reflexivity|].
  split; [by rewrite Est|].
  pose proof (pq_top_pop BQ _ _ Hd) as Hpp.
  rewrite Eb.
  match goal with |- context [pq_push BQ ?p ?q] =>
    pose proof (pq_push_elems BQ p q) as Hnew
  end.
  split; [rewrite Hnew, Hpp; apply perm_swap|].
  split.
  { unfold pq_size in *. rewrite Hnew. rewrite Hpp in Hfull. simpl in *. lia. }
  split; [rewrite Hnew; apply list_elem_of_here|].
  destruct Eh as [->|[t' ->]]; [by left | right; by eexists].
Qed.

(** C5 (WFQ half, at the failing input): on [zero_buffer], a valid
    configuration but for bufferSize = 0, the first arrival finds
    [packetBuffer.size() < bufferSize] false with an empty buffer and calls
    [top()] on it: the run is undefined at its first event.  (Under FCFS
    the same file drops every packet, [fcfs_zero_buffer_drops_all].) *)
Theorem C5_wfq_zero_buffer_undefined :
  exists w0,
    WFQ.loadConfig WfqEvents WfqBuffer (ScriptedEngine []) DecimalExtractor
      (Some zero_buffer) = inr w0 /\
    WFQ.bufferSize w0 = 0%nat /\
    WFQ.run 1 w0 = Undefined TopOfEmptyQueue.
Proof.
  exists_value (WFQ.loadConfig WfqEvents WfqBuffer (ScriptedEngine [])
                  DecimalExtractor (Some zero_buffer)).
  repeat split; vm_compute; reflexivity.
Qed.

(** C6 (amended): [loadConfig] reports an error, and [main] does not call
    [run], exactly when the file cannot be opened, is empty, gives a
    negative numSources, or has fewer source lines than numSources.  In
    every other case, whatever the values extracted from the fields (out of
    range or left by a failed extraction), they are stored as they are, no
    error is reported and [main] calls [run]. *)
Theorem C6_only_line_count_checked
    (EQf : MinPQ FCFS.Event FCFS.ev_time)
    (EQw : MinPQ WFQ.Event WFQ.ev_time)
    (BQ : MinPQ WFQ.Packet WFQ.virtualFinishTime)
    (G : RandomEngine) (X : Extractor) (fuel : nat) :
  (FCFS.main EQf G X None fuel = inl CouldNotOpenInputFile /\
   FCFS.main EQf G X (Some []) fuel = inl EmptyConfigFile /\
   forall line rest,
     let '(n, T, C, B) := extract_header X line in
     let file := Some (line :: rest) in
     if (n <? 0)%Z then FCFS.main EQf G X file fuel = inl LengthError
     else if (length rest <? Z.to_nat n)%nat
     then FCFS.main EQf G X file fuel = inl MissingSourceConfigurations
     else exists st,
       FCFS.loadConfig EQf G X file = inr st /\
       FCFS.config_of st = (n, T, C, B) /\
       FCFS.sources st = zip_with (FCFS.source_of_line X T)
                           (seq 0 (Z.to_nat n)) (take (Z.to_nat n) rest) /\
       FCFS.main EQf G X file fuel = inr (FCFS.run fuel st)) /\
  (WFQ.main EQw BQ G X None fuel = inl CouldNotOpenInputFile /\
   WFQ.main EQw BQ G X (Some []) fuel = inl EmptyConfigFile /\
   forall line rest,
     let '(n, T, C, B) := extract_header X line in
     let file := Some (line :: rest) in
     if (n <? 0)%Z then WFQ.main EQw BQ G X file fuel = inl LengthError
     else if (length rest <? Z.to_nat n)%nat
     then WFQ.main EQw BQ G X file fuel = inl MissingSourceConfigurations
     else exists st,
       WFQ.loadConfig EQw BQ G X file = inr st /\
       WFQ.config_of st = (n, T, C, B) /\
       WFQ.sources st = zip_with (WFQ.source_of_line X T)
                          (seq 0 (Z.to_nat n)) (take (Z.to_nat n) rest) /\
       WFQ.main EQw BQ G X file fuel = inr (WFQ.run fuel st)).
Proof.
  split; (split; [reflexivity|]; split; [reflexivity|]); intros line rest.
  - unfold FCFS.main, FCFS.loadConfig.
    destruct (extract_header X line) as [[[n T] C] B]. cbv zeta.
    destruct (n <? 0)%Z; [reflexivity|].
    destruct (length rest <? Z.to_nat n)%nat eqn:E.
    + apply Nat.ltb_lt in E. by rewrite FCFSFacts.read_sources_inl.
    + apply Nat.ltb_ge in E. rewrite FCFSFacts.read_sources_inr by exact E.
      eexists. split; [reflexivity|]. repeat split.
  - unfold WFQ.main, WFQ.loadConfig.
    destruct (extract_header X line) as [[[n T] C] B]. cbv zeta.
    destruct (n <? 0)%Z; [reflexivity|].
    destruct (length rest <? Z.to_nat n)%nat eqn:E.
    + apply Nat.ltb_lt in E. by rewrite WFQFacts.wfq_read_sources_inl.
    + apply Nat.ltb_ge in E. rewrite WFQFacts.wfq_read_sources_inr by exact E.
      eexists. split; [reflexivity|]. repeat split.
Qed.

(** C2 (amended): when [startNextTransmission] takes a packet p it leaves
    systemVirtualTime = p.virtualFinishTime - p.size / p.weight, the value
    sampled for that start.  In every WFQ run every sample is obtained in
    this way from the packet dispatched, and between two starts
    systemVirtualTime keeps the value the latest start gave it (0.0 before
    the first).  Nothing orders two successive samples. *)
Theorem C2_virtual_time_at_start
    (EQ : MinPQ WFQ.Event WFQ.ev_time)
    (BQ : MinPQ WFQ.Packet WFQ.virtualFinishTime)
    (G : RandomEngine) (X : Extractor) (file : option (list string)) :
  (forall st st' : WFQ.State EQ BQ G,
     WFQ.startNextTransmission st = Ok st' ->
     st' = st \/
     exists p, pq_top BQ (WFQ.packetBuffer st) = Some p /\
       WFQ.systemVirtualTime st'
         = WFQ.virtualFinishTime p - inject_Z (WFQ.pkt_size p) / WFQ.pkt_weight p /\
       let start := WFQ.Started p (WFQ.currentTime st) (WFQ.systemVirtualTime st') in
       (WFQ.history st' = start :: WFQ.history st \/
        exists e, WFQ.history st' = WFQ.Discarded e :: start :: WFQ.history st)) /\
  (forall w0 fuel o,
     WFQ.loadConfig EQ BQ G X file = inr w0 ->
     WFQ.run fuel w0 = Ok o ->
     let st := WFQ.state_of o in
     (forall p t v, WFQ.Started p t v ∈ WFQ.history st ->
        v = WFQ.virtualFinishTime p - inject_Z (WFQ.pkt_size p) / WFQ.pkt_weight p) /\
     WFQ.systemVirtualTime st = WFQ.latest_sample (WFQ.history st)).
Proof.
  split.
  - intros st st' Hst.
    apply WFQFacts.startNextTransmission_Ok in Hst as [[_ ->]|(_ & p & Hp & ->)];
      [by left|].
    right. exists p. split; [exact Hp|].
    unfold WFQ.scheduleEvent. destruct (Qle_bool _ _); simpl.
    + split; [reflexivity|]. by left.
    + split; [reflexivity|]. right. by eexists.
  - intros w0 fuel o Hload Hrun. cbv zeta.
    apply WFQFacts.wfq_loadConfig_loaded in Hload.
    exact (WFQVirtual.sampled_run fuel w0 o Hload Hrun).
Qed.

(** * Further properties of the two simulators *)

(** X1: after any number of iterations of the loop of [run], in either
    simulator, the packet buffer holds at most bufferSize packets. *)
Theorem X1_buffer_within_bufferSize
    (EQf : MinPQ FCFS.Event FCFS.ev_time)
    (EQw : MinPQ WFQ.Event WFQ.ev_time)
    (BQ : MinPQ WFQ.Packet WFQ.virtualFinishTime)
    (G : RandomEngine) (X : Extractor) (file : option (list string)) (fuel : nat) :
  (forall f0 o,
     FCFS.loadConfig EQf G X file = inr f0 -> FCFS.run fuel f0 = Ok o ->
     (length (FCFS.packetBuffer (FCFS.state_of o)) <= FCFS.bufferSize f0)%nat) /\
  (forall w0 o,
     WFQ.loadConfig EQw BQ G X file = inr w0 -> WFQ.run fuel w0 = Ok o ->
     (pq_size BQ (WFQ.packetBuffer (WFQ.state_of o)) <= WFQ.bufferSize w0)%nat).
Proof.
  split.
  - intros f0 o Hload Hrun. apply FCFSFacts.loadConfig_loaded in Hload.
    pose proof (FCFSMore.run_keeps fuel f0 o Hload Hrun) as Hok.
    pose proof (FCFSFacts.run_config _ _ _ Hrun) as Hcfg.
    injection Hcfg as _ _ _ <-. apply (FCFS.fi_bound _ _ Hok).
  - intros w0 o Hload Hrun. apply WFQFacts.wfq_loadConfig_loaded in Hload.
    pose proof (WFQFacts.wfq_run_keeps fuel w0 o Hload Hrun) as Hok.
    pose proof (WFQFacts.wfq_run_config _ _ _ Hrun) as Hcfg.
    injection Hcfg as _ _ _ <-. apply (WFQ.wi_bound _ _ Hok).
Qed.

(** X2: after any number of iterations of the loop of [run], in either
    simulator, the link is busy exactly when one packet is in transmission:
    the number of departures pending in the event queue plus the number of
    departures that [scheduleEvent] did not push is 1 when linkBusy is set
    and 0 when it is not. So at most one departure is ever pending. *)
Theorem X2_one_packet_in_transmission
    (EQf : MinPQ FCFS.Event FCFS.ev_time)
    (EQw : MinPQ WFQ.Event WFQ.ev_time)
    (BQ : MinPQ WFQ.Packet WFQ.virtualFinishTime)
    (G : RandomEngine) (X : Extractor) (file : option (list string)) (fuel : nat) :
  (forall f0 o,
     FCFS.loadConfig EQf G X file = inr f0 -> FCFS.run fuel f0 = Ok o ->
     let st := FCFS.state_of o in
     (count FCFS.is_departure (pq_elems EQf (FCFS.eventQueue st))
      + count FCFS.is_lost (FCFS.history st))%nat
     = (if FCFS.linkBusy st then 1 else 0)%nat /\
     (count FCFS.is_departure (pq_elems EQf (FCFS.eventQueue st)) <= 1)%nat) /\
  (forall w0 o,
     WFQ.loadConfig EQw BQ G X file = inr w0 -> WFQ.run fuel w0 = Ok o ->
     let st := WFQ.state_of o in
     (count WFQ.is_departure (pq_elems EQw (WFQ.eventQueue st))
      + count WFQ.is_lost (WFQ.history st))%nat
     = (if WFQ.linkBusy st then 1 else 0)%nat /\
     (count WFQ.is_departure (pq_elems EQw (WFQ.eventQueue st)) <= 1)%nat).
Proof.
  split.
  - intros f0 o Hload Hrun. cbv zeta. apply FCFSFacts.loadConfig_loaded in Hload.
    pose proof (FCFSMore.run_keeps fuel f0 o Hload Hrun) as Hok.
    pose proof (FCFS.fi_link _ _ Hok) as H. split; [exact H|].
    destruct (FCFS.linkBusy _); lia.
  - intros w0 o Hload Hrun. cbv zeta. apply WFQFacts.wfq_loadConfig_loaded in Hload.
    pose proof (WFQFacts.wfq_run_keeps fuel w0 o Hload Hrun) as Hok.
    pose proof (WFQ.wi_link _ _ Hok) as H. split; [exact H|].
    destruct (WFQ.linkBusy _); lia.
Qed.

(** X3: after any number of iterations of the loop of [run], in either
    simulator, no pending event lies beyond simulationTime, so the loop of
    [run] never leaves through its [break]: when it has ended, the event
    queue is empty. *)
Theorem X3_no_event_beyond_horizon
    (EQf : MinPQ FCFS.Event FCFS.ev_time)
    (EQw : MinPQ WFQ.Event WFQ.ev_time)
    (BQ : MinPQ WFQ.Packet WFQ.virtualFinishTime)
    (G : RandomEngine) (X : Extractor) (file : option (list string)) (fuel : nat) :
  (forall f0 o,
     FCFS.loadConfig EQf G X file = inr f0 -> FCFS.run fuel f0 = Ok o ->
     Forall (fun e => FCFS.ev_time e <= FCFS.simulationTime f0)
       (pq_elems EQf (FCFS.eventQueue (FCFS.state_of o))) /\
     (forall st, o = FCFS.Halted st -> pq_elems EQf (FCFS.eventQueue st) = [])) /\
  (forall w0 o,
     WFQ.loadConfig EQw BQ G X file = inr w0 -> WFQ.run fuel w0 = Ok o ->
     Forall (fun e => WFQ.ev_time e <= WFQ.simulationTime w0)
       (pq_elems EQw (WFQ.eventQueue (WFQ.state_of o))) /\
     (forall st, o = WFQ.Halted st -> pq_elems EQw (WFQ.eventQueue st) = [])).
Proof.
  split.
  - intros f0 o Hload Hrun. apply FCFSFacts.loadConfig_loaded in Hload.
    pose proof (FCFSMore.run_keeps fuel f0 o Hload Hrun) as Hok.
    pose proof (FCFSFacts.run_config _ _ _ Hrun) as Hcfg.
    injection Hcfg as _ <- _ _. split; [apply (FCFS.fi_horizon _ _ Hok)|].
    intros st ->. eapply FCFSFacts.loop_halted; [|exact Hrun].
    by apply FCFSFacts.prime_ok.
  - intros w0 o Hload Hrun. apply WFQFacts.wfq_loadConfig_loaded in Hload.
    pose proof (WFQFacts.wfq_run_keeps fuel w0 o Hload Hrun) as Hok.
    pose proof (WFQFacts.wfq_run_config _ _ _ Hrun) as Hcfg.
    injection Hcfg as _ <- _ _. split; [apply (WFQ.wi_horizon _ _ Hok)|].
    intros st ->. eapply WFQFacts.wfq_loop_halted; [|exact Hrun].
    by apply WFQFacts.wfq_prime_ok.
Qed.

(** X4: both simulators are work conserving: between two iterations of the
    loop of [run], whenever the link is idle the packet buffer is empty. *)
Theorem X4_work_conserving
    (EQf : MinPQ FCFS.Event FCFS.ev_time)
    (EQw : MinPQ WFQ.Event WFQ.ev_time)
    (BQ : MinPQ WFQ.Packet WFQ.virtualFinishTime)
    (G : RandomEngine) (X : Extractor) (file : option (list string)) (fuel : nat) :
  (forall f0 o,
     FCFS.loadConfig EQf G X file = inr f0 -> FCFS.run fuel f0 = Ok o ->
     FCFS.linkBusy (FCFS.state_of o) = false ->
     FCFS.packetBuffer (FCFS.state_of o) = []) /\
  (forall w0 o,
     WFQ.loadConfig EQw BQ G X file = inr w0 -> WFQ.run fuel w0 = Ok o ->
     WFQ.linkBusy (WFQ.state_of o) = false ->
     pq_elems BQ (WFQ.packetBuffer (WFQ.state_of o)) = []).
Proof.
  split.
  - intros f0 o Hload Hrun. apply FCFSFacts.loadConfig_loaded in Hload.
    apply (FCFSMore.run_conserves fuel f0 o Hload Hrun).
  - intros w0 o Hload Hrun. apply WFQFacts.wfq_loadConfig_loaded in Hload.
    apply (WFQMore.wfq_run_conserves fuel w0 o Hload Hrun).
Qed.

(** X5: after any number of iterations of the loop of [run], in either
    simulator, the ids of the packets dropped, of the packets whose
    transmission started and of the packets in the buffer are all different
    and lie in [1, nextPacketId): no packet is dropped and transmitted, none
    is transmitted or dropped twice. *)
Theorem X5_packet_ids_unique
    (EQf : MinPQ FCFS.Event FCFS.ev_time)
    (EQw : MinPQ WFQ.Event WFQ.ev_time)
    (BQ : MinPQ WFQ.Packet WFQ.virtualFinishTime)
    (G : RandomEngine) (X : Extractor) (file : option (list string)) (fuel : nat) :
  (forall f0 o,
     FCFS.loadConfig EQf G X file = inr f0 -> FCFS.run fuel f0 = Ok o ->
     let st := FCFS.state_of o in
     let ids := FCFS.dropped_ids (FCFS.history st)
                ++ FCFS.started_ids (FCFS.history st)
                ++ map FCFS.pkt_id (FCFS.packetBuffer st) in
     NoDup ids /\ Forall (fun i => (1 <= i < FCFS.nextPacketId st)%Z) ids) /\
  (forall w0 o,
     WFQ.loadConfig EQw BQ G X file = inr w0 -> WFQ.run fuel w0 = Ok o ->
     let st := WFQ.state_of o in
     let ids := WFQ.dropped_ids (WFQ.history st)
                ++ WFQ.started_ids (WFQ.history st)
                ++ map WFQ.pkt_id (pq_elems BQ (WFQ.packetBuffer st)) in
     NoDup ids /\ Forall (fun i => (1 <= i < WFQ.nextPacketId st)%Z) ids).
Proof.
  split.
  - intros f0 o Hload Hrun. cbv zeta.
    pose proof (FCFSMore.loadConfig_nextPacketId _ _ _ Hload) as Hn.
    apply FCFSFacts.loadConfig_loaded in Hload.
    destruct (FCFSMore.ids_run fuel f0 o Hload Hn Hrun) as [_ Hr Hd _]. by split.
  - intros w0 o Hload Hrun. cbv zeta.
    apply WFQFacts.wfq_loadConfig_loaded in Hload.
    destruct (WFQMore.wfq_ids_run fuel w0 o Hload Hrun) as [_ Hr Hd]. by split.
Qed.

(** X6: after any number of iterations of the loop of [run], in either
    simulator, nextPacketId is one more than the number of packets
    generated, summed over the sources. *)
Theorem X6_next_id_counts_generated
    (EQf : MinPQ FCFS.Event FCFS.ev_time)
    (EQw : MinPQ WFQ.Event WFQ.ev_time)
    (BQ : MinPQ WFQ.Packet WFQ.virtualFinishTime)
    (G : RandomEngine) (X : Extractor) (file : option (list string)) (fuel : nat) :
  (forall f0 o,
     FCFS.loadConfig EQf G X file = inr f0 -> FCFS.run fuel f0 = Ok o ->
     FCFS.nextPacketId (FCFS.state_of o)
     = (1 + Zsum (map packetsGenerated (FCFS.stats (FCFS.state_of o))))%Z) /\
  (forall w0 o,
     WFQ.loadConfig EQw BQ G X file = inr w0 -> WFQ.run fuel w0 = Ok o ->
     WFQ.nextPacketId (WFQ.state_of o)
     = (1 + Zsum (map packetsGenerated (WFQ.stats (WFQ.state_of o))))%Z).
Proof.
  split.
  - intros f0 o Hload Hrun.
    pose proof (FCFSMore.loadConfig_nextPacketId _ _ _ Hload) as Hn.
    apply FCFSFacts.loadConfig_loaded in Hload.
    exact (FCFSMore.next_id_run fuel f0 o Hload Hn Hrun).
  - intros w0 o Hload Hrun. apply WFQFacts.wfq_loadConfig_loaded in Hload.
    exact (WFQMore.wfq_next_id_run fuel w0 o Hload Hrun).
Qed.

(** X7: the FCFS simulator serves in arrival order: after any number of
    iterations of the loop of [run], the ids of the packets whose
    transmission started, in the order in which they started, followed by
    the ids of the buffer from front to back, are strictly increasing. *)
Theorem X7_fcfs_first_come_first_served
    (EQf : MinPQ FCFS.Event FCFS.ev_time)
    (G : RandomEngine) (X : Extractor) (file : option (list string)) (fuel : nat)
    (f0 : FCFS.State EQf G) (o : FCFS.outcome EQf G) :
  FCFS.loadConfig EQf G X file = inr f0 -> FCFS.run fuel f0 = Ok o ->
  StronglySorted Z.lt
    (rev (FCFS.started_ids (FCFS.history (FCFS.state_of o)))
     ++ map FCFS.pkt_id (FCFS.packetBuffer (FCFS.state_of o))).
Proof.
  intros Hload Hrun.
  pose proof (FCFSMore.loadConfig_nextPacketId _ _ _ Hload) as Hn.
  apply FCFSFacts.loadConfig_loaded in Hload.
  apply (FCFS.ii_fifo _ _ _ (FCFSMore.ids_run fuel f0 o Hload Hn Hrun)).
Qed.

(** X8: after any number of iterations of the loop of [run], in either
    simulator, the counters of each source are those of the events handled
    for its packets: packetsTransmitted is the number of its departures
    handled, packetsDropped the number of its packets dropped,
    bytesTransmitted the sum of the sizes of the departed packets and
    totalDelay the sum of their departure time minus arrival time. *)
Theorem X8_counters_match_events
    (EQf : MinPQ FCFS.Event FCFS.ev_time)
    (EQw : MinPQ WFQ.Event WFQ.ev_time)
    (BQ : MinPQ WFQ.Packet WFQ.virtualFinishTime)
    (G : RandomEngine) (X : Extractor) (file : option (list string)) (fuel : nat) :
  (forall f0 o,
     FCFS.loadConfig EQf G X file = inr f0 -> FCFS.run fuel f0 = Ok o ->
     let st := FCFS.state_of o in
     forall s r, FCFS.stats st !! s = Some r ->
       packetsTransmitted r
       = Z.of_nat (count (FCFS.departed_from s) (FCFS.history st)) /\
       packetsDropped r
       = Z.of_nat (count (FCFS.dropped_from s) (FCFS.history st)) /\
       bytesTransmitted r == Qsum (map (FCFS.departed_bytes s) (FCFS.history st)) /\
       totalDelay r == Qsum (map (FCFS.departed_delay s) (FCFS.history st))) /\
  (forall w0 o,
     WFQ.loadConfig EQw BQ G X file = inr w0 -> WFQ.run fuel w0 = Ok o ->
     let st := WFQ.state_of o in
     forall s r, WFQ.stats st !! s = Some r ->
       packetsTransmitted r
       = Z.of_nat (count (WFQ.departed_from s) (WFQ.history st)) /\
       packetsDropped r
       = Z.of_nat (count (WFQ.dropped_from s) (WFQ.history st)) /\
       bytesTransmitted r == Qsum (map (WFQ.departed_bytes s) (WFQ.history st)) /\
       totalDelay r == Qsum (map (WFQ.departed_delay s) (WFQ.history st))).
Proof.
  split.
  - intros f0 o Hload Hrun. cbv zeta. apply FCFSFacts.loadConfig_loaded in Hload.
    exact (FCFSMore.ledger_run fuel f0 o Hload Hrun).
  - intros w0 o Hload Hrun. cbv zeta. apply WFQFacts.wfq_loadConfig_loaded in Hload.
    exact (WFQMore.wfq_ledger_run fuel w0 o Hload Hrun).
Qed.

(** X9: after any number of iterations of the loop of [run], in either
    simulator, every departure that was handled, and every departure still
    pending, is that of a packet whose transmission started exactly size /
    linkCapacity earlier; the departures handled occurred no later than
    simulationTime. *)
Theorem X9_departure_after_transmission_time
    (EQf : MinPQ FCFS.Event FCFS.ev_time)
    (EQw : MinPQ WFQ.Event WFQ.ev_time)
    (BQ : MinPQ WFQ.Packet WFQ.virtualFinishTime)
    (G : RandomEngine) (X : Extractor) (file : option (list string)) (fuel : nat) :
  (forall f0 o,
     FCFS.loadConfig EQf G X file = inr f0 -> FCFS.run fuel f0 = Ok o ->
     let st := FCFS.state_of o in
     (forall p t, FCFS.Departed p t ∈ FCFS.history st ->
        t <= FCFS.simulationTime f0 /\
        exists t0, FCFS.Started p t0 ∈ FCFS.history st /\
          t = t0 + inject_Z (FCFS.pkt_size p) / FCFS.linkCapacity f0) /\
     (forall p t, FCFS.PACKET_DEPARTURE t p ∈ pq_elems EQf (FCFS.eventQueue st) ->
        exists t0, FCFS.Started p t0 ∈ FCFS.history st /\
          t = t0 + inject_Z (FCFS.pkt_size p) / FCFS.linkCapacity f0)) /\
  (forall w0 o,
     WFQ.loadConfig EQw BQ G X file = inr w0 -> WFQ.run fuel w0 = Ok o ->
     let st := WFQ.state_of o in
     (forall p t, WFQ.Departed p t ∈ WFQ.history st ->
        t <= WFQ.simulationTime w0 /\
        exists t0 v, WFQ.Started p t0 v ∈ WFQ.history st /\
          t = t0 + inject_Z (WFQ.pkt_size p) / WFQ.linkCapacity w0) /\
     (forall p t, WFQ.PACKET_DEPARTURE t p ∈ pq_elems EQw (WFQ.eventQueue st) ->
        exists t0 v, WFQ.Started p t0 v ∈ WFQ.history st /\
          t = t0 + inject_Z (WFQ.pkt_size p) / WFQ.linkCapacity w0)).
Proof.
  split.
  - intros f0 o Hload Hrun. cbv zeta. apply FCFSFacts.loadConfig_loaded in Hload.
    pose proof (FCFSFacts.run_config _ _ _ Hrun) as Hcfg.
    injection Hcfg as _ <- <- _.
    destruct (FCFSMore.timing_run fuel f0 o Hload Hrun) as [H1 H2].
    split; intros p t Hin; [by apply H2 | by apply H1].
  - intros w0 o Hload Hrun. cbv zeta. apply WFQFacts.wfq_loadConfig_loaded in Hload.
    pose proof (WFQFacts.wfq_run_config _ _ _ Hrun) as Hcfg.
    injection Hcfg as _ <- <- _.
    destruct (WFQMore.wfq_timing_run fuel w0 o Hload Hrun) as [H1 H2].
    split; intros p t Hin; [by apply H2 | by apply H1].
Qed.

(** X10: on a valid configuration (linkCapacity > 0, simulationTime > 0, 0
    <= minSize <= maxSize and startTime >= 0 for every source) with draws in
    range, the clock of either simulator never goes back: after n + k
    iterations currentTime is at least what it was after n; it is then at
    most simulationTime, and no pending event lies in the past. *)
Theorem X10_clock_monotone
    (EQf : MinPQ FCFS.Event FCFS.ev_time)
    (EQw : MinPQ WFQ.Event WFQ.ev_time)
    (BQ : MinPQ WFQ.Packet WFQ.virtualFinishTime)
    (G : RandomEngine) (laws : RandomEngineLaws G)
    (X : Extractor) (file : option (list string)) (n k : nat) :
  (forall f0 o_n o,
     FCFS.loadConfig EQf G X file = inr f0 -> FCFS.valid_config f0 ->
     FCFS.run n f0 = Ok o_n -> FCFS.run (n + k) f0 = Ok o ->
     FCFS.currentTime (FCFS.state_of o_n) <= FCFS.currentTime (FCFS.state_of o) /\
     FCFS.currentTime (FCFS.state_of o) <= FCFS.simulationTime f0 /\
     Forall (fun e => FCFS.currentTime (FCFS.state_of o) <= FCFS.ev_time e)
       (pq_elems EQf (FCFS.eventQueue (FCFS.state_of o)))) /\
  (forall w0 o_n o,
     WFQ.loadConfig EQw BQ G X file = inr w0 -> WFQ.wfq_valid_config w0 ->
     WFQ.run n w0 = Ok o_n -> WFQ.run (n + k) w0 = Ok o ->
     WFQ.currentTime (WFQ.state_of o_n) <= WFQ.currentTime (WFQ.state_of o) /\
     WFQ.currentTime (WFQ.state_of o) <= WFQ.simulationTime w0 /\
     Forall (fun e => WFQ.currentTime (WFQ.state_of o) <= WFQ.ev_time e)
       (pq_elems EQw (WFQ.eventQueue (WFQ.state_of o)))).
Proof.
  split.
  - intros f0 o_n o Hload Hv Hn Hnk. apply FCFSFacts.loadConfig_loaded in Hload.
    split; [exact (FCFSMore.run_clock_le laws n k f0 o_n o Hload Hv Hn Hnk)|].
    destruct (FCFSTimed.timed_run laws _ f0 o Hload Hv Hnk) as [_ Ht].
    pose proof (FCFSFacts.run_config _ _ _ Hnk) as Hcfg.
    injection Hcfg as _ <- _ _.
    split; [apply (FCFS.ft_clock _ _ Ht) | apply (FCFS.ft_future _ _ Ht)].
  - intros w0 o_n o Hload Hv Hn Hnk. apply WFQFacts.wfq_loadConfig_loaded in Hload.
    split; [exact (WFQMore.wfq_run_clock_le laws n k w0 o_n o Hload Hv Hn Hnk)|].
    destruct (WFQTimed.wfq_timed_run laws _ w0 o Hload Hv Hnk) as [_ Ht].
    pose proof (WFQFacts.wfq_run_config _ _ _ Hnk) as Hcfg.
    injection Hcfg as _ <- _ _.
    split; [apply (WFQ.wt_clock _ _ Ht) | apply (WFQ.wt_future _ _ Ht)].
Qed.

(** X11: on a valid configuration with draws in range, after any number of
    iterations of the loop of [run], in either simulator, no packet is in
    the buffer or starts its transmission before it arrived, so no delay is
    negative: totalDelay of every source is at least 0, and so are the
    average delay that [printResults] reports and the average delay of every
    row of its table. *)
Theorem X11_delays_not_negative
    (EQf : MinPQ FCFS.Event FCFS.ev_time)
    (EQw : MinPQ WFQ.Event WFQ.ev_time)
    (BQ : MinPQ WFQ.Packet WFQ.virtualFinishTime)
    (G : RandomEngine) (laws : RandomEngineLaws G)
    (X : Extractor) (file : option (list string)) (fuel : nat) :
  (forall f0 o,
     FCFS.loadConfig EQf G X file = inr f0 -> FCFS.valid_config f0 ->
     FCFS.run fuel f0 = Ok o ->
     let st := FCFS.state_of o in
     (forall p, p ∈ FCFS.packetBuffer st ->
        FCFS.pkt_arrivalTime p <= FCFS.currentTime st) /\
     (forall p t0, FCFS.Started p t0 ∈ FCFS.history st ->
        FCFS.pkt_arrivalTime p <= t0) /\
     (forall s r, FCFS.stats st !! s = Some r -> 0 <= totalDelay r) /\
     (exists m, FCFS.printResults st = Ok m /\ 0 <= avgDelay m) /\
     (exists rows, FCFS.printTable st = Ok rows /\
        Forall (fun row => 0 <= sDelay row) rows)) /\
  (forall w0 o,
     WFQ.loadConfig EQw BQ G X file = inr w0 -> WFQ.wfq_valid_config w0 ->
     WFQ.run fuel w0 = Ok o ->
     let st := WFQ.state_of o in
     (forall p, p ∈ pq_elems BQ (WFQ.packetBuffer st) ->
        WFQ.pkt_arrivalTime p <= WFQ.currentTime st) /\
     (forall p t0 v, WFQ.Started p t0 v ∈ WFQ.history st ->
        WFQ.pkt_arrivalTime p <= t0) /\
     (forall s r, WFQ.stats st !! s = Some r -> 0 <= totalDelay r) /\
     (exists m, WFQ.printResults st = Ok m /\ 0 <= avgDelay m) /\
     (exists rows, WFQ.printTable st = Ok rows /\
        Forall (fun row => 0 <= sDelay row) rows)).
Proof.
  split.
  - intros f0 o Hload Hv Hrun. cbv zeta. apply FCFSFacts.loadConfig_loaded in Hload.
    destruct (FCFSTimed.timed_run laws fuel f0 o Hload Hv Hrun) as [Hok Ht].
    pose proof (FCFSMore.waiting_run laws fuel f0 o Hload Hv Hrun) as Hw.
    pose proof (FCFSMore.ledger_run fuel f0 o Hload Hrun) as Hl.
    pose proof (FCFSMore.timing_run fuel f0 o Hload Hrun) as Htm.
    assert (Hd : forall s r, FCFS.stats (FCFS.state_of o) !! s = Some r ->
                   0 <= totalDelay r).
    { intros s r Hr.
      exact (FCFSMore.delay_nonneg _ s r (FCFS.ft_capacity _ _ Ht) Hl Htm Hw Hr). }
    assert (Hall : Forall (fun r => 0 <= totalDelay r) (FCFS.stats (FCFS.state_of o))).
    { apply Forall_lookup. intros s r Hr. by apply (Hd s). }
    split; [intros p Hp; apply (proj1 Hw p Hp)|].
    split; [intros p t0 Hp; apply (proj2 Hw p t0 Hp)|].
    split; [exact Hd|]. split.
    + destruct (FCFSMore.printResults_counts _ Hok) as (t & Hm & _ & _ & _ & Htd & _).
      eexists. split; [exact Hm|]. simpl. apply mean_nonneg. rewrite Htd.
      by apply Qsum_map_nonneg.
    + eexists. split; [apply (FCFSMore.printTable_spec _ Hok)|].
      apply Forall_lookup. intros i row Hrow.
      apply lookup_zip_with_Some in Hrow as (r & src & -> & Hr & _).
      simpl. apply mean_nonneg. by apply (Hd i).
  - intros w0 o Hload Hv Hrun. cbv zeta. apply WFQFacts.wfq_loadConfig_loaded in Hload.
    destruct (WFQTimed.wfq_timed_run laws fuel w0 o Hload Hv Hrun) as [Hok Ht].
    pose proof (WFQMore.wfq_waiting_run laws fuel w0 o Hload Hv Hrun) as Hw.
    pose proof (WFQMore.wfq_ledger_run fuel w0 o Hload Hrun) as Hl.
    pose proof (WFQMore.wfq_timing_run fuel w0 o Hload Hrun) as Htm.
    assert (Hd : forall s r, WFQ.stats (WFQ.state_of o) !! s = Some r ->
                   0 <= totalDelay r).
    { intros s r Hr.
      exact (WFQMore.wfq_delay_nonneg _ s r (WFQ.wt_capacity _ _ Ht) Hl Htm Hw Hr). }
    split; [intros p Hp; apply (proj1 Hw p Hp)|].
    split; [intros p t0 v Hp; apply (proj2 Hw p t0 v Hp)|].
    split; [exact Hd|]. split.
    + destruct (WFQMore.wfq_printResults_counts _ Hok)
        as (t & Hm & _ & _ & _ & Htd & _).
      eexists. split; [exact Hm|]. simpl. apply mean_nonneg. rewrite Htd.
      apply Qsum_map_nonneg. apply Forall_lookup. intros s r Hr. by apply (Hd s).
    + eexists. split; [apply (WFQMore.wfq_printTable_spec _ Hok)|].
      apply Forall_lookup. intros i row Hrow.
      apply lookup_zip_with_Some in Hrow as (r & src & -> & Hr & _).
      simpl. apply mean_nonneg. by apply (Hd i).
Qed.

(** X12: after any run of either simulator the second loop of [printResults]
    reads no index out of range and prints one row per source, row i from
    stats[i] and sources[i].weight; every drop rate lies in [0, 1]. *)
Theorem X12_per_source_table
    (EQf : MinPQ FCFS.Event FCFS.ev_time)
    (EQw : MinPQ WFQ.Event WFQ.ev_time)
    (BQ : MinPQ WFQ.Packet WFQ.virtualFinishTime)
    (G : RandomEngine) (X : Extractor) (file : option (list string)) (fuel : nat) :
  (forall f0 o,
     FCFS.loadConfig EQf G X file = inr f0 -> FCFS.run fuel f0 = Ok o ->
     let st := FCFS.state_of o in
     exists rows, FCFS.printTable st = Ok rows /\
       Z.of_nat (length rows) = FCFS.numSources f0 /\
       (forall i row, rows !! i = Some row ->
          exists r src, FCFS.stats st !! i = Some r /\
            FCFS.sources st !! i = Some src /\
            row = row_of (FCFS.simulationTime f0) (FCFS.weight src) r /\
            0 <= dropRate row <= 1)) /\
  (forall w0 o,
     WFQ.loadConfig EQw BQ G X file = inr w0 -> WFQ.run fuel w0 = Ok o ->
     let st := WFQ.state_of o in
     exists rows, WFQ.printTable st = Ok rows /\
       Z.of_nat (length rows) = WFQ.numSources w0 /\
       (forall i row, rows !! i = Some row ->
          exists r src, WFQ.stats st !! i = Some r /\
            WFQ.sources st !! i = Some src /\
            row = row_of (WFQ.simulationTime w0) (WFQ.weight src) r /\
            0 <= dropRate row <= 1)).
Proof.
  split.
  - intros f0 o Hload Hrun. cbv zeta. apply FCFSFacts.loadConfig_loaded in Hload.
    pose proof (FCFSMore.run_keeps fuel f0 o Hload Hrun) as Hok.
    pose proof (FCFSMore.ledger_run fuel f0 o Hload Hrun) as Hl.
    pose proof (FCFSFacts.run_config _ _ _ Hrun) as Hcfg.
    injection Hcfg as HN HT _ _.
    eexists. split; [apply (FCFSMore.printTable_spec _ Hok)|].
    pose proof (FCFS.fi_sizes _ _ Hok) as Hsz. rewrite <- HT, <- HN.
    split.
    + rewrite length_zip_with, Hsz, Nat.min_id. symmetry. apply (FCFS.fi_num _ _ Hok).
    + intros i row Hrow.
      apply lookup_zip_with_Some in Hrow as (r & src & -> & Hr & Hsrc).
      exists r, src. repeat split; try done;
        destruct (FCFSMore.counters_bounds _ i r Hok Hl Hr) as (H1 & H2 & H3);
        apply (ratio_bounds (packetsDropped r) (packetsGenerated r)); lia.
  - intros w0 o Hload Hrun. cbv zeta. apply WFQFacts.wfq_loadConfig_loaded in Hload.
    pose proof (WFQFacts.wfq_run_keeps fuel w0 o Hload Hrun) as Hok.
    pose proof (WFQMore.wfq_ledger_run fuel w0 o Hload Hrun) as Hl.
    pose proof (WFQFacts.wfq_run_config _ _ _ Hrun) as Hcfg.
    injection Hcfg as HN HT _ _.
    eexists. split; [apply (WFQMore.wfq_printTable_spec _ Hok)|].
    pose proof (WFQ.wi_sizes _ _ Hok) as Hsz. rewrite <- HT, <- HN.
    split.
    + rewrite length_zip_with, Hsz, Nat.min_id. symmetry. apply (WFQ.wi_num _ _ Hok).
    + intros i row Hrow.
      apply lookup_zip_with_Some in Hrow as (r & src & -> & Hr & Hsrc).
      exists r, src. repeat split; try done;
        destruct (WFQMore.wfq_counters_bounds _ i r Hok Hl Hr) as (H1 & H2 & H3);
        apply (ratio_bounds (packetsDropped r) (packetsGenerated r)); lia.
Qed.

(** X13: after any run of either simulator the packet drop probability that
    [printResults] reports is the number of packets dropped over the number
    generated, both summed over the sources (0 when none was generated), and
    lies in [0, 1]. *)
Theorem X13_drop_probability
    (EQf : MinPQ FCFS.Event FCFS.ev_time)
    (EQw : MinPQ WFQ.Event WFQ.ev_time)
    (BQ : MinPQ WFQ.Packet WFQ.virtualFinishTime)
    (G : RandomEngine) (X : Extractor) (file : option (list string)) (fuel : nat) :
  (forall f0 o,
     FCFS.loadConfig EQf G X file = inr f0 -> FCFS.run fuel f0 = Ok o ->
     let st := FCFS.state_of o in
     let dropped := Zsum (map packetsDropped (FCFS.stats st)) in
     let generated := Zsum (map packetsGenerated (FCFS.stats st)) in
     exists m, FCFS.printResults st = Ok m /\
       dropProb m = (if (0 <? generated)%Z
                     then inject_Z dropped / inject_Z generated else 0) /\
       0 <= dropProb m <= 1) /\
  (forall w0 o,
     WFQ.loadConfig EQw BQ G X file = inr w0 -> WFQ.run fuel w0 = Ok o ->
     let st := WFQ.state_of o in
     let dropped := Zsum (map packetsDropped (WFQ.stats st)) in
     let generated := Zsum (map packetsGenerated (WFQ.stats st)) in
     exists m, WFQ.printResults st = Ok m /\
       dropProb m = (if (0 <? generated)%Z
                     then inject_Z dropped / inject_Z generated else 0) /\
       0 <= dropProb m <= 1).
Proof.
  split.
  - intros f0 o Hload Hrun. cbv zeta. apply FCFSFacts.loadConfig_loaded in Hload.
    pose proof (FCFSMore.run_keeps fuel f0 o Hload Hrun) as Hok.
    pose proof (FCFSMore.ledger_run fuel f0 o Hload Hrun) as Hl.
    destruct (FCFSMore.printResults_counts _ Hok) as (t & Hm & Hg & _ & Hd & _).
    eexists. split; [exact Hm|]. simpl. rewrite Hg, Hd. split; [reflexivity|].
    apply ratio_bounds. split.
    + apply Zsum_nonneg, Forall_map, Forall_lookup. intros i r Hr.
      destruct (FCFSMore.counters_bounds _ i r Hok Hl Hr) as (H1 & H2 & H3). exact H2.
    + apply Zsum_le, Forall_lookup. intros i r Hr.
      destruct (FCFSMore.counters_bounds _ i r Hok Hl Hr) as (H1 & H2 & H3). lia.
  - intros w0 o Hload Hrun. cbv zeta. apply WFQFacts.wfq_loadConfig_loaded in Hload.
    pose proof (WFQFacts.wfq_run_keeps fuel w0 o Hload Hrun) as Hok.
    pose proof (WFQMore.wfq_ledger_run fuel w0 o Hload Hrun) as Hl.
    destruct (WFQMore.wfq_printResults_counts _ Hok) as (t & Hm & Hg & _ & Hd & _).
    eexists. split; [exact Hm|]. simpl. rewrite Hg, Hd. split; [reflexivity|].
    apply ratio_bounds. split.
    + apply Zsum_nonneg, Forall_map, Forall_lookup. intros i r Hr.
      destruct (WFQMore.wfq_counters_bounds _ i r Hok Hl Hr) as (H1 & H2 & H3).
      exact H2.
    + apply Zsum_le, Forall_lookup. intros i r Hr.
      destruct (WFQMore.wfq_counters_bounds _ i r Hok Hl Hr) as (H1 & H2 & H3). lia.
Qed.

(** X14: the FCFS simulator with bufferSize = 0 runs without undefined
    behaviour, drops every packet it generates and transmits none: after any
    number of iterations the buffer is empty, the link is idle and every
    source has packetsTransmitted = 0, bytesTransmitted = 0 and
    packetsDropped = packetsGenerated. *)
Theorem X14_fcfs_zero_buffer_drops_everything
    (EQf : MinPQ FCFS.Event FCFS.ev_time)
    (G : RandomEngine) (X : Extractor) (file : option (list string)) (fuel : nat)
    (f0 : FCFS.State EQf G) :
  FCFS.loadConfig EQf G X file = inr f0 -> FCFS.bufferSize f0 = 0%nat ->
  exists o, FCFS.run fuel f0 = Ok o /\
    FCFS.packetBuffer (FCFS.state_of o) = [] /\
    FCFS.linkBusy (FCFS.state_of o) = false /\
    forall s r, FCFS.stats (FCFS.state_of o) !! s = Some r ->
      packetsTransmitted r = 0%Z /\ bytesTransmitted r == 0 /\
      packetsDropped r = packetsGenerated r.
Proof.
  intros Hload HB. apply FCFSFacts.loadConfig_loaded in Hload.
  destruct (FCFSFacts.run_ok fuel f0 Hload) as (o & Hrun & Hok).
  exists o. split; [exact Hrun|].
  destruct (FCFSMore.starved_run fuel f0 o Hload HB Hrun) as (HB' & Hidle & _).
  pose proof (FCFS.fi_bound _ _ Hok) as Hb. rewrite HB' in Hb.
  split; [destruct (FCFS.packetBuffer (FCFS.state_of o)); [done | simpl in Hb; lia]|].
  split; [exact Hidle|]. intros s r Hr.
  destruct (FCFSResults.fcfs_zero_buffer_drops_all fuel f0 o Hload HB Hrun s r Hr)
    as [H0 H1].
  split; [exact H0|]. split; [|exact H1].
  destruct (FCFSMore.ledger_run fuel f0 o Hload Hrun s r Hr) as (Hc & _ & -> & _).
  apply FCFSMore.no_departure_no_bytes. lia.
Qed.

(** X16: a run of either simulator does not write the configuration:
    numSources, simulationTime, linkCapacity and bufferSize stay as
    [loadConfig] left them, stats keeps one entry per source, the FCFS
    sources are unchanged and of the WFQ sources only lastFinishTime
    changes. *)
Theorem X16_configuration_read_only
    (EQf : MinPQ FCFS.Event FCFS.ev_time)
    (EQw : MinPQ WFQ.Event WFQ.ev_time)
    (BQ : MinPQ WFQ.Packet WFQ.virtualFinishTime)
    (G : RandomEngine) (X : Extractor) (file : option (list string)) (fuel : nat) :
  (forall f0 o,
     FCFS.loadConfig EQf G X file = inr f0 -> FCFS.run fuel f0 = Ok o ->
     let st := FCFS.state_of o in
     FCFS.config_of st = FCFS.config_of f0 /\
     FCFS.sources st = FCFS.sources f0 /\
     length (FCFS.stats st) = length (FCFS.sources f0) /\
     Z.of_nat (length (FCFS.stats st)) = FCFS.numSources f0) /\
  (forall w0 o,
     WFQ.loadConfig EQw BQ G X file = inr w0 -> WFQ.run fuel w0 = Ok o ->
     let st := WFQ.state_of o in
     WFQ.config_of st = WFQ.config_of w0 /\
     map (WFQ.set_lastFinishTime 0) (WFQ.sources st)
     = map (WFQ.set_lastFinishTime 0) (WFQ.sources w0) /\
     length (WFQ.stats st) = length (WFQ.sources w0) /\
     Z.of_nat (length (WFQ.stats st)) = WFQ.numSources w0).
Proof.
  split.
  - intros f0 o Hload Hrun. cbv zeta. apply FCFSFacts.loadConfig_loaded in Hload.
    pose proof (FCFSMore.run_keeps fuel f0 o Hload Hrun) as Hok.
    pose proof (FCFSFacts.run_config _ _ _ Hrun) as Hcfg.
    pose proof (FCFSMore.run_sources _ _ _ Hrun) as Hsrc.
    split; [exact Hcfg|]. split; [exact Hsrc|].
    injection Hcfg as HN _ _ _.
    split; [by rewrite <- (FCFS.fi_sizes _ _ Hok), Hsrc|].
    by rewrite <- HN, (FCFS.fi_num _ _ Hok).
  - intros w0 o Hload Hrun. cbv zeta. apply WFQFacts.wfq_loadConfig_loaded in Hload.
    pose proof (WFQFacts.wfq_run_keeps fuel w0 o Hload Hrun) as Hok.
    pose proof (WFQFacts.wfq_run_config _ _ _ Hrun) as Hcfg.
    pose proof (WFQMore.wfq_run_sources _ _ _ Hrun) as Hsrc.
    split; [exact Hcfg|]. split; [exact Hsrc|].
    injection Hcfg as HN _ _ _.
    split.
    + rewrite <- (WFQ.wi_sizes _ _ Hok).
      apply (f_equal length) in Hsrc. by rewrite !length_map in Hsrc.
    + by rewrite <- HN, (WFQ.wi_num _ _ Hok).
Qed.


(** X18: with draws in range, after any number of iterations of the loop of
    [run], in either simulator, the pending arrivals are of different
    sources: at most one arrival is pending for a source, so at most
    numSources arrivals are pending and the event queue holds at most
    numSources + 1 events. *)
Theorem X18_one_pending_arrival_per_source
    (EQf : MinPQ FCFS.Event FCFS.ev_time)
    (EQw : MinPQ WFQ.Event WFQ.ev_time)
    (BQ : MinPQ WFQ.Packet WFQ.virtualFinishTime)
    (G : RandomEngine) (laws : RandomEngineLaws G)
    (X : Extractor) (file : option (list string)) (fuel : nat) :
  (forall f0 o,
     FCFS.loadConfig EQf G X file = inr f0 -> FCFS.run fuel f0 = Ok o ->
     let evs := pq_elems EQf (FCFS.eventQueue (FCFS.state_of o)) in
     NoDup (FCFS.arrival_ids evs) /\
     (Z.of_nat (length (FCFS.arrival_ids evs)) <= FCFS.numSources f0)%Z /\
     (Z.of_nat (length evs) <= FCFS.numSources f0 + 1)%Z) /\
  (forall w0 o,
     WFQ.loadConfig EQw BQ G X file = inr w0 -> WFQ.run fuel w0 = Ok o ->
     let evs := pq_elems EQw (WFQ.eventQueue (WFQ.state_of o)) in
     NoDup (WFQ.arrival_ids evs) /\
     (Z.of_nat (length (WFQ.arrival_ids evs)) <= WFQ.numSources w0)%Z /\
     (Z.of_nat (length evs) <= WFQ.numSources w0 + 1)%Z).
Proof.
  split.
  - intros f0 o Hload Hrun. cbv zeta.
    pose proof (FCFSArrivals.loadConfig_indexed _ _ _ Hload) as Hix.
    apply FCFSFacts.loadConfig_loaded in Hload.
    pose proof (FCFSMore.run_keeps fuel f0 o Hload Hrun) as Hok.
    pose proof (FCFSArrivals.arrivals_run laws fuel f0 o Hload Hix Hrun) as Ha.
    pose proof (FCFSFacts.run_config _ _ _ Hrun) as Hcfg.
    injection Hcfg as HN _ _ _. rewrite <- HN, (FCFS.fi_num _ _ Hok).
    destruct (FCFSArrivals.queue_bound _ Hok Ha) as [H1 H2].
    unfold pq_size in H2. split; [apply (FCFS.ar_nodup _ _ Ha)|]. lia.
  - intros w0 o Hload Hrun. cbv zeta.
    pose proof (WFQArrivals.wfq_loadConfig_indexed _ _ _ Hload) as Hix.
    apply WFQFacts.wfq_loadConfig_loaded in Hload.
    pose proof (WFQFacts.wfq_run_keeps fuel w0 o Hload Hrun) as Hok.
    pose proof (WFQArrivals.wfq_arrivals_run laws fuel w0 o Hload Hix Hrun) as Ha.
    pose proof (WFQFacts.wfq_run_config _ _ _ Hrun) as Hcfg.
    injection Hcfg as HN _ _ _. rewrite <- HN, (WFQ.wi_num _ _ Hok).
    destruct (WFQArrivals.wfq_queue_bound _ Hok Ha) as [H1 H2].
    unfold pq_size in H2. split; [apply (WFQ.wa_nodup _ _ Ha)|]. lia.
Qed.

(** X19: with draws in range, in either simulator every arrival lies in the
    window of its source: the time t of a pending arrival of source s, and
    the arrival time t of every packet of s that is buffered, has been
    dropped or has started its transmission, satisfies startTime <= t and
    either t = startTime or t < endTime, for the startTime and endTime that
    [loadConfig] computed for s. *)
Theorem X19_arrivals_within_window
    (EQf : MinPQ FCFS.Event FCFS.ev_time)
    (EQw : MinPQ WFQ.Event WFQ.ev_time)
    (BQ : MinPQ WFQ.Packet WFQ.virtualFinishTime)
    (G : RandomEngine) (laws : RandomEngineLaws G)
    (X : Extractor) (file : option (list string)) (fuel : nat) :
  (forall f0 o,
     FCFS.loadConfig EQf G X file = inr f0 -> FCFS.run fuel f0 = Ok o ->
     let st := FCFS.state_of o in
     (forall t s, FCFS.PACKET_ARRIVAL t s ∈ pq_elems EQf (FCFS.eventQueue st) ->
        FCFS.arrives_in_window f0 s t) /\
     (forall p,
        p ∈ FCFS.packetBuffer st \/ FCFS.Dropped p ∈ FCFS.history st \/
        (exists t0, FCFS.Started p t0 ∈ FCFS.history st) ->
        FCFS.arrives_in_window f0 (FCFS.pkt_sourceID p) (FCFS.pkt_arrivalTime p))) /\
  (forall w0 o,
     WFQ.loadConfig EQw BQ G X file = inr w0 -> WFQ.run fuel w0 = Ok o ->
     let st := WFQ.state_of o in
     (forall t s, WFQ.PACKET_ARRIVAL t s ∈ pq_elems EQw (WFQ.eventQueue st) ->
        WFQ.arrives_in_window w0 s t) /\
     (forall p,
        p ∈ pq_elems BQ (WFQ.packetBuffer st) \/ WFQ.Dropped p ∈ WFQ.history st \/
        (exists t0 v, WFQ.Started p t0 v ∈ WFQ.history st) ->
        WFQ.arrives_in_window w0 (WFQ.pkt_sourceID p) (WFQ.pkt_arrivalTime p))).
Proof.
  split.
  - intros f0 o Hload Hrun. cbv zeta.
    pose proof (FCFSArrivals.loadConfig_indexed _ _ _ Hload) as Hix.
    apply FCFSFacts.loadConfig_loaded in Hload.
    destruct (FCFSArrivals.arrivals_run laws fuel f0 o Hload Hix Hrun)
      as [_ H2 H3 H4 H5].
    pose proof (FCFSMore.run_sources _ _ _ Hrun) as Hsrc.
    unfold FCFS.arrives_in_window in *. rewrite Hsrc in *.
    split; [exact H2|]. intros p [Hp|[Hp|[t0 Hp]]]; eauto.
  - intros w0 o Hload Hrun. cbv zeta.
    pose proof (WFQArrivals.wfq_loadConfig_indexed _ _ _ Hload) as Hix.
    apply WFQFacts.wfq_loadConfig_loaded in Hload.
    destruct (WFQArrivals.wfq_arrivals_run laws fuel w0 o Hload Hix Hrun)
      as [_ H2 H3 H4 H5].
    pose proof (WFQMore.wfq_run_sources _ _ _ Hrun) as Hsrc.
    split.
    + intros t s Hin. eapply WFQArrivals.wfq_window_config; [exact Hsrc|]. eauto.
    + intros p Hp. eapply WFQArrivals.wfq_window_config; [exact Hsrc|].
      destruct Hp as [Hp|[Hp|(t0 & v & Hp)]]; eauto.
Qed.

(** * Counterexamples and witnesses *)

(** C1 (as stated): at the end of the run, generated = transmitted + dropped
    + still buffered, for every source.  It fails for the FCFS simulator on
    [slow_link]: the only packet is taken from the buffer at time 0, its
    departure at time 100 lies beyond the horizon and is not scheduled, and
    the run ends with 1 generated, 0 transmitted, 0 dropped, 0 buffered. *)
Lemma C1_counterexample :
  exists st0 st r,
    FCFS.loadConfig FcfsEvents (ScriptedEngine []) DecimalExtractor (Some slow_link)
      = inr st0 /\
    FCFS.run 2 st0 = Ok (FCFS.Halted st) /\
    FCFS.stats st !! 0%nat = Some r /\
    packetsGenerated r <>
    (packetsTransmitted r + packetsDropped r + Z.of_nat (FCFS.buffered 0 st))%Z.
Proof.
  exists_value (FCFS.loadConfig FcfsEvents (ScriptedEngine []) DecimalExtractor
                  (Some slow_link)).
  match goal with |- exists st r, _ /\ ?run = _ /\ _ => exists_value run end.
  match goal with |- exists r, _ /\ _ /\ ?look = _ /\ _ => exists_value look end.
  repeat split; try (vm_compute; reflexivity).
  vm_compute. discriminate.
Qed.

Lemma C1_accounting_witness :
  exists f0 w0,
    FCFS.loadConfig FcfsEvents (ScriptedEngine []) DecimalExtractor (Some slow_link)
      = inr f0 /\
    WFQ.loadConfig WfqEvents WfqBuffer (ScriptedEngine []) DecimalExtractor
      (Some slow_link) = inr w0 /\
    (1 <= WFQ.bufferSize w0)%nat /\
    (exists o, FCFS.run 2 f0 = Ok o /\
       forall s r, FCFS.stats (FCFS.state_of o) !! s = Some r ->
          packetsGenerated r =
          (packetsTransmitted r + packetsDropped r
           + Z.of_nat (FCFS.buffered s (FCFS.state_of o))
           + Z.of_nat (FCFS.in_flight s (FCFS.state_of o))
           + Z.of_nat (FCFS.lost s (FCFS.state_of o)))%Z) /\
    (exists o, WFQ.run 2 w0 = Ok o /\
       forall s r, WFQ.stats (WFQ.state_of o) !! s = Some r ->
          packetsGenerated r =
          (packetsTransmitted r + packetsDropped r
           + Z.of_nat (WFQ.buffered s (WFQ.state_of o))
           + Z.of_nat (WFQ.in_flight s (WFQ.state_of o))
           + Z.of_nat (WFQ.lost s (WFQ.state_of o)))%Z).
Proof.
  exists_value (FCFS.loadConfig FcfsEvents (ScriptedEngine []) DecimalExtractor
                  (Some slow_link)).
  exists_value (WFQ.loadConfig WfqEvents WfqBuffer (ScriptedEngine [])
                  DecimalExtractor (Some slow_link)).
  split; [vm_compute; reflexivity|].
  split; [vm_compute; reflexivity|].
  split; [vm_compute; lia|].
  pose proof (C1_accounting FcfsEvents WfqEvents WfqBuffer (ScriptedEngine [])
                DecimalExtractor (Some slow_link) 2) as [Hf Hw].
  split.
  - destruct (Hf _ eq_refl) as (o & Ho & Hacc & _). exists o. split; [exact Ho | exact Hacc].
  - destruct (Hw _ eq_refl) as [Htotal Hkept].
    destruct (Htotal ltac:(vm_compute; lia)) as (o & Ho).
    exists o. split; [exact Ho | exact (proj1 (Hkept o Ho))].
Defined.

Lemma C10_lost_departure_witness :
  (exists f0 o1 o2 t p,
     FCFS.loadConfig FcfsEvents (ScriptedEngine []) DecimalExtractor (Some slow_link)
       = inr f0 /\
     FCFS.run 1 f0 = Ok o1 /\
     In (FCFS.Discarded (FCFS.PACKET_DEPARTURE t p)) (FCFS.history (FCFS.state_of o1)) /\
     FCFS.run (1 + 1) f0 = Ok o2 /\
     FCFS.linkBusy (FCFS.state_of o2) = true /\
     (forall r, FCFS.stats (FCFS.state_of o2) !! FCFS.pkt_sourceID p = Some r ->
        packetsGenerated r =
        (packetsTransmitted r + packetsDropped r
         + Z.of_nat (FCFS.buffered (FCFS.pkt_sourceID p) (FCFS.state_of o2)) + 1)%Z)) /\
  (exists w0 o1 o2 t p,
     WFQ.loadConfig WfqEvents WfqBuffer (ScriptedEngine []) DecimalExtractor
       (Some slow_link) = inr w0 /\
     WFQ.run 1 w0 = Ok o1 /\
     In (WFQ.Discarded (WFQ.PACKET_DEPARTURE t p)) (WFQ.history (WFQ.state_of o1)) /\
     WFQ.run (1 + 1) w0 = Ok o2 /\
     WFQ.linkBusy (WFQ.state_of o2) = true /\
     (forall r, WFQ.stats (WFQ.state_of o2) !! WFQ.pkt_sourceID p = Some r ->
        packetsGenerated r =
        (packetsTransmitted r + packetsDropped r
         + Z.of_nat (WFQ.buffered (WFQ.pkt_sourceID p) (WFQ.state_of o2)) + 1)%Z)) /\
  (exists f0,
     FCFS.loadConfig FcfsEvents (ScriptedEngine []) DecimalExtractor (Some slow_link)
       = inr f0 /\
     let p := {| FCFS.pkt_id := 1; FCFS.pkt_sourceID := 0; FCFS.pkt_size := 100;
                 FCFS.pkt_arrivalTime := 0 |} in
     let st := FCFS.set_packetBuffer [p] f0 in
     FCFS.linkBusy st = false /\
     FCFS.simulationTime st
       < FCFS.currentTime st + inject_Z (FCFS.pkt_size p) / FCFS.linkCapacity st /\
     FCFS.linkBusy (FCFS.startNextTransmission st) = true /\
     FCFS.eventQueue (FCFS.startNextTransmission st) = FCFS.eventQueue st) /\
  (exists w0 st',
     WFQ.loadConfig WfqEvents WfqBuffer (ScriptedEngine []) DecimalExtractor
       (Some slow_link) = inr w0 /\
     let p := {| WFQ.pkt_id := 1; WFQ.pkt_sourceID := 0; WFQ.pkt_size := 100;
                 WFQ.pkt_weight := 1; WFQ.pkt_arrivalTime := 0;
                 WFQ.virtualFinishTime := 100 |} in
     let st := WFQ.set_packetBuffer (pq_push WfqBuffer p (pq_new WfqBuffer)) w0 in
     WFQ.linkBusy st = false /\
     pq_top WfqBuffer (WFQ.packetBuffer st) = Some p /\
     WFQ.simulationTime st
       < WFQ.currentTime st + inject_Z (WFQ.pkt_size p) / WFQ.linkCapacity st /\
     WFQ.startNextTransmission st = Ok st' /\
     WFQ.linkBusy st' = true /\
     WFQ.eventQueue st' = WFQ.eventQueue st).
Proof.
  pose proof (C10_lost_departure FcfsEvents WfqEvents WfqBuffer
    (ScriptedEngine []) DecimalExtractor (Some slow_link)) as [[Hf1 Hf2] [Hw1 Hw2]].
  split; [|split; [|split]].
  - let l := eval vm_compute in
      (FCFS.loadConfig FcfsEvents (ScriptedEngine []) DecimalExtractor (Some slow_link)) in
    match l with inr ?f0 =>
      let r1 := eval vm_compute in (FCFS.run 1 f0) in
      let r2 := eval vm_compute in (FCFS.run (1 + 1) f0) in
      match r1 with Ok ?o1 =>
        match r2 with Ok ?o2 =>
          let h := eval vm_compute in (FCFS.history (FCFS.state_of o1)) in
          match h with FCFS.Discarded (FCFS.PACKET_DEPARTURE ?t ?p) :: _ =>
            exists f0, o1, o2, t, p;
            assert (E0 : FCFS.loadConfig FcfsEvents (ScriptedEngine []) DecimalExtractor
                           (Some slow_link) = inr f0) by (vm_compute; reflexivity);
            assert (E1 : FCFS.run 1 f0 = Ok o1) by (vm_compute; reflexivity);
            assert (E2 : In (FCFS.Discarded (FCFS.PACKET_DEPARTURE t p))
                            (FCFS.history (FCFS.state_of o1)))
              by (vm_compute; left; reflexivity);
            assert (E3 : FCFS.run (1 + 1) f0 = Ok o2) by (vm_compute; reflexivity);
            destruct (Hf2 f0 1%nat 1%nat o1 o2 t p E0 E1 E2 E3) as (Hb & _ & _ & _ & Hacc)
          end
        end
      end
    end.
    repeat split; assumption.
  - let l := eval vm_compute in
      (WFQ.loadConfig WfqEvents WfqBuffer (ScriptedEngine []) DecimalExtractor
         (Some slow_link)) in
    match l with inr ?w0 =>
      let r1 := eval vm_compute in (WFQ.run 1 w0) in
      let r2 := eval vm_compute in (WFQ.run (1 + 1) w0) in
      match r1 with Ok ?o1 =>
        match r2 with Ok ?o2 =>
          let h := eval vm_compute in (WFQ.history (WFQ.state_of o1)) in
          match h with WFQ.Discarded (WFQ.PACKET_DEPARTURE ?t ?p) :: _ =>
            exists w0, o1, o2, t, p;
            assert (E0 : WFQ.loadConfig WfqEvents WfqBuffer (ScriptedEngine [])
                           DecimalExtractor (Some slow_link) = inr w0)
              by (vm_compute; reflexivity);
            assert (E1 : WFQ.run 1 w0 = Ok o1) by (vm_compute; reflexivity);
            assert (E2 : In (WFQ.Discarded (WFQ.PACKET_DEPARTURE t p))
                            (WFQ.history (WFQ.state_of o1)))
              by (vm_compute; left; reflexivity);
            assert (E3 : WFQ.run (1 + 1) w0 = Ok o2) by (vm_compute; reflexivity);
            destruct (Hw2 w0 1%nat 1%nat o1 o2 t p E0 E1 E2 E3) as (Hb & _ & _ & _ & Hacc)
          end
        end
      end
    end.
    repeat split; assumption.
  - let l := eval vm_compute in
      (FCFS.loadConfig FcfsEvents (ScriptedEngine []) DecimalExtractor (Some slow_link)) in
    match l with inr ?f0 =>
      exists f0;
      pose (p := {| FCFS.pkt_id := 1; FCFS.pkt_sourceID := 0; FCFS.pkt_size := 100;
                    FCFS.pkt_arrivalTime := 0 |});
      pose (st := FCFS.set_packetBuffer [p] f0)
    end.
    split; [vm_compute; reflexivity|].
    assert (E0 : FCFS.linkBusy st = false) by reflexivity.
    assert (E1 : FCFS.packetBuffer st = [p]) by reflexivity.
    assert (E2 : FCFS.simulationTime st
                 < FCFS.currentTime st + inject_Z (FCFS.pkt_size p) / FCFS.linkCapacity st)
      by by_evaluation.
    destruct (Hf1 st p [] E0 E1 E2) as (Hq & Hb & _).
    split; [exact E0|]. split; [exact E2|]. split; [exact Hb | exact Hq].
  - let l := eval vm_compute in
      (WFQ.loadConfig WfqEvents WfqBuffer (ScriptedEngine []) DecimalExtractor
         (Some slow_link)) in
    match l with inr ?w0 =>
      pose (w := w0);
      pose (p := {| WFQ.pkt_id := 1; WFQ.pkt_sourceID := 0; WFQ.pkt_size := 100;
                    WFQ.pkt_weight := 1; WFQ.pkt_arrivalTime := 0;
                    WFQ.virtualFinishTime := 100 |});
      pose (st := WFQ.set_packetBuffer (pq_push WfqBuffer p (pq_new WfqBuffer)) w0)
    end.
    assert (E0 : WFQ.linkBusy st = false) by reflexivity.
    assert (E1 : pq_top WfqBuffer (WFQ.packetBuffer st) = Some p) by reflexivity.
    assert (E2 : WFQ.simulationTime st
                 < WFQ.currentTime st + inject_Z (WFQ.pkt_size p) / WFQ.linkCapacity st)
      by by_evaluation.
    destruct (Hw1 st p E0 E1 E2) as (st' & Hst & Hq & Hb & _).
    exists w, st'.
    split; [vm_compute; reflexivity|].
    split; [exact E0|]. split; [exact E1|]. split; [exact E2|].
    split; [exact Hst|]. split; [exact Hb | exact Hq].
Defined.

(** C9 (as stated): the bytes transmitted are at most linkCapacity *
    simulationTime and the reported utilization is at most 1.  It fails in
    binary64 on [tight_horizon], a valid configuration: the first packet
    leaves at 12 / 100 = 0.12, the second is due at 0.12 + 11 / 100, a sum
    that rounds to 0.22999999999999998, which is not beyond the horizon;
    both are counted, 23 bytes where linkCapacity * simulationTime is less
    than 23, and the utilization reported is (23 / 100) /
    0.22999999999999998 = 1.0000000000000002. *)
Lemma C9_counterexample :
  (exists w, WFQ.loadConfig WfqEvents WfqBuffer (ScriptedEngine []) DecimalExtractor
               (Some tight_horizon) = inr w /\
     WFQ.wfq_valid_config w /\
     WFQ.linkCapacity w * WFQ.simulationTime w < inject_Z (12 + 11)) /\
  exists w0 st m,
    WFQ64.loadConfig DecimalExtractor [] (Some tight_horizon) = inr w0 /\
    WFQ64.run 5 w0 = Ok (WFQ64.Halted st) /\
    map WFQ64.bytesTransmitted (WFQ64.stats st) = [WFQ64.of_Z 12; WFQ64.of_Z 11] /\
    WFQ64.printResults st = Ok m /\
    PrimFloat.ltb (WFQ64.of_Z 1) (WFQ64.util m) = true.
Proof.
  split.
  - exists_value (WFQ.loadConfig WfqEvents WfqBuffer (ScriptedEngine [])
                    DecimalExtractor (Some tight_horizon)).
    split; [reflexivity|]. split; [valid_here | by_evaluation].
  - exists_value (WFQ64.loadConfig DecimalExtractor [] (Some tight_horizon)).
    match goal with |- exists st m, _ /\ ?run = _ /\ _ =>
      let r := eval vm_compute in run in
      match r with Ok (WFQ64.Halted ?st) => exists st end
    end.
    match goal with |- exists m, _ /\ _ /\ _ /\ ?pr = _ /\ _ => exists_value pr end.
    repeat split; vm_compute; reflexivity.
Qed.

Lemma C9_transmissions_in_sequence_witness :
  (exists f0 o m,
     FCFS.loadConfig FcfsEvents (ScriptedEngine burst_tape) DecimalExtractor
       (Some light_load) = inr f0 /\
     FCFS.valid_config f0 /\
     FCFS.run 8 f0 = Ok o /\
     length (Refinement.fcfs_departures (FCFS.history (FCFS.state_of o))) = 4%nat /\
     (forall h2 q t1 h1 p t0 h0,
        FCFS.history (FCFS.state_of o)
          = h2 ++ FCFS.Started q t1 :: h1 ++ FCFS.Started p t0 :: h0 ->
        t0 + inject_Z (FCFS.pkt_size p) / FCFS.linkCapacity f0 <= t1) /\
     (forall p t, FCFS.Departed p t ∈ FCFS.history (FCFS.state_of o) ->
        t <= FCFS.simulationTime f0) /\
     FCFS.printResults (FCFS.state_of o) = Ok m /\
     0 <= util m) /\
  (exists w0 o m,
     WFQ.loadConfig WfqEvents WfqBuffer (ScriptedEngine burst_tape) DecimalExtractor
       (Some light_load) = inr w0 /\
     WFQ.wfq_valid_config w0 /\
     WFQ.run 8 w0 = Ok o /\
     length (Refinement.wfq_departures (WFQ.history (WFQ.state_of o))) = 4%nat /\
     (forall h2 q t1 v1 h1 p t0 v0 h0,
        WFQ.history (WFQ.state_of o)
          = h2 ++ WFQ.Started q t1 v1 :: h1 ++ WFQ.Started p t0 v0 :: h0 ->
        t0 + inject_Z (WFQ.pkt_size p) / WFQ.linkCapacity w0 <= t1) /\
     (forall p t, WFQ.Departed p t ∈ WFQ.history (WFQ.state_of o) ->
        t <= WFQ.simulationTime w0) /\
     WFQ.printResults (WFQ.state_of o) = Ok m /\
     0 <= util m).
Proof.
  pose proof (C9_transmissions_in_sequence FcfsEvents WfqEvents WfqBuffer
    (ScriptedEngine burst_tape) (ScriptedEngine_laws _) DecimalExtractor
    (Some light_load) 8) as [Hf Hw].
  split.
  - with_fcfs burst_tape light_load 8%nat
      ltac:(fun f0 o =>
        assert (E1 : FCFS.valid_config f0) by valid_here;
        destruct (Hf f0 o E0 E1 E2) as (H1 & H2 & m & H3 & _ & H4);
        exists f0, o, m;
        split; [exact E0|]; split; [exact E1|]; split; [exact E2|];
        split; [reflexivity|]; split; [exact H1|];
        split; [intros p t Hin; exact (proj1 (H2 p t Hin))|];
        split; [exact H3 | exact H4]).
  - with_wfq burst_tape light_load 8%nat
      ltac:(fun w0 o =>
        assert (E1 : WFQ.wfq_valid_config w0) by valid_here;
        destruct (Hw w0 o E0 E1 E2) as (H1 & H2 & m & H3 & _ & H4);
        exists w0, o, m;
        split; [exact E0|]; split; [exact E1|]; split; [exact E2|];
        split; [reflexivity|]; split; [exact H1|];
        split; [intros p t Hin; exact (proj1 (H2 p t Hin))|];
        split; [exact H3 | exact H4]).
Defined.



(** C3 (as stated): when the arriving packet has the smallest VFT among all
    candidates, it is the one dropped.  It fails on [two_sources] with
    bufferSize 1: after two events the buffer holds packet 2 of source 1
    (VFT 100); the third event is the arrival of packet 3 of source 0 with
    VFT 2, the smallest of the two candidates; the code drops packet 2 and
    keeps the arriving packet 3, whose source has no drop counted. *)
Lemma C3_counterexample :
  exists w0 st2 st3 d a,
    WFQ.loadConfig WfqEvents WfqBuffer (ScriptedEngine two_sources_tape)
      DecimalExtractor (Some (two_sources "1")) = inr w0 /\
    WFQ.run 2 w0 = Ok (WFQ.Running st2) /\
    WFQ.run 3 w0 = Ok (WFQ.Running st3) /\
    WFQ.bufferSize st2 = 1%nat /\
    pq_elems WfqBuffer (WFQ.packetBuffer st2) = [d] /\
    pq_elems WfqBuffer (WFQ.packetBuffer st3) = [a] /\
    WFQ.pkt_id a = WFQ.nextPacketId st2 /\
    WFQ.virtualFinishTime a < WFQ.virtualFinishTime d /\
    WFQ.history st3 = WFQ.Dropped d :: WFQ.history st2 /\
    packetsDropped <$> WFQ.stats st3 !! WFQ.pkt_sourceID a = Some 0%Z.
Proof.
  let l := eval vm_compute in
    (WFQ.loadConfig WfqEvents WfqBuffer (ScriptedEngine two_sources_tape)
       DecimalExtractor (Some (two_sources "1"))) in
  match l with inr ?w0 =>
    let r2 := eval vm_compute in (WFQ.run 2 w0) in
    let r3 := eval vm_compute in (WFQ.run 3 w0) in
    match r2 with Ok (WFQ.Running ?st2) =>
      match r3 with Ok (WFQ.Running ?st3) =>
        let b2 := eval vm_compute in (pq_elems WfqBuffer (WFQ.packetBuffer st2)) in
        let b3 := eval vm_compute in (pq_elems WfqBuffer (WFQ.packetBuffer st3)) in
        match b2 with [?d] =>
          match b3 with [?a] => exists w0, st2, st3, d, a end
        end
      end
    end
  end.
  repeat split; by_evaluation.
Qed.

Lemma C3_drop_smallest_buffered_witness :
  exists w0 st2 t s d a st3,
    WFQ.loadConfig WfqEvents WfqBuffer (ScriptedEngine two_sources_tape)
      DecimalExtractor (Some (two_sources "1")) = inr w0 /\
    WFQ.wfq_weights_bounded w0 /\
    WFQ.run 2 w0 = Ok (WFQ.Running st2) /\
    pq_top WfqEvents (WFQ.eventQueue st2) = Some (WFQ.PACKET_ARRIVAL t s) /\
    pq_size WfqBuffer (WFQ.packetBuffer st2) = WFQ.bufferSize st2 /\
    (1 <= WFQ.bufferSize st2)%nat /\
    WFQ.step st2 = Ok (WFQ.Running st3) /\
    pq_top WfqBuffer (WFQ.packetBuffer st2) = Some d /\
    WFQ.pkt_id a = WFQ.nextPacketId st2 /\
    a ∈ pq_elems WfqBuffer (WFQ.packetBuffer st3) /\
    pq_size WfqBuffer (WFQ.packetBuffer st3) = WFQ.bufferSize st2 /\
    WFQ.stats st3
      = alter incr_dropped (WFQ.pkt_sourceID d)
          (alter incr_generated s (WFQ.stats st2)).
Proof.
  with_wfq two_sources_tape (two_sources "1") 2%nat
    ltac:(fun w0 o =>
      match o with WFQ.Running ?st2 =>
        let e := eval vm_compute in (pq_top WfqEvents (WFQ.eventQueue st2)) in
        match e with Some (WFQ.PACKET_ARRIVAL ?t ?s) =>
          assert (E1 : WFQ.wfq_weights_bounded w0)
            by (repeat constructor; by_evaluation);
          assert (E3 : pq_top WfqEvents (WFQ.eventQueue st2)
                       = Some (WFQ.PACKET_ARRIVAL t s)) by reflexivity;
          assert (E4 : pq_size WfqBuffer (WFQ.packetBuffer st2) = WFQ.bufferSize st2)
            by reflexivity;
          assert (E5 : (1 <= WFQ.bufferSize st2)%nat) by by_evaluation;
          destruct (C3_drop_smallest_buffered WfqEvents WfqBuffer
                      (ScriptedEngine two_sources_tape) DecimalExtractor
                      (Some (two_sources "1")) w0 st2 2%nat t s E0 E1 E2 E3 E4 E5)
            as (d & a & st3 & H1 & H2 & _ & H3 & _ & H4 & _ & H5 & H6 & _);
          exists w0, st2, t, s, d, a, st3
        end
      end).
  repeat split; assumption.
Defined.


(** C6 (as stated): an input with endFrac < startFrac makes configuration
    loading report an error and the simulator not start.  It fails on
    [inverted_window] (startFrac 0.5, endFrac 0.2): [loadConfig] returns
    the simulator with endTime < startTime, [main] calls [run], and the
    loop handles the arrival at time 5, generating a packet. *)
Lemma C6_counterexample :
  exists f0 src st1 r,
    FCFS.loadConfig FcfsEvents (ScriptedEngine []) DecimalExtractor
      (Some inverted_window) = inr f0 /\
    FCFS.sources f0 = [src] /\
    FCFS.endTime src < FCFS.startTime src /\
    FCFS.main FcfsEvents (ScriptedEngine []) DecimalExtractor
      (Some inverted_window) 1 = inr (Ok (FCFS.Running st1)) /\
    FCFS.stats st1 !! 0%nat = Some r /\
    packetsGenerated r = 1%Z.
Proof.
  let l := eval vm_compute in
    (FCFS.loadConfig FcfsEvents (ScriptedEngine []) DecimalExtractor
       (Some inverted_window)) in
  match l with inr ?f0 =>
    let s := eval vm_compute in (FCFS.sources f0) in
    let r1 := eval vm_compute in (FCFS.run 1 f0) in
    match s with [?src] =>
      match r1 with Ok (FCFS.Running ?st1) =>
        let r := eval vm_compute in (FCFS.stats st1 !! 0%nat) in
        match r with Some ?r => exists f0, src, st1, r end
      end
    end
  end.
  repeat split; by_evaluation.
Qed.

(** C2 (as stated): the samples of systemVirtualTime at successive
    transmission starts never decrease.  It fails on [two_sources] with
    bufferSize 10: packet 4 of source 0 (weight 10) starts at time 20 and
    leaves systemVirtualTime = 2; the next start, of packet 2 of source 1
    (weight 1) at time 30, leaves systemVirtualTime = 0. *)
Lemma C2_counterexample :
  exists w0 st q t' v' d p t v h0,
    WFQ.loadConfig WfqEvents WfqBuffer (ScriptedEngine two_sources_tape)
      DecimalExtractor (Some (two_sources "10")) = inr w0 /\
    WFQ.wfq_valid_weights w0 /\
    WFQ.run 7 w0 = Ok (WFQ.Running st) /\
    WFQ.history st
      = WFQ.Started q t' v' :: d :: WFQ.Started p t v :: h0 /\
    WFQ.is_start d = false /\
    v' = WFQ.systemVirtualTime st /\
    v' < v.
Proof.
  let l := eval vm_compute in
    (WFQ.loadConfig WfqEvents WfqBuffer (ScriptedEngine two_sources_tape)
       DecimalExtractor (Some (two_sources "10"))) in
  match l with inr ?w0 =>
    let r := eval vm_compute in (WFQ.run 7 w0) in
    match r with Ok (WFQ.Running ?st) =>
      let h := eval vm_compute in (WFQ.history st) in
      match h with WFQ.Started ?q ?t' ?v' :: ?d :: WFQ.Started ?p ?t ?v :: ?h0 =>
        exists w0, st, q, t', v', d, p, t, v, h0
      end
    end
  end.
  split; [by_evaluation|]. split; [repeat constructor; by_evaluation|].
  repeat split; by_evaluation.
Qed.

Lemma C2_virtual_time_at_start_witness :
  (exists w0 st st',
     WFQ.loadConfig WfqEvents WfqBuffer (ScriptedEngine two_sources_tape)
       DecimalExtractor (Some (two_sources "10")) = inr w0 /\
     WFQ.run 3 w0 = Ok (WFQ.Running st) /\
     WFQ.startNextTransmission (WFQ.set_linkBusy false st) = Ok st' /\
     st' <> WFQ.set_linkBusy false st /\
     exists p, pq_top WfqBuffer (WFQ.packetBuffer st) = Some p /\
       WFQ.systemVirtualTime st'
       = WFQ.virtualFinishTime p - inject_Z (WFQ.pkt_size p) / WFQ.pkt_weight p) /\
  exists w0 o,
    WFQ.loadConfig WfqEvents WfqBuffer (ScriptedEngine two_sources_tape)
      DecimalExtractor (Some (two_sources "10")) = inr w0 /\
    WFQ.run 7 w0 = Ok o /\
    length (filter (fun x => WFQ.is_start x = true) (WFQ.history (WFQ.state_of o)))
      = 4%nat /\
    (forall p t v, WFQ.Started p t v ∈ WFQ.history (WFQ.state_of o) ->
       v = WFQ.virtualFinishTime p - inject_Z (WFQ.pkt_size p) / WFQ.pkt_weight p) /\
    WFQ.systemVirtualTime (WFQ.state_of o)
      = WFQ.latest_sample (WFQ.history (WFQ.state_of o)).
Proof.
  pose proof (C2_virtual_time_at_start WfqEvents WfqBuffer
    (ScriptedEngine two_sources_tape) DecimalExtractor
    (Some (two_sources "10"))) as [Hstart H].
  split.
  - with_wfq two_sources_tape (two_sources "10") 3%nat
      ltac:(fun w0 o =>
        match o with WFQ.Running ?st =>
          let r' := eval vm_compute in
            (WFQ.startNextTransmission (WFQ.set_linkBusy false st)) in
          match r' with Ok ?st' =>
            exists w0, st, st';
            assert (E3 : WFQ.startNextTransmission (WFQ.set_linkBusy false st) = Ok st')
              by reflexivity;
            assert (E4 : st' <> WFQ.set_linkBusy false st)
              by (intros E; apply (f_equal WFQ.linkBusy) in E; discriminate);
            destruct (Hstart _ _ E3) as [Hsame|(p & Hp & Hv & _)]; [by destruct E4|];
            split; [exact E0|]; split; [exact E2|]; split; [exact E3|];
            split; [exact E4|]; exists p; split; [exact Hp | exact Hv]
          end
        end).
  - with_wfq two_sources_tape (two_sources "10") 7%nat
      ltac:(fun w0 o =>
        destruct (H w0 7%nat o E0 E2) as [H1 H2];
        exists w0, o;
        split; [exact E0|]; split; [exact E2|]; split; [reflexivity|];
        split; [exact H1 | exact H2]).
Defined.



(** ** Runs whose outcome depends on rounding *)

(** Three sources with equal x_i = 11 / 3: the fairness index reported is
    1.0000000000000002, above 1. *)
Lemma binary64_fairness_above_one :
  exists w0 st m,
    WFQ64.loadConfig DecimalExtractor [] (Some (three_alike "11")) = inr w0 /\
    WFQ64.run 7 w0 = Ok (WFQ64.Halted st) /\
    map WFQ64.bytesTransmitted (WFQ64.stats st)
      = [WFQ64.of_Z 11; WFQ64.of_Z 11; WFQ64.of_Z 11] /\
    map WFQ64.weight (WFQ64.sources st)
      = [WFQ64.of_Z 3; WFQ64.of_Z 3; WFQ64.of_Z 3] /\
    WFQ64.printResults st = Ok m /\
    PrimFloat.ltb (WFQ64.of_Z 1) (WFQ64.fairness m) = true.
Proof.
  exists_value (WFQ64.loadConfig DecimalExtractor [] (Some (three_alike "11"))).
  match goal with |- exists st m, _ /\ ?run = _ /\ _ =>
    let r := eval vm_compute in run in
    match r with Ok (WFQ64.Halted ?st) => exists st end
  end.
  match goal with |- exists m, _ /\ _ /\ _ /\ _ /\ ?pr = _ /\ _ => exists_value pr end.
  repeat split; vm_compute; reflexivity.
Qed.

(** Three sources with equal x_i = 100 / 3: the fairness index reported is
    0.99999999999999978, not 1. *)
Lemma binary64_fairness_below_one_on_equal_shares :
  exists w0 st m,
    WFQ64.loadConfig DecimalExtractor [] (Some (three_alike "100")) = inr w0 /\
    WFQ64.run 7 w0 = Ok (WFQ64.Halted st) /\
    map WFQ64.bytesTransmitted (WFQ64.stats st)
      = [WFQ64.of_Z 100; WFQ64.of_Z 100; WFQ64.of_Z 100] /\
    map WFQ64.weight (WFQ64.sources st)
      = [WFQ64.of_Z 3; WFQ64.of_Z 3; WFQ64.of_Z 3] /\
    WFQ64.printResults st = Ok m /\
    PrimFloat.ltb (WFQ64.fairness m) (WFQ64.of_Z 1) = true.
Proof.
  exists_value (WFQ64.loadConfig DecimalExtractor [] (Some (three_alike "100"))).
  match goal with |- exists st m, _ /\ ?run = _ /\ _ =>
    let r := eval vm_compute in run in
    match r with Ok (WFQ64.Halted ?st) => exists st end
  end.
  match goal with |- exists m, _ /\ _ /\ _ /\ _ /\ ?pr = _ /\ _ => exists_value pr end.
  repeat split; vm_compute; reflexivity.
Qed.

(** Two sources of weight 1 with x_0 = 2^27 and x_1 = 2^27 + 1: the
    fairness index reported is 1. *)
Lemma binary64_fairness_one_on_unequal_shares :
  exists w0 st m,
    WFQ64.loadConfig DecimalExtractor [] (Some two_large) = inr w0 /\
    WFQ64.run 5 w0 = Ok (WFQ64.Halted st) /\
    map WFQ64.bytesTransmitted (WFQ64.stats st)
      = [WFQ64.of_Z (2 ^ 27); WFQ64.of_Z (2 ^ 27 + 1)] /\
    map WFQ64.weight (WFQ64.sources st) = [WFQ64.of_Z 1; WFQ64.of_Z 1] /\
    WFQ64.printResults st = Ok m /\
    WFQ64.fairness m = WFQ64.of_Z 1.
Proof.
  exists_value (WFQ64.loadConfig DecimalExtractor [] (Some two_large)).
  match goal with |- exists st m, _ /\ ?run = _ /\ _ =>
    let r := eval vm_compute in run in
    match r with Ok (WFQ64.Halted ?st) => exists st end
  end.
  match goal with |- exists m, _ /\ _ /\ _ /\ _ /\ ?pr = _ /\ _ => exists_value pr end.
  repeat split; vm_compute; reflexivity.
Qed.

(** On [small_weight] the two transmission starts of the packets of
    source 1 leave systemVirtualTime at 2^53 and then at 2^53 - 1: the
    first packet has virtualFinishTime 2^53 + 0.5, rounded to 2^53, and
    2^53 - 0.5 is rounded to 2^53; the second has 2^53 + 5, rounded to
    2^53 + 4, and 2^53 + 4 - 5 is 2^53 - 1. *)
Lemma binary64_virtual_time_decreases_per_source :
  exists w0 st,
    WFQ64.loadConfig DecimalExtractor small_weight_tape (Some small_weight)
      = inr w0 /\
    WFQ64.run 9 w0 = Ok (WFQ64.Halted st) /\
    map WFQ64.weight (WFQ64.sources st)
      = [FloatOps.Z.ldexp (WFQ64.of_Z 1) (-50); WFQ64.of_Z 2] /\
    WFQ64.samples_of 1 (WFQ64.history st)
      = [WFQ64.of_Z (2 ^ 53 - 1); WFQ64.of_Z (2 ^ 53)].
Proof.
  exists_value (WFQ64.loadConfig DecimalExtractor small_weight_tape
                  (Some small_weight)).
  match goal with |- exists st, _ /\ ?run = _ /\ _ =>
    let r := eval vm_compute in run in
    match r with Ok (WFQ64.Halted ?st) => exists st end
  end.
  repeat split; vm_compute; reflexivity.
Qed.
(** * Witnesses of the further properties *)

Lemma X1_buffer_within_bufferSize_witness :
  (exists f0 o,
     FCFS.loadConfig FcfsEvents (ScriptedEngine one_second_tape) DecimalExtractor
       (Some one_source_overflow) = inr f0 /\
     FCFS.run 3 f0 = Ok o /\
     (length (FCFS.packetBuffer (FCFS.state_of o)) <= FCFS.bufferSize f0)%nat) /\
  (exists w0 o,
     WFQ.loadConfig WfqEvents WfqBuffer (ScriptedEngine one_second_tape)
       DecimalExtractor (Some one_source_overflow) = inr w0 /\
     WFQ.run 3 w0 = Ok o /\
     (pq_size WfqBuffer (WFQ.packetBuffer (WFQ.state_of o)) <= WFQ.bufferSize w0)%nat).
Proof.
  pose proof (X1_buffer_within_bufferSize FcfsEvents WfqEvents WfqBuffer
    (ScriptedEngine one_second_tape) DecimalExtractor (Some one_source_overflow) 3)
    as [Hf Hw].
  split.
  - with_fcfs one_second_tape one_source_overflow 3%nat
      ltac:(fun f0 o => exists f0, o; loaded_and_ran Hf).
  - with_wfq one_second_tape one_source_overflow 3%nat
      ltac:(fun w0 o => exists w0, o; loaded_and_ran Hw).
Defined.

Lemma X2_one_packet_in_transmission_witness :
  (exists f0 o,
     FCFS.loadConfig FcfsEvents (ScriptedEngine one_second_tape) DecimalExtractor
       (Some one_source_overflow) = inr f0 /\
     FCFS.run 3 f0 = Ok o /\
     let st := FCFS.state_of o in
     (count FCFS.is_departure (pq_elems FcfsEvents (FCFS.eventQueue st))
      + count FCFS.is_lost (FCFS.history st))%nat
     = (if FCFS.linkBusy st then 1 else 0)%nat /\
     (count FCFS.is_departure (pq_elems FcfsEvents (FCFS.eventQueue st)) <= 1)%nat) /\
  (exists w0 o,
     WFQ.loadConfig WfqEvents WfqBuffer (ScriptedEngine one_second_tape)
       DecimalExtractor (Some one_source_overflow) = inr w0 /\
     WFQ.run 3 w0 = Ok o /\
     let st := WFQ.state_of o in
     (count WFQ.is_departure (pq_elems WfqEvents (WFQ.eventQueue st))
      + count WFQ.is_lost (WFQ.history st))%nat
     = (if WFQ.linkBusy st then 1 else 0)%nat /\
     (count WFQ.is_departure (pq_elems WfqEvents (WFQ.eventQueue st)) <= 1)%nat).
Proof.
  pose proof (X2_one_packet_in_transmission FcfsEvents WfqEvents WfqBuffer
    (ScriptedEngine one_second_tape) DecimalExtractor (Some one_source_overflow) 3)
    as [Hf Hw].
  split.
  - with_fcfs one_second_tape one_source_overflow 3%nat
      ltac:(fun f0 o => exists f0, o; loaded_and_ran Hf).
  - with_wfq one_second_tape one_source_overflow 3%nat
      ltac:(fun w0 o => exists w0, o; loaded_and_ran Hw).
Defined.

Lemma X3_no_event_beyond_horizon_witness :
  (exists f0 st,
     FCFS.loadConfig FcfsEvents (ScriptedEngine one_second_tape) DecimalExtractor
       (Some one_source_overflow) = inr f0 /\
     FCFS.run 6 f0 = Ok (FCFS.Halted st) /\
     pq_elems FcfsEvents (FCFS.eventQueue st) = []) /\
  (exists w0 st,
     WFQ.loadConfig WfqEvents WfqBuffer (ScriptedEngine one_second_tape)
       DecimalExtractor (Some one_source_overflow) = inr w0 /\
     WFQ.run 6 w0 = Ok (WFQ.Halted st) /\
     pq_elems WfqEvents (WFQ.eventQueue st) = []).
Proof.
  pose proof (X3_no_event_beyond_horizon FcfsEvents WfqEvents WfqBuffer
    (ScriptedEngine one_second_tape) DecimalExtractor (Some one_source_overflow) 6)
    as [Hf Hw].
  split.
  - with_fcfs one_second_tape one_source_overflow 6%nat
      ltac:(fun f0 o => match o with FCFS.Halted ?st =>
        exists f0, st; split; [exact E0|]; split; [exact E2|];
        exact (proj2 (Hf f0 o E0 E2) st eq_refl) end).
  - with_wfq one_second_tape one_source_overflow 6%nat
      ltac:(fun w0 o => match o with WFQ.Halted ?st =>
        exists w0, st; split; [exact E0|]; split; [exact E2|];
        exact (proj2 (Hw w0 o E0 E2) st eq_refl) end).
Defined.

Lemma X4_work_conserving_witness :
  (exists f0 o,
     FCFS.loadConfig FcfsEvents (ScriptedEngine one_second_tape) DecimalExtractor
       (Some one_source_overflow) = inr f0 /\
     FCFS.run 5 f0 = Ok o /\
     FCFS.linkBusy (FCFS.state_of o) = false /\
     FCFS.packetBuffer (FCFS.state_of o) = []) /\
  (exists w0 o,
     WFQ.loadConfig WfqEvents WfqBuffer (ScriptedEngine one_second_tape)
       DecimalExtractor (Some one_source_overflow) = inr w0 /\
     WFQ.run 5 w0 = Ok o /\
     WFQ.linkBusy (WFQ.state_of o) = false /\
     pq_elems WfqBuffer (WFQ.packetBuffer (WFQ.state_of o)) = []).
Proof.
  pose proof (X4_work_conserving FcfsEvents WfqEvents WfqBuffer
    (ScriptedEngine one_second_tape) DecimalExtractor (Some one_source_overflow) 5)
    as [Hf Hw].
  split.
  - with_fcfs one_second_tape one_source_overflow 5%nat
      ltac:(fun f0 o => exists f0, o;
        assert (E3 : FCFS.linkBusy (FCFS.state_of o) = false)
          by reflexivity;
        split; [exact E0|]; split; [exact E2|]; split; [exact E3|];
        exact (Hf f0 o E0 E2 E3)).
  - with_wfq one_second_tape one_source_overflow 5%nat
      ltac:(fun w0 o => exists w0, o;
        assert (E3 : WFQ.linkBusy (WFQ.state_of o) = false)
          by reflexivity;
        split; [exact E0|]; split; [exact E2|]; split; [exact E3|];
        exact (Hw w0 o E0 E2 E3)).
Defined.

Lemma X5_packet_ids_unique_witness :
  (exists f0 o,
     FCFS.loadConfig FcfsEvents (ScriptedEngine one_second_tape) DecimalExtractor
       (Some one_source_overflow) = inr f0 /\
     FCFS.run 4 f0 = Ok o /\
     let st := FCFS.state_of o in
     let ids := FCFS.dropped_ids (FCFS.history st)
                ++ FCFS.started_ids (FCFS.history st)
                ++ map FCFS.pkt_id (FCFS.packetBuffer st) in
     NoDup ids /\ Forall (fun i => (1 <= i < FCFS.nextPacketId st)%Z) ids) /\
  (exists w0 o,
     WFQ.loadConfig WfqEvents WfqBuffer (ScriptedEngine one_second_tape)
       DecimalExtractor (Some one_source_overflow) = inr w0 /\
     WFQ.run 4 w0 = Ok o /\
     let st := WFQ.state_of o in
     let ids := WFQ.dropped_ids (WFQ.history st)
                ++ WFQ.started_ids (WFQ.history st)
                ++ map WFQ.pkt_id (pq_elems WfqBuffer (WFQ.packetBuffer st)) in
     NoDup ids /\ Forall (fun i => (1 <= i < WFQ.nextPacketId st)%Z) ids).
Proof.
  pose proof (X5_packet_ids_unique FcfsEvents WfqEvents WfqBuffer
    (ScriptedEngine one_second_tape) DecimalExtractor (Some one_source_overflow) 4)
    as [Hf Hw].
  split.
  - with_fcfs one_second_tape one_source_overflow 4%nat
      ltac:(fun f0 o => exists f0, o; loaded_and_ran Hf).
  - with_wfq one_second_tape one_source_overflow 4%nat
      ltac:(fun w0 o => exists w0, o; loaded_and_ran Hw).
Defined.

Lemma X6_next_id_counts_generated_witness :
  (exists f0 o,
     FCFS.loadConfig FcfsEvents (ScriptedEngine one_second_tape) DecimalExtractor
       (Some one_source_overflow) = inr f0 /\
     FCFS.run 4 f0 = Ok o /\
     FCFS.nextPacketId (FCFS.state_of o)
     = (1 + Zsum (map packetsGenerated (FCFS.stats (FCFS.state_of o))))%Z) /\
  (exists w0 o,
     WFQ.loadConfig WfqEvents WfqBuffer (ScriptedEngine one_second_tape)
       DecimalExtractor (Some one_source_overflow) = inr w0 /\
     WFQ.run 4 w0 = Ok o /\
     WFQ.nextPacketId (WFQ.state_of o)
     = (1 + Zsum (map packetsGenerated (WFQ.stats (WFQ.state_of o))))%Z).
Proof.
  pose proof (X6_next_id_counts_generated FcfsEvents WfqEvents WfqBuffer
    (ScriptedEngine one_second_tape) DecimalExtractor (Some one_source_overflow) 4)
    as [Hf Hw].
  split.
  - with_fcfs one_second_tape one_source_overflow 4%nat
      ltac:(fun f0 o => exists f0, o; loaded_and_ran Hf).
  - with_wfq one_second_tape one_source_overflow 4%nat
      ltac:(fun w0 o => exists w0, o; loaded_and_ran Hw).
Defined.

Lemma X7_fcfs_first_come_first_served_witness :
  exists f0 o,
    FCFS.loadConfig FcfsEvents (ScriptedEngine one_second_tape) DecimalExtractor
      (Some one_source_overflow) = inr f0 /\
    FCFS.run 5 f0 = Ok o /\
    StronglySorted Z.lt
      (rev (FCFS.started_ids (FCFS.history (FCFS.state_of o)))
       ++ map FCFS.pkt_id (FCFS.packetBuffer (FCFS.state_of o))).
Proof.
  with_fcfs one_second_tape one_source_overflow 5%nat
    ltac:(fun f0 o => exists f0, o; split; [exact E0|]; split; [exact E2|];
      exact (X7_fcfs_first_come_first_served FcfsEvents
               (ScriptedEngine one_second_tape) DecimalExtractor
               (Some one_source_overflow) 5 f0 o E0 E2)).
Defined.

Lemma X8_counters_match_events_witness :
  (exists f0 o r,
     FCFS.loadConfig FcfsEvents (ScriptedEngine one_second_tape) DecimalExtractor
       (Some one_source_overflow) = inr f0 /\
     FCFS.run 5 f0 = Ok o /\
     FCFS.stats (FCFS.state_of o) !! 0%nat = Some r /\
     packetsTransmitted r
     = Z.of_nat (count (FCFS.departed_from 0) (FCFS.history (FCFS.state_of o))) /\
     packetsDropped r
     = Z.of_nat (count (FCFS.dropped_from 0) (FCFS.history (FCFS.state_of o)))) /\
  (exists w0 o r,
     WFQ.loadConfig WfqEvents WfqBuffer (ScriptedEngine one_second_tape)
       DecimalExtractor (Some one_source_overflow) = inr w0 /\
     WFQ.run 5 w0 = Ok o /\
     WFQ.stats (WFQ.state_of o) !! 0%nat = Some r /\
     packetsTransmitted r
     = Z.of_nat (count (WFQ.departed_from 0) (WFQ.history (WFQ.state_of o))) /\
     packetsDropped r
     = Z.of_nat (count (WFQ.dropped_from 0) (WFQ.history (WFQ.state_of o)))).
Proof.
  pose proof (X8_counters_match_events FcfsEvents WfqEvents WfqBuffer
    (ScriptedEngine one_second_tape) DecimalExtractor (Some one_source_overflow) 5)
    as [Hf Hw].
  split.
  - with_fcfs one_second_tape one_source_overflow 5%nat
      ltac:(fun f0 o =>
        let lk := eval vm_compute in (FCFS.stats (FCFS.state_of o) !! 0%nat) in
        match lk with Some ?r =>
          exists f0, o, r;
          assert (E3 : FCFS.stats (FCFS.state_of o) !! 0%nat = Some r)
            by reflexivity;
          destruct (Hf f0 o E0 E2 0%nat r E3) as (H1 & H2 & _);
          split; [exact E0|]; split; [exact E2|]; split; [exact E3|];
          split; [exact H1 | exact H2]
        end).
  - with_wfq one_second_tape one_source_overflow 5%nat
      ltac:(fun w0 o =>
        let lk := eval vm_compute in (WFQ.stats (WFQ.state_of o) !! 0%nat) in
        match lk with Some ?r =>
          exists w0, o, r;
          assert (E3 : WFQ.stats (WFQ.state_of o) !! 0%nat = Some r)
            by reflexivity;
          destruct (Hw w0 o E0 E2 0%nat r E3) as (H1 & H2 & _);
          split; [exact E0|]; split; [exact E2|]; split; [exact E3|];
          split; [exact H1 | exact H2]
        end).
Defined.

Lemma X9_departure_after_transmission_time_witness :
  (exists f0 o p t,
     FCFS.loadConfig FcfsEvents (ScriptedEngine one_second_tape) DecimalExtractor
       (Some one_source_overflow) = inr f0 /\
     FCFS.run 5 f0 = Ok o /\
     FCFS.Departed p t ∈ FCFS.history (FCFS.state_of o) /\
     t <= FCFS.simulationTime f0 /\
     exists t0, FCFS.Started p t0 ∈ FCFS.history (FCFS.state_of o) /\
       t = t0 + inject_Z (FCFS.pkt_size p) / FCFS.linkCapacity f0) /\
  (exists w0 o p t,
     WFQ.loadConfig WfqEvents WfqBuffer (ScriptedEngine one_second_tape)
       DecimalExtractor (Some one_source_overflow) = inr w0 /\
     WFQ.run 5 w0 = Ok o /\
     WFQ.Departed p t ∈ WFQ.history (WFQ.state_of o) /\
     t <= WFQ.simulationTime w0 /\
     exists t0 v, WFQ.Started p t0 v ∈ WFQ.history (WFQ.state_of o) /\
       t = t0 + inject_Z (WFQ.pkt_size p) / WFQ.linkCapacity w0).
Proof.
  pose proof (X9_departure_after_transmission_time FcfsEvents WfqEvents WfqBuffer
    (ScriptedEngine one_second_tape) DecimalExtractor (Some one_source_overflow) 5)
    as [Hf Hw].
  split.
  - with_fcfs one_second_tape one_source_overflow 5%nat
      ltac:(fun f0 o =>
        let h := eval vm_compute in (FCFS.history (FCFS.state_of o)) in
        match h with FCFS.Departed ?p ?t :: _ =>
          exists f0, o, p, t;
          assert (E3 : FCFS.Departed p t ∈ FCFS.history (FCFS.state_of o))
            by (apply list_elem_of_here);
          split; [exact E0|]; split; [exact E2|]; split; [exact E3|];
          exact (proj1 (Hf f0 o E0 E2) p t E3)
        end).
  - with_wfq one_second_tape one_source_overflow 5%nat
      ltac:(fun w0 o =>
        let h := eval vm_compute in (WFQ.history (WFQ.state_of o)) in
        match h with WFQ.Departed ?p ?t :: _ =>
          exists w0, o, p, t;
          assert (E3 : WFQ.Departed p t ∈ WFQ.history (WFQ.state_of o))
            by (apply list_elem_of_here);
          split; [exact E0|]; split; [exact E2|]; split; [exact E3|];
          exact (proj1 (Hw w0 o E0 E2) p t E3)
        end).
Defined.

Lemma X10_clock_monotone_witness :
  (exists f0 o_n o,
     FCFS.loadConfig FcfsEvents (ScriptedEngine one_second_tape) DecimalExtractor
       (Some one_source_overflow) = inr f0 /\
     FCFS.valid_config f0 /\
     FCFS.run 2 f0 = Ok o_n /\ FCFS.run (2 + 3) f0 = Ok o /\
     FCFS.currentTime (FCFS.state_of o_n) <= FCFS.currentTime (FCFS.state_of o) /\
     FCFS.currentTime (FCFS.state_of o) <= FCFS.simulationTime f0) /\
  (exists w0 o_n o,
     WFQ.loadConfig WfqEvents WfqBuffer (ScriptedEngine one_second_tape)
       DecimalExtractor (Some one_source_overflow) = inr w0 /\
     WFQ.wfq_valid_config w0 /\
     WFQ.run 2 w0 = Ok o_n /\ WFQ.run (2 + 3) w0 = Ok o /\
     WFQ.currentTime (WFQ.state_of o_n) <= WFQ.currentTime (WFQ.state_of o) /\
     WFQ.currentTime (WFQ.state_of o) <= WFQ.simulationTime w0).
Proof.
  pose proof (X10_clock_monotone FcfsEvents WfqEvents WfqBuffer
    (ScriptedEngine one_second_tape) (ScriptedEngine_laws _) DecimalExtractor
    (Some one_source_overflow) 2 3) as [Hf Hw].
  split.
  - with_fcfs one_second_tape one_source_overflow 2%nat
      ltac:(fun f0 o_n =>
        let r := eval vm_compute in (FCFS.run (2 + 3) f0) in
        match r with Ok ?o =>
          exists f0, o_n, o;
          assert (E1 : FCFS.valid_config f0) by valid_here;
          assert (E3 : FCFS.run (2 + 3) f0 = Ok o) by reflexivity;
          destruct (Hf f0 o_n o E0 E1 E2 E3) as (H1 & H2 & _);
          split; [exact E0|]; split; [exact E1|]; split; [exact E2|];
          split; [exact E3|]; split; [exact H1 | exact H2]
        end).
  - with_wfq one_second_tape one_source_overflow 2%nat
      ltac:(fun w0 o_n =>
        let r := eval vm_compute in (WFQ.run (2 + 3) w0) in
        match r with Ok ?o =>
          exists w0, o_n, o;
          assert (E1 : WFQ.wfq_valid_config w0) by valid_here;
          assert (E3 : WFQ.run (2 + 3) w0 = Ok o) by reflexivity;
          destruct (Hw w0 o_n o E0 E1 E2 E3) as (H1 & H2 & _);
          split; [exact E0|]; split; [exact E1|]; split; [exact E2|];
          split; [exact E3|]; split; [exact H1 | exact H2]
        end).
Defined.

Lemma X11_delays_not_negative_witness :
  (exists f0 o r,
     FCFS.loadConfig FcfsEvents (ScriptedEngine one_second_tape) DecimalExtractor
       (Some one_source_overflow) = inr f0 /\
     FCFS.valid_config f0 /\
     FCFS.run 5 f0 = Ok o /\
     FCFS.stats (FCFS.state_of o) !! 0%nat = Some r /\
     0 <= totalDelay r /\
     exists m, FCFS.printResults (FCFS.state_of o) = Ok m /\ 0 <= avgDelay m) /\
  (exists w0 o r,
     WFQ.loadConfig WfqEvents WfqBuffer (ScriptedEngine one_second_tape)
       DecimalExtractor (Some one_source_overflow) = inr w0 /\
     WFQ.wfq_valid_config w0 /\
     WFQ.run 5 w0 = Ok o /\
     WFQ.stats (WFQ.state_of o) !! 0%nat = Some r /\
     0 <= totalDelay r /\
     exists m, WFQ.printResults (WFQ.state_of o) = Ok m /\ 0 <= avgDelay m).
Proof.
  pose proof (X11_delays_not_negative FcfsEvents WfqEvents WfqBuffer
    (ScriptedEngine one_second_tape) (ScriptedEngine_laws _) DecimalExtractor
    (Some one_source_overflow) 5) as [Hf Hw].
  split.
  - with_fcfs one_second_tape one_source_overflow 5%nat
      ltac:(fun f0 o =>
        let lk := eval vm_compute in (FCFS.stats (FCFS.state_of o) !! 0%nat) in
        match lk with Some ?r =>
          exists f0, o, r;
          assert (E1 : FCFS.valid_config f0) by valid_here;
          assert (E3 : FCFS.stats (FCFS.state_of o) !! 0%nat = Some r)
            by reflexivity;
          destruct (Hf f0 o E0 E1 E2) as (_ & _ & H1 & H2 & _);
          split; [exact E0|]; split; [exact E1|]; split; [exact E2|];
          split; [exact E3|]; split; [exact (H1 0%nat r E3) | exact H2]
        end).
  - with_wfq one_second_tape one_source_overflow 5%nat
      ltac:(fun w0 o =>
        let lk := eval vm_compute in (WFQ.stats (WFQ.state_of o) !! 0%nat) in
        match lk with Some ?r =>
          exists w0, o, r;
          assert (E1 : WFQ.wfq_valid_config w0) by valid_here;
          assert (E3 : WFQ.stats (WFQ.state_of o) !! 0%nat = Some r)
            by reflexivity;
          destruct (Hw w0 o E0 E1 E2) as (_ & _ & H1 & H2 & _);
          split; [exact E0|]; split; [exact E1|]; split; [exact E2|];
          split; [exact E3|]; split; [exact (H1 0%nat r E3) | exact H2]
        end).
Defined.

Lemma X12_per_source_table_witness :
  (exists f0 o rows,
     FCFS.loadConfig FcfsEvents (ScriptedEngine one_second_tape) DecimalExtractor
       (Some one_source_overflow) = inr f0 /\
     FCFS.run 5 f0 = Ok o /\
     FCFS.printTable (FCFS.state_of o) = Ok rows /\
     Z.of_nat (length rows) = FCFS.numSources f0 /\
     forall i row, rows !! i = Some row -> 0 <= dropRate row <= 1) /\
  (exists w0 o rows,
     WFQ.loadConfig WfqEvents WfqBuffer (ScriptedEngine one_second_tape)
       DecimalExtractor (Some one_source_overflow) = inr w0 /\
     WFQ.run 5 w0 = Ok o /\
     WFQ.printTable (WFQ.state_of o) = Ok rows /\
     Z.of_nat (length rows) = WFQ.numSources w0 /\
     forall i row, rows !! i = Some row -> 0 <= dropRate row <= 1).
Proof.
  pose proof (X12_per_source_table FcfsEvents WfqEvents WfqBuffer
    (ScriptedEngine one_second_tape) DecimalExtractor (Some one_source_overflow) 5)
    as [Hf Hw].
  split.
  - with_fcfs one_second_tape one_source_overflow 5%nat
      ltac:(fun f0 o =>
        destruct (Hf f0 o E0 E2) as (rows & H1 & H2 & H3);
        exists f0, o, rows;
        split; [exact E0|]; split; [exact E2|]; split; [exact H1|];
        split; [exact H2|];
        intros i row Hrow; destruct (H3 i row Hrow) as (r & src & _ & _ & _ & Hd);
        exact Hd).
  - with_wfq one_second_tape one_source_overflow 5%nat
      ltac:(fun w0 o =>
        destruct (Hw w0 o E0 E2) as (rows & H1 & H2 & H3);
        exists w0, o, rows;
        split; [exact E0|]; split; [exact E2|]; split; [exact H1|];
        split; [exact H2|];
        intros i row Hrow; destruct (H3 i row Hrow) as (r & src & _ & _ & _ & Hd);
        exact Hd).
Defined.

Lemma X13_drop_probability_witness :
  (exists f0 o m,
     FCFS.loadConfig FcfsEvents (ScriptedEngine one_second_tape) DecimalExtractor
       (Some one_source_overflow) = inr f0 /\
     FCFS.run 5 f0 = Ok o /\
     FCFS.printResults (FCFS.state_of o) = Ok m /\ 0 <= dropProb m <= 1) /\
  (exists w0 o m,
     WFQ.loadConfig WfqEvents WfqBuffer (ScriptedEngine one_second_tape)
       DecimalExtractor (Some one_source_overflow) = inr w0 /\
     WFQ.run 5 w0 = Ok o /\
     WFQ.printResults (WFQ.state_of o) = Ok m /\ 0 <= dropProb m <= 1).
Proof.
  pose proof (X13_drop_probability FcfsEvents WfqEvents WfqBuffer
    (ScriptedEngine one_second_tape) DecimalExtractor (Some one_source_overflow) 5)
    as [Hf Hw].
  split.
  - with_fcfs one_second_tape one_source_overflow 5%nat
      ltac:(fun f0 o =>
        destruct (Hf f0 o E0 E2) as (m & H1 & _ & H2);
        exists f0, o, m;
        split; [exact E0|]; split; [exact E2|]; split; [exact H1 | exact H2]).
  - with_wfq one_second_tape one_source_overflow 5%nat
      ltac:(fun w0 o =>
        destruct (Hw w0 o E0 E2) as (m & H1 & _ & H2);
        exists w0, o, m;
        split; [exact E0|]; split; [exact E2|]; split; [exact H1 | exact H2]).
Defined.

Lemma X14_fcfs_zero_buffer_drops_everything_witness :
  exists f0 o,
    FCFS.loadConfig FcfsEvents (ScriptedEngine one_second_tape) DecimalExtractor
      (Some zero_buffer) = inr f0 /\
    FCFS.bufferSize f0 = 0%nat /\
    FCFS.run 3 f0 = Ok o /\
    FCFS.packetBuffer (FCFS.state_of o) = [] /\
    FCFS.linkBusy (FCFS.state_of o) = false /\
    forall s r, FCFS.stats (FCFS.state_of o) !! s = Some r ->
      packetsTransmitted r = 0%Z /\ bytesTransmitted r == 0 /\
      packetsDropped r = packetsGenerated r.
Proof.
  let l := eval vm_compute in
    (FCFS.loadConfig FcfsEvents (ScriptedEngine one_second_tape) DecimalExtractor
       (Some zero_buffer)) in
  match l with inr ?f0 =>
    exists f0;
    assert (E0 : FCFS.loadConfig FcfsEvents (ScriptedEngine one_second_tape)
                   DecimalExtractor (Some zero_buffer) = inr f0) by reflexivity;
    assert (E1 : FCFS.bufferSize f0 = 0%nat) by reflexivity;
    destruct (X14_fcfs_zero_buffer_drops_everything FcfsEvents
                (ScriptedEngine one_second_tape) DecimalExtractor (Some zero_buffer)
                3 f0 E0 E1) as (o & H)
  end.
  exists o. split; [exact E0|]. split; [exact E1 | exact H].
Defined.

Lemma X16_configuration_read_only_witness :
  (exists f0 o,
     FCFS.loadConfig FcfsEvents (ScriptedEngine one_second_tape) DecimalExtractor
       (Some one_source_overflow) = inr f0 /\
     FCFS.run 5 f0 = Ok o /\
     let st := FCFS.state_of o in
     FCFS.config_of st = FCFS.config_of f0 /\
     FCFS.sources st = FCFS.sources f0 /\
     length (FCFS.stats st) = length (FCFS.sources f0) /\
     Z.of_nat (length (FCFS.stats st)) = FCFS.numSources f0) /\
  (exists w0 o,
     WFQ.loadConfig WfqEvents WfqBuffer (ScriptedEngine one_second_tape)
       DecimalExtractor (Some one_source_overflow) = inr w0 /\
     WFQ.run 5 w0 = Ok o /\
     let st := WFQ.state_of o in
     WFQ.config_of st = WFQ.config_of w0 /\
     map (WFQ.set_lastFinishTime 0) (WFQ.sources st)
     = map (WFQ.set_lastFinishTime 0) (WFQ.sources w0) /\
     length (WFQ.stats st) = length (WFQ.sources w0) /\
     Z.of_nat (length (WFQ.stats st)) = WFQ.numSources w0).
Proof.
  pose proof (X16_configuration_read_only FcfsEvents WfqEvents WfqBuffer
    (ScriptedEngine one_second_tape) DecimalExtractor (Some one_source_overflow) 5)
    as [Hf Hw].
  split.
  - with_fcfs one_second_tape one_source_overflow 5%nat
      ltac:(fun f0 o => exists f0, o; loaded_and_ran Hf).
  - with_wfq one_second_tape one_source_overflow 5%nat
      ltac:(fun w0 o => exists w0, o; loaded_and_ran Hw).
Defined.


Lemma X18_one_pending_arrival_per_source_witness :
  (exists f0 o,
     FCFS.loadConfig FcfsEvents (ScriptedEngine one_second_tape) DecimalExtractor
       (Some one_source_overflow) = inr f0 /\
     FCFS.run 2 f0 = Ok o /\
     let evs := pq_elems FcfsEvents (FCFS.eventQueue (FCFS.state_of o)) in
     NoDup (FCFS.arrival_ids evs) /\
     (Z.of_nat (length (FCFS.arrival_ids evs)) <= FCFS.numSources f0)%Z /\
     (Z.of_nat (length evs) <= FCFS.numSources f0 + 1)%Z) /\
  (exists w0 o,
     WFQ.loadConfig WfqEvents WfqBuffer (ScriptedEngine one_second_tape)
       DecimalExtractor (Some one_source_overflow) = inr w0 /\
     WFQ.run 2 w0 = Ok o /\
     let evs := pq_elems WfqEvents (WFQ.eventQueue (WFQ.state_of o)) in
     NoDup (WFQ.arrival_ids evs) /\
     (Z.of_nat (length (WFQ.arrival_ids evs)) <= WFQ.numSources w0)%Z /\
     (Z.of_nat (length evs) <= WFQ.numSources w0 + 1)%Z).
Proof.
  pose proof (X18_one_pending_arrival_per_source FcfsEvents WfqEvents WfqBuffer
    (ScriptedEngine one_second_tape) (ScriptedEngine_laws _) DecimalExtractor
    (Some one_source_overflow) 2) as [Hf Hw].
  split.
  - with_fcfs one_second_tape one_source_overflow 2%nat
      ltac:(fun f0 o => exists f0, o; loaded_and_ran Hf).
  - with_wfq one_second_tape one_source_overflow 2%nat
      ltac:(fun w0 o => exists w0, o; loaded_and_ran Hw).
Defined.

Lemma X19_arrivals_within_window_witness :
  (exists f0 o p t0,
     FCFS.loadConfig FcfsEvents (ScriptedEngine []) DecimalExtractor
       (Some inverted_window) = inr f0 /\
     FCFS.run 1 f0 = Ok o /\
     FCFS.Started p t0 ∈ FCFS.history (FCFS.state_of o) /\
     FCFS.arrives_in_window f0 (FCFS.pkt_sourceID p) (FCFS.pkt_arrivalTime p)) /\
  (exists w0 o p t0 v,
     WFQ.loadConfig WfqEvents WfqBuffer (ScriptedEngine []) DecimalExtractor
       (Some inverted_window) = inr w0 /\
     WFQ.run 1 w0 = Ok o /\
     WFQ.Started p t0 v ∈ WFQ.history (WFQ.state_of o) /\
     WFQ.arrives_in_window w0 (WFQ.pkt_sourceID p) (WFQ.pkt_arrivalTime p)).
Proof.
  pose proof (X19_arrivals_within_window FcfsEvents WfqEvents WfqBuffer
    (ScriptedEngine []) (ScriptedEngine_laws _) DecimalExtractor
    (Some inverted_window) 1) as [Hf Hw].
  split.
  - with_fcfs (@nil Z) inverted_window 1%nat
      ltac:(fun f0 o =>
        let h := eval vm_compute in (FCFS.history (FCFS.state_of o)) in
        match h with FCFS.Started ?p ?t0 :: _ =>
          exists f0, o, p, t0;
          assert (E3 : FCFS.Started p t0 ∈ FCFS.history (FCFS.state_of o))
            by (apply list_elem_of_here);
          split; [exact E0|]; split; [exact E2|]; split; [exact E3|];
          exact (proj2 (Hf f0 o E0 E2) p
                   (or_intror (or_intror (ex_intro _ t0 E3))))
        end).
  - with_wfq (@nil Z) inverted_window 1%nat
      ltac:(fun w0 o =>
        let h := eval vm_compute in (WFQ.history (WFQ.state_of o)) in
        match h with WFQ.Started ?p ?t0 ?v :: _ =>
          exists w0, o, p, t0, v;
          assert (E3 : WFQ.Started p t0 v ∈ WFQ.history (WFQ.state_of o))
            by (apply list_elem_of_here);
          split; [exact E0|]; split; [exact E2|]; split; [exact E3|];
          exact (proj2 (Hw w0 o E0 E2) p
                   (or_intror (or_intror (ex_intro _ t0 (ex_intro _ v E3)))))
        end).
Defined.
